(* ===== verification/_CoqProject ===== *)
-Q . S2P
Prelude.v
GoTime.v
GoStrings.v
GoJson.v
JsonText.v
JsonRound.v
JsonCompact.v
Protocol.v
Messages.v
Counter.v
Sessions.v
Store.v
StoreSpec.v
Sha256.v
Sad.v
Ecc.v
Asn1.v
External.v
World.v
Handlers.v
Jws.v
Jwe.v
Attest.v
Http.v
StatusList.v
Modes.v
AuthMw.v
Admin.v
Durations.v
Startup.v
MongoDriver.v
Mongo.v
MongoStore.v
MongoToy.v
Pkcs11.v
Pool.v
Keys.v
Opaque.v
Webauthn.v
Token.v
Service.v
Fido2.v
Dispatcher.v
X5C.v
Server.v
Toy.v
Responses.v
Access.v
Concurrent.v
Calls.v
Overlap.v
OverlapGuard.v
Flow.v
Factors.v
Wallet.v
Deploy.v
Client.v
EndToEnd.v
