(* ===== verification/Prelude.v ===== *)
(** * A verification of the R2PS service

    The program is a Go server for remote HSM services ("r2ps"): a wallet
    sends signed JSON requests over HTTP, opens a second-factor session with
    OPAQUE or FIDO2, and uses it to create keys in a PKCS#11 HSM and to sign
    and agree keys with them; the server also issues wallet attestations with
    a revocable status, publishes the status lists, and has an admin API.
    This library is a shallow embedding of it: each Go type is a record or an
    inductive type and each Go function a Rocq function of the same name,
    executable, with its early returns in the order of the code.

    ** The parts and the files

    - The language and its standard library.  [Prelude]: Go values, panics
      and errors, the state-and-error monad [M].  [GoTime]: [time].
      [GoStrings]: [strings], hex, base64, [strconv].  [GoJson], [JsonText],
      [JsonRound], [JsonCompact]: [encoding/json].  [Sha256], [Asn1],
      [Durations]: the hash, DER, [time.ParseDuration].  [Http]: requests and
      responses.
    - The protocol.  [Protocol], [Messages]: [pkg/r2ps/types.go].
      [Jws], [Jwe], [Ecc]: [internal/crypto].  [Service], [Dispatcher],
      [Fido2], [Sad], [Handlers]: [internal/service] (the dispatcher's state
      and answers, [Process] and the OPAQUE flows, the FIDO2 mode, signature
      activation data, the HSM services).
    - The second factors.  [Counter], [Sessions], [Opaque]: [internal/pake].
      [Webauthn], [Token]: [internal/webauthn].
    - Persistence.  [Store]: [internal/store/store.go] and [memory.go].
      [MongoDriver]: BSON and the driver's calls.  [Mongo]:
      [internal/store/mongodb.go].  [StoreSpec]: the abstract store that both
      implement; [MongoStore] proves it of the latter.
    - The HSM.  [Pkcs11]: [internal/hsm/pkcs11.go].
    - Attestations.  [Attest], [X5C] (the certificate chain):
      [internal/service/eudiw_handlers.go].
      [StatusList]: [internal/statuslist].  [Admin], [AuthMw]:
      [internal/admin], [internal/authmw].
    - The process.  [Modes]: [internal/modes].  [Startup], [Server]:
      [cmd/server/main.go].  [World]: what the requests share.
    - The other end.  [Client]: [pkg/client/client.go].
    - Properties that span components.  [Responses] (what a request needs and
      what an answer is), [Access] (who may use a session), [Flow] (what a
      request may do to the store), [Concurrent] (requests that overlap, call
      by call), [Calls], [Overlap] and [OverlapGuard] (what they touch and
      what they keep), [Factors] (each second-factor flow on
      every branch), [Keys] and [Pool] (the keys and the sessions of the HSM
      backend), [Wallet] (attestations over time), [Deploy] (the processes
      [main] builds), [EndToEnd] (the client against the dispatcher).

    [Toy] and [MongoToy] instantiate every class with a concrete function: the
    witnesses run whole flows on them.

    ** How the code is embedded

    - Integers are [Z].  Where an operation can leave the width of its Go
      type the wrap-around is written out: [int64] durations and times in
      [GoTime], the [uint16] credential-ID length in [Webauthn], [uint32]
      signature counters, 32-bit words in [Sha256].
    - A Go [string] is a [string] of bytes, a [[]byte] a [list byte]; a map is
      a [gmap].  The order in which a Go map is listed is left open where the
      code exposes it ([MapOrder] of [Admin], [∈] in the laws of [Store]).
    - A function that changes shared state is in [M S E A], that is
      [S -> S * result E A]: it returns a value, an error or a panic and the
      state as it is at that point, so an early return keeps what was already
      done.
    - The shared state is [World] (sessions, attempts, store, HSM, metrics).
      Each Go type guards its part with a lock, so one operation on a part is
      one step.  A request is one step of [Access] and [Deploy], the cleanup
      goroutine's tick another; steps come in any order.  In [Concurrent]
      requests overlap: each is a sequence of calls of guarded methods, the
      calls of different requests interleave, and a request alone is
      [Process]; [Overlap] proves the session invariant there and
      [OverlapGuard] the guard of the services.  In [Pool] the operations of the HSM backend interleave.
    - Time and randomness are streams ([Env]): a reading or a draw takes the
      next element, and a theorem that needs the clock monotonic says so.

    ** What is assumed, and where

    Code that is not in the repository is a class of operations: JOSE, OPAQUE
    and HKDF ([External]), elliptic-curve arithmetic and AES-GCM ([Ecc],
    [Token]), the PKCS#11 binding ([Pkcs11]), the MongoDB driver ([MongoDriver]),
    the admin token library ([AuthMw]), DEFLATE (an argument in
    [StatusList]), reading files and decoding PEM blocks ([X5C], [Mongo]).
    What a theorem needs of one is a class of laws
    ([TokenLaws], [MongoLaws]) or a hypothesis of the theorem, and an
    instance of it runs in the theorem's witness.  Between components of the
    repository the interfaces are classes whose laws the implementation
    proves: [StoreLaws], [StoreSafe] and [StoreFrames] (proved by the memory
    store and by the MongoDB store), [BackendSafe] and [BackendPoints]
    (proved by the PKCS#11 backend).

    ** Fuel

    No theorem is about a run that stopped for lack of fuel.  The JSON parser
    recurses on twice the length of its text, which [GoJson.json_parse_fuel]
    shows to be as good as any larger number; its depth limit is Go's own.
    [skipCBORValue] nests at most as deep as the bytes left, and any larger
    bound gives the same result ([Webauthn.skipCBORValue_terminates]).  The
    scanners of [GoStrings], [JsonText] and [Durations] consume at least a
    byte for each unit.  The listing of HSM objects is bounded by the number
    of objects a search finds ([Keys.list_batches_ends]), the blocks of a PEM
    file by its length ([X5C.pem_loop_blocks]).

    ** The theorems

    - Sessions and services ([Access], [Factors], [Sad], [Counter],
      [Sessions]): the HSM signs only for a live, verified session whose
      activation data allow the hash; a session becomes verified only by an
      accepted proof; lockout follows its policy.
    - Requests and answers ([Responses], [Messages], [Jwe], [EndToEnd],
      [Deploy]): what is accepted, that every request is answered, that no
      request panics in the OPAQUE mode, and that client and server agree.
    - FIDO2 and the HSM ([Webauthn], [Keys], [Pool], [Ecc], [Handlers]):
      accepted ceremonies are exactly the valid ones, encodings read back,
      a generated key is the one that signs.
    - Attestations and administration ([Attest], [Wallet], [StatusList],
      [Admin], [Modes]): issued attestations have a fresh, valid, recorded
      entry, a revocation leaves none valid, the published list shows the
      store.
    - Persistence ([StoreSpec], [MongoStore]): both stores implement the same
      abstract store, for every sequence of calls, failing ones included.

    Where the code does not do what it means to, the theorem states what it
    does ([Webauthn.ParseAuthenticatorData_panics],
    [Keys.rawSigToASN1_roundtrip], [Attest.WISuspendHandle_suspends],
    [Factors.second_factor_changes], [Factors.authFinalize_functional],
    [Factors.authEvaluate_lockout]).

    ** Not modelled

    - Sockets, TLS, listening and graceful shutdown in [main], log output,
      and the Prometheus collectors (the counters they export are in
      [World]).
    - The cryptography of the libraries: nothing is claimed about the
      difficulty of forging or guessing anything, only about what the program
      does with the answers.
    - [context] deadlines: an operation that times out is an operation that
      returned an error.
    - [internal/hsm/testhelper.go], which only tests use. *)

From stdpp Require Export base gmap strings list fin_maps.
From Stdlib Require Export ZArith Lia.
From Stdlib Require Export Init.Byte.

(** ** Go values

    A Go [string] is a byte sequence: [string].  A [[]byte] is [list byte].
    Every fixed-width integer is a [Z] with its wrap-around written out. *)

Abbreviation bytes := (list Byte.byte).

Definition go_bytes (s : string) : bytes := String.list_byte_of_string s.
Definition go_string (b : bytes) : string := String.string_of_list_byte b.

Lemma go_string_bytes s : go_string (go_bytes s) = s.
Proof. apply String.string_of_list_byte_of_string. Qed.

Lemma go_bytes_string b : go_bytes (go_string b) = b.
Proof. apply String.list_byte_of_string_of_list_byte. Qed.

#[export] Instance go_bytes_inj : Inj (=) (=) go_bytes.
Proof. intros s1 s2 H. by rewrite <-(go_string_bytes s1), H, go_string_bytes. Qed.

#[export] Instance go_string_inj : Inj (=) (=) go_string.
Proof. intros b1 b2 H. by rewrite <-(go_bytes_string b1), H, go_bytes_string. Qed.

Lemma go_bytes_app s t : go_bytes (s +:+ t) = go_bytes s ++ go_bytes t.
Proof.
  unfold go_bytes. induction s as [|a s IH]; [done|].
  exact (f_equal (cons (Ascii.byte_of_ascii a)) IH).
Qed.

(** [lia] with division and modulo by constants. *)
Ltac zlia := zify; Z.to_euclidean_division_equations; lia.

(** *** Bytes as integers *)

Definition b2z (b : Byte.byte) : Z := Z.of_N (Byte.to_N b).

Definition z2b (z : Z) : Byte.byte :=
  match Byte.of_N (Z.to_N (z mod 256)) with Some b => b | None => x00 end.

Lemma b2z_range b : (0 <= b2z b < 256)%Z.
Proof. unfold b2z. pose proof (Byte.to_N_bounded b). lia. Qed.

Lemma z2b_b2z b : z2b (b2z b) = b.
Proof.
  unfold z2b. rewrite Z.mod_small by apply b2z_range.
  unfold b2z. rewrite N2Z.id, Byte.of_to_N. done.
Qed.

Lemma b2z_z2b z : b2z (z2b z) = (z mod 256)%Z.
Proof.
  unfold b2z, z2b.
  pose proof (Z.mod_pos_bound z 256 ltac:(lia)) as Hb.
  destruct (Byte.of_N _) as [b|] eqn:E.
  - apply Byte.to_of_N in E. rewrite E. lia.
  - apply Byte.of_N_None_iff in E. lia.
Qed.

#[export] Instance b2z_inj : Inj (=) (=) b2z.
Proof. intros a b H. by rewrite <-(z2b_b2z a), H, z2b_b2z. Qed.

#[export] Instance byte_eq_dec : EqDecision Byte.byte := Byte.byte_eq_dec.

Lemma byte_eqb_eq a b : Byte.eqb a b = true <-> a = b.
Proof. split; [apply Byte.byte_dec_bl | apply Byte.byte_dec_lb]. Qed.

Lemma byte_eqb_refl a : Byte.eqb a a = true.
Proof. by apply byte_eqb_eq. Qed.

Lemma byte_eqb_neq a b : Byte.eqb a b = false <-> a <> b.
Proof. rewrite <-byte_eqb_eq. by destruct (Byte.eqb a b). Qed.

#[export] Program Instance byte_countable : Countable Byte.byte :=
  inj_countable Byte.to_N Byte.of_N _.
Next Obligation. intros b. apply Byte.of_to_N. Qed.

(** Signed 64-bit wrap-around ([int], [int64], [time.Duration]). *)
Definition wrap64 (z : Z) : Z := ((z + 2^63) mod 2^64 - 2^63)%Z.
Definition min_int64 : Z := (- 2^63)%Z.
Definition max_int64 : Z := (2^63 - 1)%Z.
Definition is_int64 (z : Z) : Prop := (min_int64 <= z <= max_int64)%Z.

#[export] Instance is_int64_dec z : Decision (is_int64 z).
Proof. unfold is_int64. apply _. Defined.

Lemma wrap64_range z : is_int64 (wrap64 z).
Proof.
  unfold is_int64, wrap64, min_int64, max_int64.
  pose proof (Z.mod_pos_bound (z + 2^63) (2^64) ltac:(lia)). lia.
Qed.

Lemma wrap64_id z : is_int64 z -> wrap64 z = z.
Proof.
  unfold is_int64, wrap64, min_int64, max_int64. intros H.
  rewrite Z.mod_small; lia.
Qed.

(** *** Slices [b[lo:hi]] of a list whose bounds have been checked *)
Definition slice {A} (b : list A) (lo hi : nat) : list A := take (hi - lo) (drop lo b).

Lemma length_slice {A} (b : list A) lo hi :
  hi <= length b -> length (slice b lo hi) = hi - lo.
Proof. intros H. unfold slice. rewrite length_take, length_drop. lia. Qed.

Lemma slice_all {A} (b : list A) : slice b 0 (length b) = b.
Proof. unfold slice. rewrite drop_0, Nat.sub_0_r. by apply firstn_all. Qed.

Lemma slice_app_l {A} (a b : list A) : slice (a ++ b) 0 (length a) = a.
Proof. unfold slice. rewrite drop_0, Nat.sub_0_r. by apply take_app_length. Qed.

Lemma slice_app_r {A} (a b : list A) n :
  n = length a -> slice (a ++ b) n (length (a ++ b)) = b.
Proof.
  intros ->. unfold slice. rewrite drop_app_length, length_app.
  replace (_ - _) with (length b) by lia. apply firstn_all.
Qed.

(** ** Errors and results *)

(** A Go [error].  [PkgError p] is an error made by package [p] (the
    standard library or a dependency) whose text is [p]'s own and is not
    modelled; nothing in the program looks at it. *)
Inductive error :=
| Errorf (msg : string)
| Wrapf (ctx : string) (cause : error)
| PkgError (pkg : string).

Fixpoint Error (e : error) : string :=
  match e with
  | Errorf m => m
  | Wrapf c e => c +:+ ": " +:+ Error e
  | PkgError p => p
  end.

(** What a call does: return normally, return an error, or panic. *)
Inductive outcome (E A : Type) :=
| Ok (a : A)
| Err (e : E)
| Panic (msg : string).
Arguments Ok {E A} a.
Arguments Err {E A} e.
Arguments Panic {E A} msg.

#[export] Instance error_eq_dec : EqDecision error.
Proof. solve_decision. Defined.

#[export] Instance outcome_eq_dec {E A} `{EqDecision E, EqDecision A} :
  EqDecision (outcome E A).
Proof. solve_decision. Defined.

Definition is_ok {E A} (r : outcome E A) : bool :=
  match r with Ok _ => true | _ => false end.
Definition is_panic {E A} (r : outcome E A) : bool :=
  match r with Panic _ => true | _ => false end.

Definition obind {E A B} (m : outcome E A) (k : A -> outcome E B) : outcome E B :=
  match m with Ok a => k a | Err e => Err e | Panic s => Panic s end.

(** [if err != nil { return ..., f(err) }] *)
Definition map_err {E F A} (f : E -> F) (m : outcome E A) : outcome F A :=
  match m with Ok a => Ok a | Err e => Err (f e) | Panic s => Panic s end.

Definition of_option {E A} (e : E) (o : option A) : outcome E A :=
  match o with Some a => Ok a | None => Err e end.

(** [if !b { return nil, e }] *)
Definition guard_ok {E} (b : bool) (e : E) : outcome E unit :=
  if b then Ok tt else Err e.

Declare Scope go_scope.
Delimit Scope go_scope with go.

Notation "'let?' x ':=' m 'in' k" := (obind m (fun x => k))
  (at level 10, x pattern, m at level 100, k at level 200) : go_scope.

Lemma obind_Ok {E A B} (m : outcome E A) (k : A -> outcome E B) b :
  obind m k = Ok b <-> exists a, m = Ok a /\ k a = Ok b.
Proof. destruct m; simpl; naive_solver. Qed.

Lemma map_err_Ok {E F A} (f : E -> F) (m : outcome E A) a :
  map_err f m = Ok a <-> m = Ok a.
Proof. destruct m; simpl; naive_solver. Qed.

Lemma of_option_Ok {E A} (e : E) (o : option A) a :
  of_option e o = Ok a <-> o = Some a.
Proof. destruct o; simpl; naive_solver. Qed.

Lemma guard_ok_Ok {E} b (e : E) u : guard_ok b e = Ok u <-> b = true.
Proof. destruct b, u; simpl; naive_solver. Qed.

(** No panic, compositionally. *)
Lemma obind_no_panic {E A B} (m : outcome E A) (k : A -> outcome E B) :
  is_panic m = false -> (forall a, m = Ok a -> is_panic (k a) = false) ->
  is_panic (obind m k) = false.
Proof. destruct m; simpl; naive_solver. Qed.

Lemma map_err_no_panic {E F A} (f : E -> F) (m : outcome E A) :
  is_panic (map_err f m) = is_panic m.
Proof. by destruct m. Qed.

Lemma of_option_no_panic {E A} (e : E) (o : option A) : is_panic (of_option e o) = false.
Proof. by destruct o. Qed.

Lemma guard_ok_no_panic {E} b (e : E) : is_panic (guard_ok b e) = false.
Proof. by destruct b. Qed.

Create Rewrite HintDb go_ok.
#[export] Hint Rewrite @obind_Ok @map_err_Ok @of_option_Ok @guard_ok_Ok : go_ok.

(** Open every [let?] of a hypothesis [m = Ok a]. *)
Ltac inv_ok H :=
  repeat first
    [ progress autorewrite with go_ok in H
    | match type of H with
      | exists _, _ => let x := fresh "x" in destruct H as [x H]
      | _ /\ _ => let H1 := fresh "Hok" in destruct H as [H1 H]; autorewrite with go_ok in H1
      end ].

(** ** The state-and-error monad of the handlers

    [M W E A] is a method on an object with state [W] returning [(A, E)].
    The state survives an error return and a panic, as in Go. *)

Definition M (W E A : Type) : Type := W -> W * outcome E A.

Section Monad.
Context {W E : Type}.

Definition ret {A} (a : A) : M W E A := fun w => (w, Ok a).
Definition fail {A} (e : E) : M W E A := fun w => (w, Err e).
Definition lift {A} (o : outcome E A) : M W E A := fun w => (w, o).
Definition gets {A} (f : W -> A) : M W E A := fun w => (w, Ok (f w)).
Definition modify (f : W -> W) : M W E unit := fun w => (f w, Ok tt).

Definition bind {A B} (m : M W E A) (k : A -> M W E B) : M W E B := fun w =>
  match m w with
  | (w', Ok a) => k a w'
  | (w', Err e) => (w', Err e)
  | (w', Panic s) => (w', Panic s)
  end.

(** Look at the error of a call instead of returning it. *)
Definition attempt {F A} (m : M W F A) : M W E (A + F) := fun w =>
  match m w with
  | (w', Ok a) => (w', Ok (inl a))
  | (w', Err e) => (w', Ok (inr e))
  | (w', Panic s) => (w', Panic s)
  end.

(** A method on a field of the object. *)
Definition zoom {S A} (g : W -> S) (p : S -> W -> W) (m : M S E A) : M W E A := fun w =>
  let '(s, r) := m (g w) in (p s w, r).

Definition with_err {F A} (f : F -> E) (m : M W F A) : M W E A := fun w =>
  let '(w', r) := m w in (w', map_err f r).
End Monad.

Notation "'let!' x ':=' m 'in' k" := (bind m (fun x => k))
  (at level 10, x pattern, m at level 100, k at level 200) : go_scope.
Notation "m ';;!' k" := (bind m (fun _ => k))
  (at level 199, k at level 200, right associativity) : go_scope.

Open Scope go_scope.

Section MonadLaws.
Context {W E : Type}.

Lemma bind_ret_l {A B} (a : A) (k : A -> M W E B) w : bind (ret a) k w = k a w.
Proof. reflexivity. Qed.

Lemma bind_assoc {A B C} (m : M W E A) (k : A -> M W E B) (h : B -> M W E C) w :
  bind (bind m k) h w = bind m (fun a => bind (k a) h) w.
Proof. unfold bind. by destruct (m w) as [w' []]. Qed.

Lemma bind_Ok {A B} (m : M W E A) (k : A -> M W E B) w w' b :
  bind m k w = (w', Ok b) <-> exists w1 a, m w = (w1, Ok a) /\ k a w1 = (w', Ok b).
Proof. unfold bind. destruct (m w) as [w1 []]; naive_solver. Qed.

Lemma ret_Ok {A} (a b : A) (w w' : W) : @ret W E A a w = (w', Ok b) <-> w' = w /\ b = a.
Proof. unfold ret. naive_solver. Qed.

Lemma lift_Ok {A} (o : outcome E A) (b : A) (w w' : W) :
  lift o w = (w', Ok b) <-> w' = w /\ o = Ok b.
Proof. unfold lift. naive_solver. Qed.

Lemma gets_Ok {A} (f : W -> A) b (w w' : W) :
  @gets W E A f w = (w', Ok b) <-> w' = w /\ b = f w.
Proof. unfold gets. naive_solver. Qed.

Lemma modify_Ok (f : W -> W) u (w w' : W) :
  @modify W E f w = (w', Ok u) <-> w' = f w.
Proof. unfold modify. destruct u. naive_solver. Qed.

Lemma with_err_Ok {F A} (f : F -> E) (m : M W F A) w w' a :
  with_err f m w = (w', Ok a) <-> m w = (w', Ok a).
Proof. unfold with_err. destruct (m w) as [? []]; simpl; naive_solver. Qed.
End MonadLaws.

#[export] Hint Rewrite @bind_Ok @ret_Ok @lift_Ok @gets_Ok @modify_Ok @with_err_Ok : go_ok.

(** ** What a method may do to the state

    [steps R m]: whatever [m] returns (a value, an error or a panic), the
    state it leaves is related by [R] to the state it started from.  For a
    preorder [R] the property composes along the code, which is how the
    invariants and the framing theorems of the dispatcher are proved. *)

Definition steps {W E A} (R : W -> W -> Prop) (m : M W E A) : Prop :=
  forall w, R w (m w).1.

Create HintDb steps.

Section Steps.
Context {W E : Type} (R : W -> W -> Prop) `{!PreOrder R}.

Lemma steps_ret {A} (a : A) : steps R (@ret W E A a).
Proof. intros w. reflexivity. Qed.
Lemma steps_fail {A} (e : E) : steps R (@fail W E A e).
Proof. intros w. reflexivity. Qed.
Lemma steps_lift {A} (o : outcome E A) : steps R (lift (W:=W) o).
Proof. intros w. reflexivity. Qed.
Lemma steps_gets {A} (f : W -> A) : steps R (gets (E:=E) f).
Proof. intros w. reflexivity. Qed.
Lemma steps_modify f : (forall w, R w (f w)) -> steps R (modify (E:=E) f).
Proof. intros H w. apply H. Qed.

Lemma steps_bind {A B} (m : M W E A) (k : A -> M W E B) :
  steps R m -> (forall a, steps R (k a)) -> steps R (bind m k).
Proof.
  intros Hm Hk w. unfold bind. specialize (Hm w).
  destruct (m w) as [w1 [a|e|s]]; simpl in *; [|done|done].
  etrans; [done|]. apply Hk.
Qed.

Lemma steps_attempt {F A} (m : M W F A) : steps R m -> steps R (attempt (E:=E) m).
Proof. intros Hm w. specialize (Hm w). unfold attempt. by destruct (m w) as [? []]. Qed.

Lemma steps_with_err {F A} (f : F -> E) (m : M W F A) : steps R m -> steps R (with_err f m).
Proof. intros Hm w. specialize (Hm w). unfold with_err. by destruct (m w). Qed.

Lemma steps_zoom {S A} (g : W -> S) (p : S -> W -> W) (m : M S E A) :
  (forall w, R w (p (m (g w)).1 w)) -> steps R (zoom g p m).
Proof. intros H w. specialize (H w). unfold zoom. by destruct (m (g w)). Qed.
End Steps.

#[export] Hint Resolve steps_ret steps_fail steps_lift steps_gets steps_bind
  steps_attempt steps_with_err : steps.

(** Preservation of an invariant, and of a projection of the state. *)
Definition keeps {W} (I : W -> Prop) (w w' : W) : Prop := I w -> I w'.
Definition same {W A} (f : W -> A) (w w' : W) : Prop := f w' = f w.

#[export] Instance keeps_preorder {W} (I : W -> Prop) : PreOrder (keeps I).
Proof. split; unfold keeps; repeat intro; auto. Qed.

#[export] Instance same_preorder {W A} (f : W -> A) : PreOrder (same f).
Proof. split; unfold same; repeat intro; congruence. Qed.

(** One step of a [steps] proof: open a bind, or a branch of the code. *)
Ltac steps_branch :=
  lazymatch goal with
  | |- steps _ (bind _ _) => apply steps_bind; [typeclasses eauto| |intros ?]
  | |- steps _ (match ?x with _ => _ end) => destruct x eqn:?
  | |- steps _ (let '_ := ?x in _) => destruct x eqn:?
  end.
Ltac steps_auto := repeat (steps_branch || solve [eauto with steps typeclass_instances]).

(** ** What a method may return

    [yields P m]: whenever [m] returns normally, its value satisfies [P].
    [safe m]: [m] does not panic, in any state. *)

Definition yields {W E A} (P : A -> Prop) (m : M W E A) : Prop :=
  forall w w' a, m w = (w', Ok a) -> P a.

Definition safe {W E A} (m : M W E A) : Prop := forall w, is_panic (m w).2 = false.

Create HintDb safe.

Section Results.
Context {W E : Type}.

Lemma yields_bind {A B} (P : B -> Prop) (m : M W E A) (k : A -> M W E B) :
  (forall a, yields P (k a)) -> yields P (bind m k).
Proof. intros Hk w w' b H. apply bind_Ok in H as (w1 & a & _ & H). by eapply Hk. Qed.

Lemma yields_fail {A} (P : A -> Prop) (e : E) : yields P (@fail W E A e).
Proof. by intros w w' a. Qed.

Lemma yields_lift {A} (P : A -> Prop) (o : outcome E A) :
  (forall a, o = Ok a -> P a) -> yields P (lift (W := W) o).
Proof. intros Ho w w' a H. apply lift_Ok in H as [_ H]. by apply Ho. Qed.

Lemma safe_ret {A} (a : A) : safe (@ret W E A a).
Proof. by intros w. Qed.
Lemma safe_fail {A} (e : E) : safe (@fail W E A e).
Proof. by intros w. Qed.
Lemma safe_gets {A} (f : W -> A) : safe (gets (E := E) f).
Proof. by intros w. Qed.
Lemma safe_modify (f : W -> W) : safe (modify (E := E) f).
Proof. by intros w. Qed.
Lemma safe_lift {A} (o : outcome E A) : is_panic o = false -> safe (lift (W := W) o).
Proof. by intros Ho w. Qed.

Lemma safe_bind {A B} (m : M W E A) (k : A -> M W E B) :
  safe m -> (forall a, safe (k a)) -> safe (bind m k).
Proof.
  intros Hm Hk w. unfold bind. specialize (Hm w).
  destruct (m w) as [w1 [a|e|s]]; simpl in *; [apply Hk|done|done].
Qed.

Lemma safe_attempt {F A} (m : M W F A) : safe m -> safe (attempt (E := E) m).
Proof. intros Hm w. specialize (Hm w). unfold attempt. by destruct (m w) as [? []]. Qed.

Lemma safe_with_err {F A} (f : F -> E) (m : M W F A) : safe m -> safe (with_err f m).
Proof. intros Hm w. specialize (Hm w). unfold with_err. by destruct (m w) as [? []]. Qed.

Lemma safe_zoom {S A} (g : W -> S) (p : S -> W -> W) (m : M S E A) : safe m -> safe (zoom g p m).
Proof. intros Hm w. specialize (Hm (g w)). unfold zoom. by destruct (m (g w)). Qed.
End Results.

#[export] Hint Resolve safe_ret safe_fail safe_gets safe_modify safe_bind safe_attempt
  safe_with_err safe_zoom : safe.
#[export] Hint Resolve @of_option_no_panic @guard_ok_no_panic : safe.
#[export] Hint Extern 1 (safe (lift _)) => apply safe_lift : safe.

Ltac safe_branch :=
  lazymatch goal with
  | |- safe (bind _ _) => apply safe_bind; [|intros ?]
  | |- safe (match ?x with _ => _ end) => destruct x eqn:?
  | |- safe (let '_ := ?x in _) => destruct x eqn:?
  end.
Ltac safe_auto := repeat (safe_branch || solve [eauto with safe]).

Ltac yields_branch :=
  lazymatch goal with
  | |- yields _ (bind _ _) => apply yields_bind; intros ?
  | |- yields _ (fail _) => apply yields_fail
  | |- yields _ (match ?x with _ => _ end) => destruct x eqn:?
  | |- yields _ (let '_ := ?x in _) => destruct x eqn:?
  end.
Ltac yields_auto := repeat (yields_branch || (progress cbn beta)).

(** [raises P m]: whenever [m] fails, its error satisfies [P]. *)
Definition raises {W E A} (P : E -> Prop) (m : M W E A) : Prop :=
  forall w w' e, m w = (w', Err e) -> P e.

Section Raises.
Context {W E : Type} (P : E -> Prop).

Lemma raises_ret {A} (a : A) : raises P (@ret W E A a).
Proof. by intros w w' e. Qed.

Lemma raises_gets {A} (f : W -> A) : raises P (@gets W E A f).
Proof. by intros w w' e. Qed.

Lemma raises_modify (f : W -> W) : raises P (@modify W E f).
Proof. by intros w w' e. Qed.

Lemma raises_fail {A} (e : E) : P e -> raises P (@fail W E A e).
Proof. by intros He w w' e' [= _ <-]. Qed.

Lemma raises_lift {A} (o : outcome E A) : (forall e, o = Err e -> P e) -> raises P (lift (W := W) o).
Proof. intros Ho w w' e [= _ He]. by apply Ho. Qed.

Lemma raises_attempt {A F} (m : M W F A) : raises P (attempt m).
Proof. intros w w' e. unfold attempt. by destruct (m w) as [? []]. Qed.

Lemma raises_with_err {A F} (f : F -> E) (m : M W F A) : (forall e, P (f e)) -> raises P (with_err f m).
Proof. intros Hf w w' e. unfold with_err. destruct (m w) as [? []]; naive_solver. Qed.

Lemma raises_bind {A B} (m : M W E A) (k : A -> M W E B) :
  raises P m -> (forall a, raises P (k a)) -> raises P (bind m k).
Proof.
  intros Hm Hk w w' e. unfold bind. destruct (m w) as [w1 [a|e1|p]] eqn:E1; [apply Hk| |done].
  intros [= _ <-]. by eapply Hm.
Qed.
End Raises.

Create HintDb raises.
#[export] Hint Resolve raises_ret raises_gets raises_modify raises_attempt : raises.

Ltac raises_branch :=
  lazymatch goal with
  | |- raises _ (bind _ _) => apply raises_bind; [|intros ?]
  | |- raises _ (fail _) => apply raises_fail; try done
  | |- raises _ (with_err _ _) => apply raises_with_err; intros ?; try done
  | |- raises _ (lift (of_option _ ?o)) => apply raises_lift; destruct o; simpl; naive_solver
  | |- raises _ (match ?x with _ => _ end) => destruct x eqn:?
  | |- raises _ (let '_ := ?x in _) => destruct x eqn:?
  end.
Ltac raises_auto := repeat (raises_branch || (progress cbn beta) || solve [eauto with raises]).

(** ** What a method does from a good state

    [sound I m]: started where [I] holds, [m] does not panic and leaves a
    state where [I] holds. *)

Definition sound {W E A} (I : W -> Prop) (m : M W E A) : Prop :=
  forall w, I w -> I (m w).1 /\ is_panic (m w).2 = false.

Section Sound.
Context {W E : Type} (I : W -> Prop).

Lemma sound_of {A} (m : M W E A) : steps (keeps I) m -> safe m -> sound I m.
Proof. intros Hk Hs w Hw. split; [by apply Hk|apply Hs]. Qed.

Lemma sound_bind {A B} (m : M W E A) (k : A -> M W E B) :
  sound I m -> (forall a, sound I (k a)) -> sound I (bind m k).
Proof.
  intros Hm Hk w Hw. unfold bind. destruct (Hm w Hw) as [Hi Hp].
  destruct (m w) as [w1 [a|e|p]]; [by apply Hk|done..].
Qed.

Lemma sound_attempt {A F} (m : M W F A) : sound I m -> sound I (attempt (E := E) m).
Proof.
  intros Hm w Hw. unfold attempt. destruct (Hm w Hw) as [Hi Hp]. by destruct (m w) as [w1 []].
Qed.

Lemma sound_with_err {A F} (f : F -> E) (m : M W F A) : sound I m -> sound I (with_err f m).
Proof.
  intros Hm w Hw. unfold with_err. destruct (Hm w Hw) as [Hi Hp]. by destruct (m w) as [w1 []].
Qed.

Lemma sound_ret {A} (a : A) : sound I (ret (E := E) a).
Proof. by intros w Hw. Qed.

Lemma sound_fail {A} (e : E) : sound I (fail (A := A) e).
Proof. by intros w Hw. Qed.

(** A call whose result depends on the state. *)
Lemma sound_state {A B} (m : M W E A) (k : A -> M W E B) :
  (forall w, I w -> I (m w).1 /\ is_panic (m w).2 = false) ->
  (forall a w w', I w -> m w = (w', Ok a) -> I (k a w').1 /\ is_panic (k a w').2 = false) ->
  sound I (bind m k).
Proof.
  intros Hm Hk w Hw. unfold bind. destruct (Hm w Hw) as [Hi Hp].
  destruct (m w) as [w1 [a|e|p]] eqn:E1; [by apply (Hk a w w1 Hw)|done..].
Qed.
End Sound.

(** ** Generic list lemmas *)

Lemma existsb_eqb_elem (s : string) (l : list string) :
  existsb (fun x => bool_decide (x = s)) l = true <-> s ∈ l.
Proof.
  rewrite existsb_exists. setoid_rewrite bool_decide_eq_true.
  rewrite list_elem_of_In. naive_solver.
Qed.
