(* ===== verification/GoTime.v ===== *)
(** * Go's [time] package, as far as the service uses it

    A [Time] is the wall clock reading of [time.Time] (seconds since
    January 1, year 1 in an [int64], and nanoseconds) with the monotonic
    reading [time.Now] adds.  [Add], [Sub], [After] and [Before] follow
    [time/time.go]: they use the monotonic readings when both operands have
    one, saturate and wrap as the [int64] arithmetic does. *)

From S2P Require Import Prelude.
Local Open Scope Z_scope.

(** [time.Duration]: nanoseconds in an [int64]. *)
Definition Nanosecond : Z := 1.
Definition Second : Z := 1000000000.
Definition Minute : Z := 60 * Second.
Definition Hour : Z := 60 * Minute.

Record Time := mkTime {
  t_sec : Z;
  t_nsec : Z;
  t_mono : option Z
}.

#[export] Instance Time_eq_dec : EqDecision Time.
Proof. solve_decision. Defined.

(** Seconds from year 1 to 1970 and to 1885 (the span a [Time] with a
    monotonic reading covers is [2^33] seconds from 1885). *)
Definition unixToInternal : Z := 62135596800.
Definition wallToInternal : Z := 59453308800.

Definition wf_time (t : Time) : Prop :=
  - max_int64 < t_sec t < max_int64 /\ 0 <= t_nsec t < Second.

(** The wall reading in nanoseconds. *)
Definition t_ns (t : Time) : Z := t_sec t * Second + t_nsec t.

(** [time.Unix(sec, 0)] and [t.Unix()] *)
Definition UnixTime (sec : Z) : Time := mkTime (wrap64 (sec + unixToInternal)) 0 None.
Definition Unix (t : Time) : Z := wrap64 (t_sec t - unixToInternal).

(** [addSec] on the wall seconds: saturating. *)
Definition addSec (s d : Z) : Z :=
  let sum := wrap64 (s + d) in
  if Bool.eqb (s <? sum) (0 <? d) then sum
  else if 0 <? d then max_int64 else - max_int64.

Definition TimeAdd (t : Time) (d : Z) : Time :=
  let sec := addSec (t_sec t) ((t_nsec t + d) / Second) in
  let nsec := (t_nsec t + d) mod Second in
  let mono :=
    match t_mono t with
    | None => None
    | Some m =>
        let te := wrap64 (m + d) in
        let w := sec - wallToInternal in
        if ((d <? 0) && (m <? te)) || ((0 <? d) && (te <? m)) then None
        else if (0 <=? w) && (w <? 2^33) then Some te else None
    end in
  mkTime sec nsec mono.

Definition wall_lt (t u : Time) : bool :=
  (t_sec t <? t_sec u) || ((t_sec t =? t_sec u) && (t_nsec t <? t_nsec u)).

Definition Before (t u : Time) : bool :=
  match t_mono t, t_mono u with
  | Some a, Some b => a <? b
  | _, _ => wall_lt t u
  end.

Definition After (t u : Time) : bool := Before u t.

Definition TimeEqual (t u : Time) : bool :=
  match t_mono t, t_mono u with
  | Some a, Some b => a =? b
  | _, _ => (t_sec t =? t_sec u) && (t_nsec t =? t_nsec u)
  end.

Definition subMono (t u : Z) : Z :=
  let d := wrap64 (t - u) in
  if (d <? 0) && (u <? t) then max_int64
  else if (0 <? d) && (t <? u) then min_int64 else d.

Definition TimeSub (t u : Time) : Z :=
  match t_mono t, t_mono u with
  | Some a, Some b => subMono a b
  | _, _ =>
      let d := wrap64 (wrap64 (wrap64 (t_sec t - t_sec u) * Second) + (t_nsec t - t_nsec u)) in
      if TimeEqual (TimeAdd u d) t then d
      else if Before t u then min_int64 else max_int64
  end.

(** [Duration.Abs] *)
Definition Abs (d : Z) : Z :=
  if 0 <=? d then d else if d =? min_int64 then max_int64 else - d.

(** ** Facts *)

Definition clamp64 (z : Z) : Z := Z.max min_int64 (Z.min max_int64 z).

Lemma Second_pos : 0 < Second.
Proof. reflexivity. Qed.

Lemma wrap64_add_l a b : wrap64 (wrap64 a + b) = wrap64 (a + b).
Proof.
  unfold wrap64. f_equal.
  replace ((a + 2 ^ 63) mod 2 ^ 64 - 2 ^ 63 + b + 2 ^ 63)
    with ((a + 2 ^ 63) mod 2 ^ 64 + b) by lia.
  rewrite Z.add_mod_idemp_l by lia. f_equal. lia.
Qed.

Lemma wrap64_mul_l a b : wrap64 (wrap64 a * b) = wrap64 (a * b).
Proof.
  unfold wrap64.
  pose proof (Z.div_mod (a + 2^63) (2^64) ltac:(lia)) as Hd.
  set (q := (a + 2^63) / 2^64) in *. set (r := (a + 2^63) mod 2^64) in *.
  f_equal.
  replace (a * b + 2^63) with ((r - 2^63) * b + 2^63 + (q * b) * 2^64) by lia.
  by rewrite Z.mod_add by lia.
Qed.

Lemma addSec_id s d : is_int64 s -> is_int64 (s + d) -> addSec s d = s + d.
Proof.
  intros Hs Hsd. unfold addSec. rewrite wrap64_id by done.
  destruct (s <? s + d) eqn:E1, (0 <? d) eqn:E2; simpl; lia.
Qed.

(** Out of range, [addSec] saturates. *)
Lemma addSec_sat s d :
  is_int64 s -> is_int64 d -> ~ is_int64 (s + d) ->
  addSec s d = max_int64 \/ addSec s d = - max_int64.
Proof.
  unfold is_int64. intros Hs Hd Hn. unfold addSec.
  assert ((max_int64 < s + d /\ wrap64 (s + d) = s + d - 2^64) \/
          (s + d < min_int64 /\ wrap64 (s + d) = s + d + 2^64)) as Hw.
  { unfold wrap64, min_int64, max_int64 in *.
    destruct (Z_lt_dec (s + d) (-2^63)) as [Hlt|Hge].
    - right. rewrite <-(Z.mod_add _ 1) by lia. rewrite Z.mod_small; lia.
    - left. rewrite <-(Z.mod_add _ (-1)) by lia. rewrite Z.mod_small; lia. }
  unfold min_int64, max_int64 in *.
  destruct Hw as [[? ->] | [? ->]];
    (destruct (s <? _) eqn:E1; destruct (0 <? d) eqn:E2; simpl; lia).
Qed.

Lemma Add_ns t d :
  is_int64 (t_sec t) -> is_int64 (t_sec t + (t_nsec t + d) / Second) ->
  t_ns (TimeAdd t d) = t_ns t + d.
Proof.
  intros Hs Hr. unfold t_ns, TimeAdd. cbn [t_sec t_nsec].
  rewrite addSec_id by done.
  pose proof (Z.div_mod (t_nsec t + d) Second ltac:(unfold Second; lia)). lia.
Qed.

Lemma Add_nsec t d : 0 <= t_nsec (TimeAdd t d) < Second.
Proof. apply Z.mod_pos_bound, Second_pos. Qed.

Lemma t_ns_inj t u :
  0 <= t_nsec t < Second -> 0 <= t_nsec u < Second ->
  t_ns t = t_ns u -> t_sec t = t_sec u /\ t_nsec t = t_nsec u.
Proof. unfold t_ns, Second. intros. lia. Qed.

Lemma wall_lt_ns t u :
  0 <= t_nsec t < Second -> 0 <= t_nsec u < Second ->
  wall_lt t u = true <-> t_ns t < t_ns u.
Proof. unfold wall_lt, t_ns, Second. intros. lia. Qed.

(** [u.Add(d)] without a monotonic reading reaches exactly the instants
    [d] away, unless it saturates. *)
Lemma Add_hits u d t :
  wf_time t -> is_int64 (t_sec u) -> 0 <= t_nsec u < Second -> is_int64 d ->
  t_sec (TimeAdd u d) = t_sec t /\ t_nsec (TimeAdd u d) = t_nsec t <-> t_ns t = t_ns u + d.
Proof.
  intros [Ht1 Ht2] Hu1 Hu2 Hd.
  set (q := (t_nsec u + d) / Second).
  assert (Hq : is_int64 q).
  { clear Ht1 Ht2. subst q. unfold is_int64, min_int64, max_int64, Second in *.
    split; [apply Z.div_le_lower_bound | apply Z.div_le_upper_bound]; lia. }
  destruct (decide (is_int64 (t_sec u + q))) as [Hin|Hout].
  - pose proof (Add_ns u d Hu1 Hin) as Ha. pose proof (Add_nsec u d). split.
    + intros [H1 H2]. rewrite <-Ha. unfold t_ns. by rewrite H1, H2.
    + intros He. apply t_ns_inj; [lia|lia|]. congruence.
  - pose proof (addSec_sat _ _ Hu1 Hq Hout) as Hs.
    assert (Hsec : t_sec (TimeAdd u d) = addSec (t_sec u) q) by done.
    split; [intros [H1 _]; rewrite Hsec in H1; destruct Hs as [Hs|Hs]; rewrite Hs in H1; lia|]. intros He. exfalso. apply Hout.
    assert (t_sec u + q = t_sec t) as ->; [|unfold is_int64, min_int64, max_int64 in *; lia].
    pose proof (Z.div_mod (t_nsec u + d) Second ltac:(done)) as Hdm. fold q in Hdm.
    pose proof (Z.mod_pos_bound (t_nsec u + d) Second ltac:(done)) as Hb.
    unfold t_ns in He. clear - Ht2 Hu2 He Hdm Hb.
    set (r := (t_nsec u + d) mod Second) in *. unfold Second in *. lia.
Qed.

(** [t.Sub(u)] on wall readings is the exact difference, saturated. *)
Lemma Sub_wall t u :
  wf_time t -> is_int64 (t_sec u) -> 0 <= t_nsec u < Second ->
  t_mono u = None ->
  TimeSub t u = clamp64 (t_ns t - t_ns u).
Proof.
  intros Ht Hu1 Hu2 Hm. pose proof Ht as [Ht1 Ht2]. unfold TimeSub. rewrite Hm.
  assert (forall X Y : Z, match t_mono t with Some _ => X | None => X end = X) as Hmt
    by (intros; by destruct (t_mono t)).
  set (d := wrap64 _).
  assert (Hd : d = wrap64 (t_ns t - t_ns u)).
  { unfold d. rewrite wrap64_add_l. rewrite <-wrap64_add_l, wrap64_mul_l, wrap64_add_l.
    f_equal. unfold t_ns. lia. }
  assert (Hd64 : is_int64 d) by apply wrap64_range.
  assert (Heq : TimeEqual (TimeAdd u d) t = true <-> t_ns t = t_ns u + d).
  { rewrite <-(Add_hits u d t) by done. unfold TimeEqual.
    assert (t_mono (TimeAdd u d) = None) as -> by (unfold TimeAdd; simpl; by rewrite Hm).
    destruct (t_mono t); rewrite andb_true_iff, !Z.eqb_eq; done. }
  assert (Hbef : Before t u = true <-> t_ns t < t_ns u).
  { rewrite <-wall_lt_ns by done. unfold Before. rewrite Hm. by destruct (t_mono t). }
  transitivity (if TimeEqual (TimeAdd u d) t then d
                else if Before t u then min_int64 else max_int64).
  { by destruct (t_mono t). }
  unfold clamp64.
  destruct (decide (is_int64 (t_ns t - t_ns u))) as [Hin|Hout].
  - rewrite wrap64_id in Hd by done.
    rewrite (proj2 Heq) by lia. unfold is_int64 in Hin. lia.
  - destruct (TimeEqual (TimeAdd u d) t).
    { pose proof (proj1 Heq eq_refl). exfalso. apply Hout.
      replace (t_ns t - t_ns u) with d by lia. done. }
    unfold is_int64 in Hout.
    destruct (Before t u).
    + pose proof (proj1 Hbef eq_refl). unfold min_int64, max_int64 in *. lia.
    + assert (~ t_ns t < t_ns u) by (intros H; apply Hbef in H; done).
      unfold min_int64, max_int64 in *. lia.
Qed.

Lemma Abs_clamp64 z : Abs (clamp64 z) = Z.min max_int64 (Z.abs z).
Proof. unfold Abs, clamp64, min_int64, max_int64. repeat case_match; lia. Qed.

(** The instants of a run are taken from [time.Now], whose monotonic
    reading never decreases. *)
Definition not_before (t u : Time) : Prop :=
  exists a b, t_mono t = Some a /\ t_mono u = Some b /\ b <= a.

Lemma After_mono t t' u :
  not_before t' t -> is_Some (t_mono u) -> After t u = true -> After t' u = true.
Proof.
  intros (a & b & Ht' & Ht & Hle) [m Hm]. unfold After, Before.
  rewrite Ht, Ht', Hm, !Z.ltb_lt. lia.
Qed.

#[export] Instance not_before_trans : Transitive not_before.
Proof. intros x y z (a&b&?&?&?) (c&d&?&?&?). exists a, d. naive_solver lia. Qed.

(** An instant with both readings, at [s] seconds of Unix time and [m]
    nanoseconds of the monotonic clock. *)
Definition instant (s m : Z) : Time := mkTime (s + unixToInternal) 0 (Some m).
