(* ===== verification/GoStrings.v ===== *)
(** * Strings and byte encodings of Go's standard library

    [strings], [encoding/hex], [encoding/base64], [encoding/binary] and
    [strconv], as far as the service uses them, as executable functions on
    byte lists, with the round trips the service relies on. *)

From S2P Require Import Prelude.
From stdpp Require Export pretty.
Local Open Scope Z_scope.

Definition byte_in (lo hi : Z) (b : Byte.byte) : bool := (lo <=? b2z b) && (b2z b <=? hi).
Definition is_byte (c : Byte.byte) (b : Byte.byte) : bool := Byte.eqb b c.

Lemma is_byte_true c b : is_byte c b = true <-> b = c.
Proof.
  unfold is_byte. apply byte_eqb_eq.
Qed.

(** ** Prefixes *)

Fixpoint strip_prefix (p l : bytes) : option bytes :=
  match p, l with
  | [], _ => Some l
  | a :: p', b :: l' => if Byte.eqb a b then strip_prefix p' l' else None
  | _ :: _, [] => None
  end.

Lemma strip_prefix_Some p l r : strip_prefix p l = Some r <-> l = p ++ r.
Proof.
  revert l. induction p as [|a p IH]; intros [|b l]; simpl.
  - naive_solver.
  - naive_solver.
  - split; [done|]. intros; simplify_list_eq.
  - destruct (Byte.eqb a b) eqn:E.
    + apply byte_eqb_eq in E. subst. rewrite IH. naive_solver.
    + split; [done|]. intros [= -> _]. by rewrite byte_eqb_refl in E.
Qed.

Definition HasPrefix (s p : string) : bool :=
  match strip_prefix (go_bytes p) (go_bytes s) with Some _ => true | None => false end.

Definition TrimPrefix (s p : string) : string :=
  match strip_prefix (go_bytes p) (go_bytes s) with
  | Some r => go_string r
  | None => s
  end.

(** [strings.Contains] *)
Fixpoint contains_bytes (l p : bytes) : bool :=
  match strip_prefix p l with
  | Some _ => true
  | None => match l with [] => false | _ :: l' => contains_bytes l' p end
  end.

Definition Contains (s p : string) : bool := contains_bytes (go_bytes s) (go_bytes p).

(** ** Splitting at a one-byte separator *)

Fixpoint split_bytes (sep : Byte.byte) (l : bytes) : list bytes :=
  match l with
  | [] => [[]]
  | b :: l' =>
      match split_bytes sep l' with
      | [] => [[b]]
      | w :: ws => if Byte.eqb b sep then [] :: w :: ws else (b :: w) :: ws
      end
  end.

Definition Split (s : string) (sep : Byte.byte) : list string :=
  go_string <$> split_bytes sep (go_bytes s).

(** [strings.SplitN(s, sep, 2)]: [None] for one part. *)
Fixpoint cut_bytes (sep : Byte.byte) (l : bytes) : option (bytes * bytes) :=
  match l with
  | [] => None
  | b :: l' =>
      if Byte.eqb b sep then Some ([], l')
      else match cut_bytes sep l' with
           | Some (x, y) => Some (b :: x, y)
           | None => None
           end
  end.

Definition SplitN2 (s : string) (sep : Byte.byte) : option (string * string) :=
  match cut_bytes sep (go_bytes s) with
  | Some (x, y) => Some (go_string x, go_string y)
  | None => None
  end.

(** ** [strings.TrimSpace]: the UTF-8 encodings of [unicode.IsSpace] *)

Definition space_runes : list bytes :=
  [ [x09]; [x0a]; [x0b]; [x0c]; [x0d]; [x20]; [xc2; x85]; [xc2; xa0]; [xe1; x9a; x80];
    [xe2; x80; x80]; [xe2; x80; x81]; [xe2; x80; x82]; [xe2; x80; x83]; [xe2; x80; x84];
    [xe2; x80; x85]; [xe2; x80; x86]; [xe2; x80; x87]; [xe2; x80; x88]; [xe2; x80; x89];
    [xe2; x80; x8a]; [xe2; x80; xa8]; [xe2; x80; xa9]; [xe2; x80; xaf]; [xe2; x81; x9f];
    [xe3; x80; x80] ].

Fixpoint strip_any (ps : list bytes) (l : bytes) : option bytes :=
  match ps with
  | [] => None
  | p :: ps' => match strip_prefix p l with Some r => Some r | None => strip_any ps' l end
  end.

Fixpoint trim_left (fuel : nat) (ps : list bytes) (l : bytes) : bytes :=
  match fuel with
  | O => l
  | S fuel' => match strip_any ps l with Some r => trim_left fuel' ps r | None => l end
  end.

Definition trim_bytes (l : bytes) : bytes :=
  let l1 := trim_left (length l) space_runes l in
  reverse (trim_left (length l1) (reverse <$> space_runes) (reverse l1)).

Definition TrimSpace (s : string) : string := go_string (trim_bytes (go_bytes s)).

(** ** Hexadecimal *)

Definition hex_digit (b : Byte.byte) : option Z :=
  let z := b2z b in
  if (48 <=? z) && (z <=? 57) then Some (z - 48)
  else if (97 <=? z) && (z <=? 102) then Some (z - 87)
  else if (65 <=? z) && (z <=? 70) then Some (z - 55)
  else None.

Fixpoint hex_decode (l : bytes) : option bytes :=
  match l with
  | [] => Some []
  | [_] => None
  | a :: b :: l' =>
      match hex_digit a, hex_digit b, hex_decode l' with
      | Some x, Some y, Some r => Some (z2b (16 * x + y) :: r)
      | _, _, _ => None
      end
  end.

Definition hex_char (z : Z) : Byte.byte := z2b (if z <? 10 then z + 48 else z + 87).

Fixpoint hex_encode (l : bytes) : bytes :=
  match l with
  | [] => []
  | b :: l' => hex_char (b2z b / 16) :: hex_char (b2z b mod 16) :: hex_encode l'
  end.

(** [hex.DecodeString], [hex.EncodeToString] *)
Definition HexDecodeString (s : string) : option bytes := hex_decode (go_bytes s).
Definition HexEncodeToString (b : bytes) : string := go_string (hex_encode b).

(** ** Base64, URL alphabet *)

Definition b64_char (z : Z) : Byte.byte :=
  z2b (if z <? 26 then z + 65
       else if z <? 52 then z + 71
       else if z <? 62 then z - 4
       else if z =? 62 then 45 else 95).

Definition b64_val (b : Byte.byte) : option Z :=
  let z := b2z b in
  if (65 <=? z) && (z <=? 90) then Some (z - 65)
  else if (97 <=? z) && (z <=? 122) then Some (z - 71)
  else if (48 <=? z) && (z <=? 57) then Some (z + 4)
  else if z =? 45 then Some 62
  else if z =? 95 then Some 63
  else None.

Definition b64_pad : Byte.byte := x3d.

Fixpoint b64_encode (pad : bool) (l : bytes) : bytes :=
  match l with
  | [] => []
  | [a] =>
      let v := b2z a * 65536 in
      b64_char (v / 2^18) :: b64_char (v / 2^12 mod 64) ::
      (if pad then [b64_pad; b64_pad] else [])
  | [a; b] =>
      let v := b2z a * 65536 + b2z b * 256 in
      b64_char (v / 2^18) :: b64_char (v / 2^12 mod 64) :: b64_char (v / 2^6 mod 64) ::
      (if pad then [b64_pad] else [])
  | a :: b :: c :: l' =>
      let v := b2z a * 65536 + b2z b * 256 + b2z c in
      b64_char (v / 2^18) :: b64_char (v / 2^12 mod 64) ::
      b64_char (v / 2^6 mod 64) :: b64_char (v mod 64) :: b64_encode pad l'
  end.

(** The decoder after [\r] and [\n] have been skipped.  As in Go, the
    unused low bits of a final quantum are not checked. *)
Fixpoint b64_decode (pad : bool) (l : bytes) : option bytes :=
  match l with
  | [] => Some []
  | [_] => None
  | [a; b] =>
      match pad, b64_val a, b64_val b with
      | false, Some x, Some y => Some [z2b ((x * 2^18 + y * 2^12) / 65536)]
      | _, _, _ => None
      end
  | [a; b; c] =>
      match pad, b64_val a, b64_val b, b64_val c with
      | false, Some x, Some y, Some z =>
          let v := x * 2^18 + y * 2^12 + z * 2^6 in Some [z2b (v / 65536); z2b (v / 256)]
      | _, _, _, _ => None
      end
  | a :: b :: c :: d :: l' =>
      match b64_val a, b64_val b with
      | Some x, Some y =>
          match b64_val c with
          | Some z =>
              match b64_val d with
              | Some u =>
                  let v := x * 2^18 + y * 2^12 + z * 2^6 + u in
                  match b64_decode pad l' with
                  | Some r => Some (z2b (v / 65536) :: z2b (v / 256) :: z2b v :: r)
                  | None => None
                  end
              | None =>
                  let v := x * 2^18 + y * 2^12 + z * 2^6 in
                  if pad && Byte.eqb d b64_pad && bool_decide (l' = [])
                  then Some [z2b (v / 65536); z2b (v / 256)] else None
              end
          | None =>
              if pad && Byte.eqb c b64_pad && Byte.eqb d b64_pad && bool_decide (l' = [])
              then Some [z2b ((x * 2^18 + y * 2^12) / 65536)] else None
          end
      | _, _ => None
      end
  end.

Definition is_newline (b : Byte.byte) : bool := Byte.eqb b x0a || Byte.eqb b x0d.

Definition b64_DecodeString (pad : bool) (s : string) : option bytes :=
  b64_decode pad (List.filter (fun b => negb (is_newline b)) (go_bytes s)).

(** [base64.URLEncoding] and [base64.RawURLEncoding] *)
Definition URLDecodeString : string -> option bytes := b64_DecodeString true.
Definition URLEncodeToString (b : bytes) : string := go_string (b64_encode true b).
Definition RawURLDecodeString : string -> option bytes := b64_DecodeString false.
Definition RawURLEncodeToString (b : bytes) : string := go_string (b64_encode false b).

(** ** Big-endian integers *)

Fixpoint be_uint (l : bytes) : Z :=
  match l with
  | [] => 0
  | b :: l' => b2z b * 2 ^ (8 * Z.of_nat (length l')) + be_uint l'
  end.

Fixpoint put_be (n : nat) (z : Z) : bytes :=
  match n with
  | O => []
  | S n' => z2b (z / 2 ^ (8 * Z.of_nat n')) :: put_be n' z
  end.

(** ** Decimal *)

Definition digit (b : Byte.byte) : option Z :=
  if byte_in 48 57 b then Some (b2z b - 48) else None.

Fixpoint parse_digits (acc : Z) (l : bytes) : option Z :=
  match l with
  | [] => Some acc
  | b :: l' => match digit b with Some d => parse_digits (10 * acc + d) l' | None => None end
  end.

(** [strconv.ParseInt(s, 10, 64)] / [strconv.Atoi] *)
Definition parse_sign (l : bytes) : (Z * bytes) :=
  match l with
  | b :: l' => if Byte.eqb b x2d then (-1, l') else if Byte.eqb b x2b then (1, l') else (1, l)
  | [] => (1, [])
  end.

Definition ParseInt64 (l : bytes) : option Z :=
  let '(sg, ds) := parse_sign l in
  match ds with
  | [] => None
  | _ => match parse_digits 0 ds with
         | Some z => if decide (is_int64 (sg * z)) then Some (sg * z) else None
         | None => None
         end
  end.

(** ** UTF-8 *)

Definition cont_byte (b : Byte.byte) : bool := byte_in 128 191 b.

(** [utf8.DecodeRune]: the length of the well-formed sequence at the head. *)
Definition rune_len (l : bytes) : option nat :=
  match l with
  | [] => None
  | b0 :: l1 =>
      if b2z b0 <? 128 then Some 1%nat
      else match l1 with
      | b1 :: l2 =>
          if byte_in 194 223 b0 && cont_byte b1 then Some 2%nat
          else match l2 with
          | b2 :: l3 =>
              if ((Byte.eqb b0 xe0 && byte_in 160 191 b1)
                  || (byte_in 225 236 b0 && cont_byte b1)
                  || (Byte.eqb b0 xed && byte_in 128 159 b1)
                  || (byte_in 238 239 b0 && cont_byte b1)) && cont_byte b2 then Some 3%nat
              else match l3 with
              | b3 :: _ =>
                  if ((Byte.eqb b0 xf0 && byte_in 144 191 b1)
                      || (byte_in 241 243 b0 && cont_byte b1)
                      || (Byte.eqb b0 xf4 && byte_in 128 143 b1))
                     && cont_byte b2 && cont_byte b3 then Some 4%nat else None
              | [] => None
              end
          | [] => None
          end
      | [] => None
      end
  end.

(** [utf8.EncodeRune] *)
Definition encode_rune (r : Z) : bytes :=
  if r <? 128 then [z2b r]
  else if r <? 2048 then [z2b (192 + r / 64); z2b (128 + r mod 64)]
  else if r <? 65536 then [z2b (224 + r / 4096); z2b (128 + r / 64 mod 64); z2b (128 + r mod 64)]
  else [z2b (240 + r / 262144); z2b (128 + r / 4096 mod 64);
        z2b (128 + r / 64 mod 64); z2b (128 + r mod 64)].

Definition rune_error : bytes := [xef; xbf; xbd].

(** [%q] of [fmt] ([strconv.Quote]); a well-formed rune outside ASCII is
    taken to be printable. *)
Definition quote_byte (b : Byte.byte) : bytes :=
  if Byte.eqb b x22 || Byte.eqb b x5c then [x5c; b]
  else if Byte.eqb b x07 then [x5c; x61]
  else if Byte.eqb b x08 then [x5c; x62]
  else if Byte.eqb b x0c then [x5c; x66]
  else if Byte.eqb b x0a then [x5c; x6e]
  else if Byte.eqb b x0d then [x5c; x72]
  else if Byte.eqb b x09 then [x5c; x74]
  else if Byte.eqb b x0b then [x5c; x76]
  else if (b2z b <? 32) || (127 <=? b2z b)
       then [x5c; x78; hex_char (b2z b / 16); hex_char (b2z b mod 16)]
  else [b].

Fixpoint quote_bytes (fuel : nat) (l : bytes) : bytes :=
  match fuel, l with
  | O, _ | _, [] => []
  | S f, b :: r =>
      match rune_len l with
      | Some (S (S n)) => take (S (S n)) l ++ quote_bytes f (drop (S (S n)) l)
      | _ => quote_byte b ++ quote_bytes f r
      end
  end.

Definition fmt_q (s : string) : string :=
  let b := go_bytes s in go_string (x22 :: quote_bytes (length b) b ++ [x22]).

(** [%d] *)
Definition fmt_d (z : Z) : string := pretty z.

(** ** Facts *)

Lemma strip_prefix_app p l : strip_prefix p (p ++ l) = Some l.
Proof. by apply strip_prefix_Some. Qed.

Lemma HasPrefix_app p s : HasPrefix (p +:+ s) p = true.
Proof. unfold HasPrefix. by rewrite go_bytes_app, strip_prefix_app. Qed.

Lemma TrimPrefix_app p s : TrimPrefix (p +:+ s) p = s.
Proof. unfold TrimPrefix. by rewrite go_bytes_app, strip_prefix_app, go_string_bytes. Qed.

Lemma split_bytes_app sep w l :
  sep ∉ w -> split_bytes sep (w ++ sep :: l) = w :: split_bytes sep l.
Proof.
  induction w as [|b w IH]; intros Hn; simpl.
  - destruct (split_bytes sep l) eqn:E; [destruct l; simpl in E; repeat case_match; done|].
    by rewrite byte_eqb_refl.
  - rewrite IH by set_solver. destruct (Byte.eqb b sep) eqn:E; [|done].
    apply byte_eqb_eq in E. set_solver.
Qed.

Lemma split_bytes_none sep w : sep ∉ w -> split_bytes sep w = [w].
Proof.
  induction w as [|b w IH]; intros Hn; simpl; [done|].
  rewrite IH by set_solver. destruct (Byte.eqb b sep) eqn:E; [|done].
  apply byte_eqb_eq in E. set_solver.
Qed.

(** *** Compound keys [a|b]

    A name is [plain] when it does not contain the separator.  A compound
    key determines its parts when one of them is plain. *)

Definition sep : Byte.byte := x7c.
Definition plain_name (s : string) : Prop := sep ∉ go_bytes s.

#[export] Instance plain_name_dec s : Decision (plain_name s).
Proof. unfold plain_name. apply _. Defined.

Lemma split_bytes_nonempty c l : split_bytes c l <> [].
Proof. destruct l; simpl; repeat case_match; done. Qed.

Lemma split_bytes_snoc c x y :
  c ∉ y -> split_bytes c (x ++ c :: y) = split_bytes c x ++ [y].
Proof.
  intros Hy. induction x as [|b x IH]; simpl.
  - by rewrite split_bytes_none, byte_eqb_refl by done.
  - rewrite IH. destruct (split_bytes c x) as [|w ws] eqn:E.
    + by apply split_bytes_nonempty in E.
    + simpl. by destruct (Byte.eqb b c).
Qed.

Lemma key_bytes x y : go_bytes (x +:+ "|" +:+ y) = go_bytes x ++ sep :: go_bytes y.
Proof. by rewrite !go_bytes_app. Qed.

Lemma key_inj_r x y x' y' :
  plain_name y -> plain_name y' ->
  x +:+ "|" +:+ y = x' +:+ "|" +:+ y' -> x = x' /\ y = y'.
Proof.
  intros Hy Hy' He. apply (f_equal go_bytes) in He. rewrite !key_bytes in He.
  pose proof (f_equal (split_bytes sep) He) as Hs.
  rewrite !split_bytes_snoc in Hs by done.
  apply app_inj_2 in Hs as [_ [= Hyy]]; [|done].
  rewrite Hyy in He. apply app_inj_2 in He as [Hxx _]; [|done].
  split; by apply (inj go_bytes).
Qed.

(** *** Hexadecimal round trip *)

Lemma hex_digit_char z : 0 <= z < 16 -> hex_digit (hex_char z) = Some z.
Proof.
  intros Hz. unfold hex_digit, hex_char. rewrite b2z_z2b.
  destruct (z <? 10) eqn:E; (rewrite Z.mod_small by lia); repeat case_match; f_equal; lia.
Qed.

Lemma hex_decode_encode l : hex_decode (hex_encode l) = Some l.
Proof.
  induction l as [|b l IH]; [done|]. cbn [hex_encode hex_decode].
  pose proof (b2z_range b).
  rewrite !hex_digit_char by zlia. rewrite IH. do 2 f_equal.
  transitivity (z2b (b2z b)); [f_equal; zlia | apply z2b_b2z].
Qed.

Lemma HexDecode_Encode b : HexDecodeString (HexEncodeToString b) = Some b.
Proof. unfold HexDecodeString, HexEncodeToString. by rewrite go_bytes_string, hex_decode_encode. Qed.

(** *** Base64 round trip *)

Lemma b64_val_char z : 0 <= z < 64 -> b64_val (b64_char z) = Some z.
Proof.
  intros Hz. unfold b64_val, b64_char. rewrite b2z_z2b.
  repeat case_match; simplify_eq; rewrite ?Z.mod_small in * by lia; f_equal; lia.
Qed.

Lemma b64_char_alphabet z : 0 <= z < 64 -> is_newline (b64_char z) = false.
Proof.
  intros Hz. unfold is_newline. apply orb_false_iff.
  split; apply not_true_iff_false; intros H; apply byte_eqb_eq in H;
    apply (f_equal b64_val) in H; rewrite b64_val_char in H by done; vm_compute in H; done.
Qed.

(** Induction three bytes at a time. *)
Lemma list_ind_3 {A} (P : list A -> Prop) :
  P [] -> (forall a, P [a]) -> (forall a b, P [a; b]) ->
  (forall a b c l, P l -> P (a :: b :: c :: l)) -> forall l, P l.
Proof.
  intros H0 H1 H2 H3. fix IH 1. intros [|a [|b [|c l]]];
    [exact H0 | apply H1 | apply H2 | apply H3, IH].
Qed.

Lemma sextet3 v : 0 <= v < 2^24 ->
  v / 2^18 * 2^18 + (v / 2^12 mod 64) * 2^12 + (v / 2^6 mod 64) * 2^6 + v mod 64 = v.
Proof. intros. zlia. Qed.

Lemma z2b_shift a x : 0 <= x -> x = b2z a + 256 * (x / 256) -> z2b x = a.
Proof.
  intros Hx He. unfold z2b. rewrite He, Z.mul_comm, Z.mod_add by lia.
  rewrite Z.mod_small by apply b2z_range. unfold b2z. by rewrite N2Z.id, Byte.of_to_N.
Qed.

Ltac byte_bounds := repeat match goal with
  | b : Byte.byte |- _ =>
      lazymatch goal with
      | H : 0 <= b2z b < 256 |- _ => fail
      | _ => pose proof (b2z_range b)
      end
  end.

Lemma b64_decode_encode pad l : b64_decode pad (b64_encode pad l) = Some l.
Proof.
  induction l as [|a|a b|a b c l IH] using list_ind_3; [done| | |];
    cbn -[Z.pow Z.mul Z.div Z.modulo]; pose proof (b2z_range a).
  - destruct pad; cbn -[Z.pow Z.mul Z.div Z.modulo b64_val];
      rewrite !b64_val_char by zlia; cbn -[Z.pow Z.mul Z.div Z.modulo];
      do 2 f_equal; apply z2b_shift; zlia.
  - pose proof (b2z_range b).
    destruct pad; cbn -[Z.pow Z.mul Z.div Z.modulo b64_val];
      rewrite !b64_val_char by zlia; cbn -[Z.pow Z.mul Z.div Z.modulo];
      repeat f_equal; apply z2b_shift; zlia.
  - pose proof (b2z_range b). pose proof (b2z_range c).
    rewrite !b64_val_char by zlia. rewrite IH.
    rewrite sextet3 by lia.
    repeat f_equal; apply z2b_shift; zlia.
Qed.

Lemma b64_encode_no_newline pad l :
  List.filter (fun b => negb (is_newline b)) (b64_encode pad l) = b64_encode pad l.
Proof.
  induction l as [|a|a b|a b c l IH] using list_ind_3; [done| | |];
    byte_bounds; cbn -[Z.pow Z.mul Z.div Z.modulo is_newline];
    rewrite !b64_char_alphabet by zlia; simpl; rewrite ?IH; by destruct pad.
Qed.

Lemma b64_roundtrip pad l :
  b64_DecodeString pad (go_string (b64_encode pad l)) = Some l.
Proof.
  unfold b64_DecodeString.
  by rewrite go_bytes_string, b64_encode_no_newline, b64_decode_encode.
Qed.

(** *** Big-endian round trip *)

Lemma length_put_be n z : length (put_be n z) = n.
Proof. induction n; simpl; auto. Qed.

Lemma be_uint_range l : 0 <= be_uint l < 2 ^ (8 * Z.of_nat (length l)).
Proof.
  induction l as [|b l IH]; simpl; [lia|].
  pose proof (b2z_range b).
  replace (8 * Z.of_nat (S (length l))) with (8 + 8 * Z.of_nat (length l)) by lia.
  rewrite Z.pow_add_r by lia. nia.
Qed.

Lemma be_uint_put_be n z : be_uint (put_be n z) = z mod 2 ^ (8 * Z.of_nat n).
Proof.
  induction n as [|n IH]; cbn [put_be be_uint].
  - by rewrite Z.mod_1_r.
  - rewrite length_put_be, IH, b2z_z2b.
    replace (8 * Z.of_nat (S n)) with (8 * Z.of_nat n + 8) by lia.
    rewrite Z.pow_add_r by lia. change (2^8) with 256.
    set (p := 2 ^ (8 * Z.of_nat n)). assert (0 < p) by (apply Z.pow_pos_nonneg; lia).
    rewrite (Z.rem_mul_r z p 256) by lia. lia.
Qed.

Lemma be_uint_inj l1 l2 : length l1 = length l2 -> be_uint l1 = be_uint l2 -> l1 = l2.
Proof.
  revert l2. induction l1 as [|a l1 IH]; intros [|b l2]; try done.
  intros [= Hl] He. simpl in He. rewrite Hl in He.
  pose proof (be_uint_range l1) as H1. pose proof (be_uint_range l2) as H2.
  rewrite Hl in H1. pose proof (b2z_range a). pose proof (b2z_range b).
  assert (b2z a = b2z b) as Hab by nia.
  apply b2z_inj in Hab as ->. f_equal. apply IH; [done|nia].
Qed.

Lemma put_be_be_uint l : put_be (length l) (be_uint l) = l.
Proof.
  apply be_uint_inj; [apply length_put_be|].
  rewrite be_uint_put_be. apply Z.mod_small, be_uint_range.
Qed.

(** *** Decimal text never holds the key separator *)

Lemma plain_cons a s : Ascii.byte_of_ascii a <> sep -> plain_name s -> plain_name (String a s).
Proof.
  intros Ha Hs. unfold plain_name.
  change (go_bytes (String a s)) with (Ascii.byte_of_ascii a :: go_bytes s).
  rewrite not_elem_of_cons. by split; [congruence|].
Qed.

Lemma plain_pretty_N_go x s : plain_name s -> plain_name (pretty_N_go x s).
Proof.
  revert s. induction (N.lt_wf_0 x) as [x _ IH]; intros s Hs.
  assert (x = 0 \/ 0 < x)%N as [->|Hx] by lia; [by rewrite pretty_N_go_0|].
  rewrite pretty_N_go_step by done. apply IH; [by apply N.div_lt|].
  apply plain_cons; [|done]. unfold pretty_N_char. by repeat case_match.
Qed.

Lemma plain_fmt_d z : plain_name (fmt_d z).
Proof.
  assert (forall p, plain_name (pretty (Npos p))) as HN.
  { intros p. unfold pretty, pretty_N. simpl. apply plain_pretty_N_go.
    by apply (bool_decide_unpack _). }
  unfold fmt_d. destruct z as [|p|p]; [by apply (bool_decide_unpack _)|apply HN|].
  apply (plain_cons (Ascii.ascii_of_byte x2d)); [done|]. apply HN.
Qed.
