(* ===== verification/GoJson.v ===== *)
(** * [encoding/json], as far as the service uses it

    [json.Valid], [json.Unmarshal] into structs and [json.Marshal] of
    structs, on the bytes of the text.  A parsed value keeps the bytes it was
    read from, because [json.RawMessage] does.  The parser recurses on fuel;
    [parse_fuel] below shows that the fuel [json_parse] gives is enough for
    every input. *)

From S2P Require Import Prelude GoStrings.
Local Open Scope Z_scope.

Inductive json :=
| JNull
| JBool (b : bool)
| JNum (lit : bytes)
| JStr (s : string)
| JArr (l : list (bytes * json))
| JObj (l : list (string * (bytes * json))).

(** A value with its source text. *)
Abbreviation jval := (bytes * json)%type.

(** ** Lexical level *)

Definition is_ws (b : Byte.byte) : bool :=
  Byte.eqb b x20 || Byte.eqb b x09 || Byte.eqb b x0a || Byte.eqb b x0d.

Fixpoint skip_ws (l : bytes) : bytes :=
  match l with
  | b :: l' => if is_ws b then skip_ws l' else l
  | [] => []
  end.

Definition is_hex (b : Byte.byte) : bool :=
  match hex_digit b with Some _ => true | None => false end.

Definition is_simple_escape (b : Byte.byte) : bool :=
  existsb (Byte.eqb b) [x22; x5c; x2f; x62; x66; x6e; x72; x74].

(** The body of a string literal up to its closing quote: (body, rest). *)
Fixpoint scan_str (l : bytes) : option (bytes * bytes) :=
  match l with
  | [] => None
  | b :: l' =>
      if Byte.eqb b x22 then Some ([], l')
      else if Byte.eqb b x5c then
        match l' with
        | [] => None
        | e :: l'' =>
            if is_simple_escape e then
              match scan_str l'' with Some (s, r) => Some (b :: e :: s, r) | None => None end
            else if Byte.eqb e x75 then
              match l'' with
              | h1 :: h2 :: h3 :: h4 :: r0 =>
                  if is_hex h1 && is_hex h2 && is_hex h3 && is_hex h4 then
                    match scan_str r0 with
                    | Some (s, r) => Some (b :: e :: h1 :: h2 :: h3 :: h4 :: s, r)
                    | None => None
                    end
                  else None
              | _ => None
              end
            else None
        end
      else if b2z b <? 32 then None
      else match scan_str l' with Some (s, r) => Some (b :: s, r) | None => None end
  end.

Definition hex4 (a b c d : Byte.byte) : Z :=
  let h x := default 0 (hex_digit x) in 4096 * h a + 256 * h b + 16 * h c + h d.

Definition unescape (e : Byte.byte) : Byte.byte :=
  if Byte.eqb e x62 then x08 else if Byte.eqb e x66 then x0c
  else if Byte.eqb e x6e then x0a else if Byte.eqb e x72 then x0d
  else if Byte.eqb e x74 then x09 else e.

(** [getu4]: the code unit of a [\uXXXX] at the head, and the rest. *)
Definition getu4 (l : bytes) : option (Z * bytes) :=
  match l with
  | s :: u :: a :: b :: c :: d :: r =>
      if Byte.eqb s x5c && Byte.eqb u x75 && is_hex a && is_hex b && is_hex c && is_hex d
      then Some (hex4 a b c d, r) else None
  | _ => None
  end.

Definition is_surrogate (u : Z) : bool := (55296 <=? u) && (u <? 57344).

(** [unquoteBytes] on a scanned body. *)
Fixpoint unquote (fuel : nat) (l : bytes) : bytes :=
  match fuel with
  | O => []
  | S f =>
      match l with
      | [] => []
      | b :: r =>
          if Byte.eqb b x5c then
            match getu4 l with
            | Some (u, r1) =>
                if is_surrogate u then
                  match getu4 r1 with
                  | Some (v, r2) =>
                      if (u <? 56320) && (56320 <=? v) && (v <? 57344)
                      then encode_rune (65536 + (u - 55296) * 1024 + (v - 56320)) ++ unquote f r2
                      else rune_error ++ unquote f r1
                  | None => rune_error ++ unquote f r1
                  end
                else encode_rune u ++ unquote f r1
            | None =>
                match r with
                | e :: r1 => unescape e :: unquote f r1
                | [] => []
                end
            end
          else if b2z b <? 128 then b :: unquote f r
          else match rune_len l with
               | Some n => take n l ++ unquote f (drop n l)
               | None => rune_error ++ unquote f r
               end
      end
  end.

Definition json_string (body : bytes) : string := go_string (unquote (length body) body).

Fixpoint skip_digits (l : bytes) : bytes :=
  match l with
  | b :: l' => match digit b with Some _ => skip_digits l' | None => l end
  | [] => []
  end.

Definition skip_digits1 (l : bytes) : option bytes :=
  match l with
  | b :: l' => match digit b with Some _ => Some (skip_digits l') | None => None end
  | [] => None
  end.

Definition skip_byte (c : Byte.byte) (l : bytes) : option bytes := strip_prefix [c] l.

(** The rest after a number literal. *)
Definition scan_int (l : bytes) : option bytes :=
  let l1 := default l (skip_byte x2d l) in
  match skip_byte x30 l1 with Some l' => Some l' | None => skip_digits1 l1 end.

Definition scan_frac (l : bytes) : option bytes :=
  match skip_byte x2e l with Some l' => skip_digits1 l' | None => Some l end.

Definition scan_exp (l : bytes) : option bytes :=
  match l with
  | b :: l' =>
      if Byte.eqb b x65 || Byte.eqb b x45 then
        match l' with
        | c :: l'' => if Byte.eqb c x2b || Byte.eqb c x2d then skip_digits1 l'' else skip_digits1 l'
        | [] => None
        end
      else Some l
  | [] => Some l
  end.

Definition scan_num (l : bytes) : option bytes :=
  match scan_int l with
  | None => None
  | Some l1 => match scan_frac l1 with None => None | Some l2 => scan_exp l2 end
  end.

(** The text of [l] before its suffix [rest]. *)
Definition consumed (l rest : bytes) : bytes := take (length l - length rest) l.

(** ** Values *)

Definition maxNestingDepth : Z := 10000.

Definition lit_true : bytes := [x74; x72; x75; x65].
Definition lit_false : bytes := [x66; x61; x6c; x73; x65].
Definition lit_null : bytes := [x6e; x75; x6c; x6c].

Definition parse_lit (l : bytes) : option (jval * bytes) :=
  match strip_prefix lit_true l with
  | Some r => Some ((lit_true, JBool true), r)
  | None =>
      match strip_prefix lit_false l with
      | Some r => Some ((lit_false, JBool false), r)
      | None =>
          match strip_prefix lit_null l with
          | Some r => Some ((lit_null, JNull), r)
          | None =>
              match scan_num l with
              | Some r => Some ((consumed l r, JNum (consumed l r)), r)
              | None => None
              end
          end
      end
  end.

(** A separator of [parse_elems] and [parse_members]: a comma, or the
    closing bracket. *)
Definition next_sep (close : Byte.byte) (l : bytes) : option (bool * bytes) :=
  match skip_ws l with
  | b :: r => if Byte.eqb b x2c then Some (true, skip_ws r)
              else if Byte.eqb b close then Some (false, r) else None
  | [] => None
  end.

Definition head_is (c : Byte.byte) (l : bytes) : bool :=
  match l with b :: _ => Byte.eqb b c | [] => false end.

Fixpoint parse_value (fuel : nat) (depth : Z) (l : bytes) {struct fuel} : option (jval * bytes) :=
  match fuel with
  | O => None
  | S f =>
      match l with
      | [] => None
      | b :: r =>
          if Byte.eqb b x22 then
            match scan_str r with
            | Some (body, r') => Some ((consumed l r', JStr (json_string body)), r')
            | None => None
            end
          else if Byte.eqb b x5b then
            if maxNestingDepth <=? depth then None
            else if head_is x5d (skip_ws r) then
              let r' := drop 1 (skip_ws r) in Some ((consumed l r', JArr []), r')
            else match parse_elems f (depth + 1) (skip_ws r) with
                 | Some (vs, r') => Some ((consumed l r', JArr vs), r')
                 | None => None
                 end
          else if Byte.eqb b x7b then
            if maxNestingDepth <=? depth then None
            else if head_is x7d (skip_ws r) then
              let r' := drop 1 (skip_ws r) in Some ((consumed l r', JObj []), r')
            else match parse_members f (depth + 1) (skip_ws r) with
                 | Some (ms, r') => Some ((consumed l r', JObj ms), r')
                 | None => None
                 end
          else parse_lit l
      end
  end
with parse_elems (fuel : nat) (depth : Z) (l : bytes) {struct fuel} : option (list jval * bytes) :=
  match fuel with
  | O => None
  | S f =>
      match parse_value f depth l with
      | None => None
      | Some (v, r) =>
          match next_sep x5d r with
          | Some (true, r') =>
              match parse_elems f depth r' with
              | Some (vs, r'') => Some (v :: vs, r'')
              | None => None
              end
          | Some (false, r') => Some ([v], r')
          | None => None
          end
      end
  end
with parse_members (fuel : nat) (depth : Z) (l : bytes) {struct fuel}
    : option (list (string * jval) * bytes) :=
  match fuel with
  | O => None
  | S f =>
      if head_is x22 l then
        match scan_str (drop 1 l) with
        | None => None
        | Some (body, r1) =>
            if head_is x3a (skip_ws r1) then
              match parse_value f depth (skip_ws (drop 1 (skip_ws r1))) with
              | None => None
              | Some (v, r3) =>
                  match next_sep x7d r3 with
                  | Some (true, r4) =>
                      match parse_members f depth r4 with
                      | Some (ms, r5) => Some ((json_string body, v) :: ms, r5)
                      | None => None
                      end
                  | Some (false, r4) => Some ([(json_string body, v)], r4)
                  | None => None
                  end
              end
            else None
        end
      else None
  end.

Definition json_parse (l : bytes) : option jval :=
  match parse_value (S (2 * length l)) 0 (skip_ws l) with
  | Some (v, r) => match skip_ws r with [] => Some v | _ => None end
  | None => None
  end.

(** [json.Valid] *)
Definition json_Valid (l : bytes) : bool :=
  match json_parse l with Some _ => true | None => false end.

(** ** [json.Unmarshal]

    A decoder takes the value the target already holds: [null] leaves it
    alone, and a struct keeps the fields the object does not mention. *)

Definition decoder (T : Type) : Type := T -> jval -> option T.

Definition dec_string : decoder string := fun old v =>
  match v.2 with JStr s => Some s | JNull => Some old | _ => None end.

Definition dec_bool : decoder bool := fun old v =>
  match v.2 with JBool b => Some b | JNull => Some old | _ => None end.

Definition dec_int64 : decoder Z := fun old v =>
  match v.2 with JNum n => ParseInt64 n | JNull => Some old | _ => None end.

(** [json.RawMessage]: [nil] is [None]. *)
Definition dec_raw : decoder (option bytes) := fun _ v => Some (Some v.1).

Fixpoint dec_strings_from (l : list jval) : option (list string) :=
  match l with
  | [] => Some []
  | v :: l' => match dec_string "" v, dec_strings_from l' with
               | Some s, Some r => Some (s :: r)
               | _, _ => None
               end
  end.

(** [[]string]; the elements of a repeated key start from [""]. *)
Definition dec_strings : decoder (list string) := fun old v =>
  match v.2 with JArr l => dec_strings_from l | JNull => Some [] | _ => None end.

(** [foldName]: ASCII letters to upper case; the two runes outside ASCII
    that fold to an ASCII letter are U+017F and U+212A. *)
Definition long_s : bytes := [xc5; xbf].
Definition kelvin : bytes := [xe2; x84; xaa].

Fixpoint fold_runes (fuel : nat) (l : bytes) : bytes :=
  match fuel, l with
  | O, _ | _, [] => []
  | S f, b :: l' =>
      match strip_prefix long_s l with
      | Some r => x53 :: fold_runes f r
      | None =>
          match strip_prefix kelvin l with
          | Some r => x4b :: fold_runes f r
          | None => (if byte_in 97 122 b then z2b (b2z b - 32) else b) :: fold_runes f l'
          end
      end
  end.

Definition fold_name (l : bytes) : bytes := fold_runes (length l) l.

Definition field (T : Type) : Type := (string * decoder T)%type.

Fixpoint find_exact {T} (fs : list (field T)) (k : string) : option (decoder T) :=
  match fs with
  | [] => None
  | (n, d) :: fs' => if bool_decide (n = k) then Some d else find_exact fs' k
  end.

Fixpoint find_folded {T} (fs : list (field T)) (k : bytes) : option (decoder T) :=
  match fs with
  | [] => None
  | (n, d) :: fs' => if bool_decide (fold_name (go_bytes n) = k) then Some d else find_folded fs' k
  end.

Definition find_field {T} (fs : list (field T)) (k : string) : option (decoder T) :=
  match find_exact fs k with
  | Some d => Some d
  | None => find_folded fs (fold_name (go_bytes k))
  end.

Fixpoint dec_members {T} (fs : list (field T)) (old : T) (ms : list (string * jval)) : option T :=
  match ms with
  | [] => Some old
  | (k, v) :: ms' =>
      match find_field fs k with
      | None => dec_members fs old ms'
      | Some d => match d old v with
                  | Some new => dec_members fs new ms'
                  | None => None
                  end
      end
  end.

Definition dec_struct {T} (fs : list (field T)) : decoder T := fun old v =>
  match v.2 with JObj ms => dec_members fs old ms | JNull => Some old | _ => None end.

(** [json.Unmarshal(text, &x)], [x] holding [old]. *)
Definition Unmarshal {T} (d : decoder T) (old : T) (text : bytes) : option T :=
  match json_parse text with Some v => d old v | None => None end.

(** ** [json.Marshal] *)

Definition u00 (b : Byte.byte) : bytes :=
  [x5c; x75; x30; x30; hex_char (b2z b / 16); hex_char (b2z b mod 16)].

Definition is_html (b : Byte.byte) : bool := Byte.eqb b x3c || Byte.eqb b x3e || Byte.eqb b x26.

Definition escape_byte (b : Byte.byte) : bytes :=
  if Byte.eqb b x22 || Byte.eqb b x5c then [x5c; b]
  else if Byte.eqb b x08 then [x5c; x62]
  else if Byte.eqb b x0c then [x5c; x66]
  else if Byte.eqb b x0a then [x5c; x6e]
  else if Byte.eqb b x0d then [x5c; x72]
  else if Byte.eqb b x09 then [x5c; x74]
  else if is_html b || (b2z b <? 32) then u00 b
  else [b].

(** U+2028 and U+2029, the last byte giving which. *)
Definition line_sep (l : bytes) : option (Byte.byte * bytes) :=
  match strip_prefix [xe2; x80] l with
  | Some (c :: r) => if Byte.eqb c xa8 || Byte.eqb c xa9 then Some (c, r) else None
  | _ => None
  end.

Definition u202 (c : Byte.byte) : bytes :=
  [x5c; x75; x32; x30; x32; hex_char (b2z c - 160)].

Fixpoint escape_str (fuel : nat) (l : bytes) : bytes :=
  match fuel, l with
  | O, _ | _, [] => []
  | S f, b :: r =>
      if b2z b <? 128 then escape_byte b ++ escape_str f r
      else match line_sep l with
           | Some (c, r') => u202 c ++ escape_str f r'
           | None =>
               match rune_len l with
               | Some n => take n l ++ escape_str f (drop n l)
               | None => [x5c; x75; x66; x66; x66; x64] ++ escape_str f r
               end
           end
  end.

Definition enc_string (s : string) : bytes :=
  let b := go_bytes s in x22 :: escape_str (length b) b ++ [x22].

Definition enc_int (z : Z) : bytes := go_bytes (pretty z).
Definition enc_bool (b : bool) : bytes := go_bytes (if b then "true" else "false").

Fixpoint sep_by (sep : bytes) (ls : list bytes) : bytes :=
  match ls with
  | [] => []
  | [x] => x
  | x :: ls' => x ++ sep ++ sep_by sep ls'
  end.

Definition enc_array (ls : list bytes) : bytes := x5b :: sep_by [x2c] ls ++ [x5d].

(** A struct: its fields with their encoded values, in order. *)
Definition enc_struct (fs : list (string * bytes)) : bytes :=
  x7b :: sep_by [x2c] ((fun f => enc_string f.1 ++ x3a :: f.2) <$> fs) ++ [x7d].

(** [omitempty] on a string and on an integer. *)
Definition omit_string (k v : string) : list (string * bytes) :=
  if bool_decide (v = "") then [] else [(k, enc_string v)].
Definition omit_int (k : string) (v : Z) : list (string * bytes) :=
  if v =? 0 then [] else [(k, enc_int v)].

(** [json.Compact] with HTML escaping, as [Marshal] applies it to a
    [json.RawMessage]; [in_str] and [esc] follow the scanner's state. *)
Fixpoint compact_from (fuel : nat) (in_str esc : bool) (l : bytes) : bytes :=
  match fuel, l with
  | O, _ | _, [] => []
  | S f, b :: r =>
      match line_sep l with
      | Some (c, r') => u202 c ++ compact_from f in_str false r'
      | None =>
          if in_str then
            (if is_html b then u00 b else [b]) ++
            (if esc then compact_from f true false r
             else if Byte.eqb b x5c then compact_from f true true r
             else compact_from f (negb (Byte.eqb b x22)) false r)
          else if is_ws b then compact_from f false false r
          else b :: compact_from f (Byte.eqb b x22) false r
      end
  end.

Definition compact (l : bytes) : bytes := compact_from (length l) false false l.

(** [RawMessage.MarshalJSON]: [nil] is [null]; an invalid text is an error. *)
Definition enc_raw (m : option bytes) : option bytes :=
  match m with
  | None => Some (go_bytes "null")
  | Some t => if json_Valid t then Some (compact t) else None
  end.

(** ** Examples *)

(** JSON text written with single quotes. *)
Definition jtext (s : string) : bytes :=
  (fun b => if Byte.eqb b x27 then x22 else b) <$> go_bytes s.

Example parse_int_ex : Unmarshal dec_int64 0 (go_bytes " 42 ") = Some 42.
Proof. vm_compute. reflexivity. Qed.

Example parse_nested_ex :
  json_Valid (jtext "{'a' : [1, -2.5e+3, 'x\u00e9\n', true, null, {}], 'b':{} } ") = true.
Proof. vm_compute. reflexivity. Qed.

Example parse_bad_ex :
  map (fun s => json_Valid (jtext s)) ["01"; "[1,]"; "{1:2}"; "tru"; "1 2"; ""; "'"; "{'a' 1}"; "-"; "1.e3"]
  = repeat false 10.
Proof. vm_compute. reflexivity. Qed.

Example unquote_ex :
  Unmarshal dec_string "" (jtext "'a\u0041\ud83d\ude00\ud800\/'")
  = Some (go_string ([x61; x41; xf0; x9f; x98; x80] ++ rune_error ++ [x2f])).
Proof. vm_compute. reflexivity. Qed.

Example fold_ex :
  Unmarshal (dec_struct [("2fa_session_id", fun _ v => dec_string "" v)]) ""
    (jtext "{'other':1, '2FA_Se\u017fsion_id' : 'x'}") = Some "x".
Proof. vm_compute. reflexivity. Qed.

Example raw_ex :
  option_map fst (Unmarshal (dec_struct [("d", fun o v => (fun r => (r, 0%nat)) <$> dec_raw o.1 v)])
    (None, 0%nat) (jtext "{'d': {'x' : [1, 2]} }")) = Some (Some (jtext "{'x' : [1, 2]}")).
Proof. vm_compute. reflexivity. Qed.

Example compact_ex :
  enc_raw (Some (jtext "{'x' : '< \' ' , 'y':[ 1 ]}")) = Some (jtext "{'x':'\u003c \' ','y':[1]}").
Proof. vm_compute. reflexivity. Qed.

Example enc_struct_ex :
  enc_struct [("a", enc_string "b"); ("n", enc_int (-12))] = jtext "{'a':'b','n':-12}".
Proof. vm_compute. reflexivity. Qed.

(** ** The fuel of the parser is enough *)

Local Open Scope nat_scope.

Lemma skip_ws_length l : length (skip_ws l) <= length l.
Proof. induction l as [|b l IH]; simpl; [done|]. destruct (is_ws b); simpl; lia. Qed.

Lemma strip_prefix_length p l r : strip_prefix p l = Some r -> length l = length p + length r.
Proof. intros ->%strip_prefix_Some. by rewrite length_app. Qed.

Lemma scan_str_app l s r : scan_str l = Some (s, r) -> l = s ++ x22 :: r.
Proof.
  remember (length l) as n eqn:Hn. assert (length l <= n) as Hl by lia. clear Hn.
  revert l s r Hl. induction n as [|n IH]; intros l s r Hl H.
  - destruct l; [done|simpl in Hl; lia].
  - destruct l as [|b l]; [done|]. simpl in H, Hl.
    repeat case_match; simplify_eq; simpl;
      try (apply byte_eqb_eq in H0; by subst);
      match goal with H : scan_str _ = Some _ |- _ =>
        apply IH in H; [by subst | simpl in *; lia] end.
Qed.

Lemma scan_str_length l s r : scan_str l = Some (s, r) -> length r < length l.
Proof. intros ->%scan_str_app. rewrite length_app. simpl. lia. Qed.

Lemma skip_digits_length l : length (skip_digits l) <= length l.
Proof. induction l as [|b l IH]; simpl; [done|]. destruct (digit b); simpl; lia. Qed.

Lemma skip_digits1_length l r : skip_digits1 l = Some r -> length r < length l.
Proof.
  destruct l as [|b l]; [done|]. simpl. destruct (digit b); [|done].
  intros [= <-]. pose proof (skip_digits_length l). lia.
Qed.

Lemma scan_num_length l r : scan_num l = Some r -> length r < length l.
Proof.
  unfold scan_num. destruct (scan_int l) as [l1|] eqn:E1; [|done].
  assert (length l1 < length l) as H1.
  { unfold scan_int, skip_byte in E1.
    assert (length (default l (strip_prefix [x2d] l)) <= length l) as Hd.
    { destruct (strip_prefix [x2d] l) eqn:E; [|done]. apply strip_prefix_length in E. simpl in *. lia. }
    destruct (strip_prefix [x30] _) eqn:E; simplify_eq.
    - apply strip_prefix_length in E. simpl in *. lia.
    - apply skip_digits1_length in E1. lia. }
  destruct (scan_frac l1) as [l2|] eqn:E2; [|done].
  assert (length l2 <= length l1) as H2.
  { unfold scan_frac, skip_byte in E2. destruct (strip_prefix [x2e] l1) eqn:E; simplify_eq; [|done].
    apply strip_prefix_length in E. apply skip_digits1_length in E2. simpl in *. lia. }
  unfold scan_exp. intros H3.
  enough (length r <= length l2) by lia.
  repeat case_match; simplify_eq; simpl;
    try match goal with H : skip_digits1 _ = Some _ |- _ => apply skip_digits1_length in H end;
    simpl in *; lia.
Qed.

Lemma parse_lit_length l v r : parse_lit l = Some (v, r) -> length r < length l.
Proof.
  unfold parse_lit. intros H. repeat case_match; simplify_eq;
    try match goal with H : strip_prefix _ _ = Some _ |- _ => apply strip_prefix_length in H end;
    try match goal with H : scan_num _ = Some _ |- _ => apply scan_num_length in H end;
    simpl in *; lia.
Qed.

Lemma next_sep_length c l b r : next_sep c l = Some (b, r) -> length r < length l.
Proof.
  unfold next_sep. pose proof (skip_ws_length l) as Hw.
  destruct (skip_ws l) as [|x l'] eqn:E; [done|]. intros H.
  pose proof (skip_ws_length l'). repeat case_match; simplify_eq; simpl in *; lia.
Qed.

(** Turn every successful scan into its length fact. *)
Ltac json_lengths :=
  repeat match goal with
  | H : scan_str ?l = Some _ |- _ => apply scan_str_length in H
  | H : parse_lit _ = Some _ |- _ => apply parse_lit_length in H
  | H : next_sep _ _ = Some _ |- _ => apply next_sep_length in H
  end;
  repeat match goal with
  | _ : context [skip_ws ?l] |- _ =>
      lazymatch goal with
      | _ : length (skip_ws l) <= length l |- _ => fail
      | _ => pose proof (skip_ws_length l)
      end
  | |- context [skip_ws ?l] =>
      lazymatch goal with
      | _ : length (skip_ws l) <= length l |- _ => fail
      | _ => pose proof (skip_ws_length l)
      end
  end;
  rewrite ?length_drop in *; simpl length in *; lia.

Lemma parse_progress f :
  (forall d l v r, parse_value f d l = Some (v, r) -> length r < length l) /\
  (forall d l v r, parse_elems f d l = Some (v, r) -> length r < length l) /\
  (forall d l v r, parse_members f d l = Some (v, r) -> length r < length l).
Proof.
  induction f as [|f (IHv & IHe & IHm)]; [done|]. split_and!; intros d l v r H.
  - cbn [parse_value] in H. repeat case_match; simplify_eq;
      try match goal with H : parse_elems _ _ _ = _ |- _ => apply IHe in H end;
      try match goal with H : parse_members _ _ _ = _ |- _ => apply IHm in H end; json_lengths.
  - cbn [parse_elems] in H. repeat case_match; simplify_eq;
      try match goal with H : parse_value _ _ _ = _ |- _ => apply IHv in H end;
      try match goal with H : parse_elems _ _ _ = _ |- _ => apply IHe in H end; json_lengths.
  - cbn [parse_members] in H. repeat case_match; simplify_eq;
      try match goal with H : parse_value _ _ _ = _ |- _ => apply IHv in H end;
      try match goal with H : parse_members _ _ _ = _ |- _ => apply IHm in H end; json_lengths.
Qed.

(** With fuel linear in the text, more fuel changes nothing. *)
Lemma parse_fuel n :
  (forall f g d l, length l <= n -> S (2 * length l) <= f -> S (2 * length l) <= g ->
     parse_value f d l = parse_value g d l) /\
  (forall f g d l, length l <= n -> 2 + 2 * length l <= f -> 2 + 2 * length l <= g ->
     parse_elems f d l = parse_elems g d l) /\
  (forall f g d l, length l <= n -> 2 + 2 * length l <= f -> 2 + 2 * length l <= g ->
     parse_members f d l = parse_members g d l).
Proof.
  induction n as [n IH] using lt_wf_ind.
  assert (forall f g d l, length l <= n -> S (2 * length l) <= f -> S (2 * length l) <= g ->
     parse_value f d l = parse_value g d l) as HV.
  { intros [|f] [|g] d l Hn Hf Hg; [lia..|]. destruct l as [|b r]; [done|].
    simpl in Hn, Hf, Hg. destruct (IH (length r)) as (IHv & IHe & IHm); [lia|].
    pose proof (skip_ws_length r). cbn [parse_value].
    rewrite (IHe f g) by lia. rewrite (IHm f g) by lia. done. }
  split_and!; [done| |].
  - intros [|f] [|g] d l Hn Hf Hg; [lia..|]. cbn [parse_elems].
    rewrite (HV f g) by lia. destruct (parse_value g d l) as [[v r]|] eqn:E; [|done].
    apply parse_progress in E.
    destruct (next_sep x5d r) as [[[] r']|] eqn:E2; [|done..].
    apply next_sep_length in E2.
    destruct (IH (length r')) as (_ & IHe & _); [lia|]. by rewrite (IHe f g) by lia.
  - intros [|f] [|g] d l Hn Hf Hg; [lia..|]. cbn [parse_members].
    destruct (head_is x22 l); [|done].
    destruct (scan_str (drop 1 l)) as [[body r1]|] eqn:E1; [|done].
    destruct (head_is x3a (skip_ws r1)); [|done].
    set (l2 := skip_ws (drop 1 (skip_ws r1))).
    assert (length l2 < length l) as Hl2 by (unfold l2; json_lengths).
    rewrite (HV f g) by lia. destruct (parse_value g d l2) as [[v r3]|] eqn:E3; [|done].
    apply parse_progress in E3.
    destruct (next_sep x7d r3) as [[[] r4]|] eqn:E4; [|done..].
    apply next_sep_length in E4.
    destruct (IH (length r4)) as (_ & _ & IHm); [lia|]. by rewrite (IHm f g) by lia.
Qed.

(** [json_parse] is the parser with any larger fuel: its fuel is enough. *)
Lemma json_parse_fuel l f :
  S (2 * length l) <= f ->
  json_parse l =
    match parse_value f 0 (skip_ws l) with
    | Some (v, r) => match skip_ws r with [] => Some v | _ => None end
    | None => None
    end.
Proof.
  intros Hf. unfold json_parse. pose proof (skip_ws_length l).
  by rewrite (proj1 (parse_fuel (length l)) (S (2 * length l)) f) by lia.
Qed.
