(* ===== verification/JsonText.v ===== *)
(** * The lexical level of [encoding/json], both ways

    What [json.Marshal] writes inside strings and for integers is what the
    scanner reads back, and what compaction leaves alone, whatever follows
    it.  Strings come back as they were, up to the bytes that are not UTF-8,
    which both directions replace by U+FFFD. *)

From S2P Require Import Prelude GoStrings GoJson.
Local Open Scope Z_scope.

(** ** Runes *)

(** A string with every ill-formed byte replaced by U+FFFD. *)
Fixpoint repair_bytes (fuel : nat) (l : bytes) : bytes :=
  match fuel, l with
  | O, _ | _, [] => []
  | S f, b :: r =>
      match rune_len l with
      | Some n => take n l ++ repair_bytes f (drop n l)
      | None => rune_error ++ repair_bytes f r
      end
  end.

Definition repair (s : string) : string :=
  let b := go_bytes s in go_string (repair_bytes (length b) b).

(** [utf8.ValidString] *)
Definition ValidString (s : string) : bool := bool_decide (repair s = s).

Lemma byte_in_range lo hi b : byte_in lo hi b = true <-> lo <= b2z b <= hi.
Proof. unfold byte_in. rewrite andb_true_iff, !Z.leb_le. done. Qed.

Lemma byte_eqb_z b c : Byte.eqb b c = true <-> b2z b = b2z c.
Proof. rewrite byte_eqb_eq. split; [by intros ->|apply b2z_inj]. Qed.

(** A well-formed sequence does not depend on what follows it. *)
Definition rune (c : bytes) : Prop :=
  exists b bs, c = b :: bs /\ Forall (fun x => cont_byte x = true) bs /\
    (b2z b < 128 -> bs = []) /\ (b = xe2 -> length bs = 2%nat) /\
    forall x, rune_len (c ++ x) = Some (length c).

Ltac rune_bools :=
  repeat match goal with
  | H : _ && _ = true |- _ => apply andb_true_iff in H as [? ?]
  | H : _ || _ = true |- _ => apply orb_true_iff in H as [?|?]
  | H : byte_in _ _ _ = true |- _ => apply byte_in_range in H
  | H : Byte.eqb _ _ = true |- _ => apply byte_eqb_eq in H; subst
  end.

Ltac rune_witness bs :=
  eexists bs, _; split; [reflexivity|]; split; [reflexivity|];
  eexists _, _; split; [reflexivity|].

Lemma rune_len_rune l n :
  rune_len l = Some n -> exists c r, l = c ++ r /\ length c = n /\ rune c.
Proof.
  unfold rune. intros Hl. destruct l as [|b0 l]; [done|].
  cbn [rune_len] in Hl. destruct (b2z b0 <? 128) eqn:E0.
  { injection Hl as <-. rune_witness [b0]. split_and!; [constructor|done|by intros ->|].
    intros x. cbn. by rewrite E0. }
  destruct l as [|b1 l]; [done|].
  destruct (byte_in 194 223 b0 && cont_byte b1) eqn:E1.
  { injection Hl as <-. rune_witness [b0; b1].
    split_and!; [|intros; lia| |intros x; cbn; by rewrite E0, E1].
    - apply andb_true_iff in E1 as [_ ?]. by repeat constructor.
    - intros ->. done. }
  destruct l as [|b2 l]; [done|].
  match type of Hl with (if ?c then _ else _) = _ => destruct c eqn:E2 end.
  { injection Hl as <-. rune_witness [b0; b1; b2].
    split_and!; [|intros; lia|done|intros x; cbn; by rewrite E0, E1, E2].
    clear -E2. unfold cont_byte in *. rune_bools; repeat constructor; apply byte_in_range; lia. }
  destruct l as [|b3 l]; [done|].
  match type of Hl with (if ?c then _ else _) = _ => destruct c eqn:E3 end; [|done].
  injection Hl as <-. rune_witness [b0; b1; b2; b3].
  split_and!; [|intros; lia| |intros x; cbn; by rewrite E0, E1, E2, E3].
  - clear -E3. unfold cont_byte in *. rune_bools; repeat constructor; apply byte_in_range; lia.
  - intros ->. exfalso. revert E3. clear. cbn. done.
Qed.

(** ** Compaction

    [compact] with the fuel its argument needs, in each state of its scanner. *)

Definition compact_state (in_str esc : bool) (l : bytes) : bytes := compact_from (length l) in_str esc l.

Lemma line_sep_length l c r : line_sep l = Some (c, r) -> length l = (3 + length r)%nat.
Proof.
  unfold line_sep. destruct (strip_prefix _ l) as [[|c' r']|] eqn:E; [done| |done].
  apply strip_prefix_Some in E as ->. destruct (_ || _); [|done]. by intros [= <- <-].
Qed.

Lemma compact_fuel f s e l : (length l <= f)%nat -> compact_from f s e l = compact_state s e l.
Proof.
  unfold compact_state. revert f s e. induction l as [l IH] using (induction_ltof1 _ length).
  unfold ltof in IH. intros f s e Hf. destruct l as [|b r]; [by destruct f|].
  destruct f as [|f]; [simpl in Hf; lia|]. simpl in Hf. cbn [compact_from length].
  destruct (line_sep (b :: r)) as [[c r']|] eqn:El.
  - apply line_sep_length in El. simpl in El. f_equal.
    rewrite (IH r') by (simpl; lia). symmetry. apply IH; simpl; lia.
  - assert (forall s e, compact_from f s e r = compact_from (length r) s e r) as Hr
      by (intros; apply IH; simpl; lia).
    by rewrite !Hr.
Qed.

Lemma compact_line_sep s e l c r :
  line_sep l = Some (c, r) -> compact_state s e l = u202 c ++ compact_state s false r.
Proof.
  intros Hl. pose proof (line_sep_length _ _ _ Hl) as Hn. destruct l as [|b l]; [simpl in Hn; lia|].
  unfold compact_state at 1. cbn [compact_from length]. rewrite Hl. f_equal. apply compact_fuel.
  simpl in Hn. lia.
Qed.

Lemma compact_in_str e b l :
  line_sep (b :: l) = None ->
  compact_state true e (b :: l) = (if is_html b then u00 b else [b]) ++
    if e then compact_state true false l
    else if Byte.eqb b x5c then compact_state true true l
    else compact_state (negb (Byte.eqb b x22)) false l.
Proof. intros Hl. unfold compact_state at 1. cbn [compact_from length]. by rewrite Hl. Qed.

Lemma compact_out b l :
  line_sep (b :: l) = None ->
  compact_state false false (b :: l) =
    if is_ws b then compact_state false false l else b :: compact_state (Byte.eqb b x22) false l.
Proof. intros Hl. unfold compact_state at 1. cbn [compact_from length]. by rewrite Hl. Qed.

(** ** String bodies *)

(** A piece of an escaped body [c] that stands for [d]: the scanner and the
    compaction pass over it, and it unquotes to [d]. *)
Record chunk (c d : bytes) : Prop := {
  chunk_length : (0 < length c)%nat;
  chunk_scan x : scan_str (c ++ x) = (fun p => (c ++ p.1, p.2)) <$> scan_str x;
  chunk_unquote f x : unquote (S f) (c ++ x) = d ++ unquote f x;
  chunk_compact x : compact_state true false (c ++ x) = c ++ compact_state true false x
}.

Lemma getu4_other e x : Byte.eqb e x75 = false -> getu4 (x5c :: e :: x) = None.
Proof.
  intros He. destruct x as [|? [|? [|? [|? ?]]]]; try done. cbn.
  by rewrite He.
Qed.

(** Where the bytes of [c] are known, everything but the rest computes. *)
Ltac solve_chunk :=
  match goal with |- chunk ?c ?d => let e := eval vm_compute in c in change (chunk e d) end;
  split;
    [ cbn; lia
    | intros x; cbn; destruct (scan_str x) as [[]|]; reflexivity
    | intros f x; cbn [app unquote];
      first [(rewrite getu4_other by reflexivity); reflexivity | reflexivity]
    | intros x; reflexivity ].

Lemma chunk_escape b : (b2z b <? 128) = true -> chunk (escape_byte b) [b].
Proof. destruct b; try discriminate; intros _; solve_chunk. Qed.

Lemma chunk_line_sep c : Byte.eqb c xa8 || Byte.eqb c xa9 = true -> chunk (u202 c) [xe2; x80; c].
Proof. destruct c; try discriminate; intros _; solve_chunk. Qed.

Lemma chunk_rune_error : chunk [x5c; x75; x66; x66; x66; x64] rune_error.
Proof. solve_chunk. Qed.

(** A byte of a longer rune means nothing to the scanner. *)
Definition high (b : Byte.byte) : Prop := 128 <= b2z b.

Lemma high_plain b :
  high b -> Byte.eqb b x22 = false /\ Byte.eqb b x5c = false /\ (b2z b <? 32) = false /\
    is_html b = false /\ (b2z b <? 128) = false.
Proof. unfold high. destruct b; try (intros Hb; exfalso; revert Hb; vm_compute; congruence); done. Qed.

Lemma cont_high b : cont_byte b = true -> high b /\ b <> xe2.
Proof. unfold high, cont_byte. rewrite byte_in_range. intros Hb. split; [lia|]. intros ->. cbn in Hb. lia. Qed.

Lemma scan_high c x : Forall high c -> scan_str (c ++ x) = (fun p => (c ++ p.1, p.2)) <$> scan_str x.
Proof.
  intros Hc. induction Hc as [|b c Hb _ IH].
  - cbn. by destruct (scan_str x) as [[]|].
  - apply high_plain in Hb as (H1 & H2 & H3 & _). cbn [app scan_str]. rewrite H1, H2, H3, IH.
    destruct (scan_str x) as [[]|]; reflexivity.
Qed.

Lemma line_sep_other b l : b <> xe2 -> line_sep (b :: l) = None.
Proof.
  intros Hb. unfold line_sep. cbn [strip_prefix]. case_match eqn:E; [|done].
  case_match eqn:E'; [|done]. apply byte_eqb_eq in E'. congruence.
Qed.

Lemma compact_high b l :
  high b -> line_sep (b :: l) = None ->
  compact_state true false (b :: l) = b :: compact_state true false l.
Proof.
  intros Hb Hl. apply high_plain in Hb as (H1 & H2 & _ & H4 & _).
  by rewrite compact_in_str, H4, H1, H2.
Qed.

Lemma compact_conts c x :
  Forall (fun b => cont_byte b = true) c ->
  compact_state true false (c ++ x) = c ++ compact_state true false x.
Proof.
  intros Hc. induction Hc as [|b c Hb _ IH]; [done|].
  apply cont_high in Hb as [Hb Hn]. cbn [app].
  rewrite compact_high by (done || by apply line_sep_other). by rewrite IH.
Qed.

Lemma chunk_rune b c :
  rune (b :: c) -> high b -> (forall x, line_sep ((b :: c) ++ x) = None) -> chunk (b :: c) (b :: c).
Proof.
  intros (b' & c' & [= <- <-] & Hc & _ & _ & Hr) Hb Hl.
  pose proof (high_plain b Hb) as (_ & H5c & _ & _ & H128). split.
  - cbn. lia.
  - intros x. apply scan_high. constructor; [done|].
    eapply Forall_impl; [exact Hc|]. intros y Hy. by apply cont_high.
  - intros f x. cbn [app unquote]. rewrite H5c, H128. cbn [app] in Hr. rewrite Hr.
    cbn [length take drop app]. by rewrite take_app_length, drop_app_length.
  - intros x. cbn [app]. rewrite compact_high by (done || apply Hl). by rewrite compact_conts.
Qed.

Inductive body : bytes -> bytes -> Prop :=
| body_nil : body [] []
| body_cons c d e l : chunk c d -> body e l -> body (c ++ e) (d ++ l).

Lemma line_sep_app c r : rune c -> line_sep (c ++ r) = None -> forall x, line_sep (c ++ x) = None.
Proof.
  intros (b & bs & -> & _ & _ & H3 & _) Hn x. destruct (decide (b = xe2)) as [->|Hb].
  - specialize (H3 eq_refl). destruct bs as [|b1 [|b2 [|? ?]]]; try done.
    revert Hn. unfold line_sep. cbn [strip_prefix app]. change (Byte.eqb xe2 xe2) with true.
    destruct (Byte.eqb x80 b1); [|done]. by destruct (_ || _).
  - by apply line_sep_other.
Qed.

Lemma body_escape f l : (length l <= f)%nat -> body (escape_str f l) (repair_bytes f l).
Proof.
  revert l. induction f as [|f IH]; intros [|b r] Hf; [exact body_nil|simpl in Hf; lia|exact body_nil|].
  cbn [escape_str repair_bytes]. simpl in Hf.
  destruct (b2z b <? 128) eqn:Hb.
  { cbn [rune_len]. rewrite Hb. cbn [take drop app]. rewrite drop_0.
    apply (body_cons (escape_byte b) [b]); [by apply chunk_escape|]. apply IH. lia. }
  assert (high b) as Hh by (unfold high; lia).
  destruct (line_sep (b :: r)) as [[c r']|] eqn:El.
  { unfold line_sep in El. destruct (strip_prefix _ _) as [[|c' r'']|] eqn:Es; try done.
    case_match; [|done]. injection El as -> ->. apply strip_prefix_Some in Es. simpl in Es.
    injection Es as -> ->.
    replace (rune_len (xe2 :: x80 :: c :: r')) with (Some 3%nat).
    2: { match goal with Hc : _ || _ = true |- _ => revert Hc end. clear. by destruct c. }
    cbn [take drop]. rewrite drop_0. apply body_cons; [by apply chunk_line_sep|]. apply IH. simpl in Hf. lia. }
  destruct (rune_len (b :: r)) as [n|] eqn:En.
  - apply rune_len_rune in En as (c & r' & Hc & <- & Hr). rewrite Hc in *.
    rewrite take_app_length, drop_app_length.
    destruct c as [|b' c]; [by destruct Hr as (? & ? & ? & _)|]. injection Hc as <- Hc.
    apply body_cons; [|apply IH; subst r; rewrite length_app in Hf; lia].
    apply chunk_rune; [done..|]. by eapply line_sep_app.
  - apply body_cons; [apply chunk_rune_error|]. apply IH. lia.
Qed.

(** A body that is scanned to its closing quote, and compact. *)
Record string_body (s : bytes) : Prop := {
  sbody_scan x : scan_str (s ++ x22 :: x) = Some (s, x);
  sbody_compact x : compact_state true false (s ++ x22 :: x) = s ++ x22 :: compact_state false false x
}.

Lemma sbody_nil : string_body [].
Proof. by split. Qed.

Lemma sbody_of_body e l : body e l -> string_body e.
Proof.
  intros Hb. induction Hb as [|c d e l Hc _ IH]; [apply sbody_nil|]. split; intros x.
  - by rewrite <- app_assoc, (chunk_scan c d), (sbody_scan e).
  - by rewrite <- !app_assoc, (chunk_compact c d), (sbody_compact e).
Qed.

Lemma body_unquote e l f : body e l -> (length e <= f)%nat -> unquote f e = l.
Proof.
  intros Hb. revert f. induction Hb as [|c d e l Hc _ IH]; intros f Hf; [by destruct f|].
  pose proof (chunk_length _ _ Hc). rewrite length_app in Hf. destruct f as [|f]; [lia|].
  rewrite (chunk_unquote c d) by done. f_equal. apply IH. lia.
Qed.

Lemma json_string_escape s :
  let b := go_bytes s in json_string (escape_str (length b) b) = repair s.
Proof.
  cbn zeta. unfold json_string, repair. f_equal. apply body_unquote; [|done]. by apply body_escape.
Qed.

(** ** Numbers *)

Definition is_digit (b : Byte.byte) : Prop := 48 <= b2z b <= 57.

Lemma digit_Some b d : digit b = Some d <-> is_digit b /\ d = b2z b - 48.
Proof.
  unfold digit, is_digit. destruct (byte_in 48 57 b) eqn:E.
  - apply byte_in_range in E. split; [by intros [= <-]|by intros [_ ->]].
  - split; [done|]. intros [Hb _]. apply byte_in_range in Hb. congruence.
Qed.

Lemma parse_digits_app acc l l' :
  parse_digits acc (l ++ l') = parse_digits acc l ≫= fun z => parse_digits z l'.
Proof.
  revert acc. induction l as [|b l IH]; intros acc; [done|]. cbn. destruct (digit b); [apply IH|done].
Qed.

(** A decimal numeral without leading zeros. *)
Definition numeral (ds : bytes) (z : Z) : Prop :=
  exists b r, ds = b :: r /\ Forall is_digit ds /\ (b = x30 -> r = []) /\ parse_digits 0 ds = Some z.

Lemma pretty_digit n : (n < 10)%N ->
  digit (Ascii.byte_of_ascii (pretty_N_char n)) = Some (Z.of_N n).
Proof.
  intros Hn. assert (n ∈ [0;1;2;3;4;5;6;7;8;9]%N) as Hin by (rewrite !elem_of_cons; lia).
  clear Hn. revert n Hin. apply list.Forall_forall. repeat constructor.
Qed.

Lemma numeral_pretty_go n s : (0 < n)%N ->
  exists ds, go_bytes (pretty_N_go n s) = ds ++ go_bytes s /\ numeral ds (Z.of_N n) /\ head ds <> Some x30.
Proof.
  revert s. induction (N.lt_wf_0 n) as [n _ IH]; intros s Hn.
  rewrite pretty_N_go_step by done.
  set (c := pretty_N_char (n `mod` 10)).
  assert (digit (Ascii.byte_of_ascii c) = Some (Z.of_N (n `mod` 10))) as Hc
    by (apply pretty_digit, N.mod_lt; done).
  pose proof (proj1 (digit_Some _ _) Hc) as [Hd Hv].
  destruct (decide (n < 10)%N) as [Hs|Hs].
  - rewrite N.div_small, pretty_N_go_0 by done. exists [Ascii.byte_of_ascii c].
    split; [done|]. rewrite N.mod_small in Hc, Hv by done. split.
    + exists (Ascii.byte_of_ascii c), []. split_and!; [done|by apply list.Forall_singleton|done|].
      cbn. by rewrite Hc.
    + cbn. intros [= Hq]. rewrite Hq in Hv. cbn in Hv. lia.
  - destruct (IH (n `div` 10)%N ltac:(by apply N.div_lt) (String c s)) as (ds & Hg & Hnum & Hh).
    { apply N.div_str_pos_iff; lia. }
    exists (ds ++ [Ascii.byte_of_ascii c]). rewrite Hg, <- app_assoc. split; [done|].
    destruct Hnum as (b & r & -> & Hall & Hz & Hp). split; [|done].
    exists b, (r ++ [Ascii.byte_of_ascii c]). split_and!; [done| | |].
    + apply (Forall_app_2 _ (b :: r) _); [done|]. by apply list.Forall_singleton.
    + intros ->. by cbn in Hh.
    + rewrite parse_digits_app, Hp. cbn [mbind option_bind parse_digits]. rewrite Hc. f_equal.
      rewrite (N.div_mod n 10) at 3 by done. lia.
Qed.

Lemma numeral_pretty n : numeral (go_bytes (pretty n)) (Z.of_N n).
Proof.
  unfold pretty, pretty_N. destruct (decide (n = 0)%N) as [->|Hn].
  - exists x30, []. split_and!; try done. apply list.Forall_singleton. vm_compute. split; congruence.
  - destruct (numeral_pretty_go n "" ltac:(lia)) as (ds & -> & Hd & _). cbn. by rewrite app_nil_r.
Qed.

Lemma enc_int_numeral z :
  exists ds, numeral ds (Z.abs z) /\ enc_int z = (if z <? 0 then [x2d] else []) ++ ds.
Proof.
  unfold enc_int. destruct z as [|p|p].
  - exists [x30]. split; [exact (numeral_pretty 0)|done].
  - exists (go_bytes (pretty (Npos p))). split; [exact (numeral_pretty (Npos p))|done].
  - exists (go_bytes (pretty (Npos p))). split; [exact (numeral_pretty (Npos p))|]. done.
Qed.

Lemma ParseInt64_enc_int z : is_int64 z -> ParseInt64 (enc_int z) = Some z.
Proof.
  intros Hz. destruct (enc_int_numeral z) as (ds & (b & r & -> & Hd & _ & Hp) & ->).
  apply Forall_cons in Hd as [Hb _].
  unfold ParseInt64. destruct (Z.ltb_spec z 0).
  - cbn [app parse_sign]. change (Byte.eqb x2d x2d) with true. cbn match. rewrite Hp.
    replace (-1 * Z.abs z) with z by lia. by rewrite decide_True.
  - cbn [app parse_sign].
    replace (Byte.eqb b x2d) with false by (symmetry; apply not_true_iff_false; rewrite byte_eqb_eq; by intros ->).
    replace (Byte.eqb b x2b) with false by (symmetry; apply not_true_iff_false; rewrite byte_eqb_eq; by intros ->).
    rewrite Hp. replace (1 * Z.abs z) with z by lia. by rewrite decide_True.
Qed.

(** *** Number literals, whatever follows *)

Definition no_digit (l : bytes) : Prop := match l with b :: _ => digit b = None | [] => True end.
Definition no_frac (l : bytes) : Prop := no_digit l /\ head_is x2e l = false.
Definition no_exp (l : bytes) : Prop := no_frac l /\ head_is x65 l = false /\ head_is x45 l = false.

Definition num_byte (b : Byte.byte) : Prop := In b [x2b; x2d; x2e; x45; x65] \/ is_digit b.

Lemma skip_digits_split l :
  exists ds, l = ds ++ skip_digits l /\ Forall is_digit ds /\
    forall x, no_digit x -> skip_digits (ds ++ x) = x.
Proof.
  induction l as [|b l (ds & Hl & Hd & Hx)].
  - exists []. split_and!; [done|constructor|]. intros [|b x]; [done|]. cbn. by intros ->.
  - cbn [skip_digits]. destruct (digit b) as [k|] eqn:E.
    + exists (b :: ds). cbn [app]. rewrite <- Hl. split_and!; [done| |].
      * constructor; [|done]. by apply digit_Some in E as [? _].
      * intros x Hn. cbn [skip_digits]. rewrite E. by apply Hx.
    + exists []. split_and!; [done|constructor|]. intros [|c x]; [done|]. cbn. by intros ->.
Qed.

Lemma skip_digits1_split l r :
  skip_digits1 l = Some r ->
  exists b ds, l = b :: ds ++ r /\ Forall is_digit (b :: ds) /\
    forall x, no_digit x -> skip_digits1 (b :: ds ++ x) = Some x.
Proof.
  destruct l as [|b l]; [done|]. cbn [skip_digits1]. destruct (digit b) as [k|] eqn:E; [|done].
  intros [= <-]. destruct (skip_digits_split l) as (ds & Hl & Hd & Hx).
  exists b, ds. rewrite <- Hl. split_and!; [done| |].
  - constructor; [|done]. by apply digit_Some in E as [? _].
  - intros x Hn. rewrite E. f_equal. by apply Hx.
Qed.

Lemma digits_num ds : Forall is_digit ds -> Forall num_byte ds.
Proof. intros Hd. eapply Forall_impl; [exact Hd|]. intros b Hb. by right. Qed.

Lemma skip_byte_Some c l r : skip_byte c l = Some r <-> l = c :: r.
Proof. apply (strip_prefix_Some [c]). Qed.

Lemma skip_byte_cons c b l : skip_byte c (b :: l) = if Byte.eqb c b then Some l else None.
Proof. done. Qed.

(** The digits of an integer part. *)
Definition scan_digits0 (l : bytes) : option bytes :=
  match skip_byte x30 l with Some l' => Some l' | None => skip_digits1 l end.

Lemma scan_digits0_split l r :
  scan_digits0 l = Some r ->
  exists b ds, l = b :: ds ++ r /\ Forall is_digit (b :: ds) /\
    forall x, no_digit x -> scan_digits0 (b :: ds ++ x) = Some x.
Proof.
  unfold scan_digits0. destruct (skip_byte x30 l) as [l'|] eqn:E.
  - intros [= <-]. apply skip_byte_Some in E as ->. exists x30, []. split_and!; [done| |done].
    apply list.Forall_singleton. vm_compute. split; congruence.
  - intros Hr. destruct (skip_digits1_split l r Hr) as (b & ds & -> & Hd & Hx).
    exists b, ds. split_and!; [done..|]. intros x Hn. revert E. rewrite !skip_byte_cons.
    destruct (Byte.eqb x30 b); [done|]. intros _. by apply Hx.
Qed.

Lemma scan_int_split l r :
  scan_int l = Some r ->
  exists b ds, l = b :: ds ++ r /\ Forall num_byte (b :: ds) /\ (b = x2d \/ is_digit b) /\
    forall x, no_digit x -> scan_int (b :: ds ++ x) = Some x.
Proof.
  change (scan_int l) with (scan_digits0 (default l (skip_byte x2d l))).
  destruct (skip_byte x2d l) as [l'|] eqn:E; cbn [default from_option id]; intros Hr;
    destruct (scan_digits0_split _ _ Hr) as (b & ds & Hl & Hd & Hx).
  - apply skip_byte_Some in E as ->. exists x2d, (b :: ds). subst. split_and!; [done| |by left|exact Hx].
    constructor; [left; cbn; tauto|]. by apply digits_num.
  - exists b, ds. subst. split_and!; [done|by apply digits_num|right; by inversion Hd|].
    intros x Hn. change (scan_digits0 (default (b :: ds ++ x) (skip_byte x2d (b :: ds ++ x))) = Some x).
    revert E. rewrite !skip_byte_cons. destruct (Byte.eqb x2d b); [done|]. intros _. by apply Hx.
Qed.

Lemma scan_frac_split l r :
  scan_frac l = Some r ->
  exists ds, l = ds ++ r /\ Forall num_byte ds /\
    forall x, no_frac x -> no_digit (ds ++ x) /\ scan_frac (ds ++ x) = Some x.
Proof.
  unfold scan_frac. destruct (skip_byte x2e l) as [l'|] eqn:E.
  - intros Hr. apply skip_byte_Some in E as ->.
    destruct (skip_digits1_split _ _ Hr) as (b & ds & -> & Hd & Hx). exists (x2e :: b :: ds).
    split_and!; [done| |].
    + constructor; [left; cbn; tauto|]. by apply digits_num.
    + intros x [Hn _]. split; [done|]. by apply Hx.
  - intros [= <-]. exists []. split_and!; [done|constructor|].
    intros x [Hn Hh]. split; [done|]. destruct x as [|b x]; [done|].
    cbn [app]. rewrite skip_byte_cons. cbn [head_is] in Hh.
    destruct (Byte.eqb x2e b) eqn:Hb; [|done]. apply byte_eqb_eq in Hb as <-. done.
Qed.

Lemma scan_exp_split l r :
  scan_exp l = Some r ->
  exists ds, l = ds ++ r /\ Forall num_byte ds /\
    forall x, no_exp x -> no_frac (ds ++ x) /\ scan_exp (ds ++ x) = Some x.
Proof.
  destruct l as [|b l]; [intros [= <-]|cbn [scan_exp]].
  { exists []. split_and!; [done|constructor|]. intros [|c x]; [done|]. intros (Hf & H1 & H2).
    split; [done|]. cbn [app scan_exp]. cbn [head_is] in H1, H2. by rewrite H1, H2. }
  destruct (Byte.eqb b x65 || Byte.eqb b x45) eqn:Hb.
  - assert (num_byte b /\ no_frac [b]) as [Hnb Hnf].
    { apply orb_true_iff in Hb as [->%byte_eqb_eq| ->%byte_eqb_eq];
        (split; [left; cbn; tauto|by split]). }
    assert (forall x, no_frac (b :: x)) as Hfr by (intros x; exact Hnf).
    destruct l as [|c l]; [done|]. destruct (Byte.eqb c x2b || Byte.eqb c x2d) eqn:Hc.
    + intros Hr. destruct (skip_digits1_split _ _ Hr) as (d & ds & -> & Hd & Hx).
      exists (b :: c :: d :: ds). split_and!; [done| |].
      * constructor; [done|]. constructor; [|by apply digits_num].
        apply orb_true_iff in Hc as [->%byte_eqb_eq| ->%byte_eqb_eq]; left; cbn; tauto.
      * intros x [[Hn _] _]. split; [apply Hfr|]. cbn [app scan_exp]. rewrite Hb, Hc. by apply Hx.
    + intros Hr. destruct (skip_digits1_split _ _ Hr) as (d & ds & Hl & Hd & Hx).
      injection Hl as -> ->. exists (b :: d :: ds). split_and!; [done| |].
      * constructor; [done|]. by apply digits_num.
      * intros x [[Hn _] _]. split; [apply Hfr|]. cbn [app scan_exp]. rewrite Hb, Hc. by apply Hx.
  - intros [= <-]. exists []. split_and!; [done|constructor|]. intros [|c x]; [done|]. intros (Hf & H1 & H2).
    split; [done|]. cbn [app scan_exp]. cbn [head_is] in H1, H2. by rewrite H1, H2.
Qed.

(** A number literal: it begins with a digit or a minus, and is scanned up
    to what cannot belong to a number. *)
Definition number (n : bytes) : Prop :=
  (exists b l, n = b :: l /\ (b = x2d \/ is_digit b)) /\ Forall num_byte n /\
  forall x, no_exp x -> scan_num (n ++ x) = Some x.

Lemma scan_num_number l r : scan_num l = Some r -> exists n, l = n ++ r /\ number n.
Proof.
  unfold scan_num. destruct (scan_int l) as [l1|] eqn:E1; [|done].
  destruct (scan_frac l1) as [l2|] eqn:E2; [|done]. intros E3.
  destruct (scan_int_split _ _ E1) as (b & ds & -> & Hi & Hb & Hx1).
  destruct (scan_frac_split _ _ E2) as (fs & -> & Hf & Hx2).
  destruct (scan_exp_split _ _ E3) as (es & -> & He & Hx3).
  exists (b :: ds ++ fs ++ es). split; [cbn; by rewrite <- !app_assoc|]. split_and!.
  - by exists b, (ds ++ fs ++ es).
  - apply (Forall_app_2 _ (b :: ds)); [done|]. by apply Forall_app_2.
  - intros x Hn. destruct (Hx3 x Hn) as [Hn3 He3]. destruct (Hx2 _ Hn3) as [Hn2 He2].
    unfold scan_num. cbn [app]. rewrite <- !app_assoc. by rewrite (Hx1 _ Hn2), He2.
Qed.

Lemma numeral_skip_digits ds : Forall is_digit ds -> skip_digits ds = [].
Proof.
  intros Hd. induction Hd as [|b ds Hb _ IH]; [done|]. cbn [skip_digits].
  assert (digit b = Some (b2z b - 48)) as -> by by apply digit_Some. done.
Qed.

Lemma numeral_scan ds z : numeral ds z -> scan_digits0 ds = Some [].
Proof.
  intros (b & r & -> & Hd & Hz & _). unfold scan_digits0. rewrite skip_byte_cons.
  destruct (Byte.eqb x30 b) eqn:E.
  - apply byte_eqb_eq in E as <-. by rewrite Hz.
  - apply list.Forall_cons in Hd as [Hb Hd]. cbn [skip_digits1].
    assert (digit b = Some (b2z b - 48)) as -> by by apply digit_Some. f_equal. by apply numeral_skip_digits.
Qed.

Lemma number_enc_int z : number (enc_int z).
Proof.
  destruct (enc_int_numeral z) as (ds & Hn & He).
  enough (scan_num (enc_int z) = Some []) as Hs.
  { destruct (scan_num_number _ _ Hs) as (n & -> & Hnum). by rewrite app_nil_r. }
  unfold scan_num. rewrite He. pose proof (numeral_scan _ _ Hn) as Hs.
  enough (scan_int ((if z <? 0 then [x2d] else []) ++ ds) = Some []) as -> by done.
  destruct (z <? 0); [exact Hs|]. cbn [app].
  change (scan_digits0 (default ds (skip_byte x2d ds)) = Some []).
  destruct Hn as (b & r & -> & Hd & _). rewrite skip_byte_cons.
  apply list.Forall_cons in Hd as [Hb _]. destruct (Byte.eqb x2d b) eqn:E; [|done].
  apply byte_eqb_eq in E as <-. exfalso. revert Hb. unfold is_digit. cbn. lia.
Qed.

(** ** Strings that are UTF-8 *)

Lemma repair_bytes_ascii f l : Forall (fun b => b2z b < 128) l -> (length l <= f)%nat -> repair_bytes f l = l.
Proof.
  intros Hl. revert f. induction Hl as [|b l Hb _ IH]; intros [|f] Hf; [done..|simpl in Hf; lia|].
  cbn [repair_bytes rune_len]. apply Z.ltb_lt in Hb. rewrite Hb. cbn [take drop app].
  rewrite drop_0. f_equal. apply IH. simpl in Hf. lia.
Qed.

Lemma repair_ascii s : Forall (fun b => b2z b < 128) (go_bytes s) -> repair s = s.
Proof. intros Hs. unfold repair. rewrite repair_bytes_ascii by done. apply go_string_bytes. Qed.

Lemma b64_char_ascii z : 0 <= z < 64 -> b2z (b64_char z) < 128.
Proof.
  intros Hz. unfold b64_char. rewrite b2z_z2b.
  repeat case_match; rewrite Z.mod_small by lia; lia.
Qed.

Lemma repair_base64 b : repair (URLEncodeToString b) = URLEncodeToString b.
Proof.
  apply repair_ascii. unfold URLEncodeToString. rewrite go_bytes_string.
  induction b as [|a|a c|a c e b IH] using list_ind_3; [constructor| | |];
    byte_bounds; cbn -[Z.pow Z.mul Z.div Z.modulo];
    repeat apply list.Forall_cons_2; try (apply b64_char_ascii; zlia); try done; try apply list.Forall_nil_2.
Qed.
