(* ===== verification/JsonRound.v ===== *)
(** * [json.Marshal] followed by [json.Unmarshal]

    A text [reads] as a value when the parser, the decoder of a raw message
    and the compaction of one all pass over it as over that value, whatever
    follows it.  The encoders make such texts, and so does compaction of any
    valid text, so that a raw message always survives being sent. *)

From S2P Require Import Prelude GoStrings GoJson JsonText.
Local Open Scope Z_scope.

(** ** Readable texts *)

(** What may follow a value. *)
Definition delimited (x : bytes) : Prop :=
  match x with b :: _ => b = x2c \/ b = x5d \/ b = x7d | [] => True end.

Record reads (t : bytes) (h : Z) (v : json) : Prop := {
  reads_solid : exists b l, t = b :: l /\ is_ws b = false /\ b <> x5d;
  reads_parse f d x :
    delimited x -> (S (2 * length t) <= f)%nat -> d + h <= maxNestingDepth ->
    parse_value f d (t ++ x) = Some ((t, v), x);
  reads_compact x : compact_state false false (t ++ x) = t ++ compact_state false false x
}.

Lemma reads_mono t h h' v : h <= h' -> reads t h v -> reads t h' v.
Proof. intros Hh [Hs Hp Hc]. split; [done| |done]. intros f d x Hx Hf Hd. apply Hp; [done..|lia]. Qed.

Lemma delimited_no_exp x : delimited x -> no_exp x.
Proof. destruct x as [|b x]; [done|]. by intros [->|[->| ->]]. Qed.

Lemma delimited_skip_ws x : delimited x -> skip_ws x = x.
Proof. destruct x as [|b x]; [done|]. by intros [->|[->| ->]]. Qed.

Lemma reads_skip_ws t h v x : reads t h v -> skip_ws (t ++ x) = t ++ x.
Proof. intros [(b & l & -> & Hb & _) _ _]. cbn [app skip_ws]. by rewrite Hb. Qed.

Lemma consumed_app t x : consumed (t ++ x) x = t.
Proof.
  unfold consumed. rewrite length_app. replace (length t + length x - length x)%nat with (length t) by lia.
  apply take_app_length.
Qed.

Lemma is_byte_neq c b : b <> c -> Byte.eqb b c = false.
Proof. intros Hn. apply not_true_iff_false. by rewrite byte_eqb_eq. Qed.

(** Bytes outside strings that compaction keeps. *)
Definition kept (b : Byte.byte) : Prop := b <> xe2 /\ is_ws b = false /\ b <> x22.

Lemma compact_kept c x : Forall kept c -> compact_state false false (c ++ x) = c ++ compact_state false false x.
Proof.
  intros Hc. induction Hc as [|b c (H1 & H2 & H3) _ IH]; [done|].
  cbn [app]. rewrite compact_out by by apply line_sep_other.
  by rewrite H2, is_byte_neq, IH by done.
Qed.

(** *** Strings *)

Lemma compact_quote x : compact_state false false (x22 :: x) = x22 :: compact_state true false x.
Proof. by rewrite compact_out by by apply line_sep_other. Qed.

Definition quoted (b : bytes) : bytes := x22 :: b ++ [x22].

Lemma quoted_app b x : quoted b ++ x = x22 :: b ++ x22 :: x.
Proof. unfold quoted. cbn. by rewrite <- app_assoc. Qed.

Lemma reads_quoted b : string_body b -> reads (quoted b) 0 (JStr (json_string b)).
Proof.
  intros [Hs Hc]. split.
  - by exists x22, (b ++ [x22]).
  - intros f d x _ Hf _. destruct f as [|f]; [lia|]. rewrite quoted_app at 1. cbn [parse_value].
    change (Byte.eqb x22 x22) with true. cbn match. rewrite Hs. rewrite <- quoted_app.
    by rewrite consumed_app.
  - intros x. by rewrite quoted_app, compact_quote, Hc, <- (quoted_app b (compact_state _ _ x)).
Qed.

Lemma enc_string_quoted s :
  exists b, enc_string s = quoted b /\ string_body b /\ json_string b = repair s.
Proof.
  exists (escape_str (length (go_bytes s)) (go_bytes s)). split_and!; [done| |].
  - eapply sbody_of_body, body_escape. done.
  - apply json_string_escape.
Qed.

Lemma reads_string s : reads (enc_string s) 0 (JStr (repair s)).
Proof. destruct (enc_string_quoted s) as (b & -> & Hb & <-). by apply reads_quoted. Qed.

(** *** Numbers and literals *)

Lemma num_byte_kept b : num_byte b -> kept b /\ b <> x74 /\ b <> x66 /\ b <> x6e.
Proof.
  unfold num_byte, kept. intros [Hb|Hb].
  - repeat destruct Hb as [<-|Hb]; try done.
  - unfold is_digit in Hb. split_and!; try (intros ->; revert Hb; cbn; lia).
    destruct b; try reflexivity; exfalso; revert Hb; vm_compute; intros [? ?]; congruence.
Qed.

Lemma strip_prefix_head a p b l : a <> b -> strip_prefix (a :: p) (b :: l) = None.
Proof. intros Hab. cbn. by rewrite is_byte_neq. Qed.

(** A value that starts with neither a quote nor a bracket. *)
Definition scalar_head (b : Byte.byte) : Prop := b <> x22 /\ b <> x5b /\ b <> x7b.

Lemma parse_scalar f d b l : scalar_head b -> parse_value (S f) d (b :: l) = parse_lit (b :: l).
Proof. intros (H1 & H2 & H3). cbn [parse_value]. by rewrite !is_byte_neq by done. Qed.

Lemma reads_number n : number n -> reads n 0 (JNum n).
Proof.
  intros ((b & l & -> & Hb) & Hn & Hx). pose proof (List.Forall_inv Hn) as Hb'.
  apply num_byte_kept in Hb' as ((_ & Hws & H22) & Ht & Hf & Hnl). split.
  - exists b, l. split_and!; [done..|]. intros ->. destruct Hb as [Hb|Hb]; [done|]. unfold is_digit in Hb. cbn in Hb. lia.
  - intros [|f] d x Hd Hfu _; [lia|]. cbn [app]. rewrite parse_scalar.
    2: { unfold scalar_head. split_and!; intros ->; destruct Hb as [Hb|Hb]; try done;
         unfold is_digit in Hb; cbn in Hb; lia. }
    unfold parse_lit, lit_true, lit_false, lit_null. rewrite !strip_prefix_head by done.
    rewrite (Hx x (delimited_no_exp x Hd) : scan_num (b :: l ++ x) = _).
    by rewrite (consumed_app (b :: l) x : consumed (b :: l ++ x) x = _).
  - intros x. apply compact_kept. eapply Forall_impl; [exact Hn|]. intros c Hc. by apply num_byte_kept.
Qed.

Lemma reads_int z : reads (enc_int z) 0 (JNum (enc_int z)).
Proof. apply reads_number, number_enc_int. Qed.

Lemma reads_literal t v :
  In (t, v) [(lit_true, JBool true); (lit_false, JBool false); (lit_null, JNull)] -> reads t 0 v.
Proof.
  intros Ht. split.
  - repeat destruct Ht as [[= <- <-]|Ht]; try done; eexists _, _; by split_and!.
  - intros [|f] d x Hd Hf _; [lia|].
    repeat destruct Ht as [[= <- <-]|Ht]; try done.
  - intros x. apply compact_kept. repeat destruct Ht as [[= <- <-]|Ht]; try done; repeat constructor; done.
Qed.

Lemma reads_bool b : reads (enc_bool b) 0 (JBool b).
Proof. apply reads_literal. destruct b; cbn; auto. Qed.

Lemma reads_null : reads lit_null 0 JNull.
Proof. apply reads_literal. cbn. auto. Qed.

(** *** Arrays and objects *)

Definition reads_val (h : Z) (v : jval) : Prop := reads v.1 h v.2.

(** A member: the body of its key and its value. *)
Definition member : Type := (bytes * jval)%type.
Definition member_text (m : member) : bytes := quoted m.1 ++ x3a :: m.2.1.
Definition member_val (m : member) : string * jval := (json_string m.1, m.2).
Definition reads_member (h : Z) (m : member) : Prop := string_body m.1 /\ reads_val h m.2.

Abbreviation comma_sep := (sep_by [x2c]).

Lemma sep_by_cons s x y l : sep_by s (x :: y :: l) = x ++ s ++ sep_by s (y :: l).
Proof. done. Qed.

Lemma next_sep_close c x : c = x5d \/ c = x7d -> next_sep c (c :: x) = Some (false, x).
Proof. by intros [->| ->]. Qed.

Lemma next_sep_comma c x : next_sep c (x2c :: x) = Some (true, skip_ws x).
Proof. done. Qed.

(** [sep_by] of non-empty solid texts begins with the first of them. *)
Lemma skip_ws_head b l : is_ws b = false -> skip_ws (b :: l) = b :: l.
Proof. intros Hb. cbn. by rewrite Hb. Qed.

Definition solid (t : bytes) : Prop := exists b l, t = b :: l /\ is_ws b = false /\ b <> x5d.

Lemma skip_ws_solid t x : solid t -> skip_ws (t ++ x) = t ++ x.
Proof. intros (b & l & -> & Hb & _). by apply skip_ws_head. Qed.

Lemma solid_sep ts x : ts <> [] -> Forall solid ts -> skip_ws (comma_sep ts ++ x) = comma_sep ts ++ x.
Proof.
  intros Hne Hs. destruct ts as [|t ts]; [done|]. apply list.Forall_cons in Hs as [Ht _].
  destruct ts as [|t' ts]; [by apply skip_ws_solid|].
  rewrite sep_by_cons, <- app_assoc. by apply skip_ws_solid.
Qed.

Lemma solid_sep_head ts x : ts <> [] -> Forall solid ts -> head_is x5d (comma_sep ts ++ x) = false.
Proof.
  intros Hne Hs. destruct ts as [|t ts]; [done|]. apply list.Forall_cons in Hs as [(b & l & -> & _ & Hb) _].
  destruct ts as [|t' ts]; cbn [app sep_by head_is]; by apply is_byte_neq.
Qed.

Lemma solid_member m : solid (member_text m).
Proof. by exists x22, ((m.1 ++ [x22]) ++ x3a :: m.2.1). Qed.

Lemma parse_elems_reads h vs : vs <> [] -> Forall (reads_val h) vs -> forall f d x,
  (2 + 2 * length (comma_sep (fst <$> vs)) <= f)%nat -> d + h <= maxNestingDepth ->
  parse_elems f d (comma_sep (fst <$> vs) ++ x5d :: x) = Some (vs, x).
Proof.
  induction vs as [|[t v] vs IH]; [done|]. intros _ Hv f d x Hf Hd.
  apply list.Forall_cons in Hv as [Hv Hvs]. destruct f as [|f]; [lia|].
  pose proof (reads_parse _ _ _ Hv) as Hp. cbn [fst snd] in Hp.
  destruct vs as [|[t' v'] vs].
  - cbn [fmap list_fmap sep_by fst] in *. cbn [parse_elems].
    rewrite Hp; [|by cbn; auto|lia|done]. by rewrite next_sep_close by auto.
  - change (comma_sep (fst <$> (t, v) :: (t', v') :: vs))
      with (t ++ [x2c] ++ comma_sep (fst <$> (t', v') :: vs)) in *.
    rewrite !length_app in Hf. cbn [length] in Hf. rewrite <- app_assoc. cbn [app parse_elems].
    rewrite Hp; [|by cbn; auto|lia|done]. rewrite next_sep_comma, solid_sep; [|done|].
    2: { apply list.Forall_fmap. eapply Forall_impl; [exact Hvs|]. intros w Hw. apply Hw. }
    rewrite IH; [done..|lia|done].
Qed.

Lemma parse_members_reads h ms : ms <> [] -> Forall (reads_member h) ms -> forall f d x,
  (2 + 2 * length (comma_sep (member_text <$> ms)) <= f)%nat -> d + h <= maxNestingDepth ->
  parse_members f d (comma_sep (member_text <$> ms) ++ x7d :: x) = Some (member_val <$> ms, x).
Proof.
  assert (forall k t v h f d x, string_body k -> reads t h v -> delimited x ->
    (S (2 * length t) <= f)%nat -> d + h <= maxNestingDepth ->
    parse_members (S f) d (member_text (k, (t, v)) ++ x) =
      match next_sep x7d x with
      | Some (true, r) =>
          match parse_members f d r with
          | Some (ms, r') => Some ((json_string k, (t, v)) :: ms, r')
          | None => None
          end
      | Some (false, r) => Some ([(json_string k, (t, v))], r)
      | None => None
      end) as Hone.
  { intros k t v h' f d x Hk Ht Hx Hf Hd. unfold member_text. cbn [fst snd].
    rewrite <- app_assoc, quoted_app. cbn [parse_members app]. change (head_is x22 (x22 :: _)) with true.
    cbn match. rewrite skipn_cons, drop_0. rewrite (sbody_scan _ Hk).
    change (skip_ws (x3a :: t ++ x)) with (x3a :: t ++ x). change (head_is x3a (x3a :: _)) with true.
    cbn match. rewrite skipn_cons, drop_0. rewrite (reads_skip_ws _ _ _ _ Ht).
    by rewrite (reads_parse _ _ _ Ht). }
  induction ms as [|[k [t v]] ms IH]; [done|]. intros _ Hm f d x Hf Hd.
  apply list.Forall_cons in Hm as [[Hk Hv] Hms]. destruct f as [|f]; [lia|].
  unfold reads_val in Hv. cbn [fst snd] in Hk, Hv.
  destruct ms as [|m' ms].
  - change (comma_sep (member_text <$> [(k, (t, v))])) with (member_text (k, (t, v))) in *.
    rewrite (Hone k t v h); [|done|done|by cbn; auto| |done].
    2: { unfold member_text in Hf. rewrite length_app in Hf. cbn in Hf. lia. }
    by rewrite next_sep_close by auto.
  - change (comma_sep (member_text <$> (k, (t, v)) :: m' :: ms))
      with (member_text (k, (t, v)) ++ [x2c] ++ comma_sep (member_text <$> m' :: ms)) in *.
    rewrite !length_app in Hf. rewrite <- app_assoc. rewrite (Hone k t v h); [|done|done|by cbn; auto| |done].
    2: { unfold member_text in Hf. rewrite length_app in Hf. cbn in Hf. lia. }
    cbn [app]. rewrite next_sep_comma, solid_sep; [|done|].
    2: { apply list.Forall_fmap, list.Forall_true. intros w. apply solid_member. }
    rewrite IH; [done..| |done]. cbn in Hf |- *. lia.
Qed.

(** What compaction keeps, outside strings. *)
Definition compacted (t : bytes) : Prop :=
  forall x, compact_state false false (t ++ x) = t ++ compact_state false false x.

Lemma compacted_app t t' : compacted t -> compacted t' -> compacted (t ++ t').
Proof. intros Ht Ht' x. by rewrite <- !app_assoc, Ht, Ht'. Qed.

Lemma compacted_kept c : Forall kept c -> compacted c.
Proof. intros Hc x. by apply compact_kept. Qed.

Lemma kept_one b : b <> xe2 -> is_ws b = false -> b <> x22 -> Forall kept [b].
Proof. intros. by apply list.Forall_singleton. Qed.

Lemma compacted_sep ts : Forall compacted ts -> compacted (comma_sep ts).
Proof.
  intros Hts. induction Hts as [|t ts Ht Hts IH]; [done|].
  destruct ts as [|t' ts]; [done|]. apply compacted_app; [done|].
  apply compacted_app; [by apply compacted_kept, kept_one|done].
Qed.

Lemma compacted_wrap a b t :
  Forall kept [a; b] -> compacted t -> compacted (a :: t ++ [b]).
Proof.
  intros Hab Ht. apply list.Forall_cons in Hab as [Ha Hb].
  apply (compacted_app [a]); [by apply compacted_kept, list.Forall_singleton|].
  apply compacted_app; [done|by apply compacted_kept].
Qed.

Lemma compacted_quoted b : string_body b -> compacted (quoted b).
Proof. intros Hb x. apply (reads_compact _ _ _ (reads_quoted b Hb)). Qed.

Lemma compacted_member h m : reads_member h m -> compacted (member_text m).
Proof.
  intros [Hk Hv]. apply compacted_app; [by apply compacted_quoted|].
  apply (compacted_app [x3a]); [by apply compacted_kept, kept_one|]. intros x. apply (reads_compact _ _ _ Hv).
Qed.

Lemma length_wrap {A} (a : A) l b : length (a :: l ++ [b]) = (2 + length l)%nat.
Proof. cbn. rewrite length_app. cbn. lia. Qed.

(** How an array or an object is opened. *)
Lemma reads_array h vs :
  0 <= h -> Forall (reads_val h) vs -> reads (enc_array (fst <$> vs)) (h + 1) (JArr vs).
Proof.
  intros Hh Hv. split.
  - eexists _, _. by split.
  - unfold enc_array. rewrite length_wrap. intros [|f] d x Hx Hf Hd; [lia|].
    pose proof (consumed_app (x5b :: comma_sep (fst <$> vs) ++ [x5d]) x) as Hc.
    cbn [app] in Hc |- *. rewrite <- app_assoc in Hc |- *. cbn [app] in Hc |- *. cbn [parse_value].
    change (Byte.eqb x5b x22) with false. change (Byte.eqb x5b x5b) with true. cbn match.
    destruct (Z.leb_spec maxNestingDepth d); [lia|].
    destruct (decide (vs = [])) as [->|Hne].
    + cbn in Hc |- *. by rewrite drop_0, Hc.
    + assert (Forall solid (fst <$> vs)) as Hs.
      { apply list.Forall_fmap. eapply Forall_impl; [exact Hv|]. intros w Hw. apply Hw. }
      rewrite solid_sep, solid_sep_head by (done || by destruct vs).
      rewrite (parse_elems_reads h) by (done || lia). by rewrite Hc.
  - apply compacted_wrap; [by repeat constructor|]. apply compacted_sep, list.Forall_fmap.
    eapply Forall_impl; [exact Hv|]. intros w Hw x. apply (reads_compact _ _ _ Hw).
Qed.

Lemma reads_object h ms :
  0 <= h -> Forall (reads_member h) ms ->
  reads (x7b :: comma_sep (member_text <$> ms) ++ [x7d]) (h + 1) (JObj (member_val <$> ms)).
Proof.
  intros Hh Hm. split.
  - eexists _, _. by split_and!.
  - rewrite length_wrap. intros [|f] d x Hx Hf Hd; [lia|].
    pose proof (consumed_app (x7b :: comma_sep (member_text <$> ms) ++ [x7d]) x) as Hc.
    cbn [app] in Hc |- *. rewrite <- app_assoc in Hc |- *. cbn [app] in Hc |- *. cbn [parse_value].
    change (Byte.eqb x7b x22) with false. change (Byte.eqb x7b x5b) with false.
    change (Byte.eqb x7b x7b) with true. cbn match.
    destruct (Z.leb_spec maxNestingDepth d); [lia|].
    destruct (decide (ms = [])) as [->|Hne].
    + cbn in Hc |- *. by rewrite drop_0, Hc.
    + assert (Forall solid (member_text <$> ms)) as Hs.
      { apply list.Forall_fmap, list.Forall_true. intros w. apply solid_member. }
      rewrite solid_sep by (done || by destruct ms).
      replace (head_is x7d (comma_sep (member_text <$> ms) ++ x7d :: x)) with false
        by (destruct ms as [|m [|m' ms]]; done).
      rewrite (parse_members_reads h) by (done || lia). by rewrite Hc.
  - apply compacted_wrap; [by repeat constructor|]. apply compacted_sep, list.Forall_fmap.
    eapply Forall_impl; [exact Hm|]. intros m. apply compacted_member.
Qed.

(** A struct: its fields, with the values their texts read as. *)
Definition reads_field (h : Z) (f : string * bytes) (v : string * jval) : Prop :=
  v.1 = repair f.1 /\ v.2.1 = f.2 /\ reads f.2 h v.2.2.

Lemma reads_struct h fs vs :
  0 <= h -> Forall2 (reads_field h) fs vs -> reads (enc_struct fs) (h + 1) (JObj vs).
Proof.
  intros Hh Hf.
  enough (exists ms, Forall (reads_member h) ms /\ member_val <$> ms = vs /\
    member_text <$> ms = (fun f => enc_string f.1 ++ x3a :: f.2) <$> fs) as (ms & Hm & <- & Ht).
  { unfold enc_struct. rewrite <- Ht. by apply reads_object. }
  induction Hf as [|[k t] [k' [t' v]] fs vs (Hk & Ht & Hv) _ (ms & Hm & <- & Ht')].
  { by exists []. }
  cbn [fst snd] in *. subst. destruct (enc_string_quoted k) as (b & Hq & Hb & Hs).
  exists ((b, (t, v)) :: ms). split_and!.
  - constructor; [|done]. by split.
  - rewrite fmap_cons. f_equal. unfold member_val. cbn [fst snd]. by rewrite Hs.
  - rewrite !fmap_cons, Ht'. f_equal. unfold member_text. cbn [fst snd]. by rewrite Hq.
Qed.

(** A readable text parses as its value and is its own compaction. *)
Lemma reads_json_parse t h v : reads t h v -> h <= maxNestingDepth -> json_parse t = Some (t, v).
Proof.
  intros Hr Hh. unfold json_parse. pose proof (reads_skip_ws t h v [] Hr) as Hw.
  pose proof (reads_parse _ _ _ Hr (S (2 * length t)) 0 [] I ltac:(lia) ltac:(lia)) as Hp.
  rewrite app_nil_r in *. by rewrite Hw, Hp.
Qed.

Lemma reads_enc_raw t h v : reads t h v -> h <= maxNestingDepth -> enc_raw (Some t) = Some t.
Proof.
  intros Hr Hh. unfold enc_raw, json_Valid. rewrite (reads_json_parse t h v) by done. f_equal.
  pose proof (reads_compact _ _ _ Hr []) as Hc. rewrite app_nil_r in Hc.
  change (compact t) with (compact_state false false t). rewrite Hc. apply app_nil_r.
Qed.

Lemma reads_Unmarshal {T} (d : decoder T) old t h v :
  reads t h v -> h <= maxNestingDepth -> Unmarshal d old t = d old (t, v).
Proof. intros Hr Hh. unfold Unmarshal. by rewrite (reads_json_parse t h v). Qed.
