(* ===== verification/JsonCompact.v ===== *)
(** * Compaction of a raw message

    [json.Marshal] compacts a [json.RawMessage].  The compaction of any valid
    text is a readable text: a message built around valid data always parses,
    and the data come back as their compaction. *)

From S2P Require Import Prelude GoStrings GoJson JsonText JsonRound.
Local Open Scope Z_scope.

(** ** Strings *)

(** A piece of a body that is scanned and kept whatever follows. *)
Record piece (c : bytes) : Prop := {
  piece_scan x : scan_str (c ++ x) = (fun p => (c ++ p.1, p.2)) <$> scan_str x;
  piece_compact x : compact_state true false (c ++ x) = c ++ compact_state true false x
}.

Lemma piece_chunk c d : chunk c d -> piece c.
Proof. by intros [_ Hs _ Hc]. Qed.

Lemma sbody_piece c s : piece c -> string_body s -> string_body (c ++ s).
Proof.
  intros [Hs Hc] [Hs' Hc']. split; intros x.
  - by rewrite <- app_assoc, Hs, Hs'.
  - by rewrite <- !app_assoc, Hc, Hc'.
Qed.

(** Bytes inside strings that compaction keeps and the scanner passes. *)
Definition plain_byte (b : Byte.byte) : Prop :=
  b <> x22 /\ b <> x5c /\ (b2z b <? 32) = false /\ is_html b = false.

Lemma scan_plain b l : plain_byte b -> scan_str (b :: l) = (fun p => (b :: p.1, p.2)) <$> scan_str l.
Proof.
  intros (H1 & H2 & H3 & _). cbn [scan_str]. rewrite !is_byte_neq, H3 by done.
  by destruct (scan_str l) as [[]|].
Qed.

Lemma compact_plain b l :
  plain_byte b -> line_sep (b :: l) = None ->
  compact_state true false (b :: l) = b :: compact_state true false l.
Proof.
  intros (H1 & H2 & _ & H4) Hl. by rewrite compact_in_str, H4, !is_byte_neq by done.
Qed.

Lemma hex_plain b : is_hex b = true -> plain_byte b /\ b <> xe2.
Proof. unfold plain_byte. destruct b; try done. Qed.

Lemma compact_escaped e l :
  is_html e = false -> e <> xe2 ->
  compact_state true false (x5c :: e :: l) = x5c :: e :: compact_state true false l.
Proof.
  intros He Hn. rewrite compact_in_str by by apply line_sep_other. cbn [app].
  change (is_html x5c) with false. change (Byte.eqb x5c x5c) with true. cbn match. cbn [app].
  rewrite compact_in_str by by apply line_sep_other. by rewrite He.
Qed.

Lemma piece_simple e : is_simple_escape e = true -> piece [x5c; e].
Proof.
  intros He. split; intros x.
  - cbn [app scan_str]. rewrite He. by destruct (scan_str x) as [[]|].
  - apply (compact_escaped e x); revert He; by destruct e.
Qed.

Lemma piece_hex l : Forall (fun b => is_hex b = true) l -> forall x,
  compact_state true false (l ++ x) = l ++ compact_state true false x.
Proof.
  intros Hl x. induction Hl as [|b l Hb _ IH]; [done|]. apply hex_plain in Hb as [Hb Hn].
  cbn [app]. rewrite compact_plain by (done || by apply line_sep_other). by rewrite IH.
Qed.

Lemma piece_unicode a b c e :
  is_hex a && is_hex b && is_hex c && is_hex e = true -> piece [x5c; x75; a; b; c; e].
Proof.
  intros Hx. split; intros x.
  - cbn [app scan_str]. change (is_simple_escape x75) with false. change (Byte.eqb x75 x75) with true.
    cbn match. rewrite Hx. by destruct (scan_str x) as [[]|].
  - rewrite !andb_true_iff in Hx. destruct Hx as [[[Ha Hb] Hc] He].
    change ([x5c; x75; a; b; c; e] ++ x) with (x5c :: x75 :: [a; b; c; e] ++ x).
    rewrite compact_escaped by done. rewrite piece_hex; [done|by repeat constructor].
Qed.

(** Whether a body goes on as a line separator after its first byte. *)
Definition sep_tail (s : bytes) : bool :=
  match s with y :: c :: _ => Byte.eqb x80 y && (Byte.eqb c xa8 || Byte.eqb c xa9) | _ => false end.

Lemma line_sep_body b s x :
  line_sep (b :: s ++ x22 :: x) = None <-> b <> xe2 \/ sep_tail s = false.
Proof.
  destruct (decide (b = xe2)) as [->|Hb].
  2: { split; [by left|]. intros _. by apply line_sep_other. }
  enough (line_sep (xe2 :: s ++ x22 :: x) = None <-> sep_tail s = false) as -> by (split; [by right|by intros [?|?]]).
  unfold line_sep. cbn [strip_prefix]. change (Byte.eqb xe2 xe2) with true. cbn match.
  destruct s as [|y [|c s]]; cbn [app sep_tail].
  - change (Byte.eqb x80 x22) with false. done.
  - destruct (Byte.eqb x80 y); done.
  - destruct (Byte.eqb x80 y); [|done]. cbn [andb]. by destruct (_ || _).
Qed.

Lemma line_sep_Some l c r :
  line_sep l = Some (c, r) -> l = xe2 :: x80 :: c :: r /\ Byte.eqb c xa8 || Byte.eqb c xa9 = true.
Proof.
  unfold line_sep. destruct (strip_prefix _ l) as [[|c' r']|] eqn:E; try done.
  apply strip_prefix_Some in E as ->. destruct (_ || _) eqn:Eq; [|done]. by intros [= <- <-].
Qed.

(** [s'] is the compaction of the body [s]; it never begins, after a byte
    kept before it, as a line separator where [s] does not. *)
Record compact_body (s s' : bytes) : Prop := {
  cb_body : string_body s';
  cb_compact x : compact_state true false (s ++ x22 :: x) = s' ++ x22 :: compact_state false false x;
  cb_head b : head s' = Some b -> high b -> head s = Some b;
  cb_sep : sep_tail s' = true -> sep_tail s = true
}.

Lemma cb_nil : compact_body [] [].
Proof. by split. Qed.

(** A piece that begins with a backslash, made of [c]. *)
Lemma cb_piece c c' s s' :
  piece c' -> head c' = Some x5c ->
  (forall x, compact_state true false (c ++ x) = c' ++ compact_state true false x) ->
  compact_body s s' -> compact_body (c ++ s) (c' ++ s').
Proof.
  intros Hp Hh Hc [Hb Hs _ _]. destruct c' as [|b c']; [done|]. injection Hh as ->. split.
  - by apply sbody_piece.
  - intros x. by rewrite <- !app_assoc, Hc, Hs.
  - intros b [= <-]. unfold high. cbn. lia.
  - cbn [app sep_tail]. destruct (c' ++ s'); done.
Qed.

Lemma cb_plain b s s' :
  plain_byte b -> (b <> xe2 \/ sep_tail s = false) ->
  compact_body s s' -> compact_body (b :: s) (b :: s').
Proof.
  intros Hp Hl [[Hb1 Hb2] Hs Hh Ht]. split.
  - split; intros x; cbn [app].
    + by rewrite scan_plain, Hb1.
    + rewrite compact_plain; [by rewrite Hb2|done|]. apply line_sep_body. destruct Hl as [?|Hl]; [by left|].
      right. apply not_true_iff_false. intros Hq%Ht. congruence.
  - intros x. cbn [app]. rewrite compact_plain; [by rewrite Hs|done|]. by apply line_sep_body.
  - done.
  - intros Hq. cbn [sep_tail] in Hq. destruct s' as [|c s']; [done|].
    apply andb_true_iff in Hq as [Hq Hc]. specialize (Hh c eq_refl).
    destruct s as [|c2 s]; cbn in Hh.
    + exfalso. enough (None = Some c) by done. apply Hh. revert Hc. unfold high. by destruct c.
    + assert (Some c2 = Some c) as [= ->]; [apply Hh; revert Hc; unfold high; by destruct c|].
      cbn [sep_tail]. by rewrite Hq, Hc.
Qed.

Lemma cb_html b s s' : is_html b = true -> compact_body s s' -> compact_body (b :: s) (u00 b ++ s').
Proof.
  intros Hb. apply (cb_piece [b]); [|done|].
  - destruct b; try done; by apply piece_unicode.
  - intros x. cbn [app]. rewrite compact_in_str by (apply line_sep_other; by destruct b).
    rewrite Hb. f_equal. destruct b; done.
Qed.

Lemma cb_line_sep c s s' :
  Byte.eqb c xa8 || Byte.eqb c xa9 = true ->
  compact_body s s' -> compact_body (xe2 :: x80 :: c :: s) (u202 c ++ s').
Proof.
  intros Hc. apply (cb_piece [xe2; x80; c]); [|done|].
  - eapply piece_chunk, chunk_line_sep. done.
  - intros x. apply compact_line_sep. unfold line_sep. cbn [app strip_prefix].
    change (Byte.eqb xe2 xe2) with true. change (Byte.eqb x80 x80) with true. cbn match. by rewrite Hc.
Qed.

Lemma scan_str_compact l s r : scan_str l = Some (s, r) -> exists s', compact_body s s'.
Proof.
  revert s r. induction l as [l IH] using (induction_ltof1 _ length). unfold ltof in IH. intros s r Hs.
  pose proof (scan_str_app _ _ _ Hs) as Hl.
  destruct l as [|b l]; [done|]. cbn [scan_str] in Hs.
  destruct (Byte.eqb b x22) eqn:E22; [injection Hs as <- <-; exists []; apply cb_nil|].
  destruct (Byte.eqb b x5c) eqn:E5c.
  { apply byte_eqb_eq in E5c as ->. destruct l as [|e l]; [done|].
    destruct (is_simple_escape e) eqn:Ee.
    - destruct (scan_str l) as [[s0 r0]|] eqn:E; [|done]. injection Hs as <- <-.
      destruct (IH l ltac:(simpl; lia) _ _ E) as (s' & Hb). exists ([x5c; e] ++ s').
      apply (cb_piece [x5c; e]); [by apply piece_simple|done|apply piece_simple, Ee|done].
    - destruct (Byte.eqb e x75) eqn:Eu; [|done]. apply byte_eqb_eq in Eu as ->.
      destruct l as [|h1 [|h2 [|h3 [|h4 l]]]]; try done.
      destruct (is_hex h1 && _ && _ && _) eqn:Eh; [|done].
      destruct (scan_str l) as [[s0 r0]|] eqn:E; [|done]. injection Hs as <- <-.
      destruct (IH l ltac:(simpl; lia) _ _ E) as (s' & Hb). exists ([x5c; x75; h1; h2; h3; h4] ++ s').
      apply (cb_piece [x5c; x75; h1; h2; h3; h4]); [by apply piece_unicode|done|by apply piece_unicode|done]. }
  destruct (b2z b <? 32) eqn:E32; [done|].
  destruct (scan_str l) as [[s0 r0]|] eqn:E; [|done]. injection Hs as <- <-.
  apply byte_eqb_neq in E22, E5c.
  destruct (line_sep (b :: l)) as [[c r']|] eqn:El.
  - apply line_sep_Some in El as [[= -> ->] Hc].
    assert (plain_byte x80 /\ plain_byte c) as [H80 Hpc].
    { revert Hc. clear. unfold plain_byte. by destruct c. }
    rewrite !scan_plain in E by done. destruct (scan_str r') as [[s1 r1]|] eqn:E1; [|done].
    injection E as <- <-. destruct (IH r' ltac:(simpl; lia) _ _ E1) as (s' & Hb).
    exists (u202 c ++ s'). by apply cb_line_sep.
  - destruct (IH l ltac:(simpl; lia) _ _ E) as (s' & Hb).
    destruct (is_html b) eqn:Eh; [exists (u00 b ++ s'); by apply cb_html|].
    exists (b :: s'). apply cb_plain; [done| |done]. apply (line_sep_body b s0 r0).
    by rewrite <- (scan_str_app _ _ _ E).
Qed.

(** ** White space *)

Definition blank (w : bytes) : Prop := Forall (fun b => is_ws b = true) w.

Lemma compact_blank w x : blank w -> compact_state false false (w ++ x) = compact_state false false x.
Proof.
  intros Hw. induction Hw as [|b w Hb _ IH]; [done|]. cbn [app].
  rewrite compact_out by (apply line_sep_other; by intros ->). by rewrite Hb.
Qed.

Lemma skip_ws_split l : exists w, l = w ++ skip_ws l /\ blank w.
Proof.
  induction l as [|b l (w & Hl & Hw)]; [by exists []; split; [|constructor]|].
  cbn [skip_ws]. destruct (is_ws b) eqn:Hb; [|by exists []; split; [|constructor]].
  exists (b :: w). cbn [app]. rewrite <- Hl. split; [done|]. by constructor.
Qed.

Lemma head_is_Some c l : head_is c l = true -> l = c :: drop 1 l.
Proof. destruct l as [|b l]; [done|]. cbn. by intros ->%byte_eqb_eq. Qed.

Lemma next_sep_split c l (more : bool) r :
  next_sep c l = Some (more, r) ->
  exists w w', l = w ++ (if more then x2c else c) :: w' ++ r /\ blank w /\ blank w' /\
    (more = false -> w' = []).
Proof.
  unfold next_sep. destruct (skip_ws_split l) as (w & Hl & Hw). revert Hl.
  destruct (skip_ws l) as [|b l']; [done|]. intros ->.
  destruct (Byte.eqb b x2c) eqn:E.
  - apply byte_eqb_eq in E as ->. intros [= <- <-]. destruct (skip_ws_split l') as (w' & Hl' & Hw').
    exists w, w'. split_and!; [by rewrite <- Hl'|done..].
  - destruct (Byte.eqb b c) eqn:E'; [|done]. apply byte_eqb_eq in E' as ->. intros [= <- <-].
    exists w, []. by split_and!; [|done|constructor|].
Qed.

Lemma compact_out_kept b x :
  kept b -> compact_state false false (b :: x) = b :: compact_state false false x.
Proof. intros Hb. by apply (compact_kept [b]), list.Forall_singleton. Qed.

Lemma kept_punct b : In b [x2c; x3a; x5b; x5d; x7b; x7d] -> kept b.
Proof. intros Hb. by repeat destruct Hb as [<-|Hb]. Qed.

Lemma compact_quoted s s' x :
  compact_body s s' -> compact_state false false (quoted s ++ x) = quoted s' ++ compact_state false false x.
Proof. intros Hb. by rewrite !quoted_app, compact_quote, (cb_compact _ _ Hb). Qed.

(** ** Values *)

(** [t] compacts to a readable text, of height at most [h]. *)
Definition compacts_to (t : bytes) (h : Z) (t' : bytes) (v' : json) : Prop :=
  reads t' h v' /\ forall x, compact_state false false (t ++ x) = t' ++ compact_state false false x.

Lemma compacts_reads t h v : reads t h v -> compacts_to t h t v.
Proof. intros Hr. split; [done|]. apply Hr. Qed.

Lemma parse_lit_compacts l t v r :
  parse_lit l = Some ((t, v), r) -> l = t ++ r /\ exists t' v', compacts_to t 0 t' v'.
Proof.
  assert (forall w v, strip_prefix w l = Some r -> reads w 0 v ->
    l = w ++ r /\ exists t' v', compacts_to w 0 t' v') as Hlit.
  { intros w v' Hs%strip_prefix_Some Hr. split; [done|]. exists w, v'. by apply compacts_reads. }
  unfold parse_lit. destruct (strip_prefix lit_true l) as [r1|] eqn:E1.
  { intros [= <- <- <-]. apply (Hlit lit_true (JBool true)); [done|]. apply (reads_bool true). }
  destruct (strip_prefix lit_false l) as [r2|] eqn:E2.
  { intros [= <- <- <-]. apply (Hlit lit_false (JBool false)); [done|]. apply (reads_bool false). }
  destruct (strip_prefix lit_null l) as [r3|] eqn:E3.
  { intros [= <- <- <-]. apply (Hlit lit_null JNull); [done|]. apply reads_null. }
  destruct (scan_num l) as [r4|] eqn:E4; [|done]. intros [= <- <- <-].
  destruct (scan_num_number _ _ E4) as (n & -> & Hn). rewrite consumed_app. split; [done|].
  exists n, (JNum n). by apply compacts_reads, reads_number.
Qed.

(** What the parsers of values, of elements and of members consume. *)
Definition value_ok (d : Z) (l : bytes) (v : jval) (r : bytes) : Prop :=
  exists h t' v', l = v.1 ++ r /\ 0 <= h /\ d + h <= maxNestingDepth /\ compacts_to v.1 h t' v'.

Definition elems_ok (d : Z) (l r : bytes) : Prop :=
  exists h e vs, l = e ++ x5d :: r /\ vs <> [] /\ 0 <= h /\ d + h <= maxNestingDepth /\ Forall (reads_val h) vs /\
    forall x, compact_state false false (e ++ x) = comma_sep (fst <$> vs) ++ compact_state false false x.

Definition members_ok (d : Z) (l r : bytes) : Prop :=
  exists h e ms, l = e ++ x7d :: r /\ ms <> [] /\ 0 <= h /\ d + h <= maxNestingDepth /\ Forall (reads_member h) ms /\
    forall x, compact_state false false (e ++ x) = comma_sep (member_text <$> ms) ++ compact_state false false x.

Lemma reads_val_mono h h' vs : h <= h' -> Forall (reads_val h) vs -> Forall (reads_val h') vs.
Proof. intros Hh Hv. eapply Forall_impl; [exact Hv|]. intros v. by apply reads_mono. Qed.

Lemma reads_member_mono h h' ms : h <= h' -> Forall (reads_member h) ms -> Forall (reads_member h') ms.
Proof.
  intros Hh Hm. eapply Forall_impl; [exact Hm|]. intros m [Hb Hv]. split; [done|]. by eapply reads_mono.
Qed.

Lemma sep_by_cons_ne s x l : l <> [] -> sep_by s (x :: l) = x ++ s ++ sep_by s l.
Proof. by destruct l. Qed.

(** After an item, a comma and more of them. *)
Lemma compact_more w w' e e' x :
  blank w -> blank w' ->
  compact_state false false (e ++ x) = e' ++ compact_state false false x ->
  compact_state false false (w ++ x2c :: w' ++ e ++ x) = [x2c] ++ e' ++ compact_state false false x.
Proof.
  intros Hw Hw' He. rewrite compact_blank, compact_out_kept by (done || by apply kept_punct; cbn; tauto).
  by rewrite compact_blank, He.
Qed.

(** Opening a bracket. *)
Lemma wrap_ok (o c : Byte.byte) d w e r h t' v' :
  kept o -> kept c -> blank w -> 0 <= h -> d + h <= maxNestingDepth ->
  reads (o :: t' ++ [c]) h v' ->
  (forall x, compact_state false false (e ++ x) = t' ++ compact_state false false x) ->
  forall v, value_ok d (o :: w ++ e ++ c :: r) (consumed (o :: w ++ e ++ c :: r) r, v) r.
Proof.
  intros Ho Hc Hw Hh Hd Hr He v.
  assert (o :: w ++ e ++ c :: r = (o :: w ++ e ++ [c]) ++ r) as ->.
  { cbn. by rewrite <- !app_assoc. }
  rewrite consumed_app. exists h, (o :: t' ++ [c]), v'. split_and!; [done..|]. split; [done|].
  intros x. cbn [app fst]. rewrite compact_out_kept, <- !app_assoc, compact_blank, He by done.
  cbn [app]. by rewrite compact_out_kept.
Qed.

Lemma parse_value_step f d :
  (forall l vs r, d + 1 <= maxNestingDepth -> parse_elems f (d + 1) l = Some (vs, r) -> elems_ok (d + 1) l r) ->
  (forall l ms r, d + 1 <= maxNestingDepth -> parse_members f (d + 1) l = Some (ms, r) -> members_ok (d + 1) l r) ->
  forall l v r, d <= maxNestingDepth -> parse_value (S f) d l = Some (v, r) -> value_ok d l v r.
Proof.
  intros He Hm l v r Hd Hp. destruct l as [|b l]; [done|]. cbn [parse_value] in Hp.
  destruct (Byte.eqb b x22) eqn:E22.
  { apply byte_eqb_eq in E22 as ->. destruct (scan_str l) as [[body r']|] eqn:Es; [|done].
    injection Hp as <- <-. destruct (scan_str_compact _ _ _ Es) as (s' & Hb).
    apply scan_str_app in Es as ->. rewrite <- quoted_app, consumed_app.
    exists 0, (quoted s'), (JStr (json_string s')). split_and!; [done|done|lia|].
    split; [apply reads_quoted, Hb|]. intros x. by apply compact_quoted. }
  destruct (skip_ws_split l) as (w & Hl & Hw). remember (skip_ws l) as l0 eqn:E0. clear E0. subst l.
  destruct (Byte.eqb b x5b) eqn:E5b.
  { apply byte_eqb_eq in E5b as ->. destruct (Z.leb_spec maxNestingDepth d); [done|].
    destruct (head_is x5d l0) eqn:Eh.
    - injection Hp as <- <-. apply head_is_Some in Eh. rewrite Eh. cbn [drop]. rewrite drop_0.
      apply (wrap_ok x5b x5d d w [] _ 1 [] (JArr [])); try done; try (apply kept_punct; cbn; tauto); [lia|].
      by apply (reads_array 0 []).
    - destruct (parse_elems f (d + 1) l0) as [[vs r']|] eqn:Ee; [|done]. injection Hp as <- <-.
      destruct (He _ _ _ ltac:(lia) Ee) as (h & e & vs' & -> & _ & Hh & Hdh & Hv & Hc).
      apply (wrap_ok x5b x5d d w e _ (h + 1) (comma_sep (fst <$> vs')) (JArr vs'));
        try done; try (apply kept_punct; cbn; tauto); [lia..|]. by apply reads_array. }
  destruct (Byte.eqb b x7b) eqn:E7b.
  { apply byte_eqb_eq in E7b as ->. destruct (Z.leb_spec maxNestingDepth d); [done|].
    destruct (head_is x7d l0) eqn:Eh.
    - injection Hp as <- <-. apply head_is_Some in Eh. rewrite Eh. cbn [drop]. rewrite drop_0.
      apply (wrap_ok x7b x7d d w [] _ 1 [] (JObj [])); try done; try (apply kept_punct; cbn; tauto); [lia|].
      by apply (reads_object 0 []).
    - destruct (parse_members f (d + 1) l0) as [[ms r']|] eqn:Ee; [|done]. injection Hp as <- <-.
      destruct (Hm _ _ _ ltac:(lia) Ee) as (h & e & ms' & -> & _ & Hh & Hdh & Hv & Hc).
      apply (wrap_ok x7b x7d d w e _ (h + 1) (comma_sep (member_text <$> ms')) (JObj (member_val <$> ms')));
        try done; try (apply kept_punct; cbn; tauto); [lia..|]. by apply reads_object. }
  destruct v as [t v]. destruct (parse_lit_compacts _ _ _ _ Hp) as (Hb & t' & v' & Hc).
  exists 0, t', v'. split_and!; [done|done|lia|done].
Qed.

Lemma parse_elems_step f d :
  (forall l v r, parse_value f d l = Some (v, r) -> value_ok d l v r) ->
  (forall l vs r, parse_elems f d l = Some (vs, r) -> elems_ok d l r) ->
  forall l vs r, parse_elems (S f) d l = Some (vs, r) -> elems_ok d l r.
Proof.
  intros Hv He l vs r Hp. cbn [parse_elems] in Hp.
  destruct (parse_value f d l) as [[v r1]|] eqn:Ev; [|done].
  destruct (Hv _ _ _ Ev) as (h & t' & v' & -> & Hh & Hdh & Hr & Hc).
  destruct (next_sep x5d r1) as [[more r2]|] eqn:En; [|done].
  destruct (next_sep_split _ _ _ _ En) as (w & w' & -> & Hw & Hw' & Hmore).
  destruct more.
  - destruct (parse_elems f d r2) as [[vs2 r3]|] eqn:Ee; [|done]. injection Hp as <- <-.
    destruct (He _ _ _ Ee) as (h2 & e & vs' & -> & Hne & Hh2 & Hdh2 & Hvs & Hc2).
    exists (Z.max h h2), (v.1 ++ w ++ x2c :: w' ++ e), ((t', v') :: vs').
    split_and!; [cbn; by rewrite <- !app_assoc; cbn; rewrite <- !app_assoc|done|lia..| |].
    + constructor; [eapply reads_mono; [|exact Hr]; lia|]. eapply reads_val_mono; [|done]. lia.
    + intros x. rewrite fmap_cons, sep_by_cons_ne by by destruct vs'.
      rewrite <- !app_assoc, Hc. cbn [fst]. f_equal. cbn [app]. rewrite <- !app_assoc. by apply compact_more.
  - rewrite (Hmore eq_refl) in *. injection Hp as <- <-.
    exists h, (v.1 ++ w), [(t', v')]. split_and!; [by rewrite <- app_assoc|done..| |].
    + by apply list.Forall_singleton.
    + intros x. by rewrite <- app_assoc, Hc, compact_blank.
Qed.

Lemma parse_members_step f d :
  (forall l v r, parse_value f d l = Some (v, r) -> value_ok d l v r) ->
  (forall l ms r, parse_members f d l = Some (ms, r) -> members_ok d l r) ->
  forall l ms r, parse_members (S f) d l = Some (ms, r) -> members_ok d l r.
Proof.
  intros Hv Hm l ms r Hp. cbn [parse_members] in Hp.
  destruct (head_is x22 l) eqn:E22; [|done]. apply head_is_Some in E22. rewrite E22.
  destruct (scan_str (drop 1 l)) as [[body r1]|] eqn:Es; [|done].
  destruct (scan_str_compact _ _ _ Es) as (s' & Hb). apply scan_str_app in Es as ->.
  destruct (skip_ws_split r1) as (w1 & Hr1 & Hw1). remember (skip_ws r1) as l1 eqn:E. clear E. subst r1.
  destruct (head_is x3a l1) eqn:E3a; [|done]. apply head_is_Some in E3a. rewrite E3a. 
  destruct (skip_ws_split (drop 1 l1)) as (w2 & -> & Hw2).
  destruct (parse_value f d (skip_ws (drop 1 l1))) as [[v r2]|] eqn:Ev; [|done].
  destruct (Hv _ _ _ Ev) as (h & t' & v' & -> & Hh & Hdh & Hr & Hc).
  assert (forall e x, compact_state false false (x22 :: body ++ x22 :: w1 ++ x3a :: w2 ++ v.1 ++ e ++ x)
    = member_text (s', (t', v')) ++ compact_state false false (e ++ x)) as Hone.
  { intros e x. rewrite <- quoted_app, (compact_quoted _ s') by done.
    rewrite compact_blank, compact_out_kept by (done || by apply kept_punct; cbn; tauto).
    rewrite compact_blank, Hc by done. unfold member_text. cbn [fst snd]. by rewrite <- app_assoc. }
  destruct (next_sep x7d r2) as [[more r3]|] eqn:En; [|done].
  destruct (next_sep_split _ _ _ _ En) as (w & w' & -> & Hw & Hw' & Hmore).
  destruct more.
  - destruct (parse_members f d r3) as [[ms2 r4]|] eqn:Ee; [|done]. injection Hp as <- <-.
    destruct (Hm _ _ _ Ee) as (h2 & e & ms' & -> & Hne & Hh2 & Hdh2 & Hms & Hc2).
    exists (Z.max h h2), (x22 :: body ++ x22 :: w1 ++ x3a :: w2 ++ v.1 ++ w ++ x2c :: w' ++ e), ((s', (t', v')) :: ms').
    split_and!; [by repeat (cbn; rewrite <- !app_assoc)|done|lia..| |].
    + constructor; [|eapply reads_member_mono; [|done]; lia].
      split; [apply Hb|]. eapply reads_mono; [|exact Hr]. lia.
    + intros x. rewrite fmap_cons, sep_by_cons_ne by by destruct ms'.
      repeat (cbn [app]; rewrite <- !app_assoc). specialize (Hone (w ++ x2c :: w' ++ e) x).
      repeat (cbn [app] in Hone; rewrite <- !app_assoc in Hone). rewrite Hone. f_equal. by apply compact_more.
  - rewrite (Hmore eq_refl) in *. injection Hp as <- <-.
    exists h, (x22 :: body ++ x22 :: w1 ++ x3a :: w2 ++ v.1 ++ w), [(s', (t', v'))].
    split_and!; [by repeat (cbn; rewrite <- !app_assoc)|done..| |].
    + apply list.Forall_singleton. split; [apply Hb|exact Hr].
    + intros x. repeat (cbn [app]; rewrite <- !app_assoc). rewrite Hone. by rewrite compact_blank.
Qed.

Lemma parse_compacts f :
  (forall d l v r, d <= maxNestingDepth -> parse_value f d l = Some (v, r) -> value_ok d l v r) /\
  (forall d l vs r, d <= maxNestingDepth -> parse_elems f d l = Some (vs, r) -> elems_ok d l r) /\
  (forall d l ms r, d <= maxNestingDepth -> parse_members f d l = Some (ms, r) -> members_ok d l r).
Proof.
  induction f as [|f (IHv & IHe & IHm)]; [done|]. split_and!; intros d l v r Hd.
  - by apply parse_value_step; eauto.
  - apply parse_elems_step; eauto.
  - apply parse_members_step; eauto.
Qed.

(** [json.Marshal] of any valid raw message is readable. *)
Lemma enc_raw_reads t c :
  enc_raw (Some t) = Some c -> exists h v, h <= maxNestingDepth /\ reads c h v.
Proof.
  unfold enc_raw, json_Valid. destruct (json_parse t) as [w|] eqn:Ep; [|done]. intros [= <-].
  unfold json_parse in Ep. destruct (skip_ws_split t) as (w1 & Ht & Hw1).
  destruct (parse_value _ 0 (skip_ws t)) as [[v r]|] eqn:Ev; [|done].
  destruct (skip_ws_split r) as (w2 & Hr & Hw2).
  destruct (skip_ws r) as [|? ?] eqn:Er; [|done]. injection Ep as ->.
  apply (proj1 (parse_compacts _)) in Ev as (h & t' & v' & Hl & Hh & Hd & Hrd & Hc); [|done].
  exists h, v'. split; [lia|]. change (compact t) with (compact_state false false t).
  rewrite Ht, Hl, Hr, app_nil_r, compact_blank, Hc by done.
  rewrite <- (app_nil_r w2), compact_blank by done. by rewrite app_nil_r.
Qed.

(** ** Nesting

    A message adds a level around its data, and the parser limits the levels:
    the data have to be valid one level down. *)

Definition json_ValidInside (t : bytes) : bool :=
  match parse_value (S (2 * length t)) 1 (skip_ws t) with
  | Some (_, r) => bool_decide (skip_ws r = [])
  | None => false
  end.

Lemma parse_depth f :
  (forall d d' l x, d' <= d -> parse_value f d l = Some x -> parse_value f d' l = Some x) /\
  (forall d d' l x, d' <= d -> parse_elems f d l = Some x -> parse_elems f d' l = Some x) /\
  (forall d d' l x, d' <= d -> parse_members f d l = Some x -> parse_members f d' l = Some x).
Proof.
  induction f as [|f (IHv & IHe & IHm)]; [done|]. split_and!; intros d d' l x Hd Hp.
  - destruct l as [|b l]; [done|]. cbn [parse_value] in *. destruct (Byte.eqb b x22); [done|].
    destruct (Byte.eqb b x5b).
    { destruct (Z.leb_spec maxNestingDepth d); [done|]. destruct (Z.leb_spec maxNestingDepth d'); [lia|].
      destruct (head_is x5d _); [done|]. destruct (parse_elems f (d + 1) _) as [[]|] eqn:E; [|done].
      by rewrite (IHe (d + 1) (d' + 1) _ _ ltac:(lia) E). }
    destruct (Byte.eqb b x7b); [|done].
    destruct (Z.leb_spec maxNestingDepth d); [done|]. destruct (Z.leb_spec maxNestingDepth d'); [lia|].
    destruct (head_is x7d _); [done|]. destruct (parse_members f (d + 1) _) as [[]|] eqn:E; [|done].
    by rewrite (IHm (d + 1) (d' + 1) _ _ ltac:(lia) E).
  - cbn [parse_elems] in *. destruct (parse_value f d l) as [[v r]|] eqn:E; [|done].
    rewrite (IHv d d' _ _ Hd E). destruct (next_sep x5d r) as [[[] r']|]; [|done..].
    destruct (parse_elems f d r') as [[]|] eqn:E'; [|done]. by rewrite (IHe d d' _ _ Hd E').
  - cbn [parse_members] in *. destruct (head_is x22 l); [|done].
    destruct (scan_str (drop 1 l)) as [[body r1]|]; [|done]. destruct (head_is x3a (skip_ws r1)); [|done].
    destruct (parse_value f d _) as [[v r]|] eqn:E; [|done].
    rewrite (IHv d d' _ _ Hd E). destruct (next_sep x7d r) as [[[] r']|]; [|done..].
    destruct (parse_members f d r') as [[]|] eqn:E'; [|done]. by rewrite (IHm d d' _ _ Hd E').
Qed.

(** [json.Marshal] of a raw message, and that it may be put in a struct. *)
Lemma enc_raw_inside t :
  json_ValidInside t = true ->
  exists h v, enc_raw (Some t) = Some (compact t) /\ 0 <= h /\ h + 1 <= maxNestingDepth /\ reads (compact t) h v.
Proof.
  unfold json_ValidInside. destruct (parse_value _ 1 (skip_ws t)) as [[v r]|] eqn:Ev; [|done].
  intros Er%bool_decide_eq_true.
  pose proof (proj1 (parse_depth _) 1 0 _ _ ltac:(lia) Ev) as E0.
  apply (proj1 (parse_compacts _)) in Ev as (h & t' & v' & Hl & Hh & Hd & Hrd & Hc); [|done].
  exists h, v'. unfold enc_raw, json_Valid, json_parse. rewrite E0, Er. split_and!; [done|done|lia|].
  destruct (skip_ws_split t) as (w1 & Ht & Hw1). destruct (skip_ws_split r) as (w2 & Hr & Hw2).
  change (compact t) with (compact_state false false t). rewrite Er, app_nil_r in Hr. subst w2.
  rewrite Ht, Hl, compact_blank, Hc by done.
  rewrite <- (app_nil_r r), compact_blank by done. by rewrite app_nil_r.
Qed.

Lemma reads_inside t h v : reads t h v -> h + 1 <= maxNestingDepth -> json_ValidInside t = true.
Proof.
  intros Hr Hh. unfold json_ValidInside. pose proof (reads_skip_ws t h v [] Hr) as Hw.
  pose proof (reads_parse _ _ _ Hr (S (2 * length t)) 1 [] I ltac:(lia) ltac:(lia)) as Hp.
  rewrite app_nil_r in *. by rewrite Hw, Hp.
Qed.

Lemma reads_compact_id t h v : reads t h v -> compact t = t.
Proof.
  intros Hr. pose proof (reads_compact _ _ _ Hr []) as Hc. rewrite app_nil_r in Hc.
  change (compact t) with (compact_state false false t). rewrite Hc. apply app_nil_r.
Qed.
