(* ===== verification/Protocol.v ===== *)
(** * [pkg/r2ps/types.go]: the protocol's messages and constants

    One record per Go struct, with its [json.Unmarshal] decoder (the [json]
    tags) and, for the structs the server emits, its [json.Marshal] text. *)

From S2P Require Import Prelude GoStrings GoJson.
Local Open Scope Z_scope.

(** A struct field: tag, decoder, getter and setter. *)
Definition fld {T A} (name : string) (d : decoder A) (get : T -> A) (set : T -> A -> T) : field T :=
  (name, fun o v => set o <$> d (get o) v).

(** ** Constants *)

Definition ProtocolVersion : string := "1.0".

Definition TFAModePassword : string := "password".
Definition TFAModeOPAQUE : string := "opaque".
Definition TFAModeFIDO2 : string := "fido2".

Definition StateEvaluate : string := "evaluate".
Definition StateFinalize : string := "finalize".
Definition StateChallenge : string := "challenge".
Definition StateRegister : string := "register".

Definition Type2FARegistration : string := "2fa_registration".
Definition TypeCreateSession : string := "create_session".
Definition Type2FAUpdate : string := "2fa_update".
Definition Type2FAAuthenticate : string := "2fa_authenticate".
Definition Type2FAChange : string := "2fa_change".

Definition TypeP256Generate : string := "p256_generate".
Definition TypeSignECDSA : string := "sign_ecdsa".
Definition TypeAgreeECDH : string := "agree_ecdh".
Definition TypeHSMListKeys : string := "hsm_list_keys".

Definition TypeEUDIWWKAETSI : string := "eudiw_wka_etsi".
Definition TypeEUDIWWIAETSI : string := "eudiw_wia_etsi".
Definition TypeEUDIWWIRevoke : string := "eudiw_wi_revoke".
Definition TypeEUDIWWISuspend : string := "eudiw_wi_suspend".

Definition TypRequest : string := "r2ps-request+jwt".
Definition TypResponse : string := "r2ps-response+jwt".

Definition ErrIllegalRequestData : string := "ILLEGAL_REQUEST_DATA".
Definition ErrUnauthorized : string := "UNAUTHORIZED".
Definition ErrAccessDenied : string := "ACCESS_DENIED".
Definition ErrIllegalState : string := "ILLEGAL_STATE".
Definition ErrUnsupportedType : string := "UNSUPPORTED_REQUEST_TYPE".
Definition ErrServerError : string := "SERVER_ERROR".
Definition ErrTryLater : string := "TRY_LATER".

(** ** Requests and responses *)

Record ServiceRequest := mkServiceRequest {
  sr_Ver : string;
  sr_Nonce : string;
  sr_Iat : Z;
  sr_Data : option bytes;
  sr_ClientID : string;
  sr_Context : string;
  sr_Type : string;
  sr_TFASessionID : string;
  sr_JWEHash : string
}.

Definition zero_ServiceRequest : ServiceRequest :=
  mkServiceRequest "" "" 0 None "" "" "" "" "".

Definition ServiceRequest_fields : list (field ServiceRequest) :=
  [ fld "ver" dec_string sr_Ver (fun '(mkServiceRequest _ n i d c x t s j) v =>
      mkServiceRequest v n i d c x t s j);
    fld "nonce" dec_string sr_Nonce (fun '(mkServiceRequest v _ i d c x t s j) n =>
      mkServiceRequest v n i d c x t s j);
    fld "iat" dec_int64 sr_Iat (fun '(mkServiceRequest v n _ d c x t s j) i =>
      mkServiceRequest v n i d c x t s j);
    fld "data" dec_raw sr_Data (fun '(mkServiceRequest v n i _ c x t s j) d =>
      mkServiceRequest v n i d c x t s j);
    fld "client_id" dec_string sr_ClientID (fun '(mkServiceRequest v n i d _ x t s j) c =>
      mkServiceRequest v n i d c x t s j);
    fld "context" dec_string sr_Context (fun '(mkServiceRequest v n i d c _ t s j) x =>
      mkServiceRequest v n i d c x t s j);
    fld "type" dec_string sr_Type (fun '(mkServiceRequest v n i d c x _ s j) t =>
      mkServiceRequest v n i d c x t s j);
    fld "2fa_session_id" dec_string sr_TFASessionID (fun '(mkServiceRequest v n i d c x t _ j) s =>
      mkServiceRequest v n i d c x t s j);
    fld "jwe_hash" dec_string sr_JWEHash (fun '(mkServiceRequest v n i d c x t s _) j =>
      mkServiceRequest v n i d c x t s j) ].

Definition Unmarshal_ServiceRequest : bytes -> option ServiceRequest :=
  Unmarshal (dec_struct ServiceRequest_fields) zero_ServiceRequest.

(** [json.Marshal]; it fails when [Data] is not valid JSON. *)
Definition Marshal_ServiceRequest (r : ServiceRequest) : option bytes :=
  (fun d => enc_struct (
     [ ("ver", enc_string (sr_Ver r)); ("nonce", enc_string (sr_Nonce r));
       ("iat", enc_int (sr_Iat r)); ("data", d);
       ("client_id", enc_string (sr_ClientID r)); ("context", enc_string (sr_Context r));
       ("type", enc_string (sr_Type r)) ]
     ++ omit_string "2fa_session_id" (sr_TFASessionID r)
     ++ omit_string "jwe_hash" (sr_JWEHash r)))
  <$> enc_raw (sr_Data r).

Record ServiceResponse := mkServiceResponse {
  rsp_Ver : string;
  rsp_Nonce : string;
  rsp_Iat : Z;
  rsp_Data : option bytes;
  rsp_Success : option bool
}.

Definition zero_ServiceResponse : ServiceResponse := mkServiceResponse "" "" 0 None None.

Definition dec_bool_ptr : decoder (option bool) := fun _ v =>
  match v.2 with JBool b => Some (Some b) | JNull => Some None | _ => None end.

Definition ServiceResponse_fields : list (field ServiceResponse) :=
  [ fld "ver" dec_string rsp_Ver (fun '(mkServiceResponse _ n i d s) v => mkServiceResponse v n i d s);
    fld "nonce" dec_string rsp_Nonce (fun '(mkServiceResponse v _ i d s) n => mkServiceResponse v n i d s);
    fld "iat" dec_int64 rsp_Iat (fun '(mkServiceResponse v n _ d s) i => mkServiceResponse v n i d s);
    fld "data" dec_raw rsp_Data (fun '(mkServiceResponse v n i _ s) d => mkServiceResponse v n i d s);
    fld "success" dec_bool_ptr rsp_Success (fun '(mkServiceResponse v n i d _) s =>
      mkServiceResponse v n i d s) ].

Definition Unmarshal_ServiceResponse : bytes -> option ServiceResponse :=
  Unmarshal (dec_struct ServiceResponse_fields) zero_ServiceResponse.

Definition Marshal_ServiceResponse (r : ServiceResponse) : option bytes :=
  (fun d => enc_struct (
     [ ("ver", enc_string (rsp_Ver r)); ("nonce", enc_string (rsp_Nonce r));
       ("iat", enc_int (rsp_Iat r)); ("data", d) ]
     ++ match rsp_Success r with Some b => [("success", enc_bool b)] | None => [] end))
  <$> enc_raw (rsp_Data r).

Record ErrorResponse := mkErrorResponse { er_ErrorCode : string; er_ErrorMessage : string }.

Definition Marshal_ErrorResponse (r : ErrorResponse) : bytes :=
  enc_struct [("error_code", enc_string (er_ErrorCode r));
              ("error_message", enc_string (er_ErrorMessage r))].

(** ** Second-factor data *)

Record TFARequestData := mkTFARequestData {
  tfa_Protocol : string;
  tfa_TFAMode : string;
  tfa_State : string;
  tfa_PData : string;
  tfa_Request : string;
  tfa_Authorization : string;
  tfa_AuthorizationType : string;
  tfa_SessionDuration : Z
}.

Definition zero_TFARequestData : TFARequestData := mkTFARequestData "" "" "" "" "" "" "" 0.

Definition TFARequestData_fields : list (field TFARequestData) :=
  [ fld "protocol" dec_string tfa_Protocol (fun '(mkTFARequestData _ m s p r a y d) x =>
      mkTFARequestData x m s p r a y d);
    fld "2fa_mode" dec_string tfa_TFAMode (fun '(mkTFARequestData x _ s p r a y d) m =>
      mkTFARequestData x m s p r a y d);
    fld "state" dec_string tfa_State (fun '(mkTFARequestData x m _ p r a y d) s =>
      mkTFARequestData x m s p r a y d);
    fld "p_data" dec_string tfa_PData (fun '(mkTFARequestData x m s _ r a y d) p =>
      mkTFARequestData x m s p r a y d);
    fld "request" dec_string tfa_Request (fun '(mkTFARequestData x m s p _ a y d) r =>
      mkTFARequestData x m s p r a y d);
    fld "authorization" dec_string tfa_Authorization (fun '(mkTFARequestData x m s p r _ y d) a =>
      mkTFARequestData x m s p r a y d);
    fld "authorization_type" dec_string tfa_AuthorizationType
      (fun '(mkTFARequestData x m s p r a _ d) y => mkTFARequestData x m s p r a y d);
    fld "session_duration" dec_int64 tfa_SessionDuration
      (fun '(mkTFARequestData x m s p r a y _) d => mkTFARequestData x m s p r a y d) ].

(** [json.Unmarshal(req.Data, &tfaReq)]; a missing [data] is an empty text. *)
Definition Unmarshal_TFARequestData (d : option bytes) : option TFARequestData :=
  Unmarshal (dec_struct TFARequestData_fields) zero_TFARequestData (default [] d).

Definition Marshal_TFARequestData (t : TFARequestData) : bytes :=
  enc_struct (
    [("protocol", enc_string (tfa_Protocol t))]
    ++ omit_string "2fa_mode" (tfa_TFAMode t)
    ++ omit_string "state" (tfa_State t)
    ++ omit_string "p_data" (tfa_PData t)
    ++ omit_string "request" (tfa_Request t)
    ++ omit_string "authorization" (tfa_Authorization t)
    ++ omit_string "authorization_type" (tfa_AuthorizationType t)
    ++ omit_int "session_duration" (tfa_SessionDuration t)).

Definition GetProtocol (t : TFARequestData) : string :=
  if negb (bool_decide (tfa_Protocol t = "")) then tfa_Protocol t else tfa_TFAMode t.

Definition GetPData (t : TFARequestData) : string :=
  if negb (bool_decide (tfa_PData t = "")) then tfa_PData t else tfa_Request t.

Record TFAResponseData := mkTFAResponseData {
  trd_PData : string;
  trd_Response : string;
  trd_Message : string
}.

Definition Marshal_TFAResponseData (t : TFAResponseData) : bytes :=
  enc_struct (omit_string "p_data" (trd_PData t) ++ omit_string "response" (trd_Response t)
              ++ omit_string "message" (trd_Message t)).

Definition TFAResponseData_fields : list (field TFAResponseData) :=
  [ fld "p_data" dec_string trd_PData (fun '(mkTFAResponseData _ r m) p => mkTFAResponseData p r m);
    fld "response" dec_string trd_Response (fun '(mkTFAResponseData p _ m) r => mkTFAResponseData p r m);
    fld "message" dec_string trd_Message (fun '(mkTFAResponseData p r _) m => mkTFAResponseData p r m) ].

Definition Unmarshal_TFAResponseData : bytes -> option TFAResponseData :=
  Unmarshal (dec_struct TFAResponseData_fields) (mkTFAResponseData "" "" "").

Definition TFAResponseData_GetPData (t : TFAResponseData) : string :=
  if negb (bool_decide (trd_PData t = "")) then trd_PData t else trd_Response t.

Record TFAAuthResponseData := mkTFAAuthResponseData {
  tard_SessionID : string;
  tard_TFASessionID : string;
  tard_PData : string;
  tard_Response : string;
  tard_Message : string;
  tard_SessionExpirationTime : Z;
  tard_Task : string
}.

Definition Marshal_TFAAuthResponseData (t : TFAAuthResponseData) : bytes :=
  enc_struct (
    omit_string "session_id" (tard_SessionID t)
    ++ omit_string "2fa_session_id" (tard_TFASessionID t)
    ++ omit_string "p_data" (tard_PData t)
    ++ omit_string "response" (tard_Response t)
    ++ omit_string "message" (tard_Message t)
    ++ omit_int "session_expiration_time" (tard_SessionExpirationTime t)
    ++ omit_string "task" (tard_Task t)).

Definition TFAAuthResponseData_fields : list (field TFAAuthResponseData) :=
  [ fld "session_id" dec_string tard_SessionID (fun '(mkTFAAuthResponseData _ t p r m e k) s =>
      mkTFAAuthResponseData s t p r m e k);
    fld "2fa_session_id" dec_string tard_TFASessionID (fun '(mkTFAAuthResponseData s _ p r m e k) t =>
      mkTFAAuthResponseData s t p r m e k);
    fld "p_data" dec_string tard_PData (fun '(mkTFAAuthResponseData s t _ r m e k) p =>
      mkTFAAuthResponseData s t p r m e k);
    fld "response" dec_string tard_Response (fun '(mkTFAAuthResponseData s t p _ m e k) r =>
      mkTFAAuthResponseData s t p r m e k);
    fld "message" dec_string tard_Message (fun '(mkTFAAuthResponseData s t p r _ e k) m =>
      mkTFAAuthResponseData s t p r m e k);
    fld "session_expiration_time" dec_int64 tard_SessionExpirationTime
      (fun '(mkTFAAuthResponseData s t p r m _ k) e => mkTFAAuthResponseData s t p r m e k);
    fld "task" dec_string tard_Task (fun '(mkTFAAuthResponseData s t p r m e _) k =>
      mkTFAAuthResponseData s t p r m e k) ].

Definition Unmarshal_TFAAuthResponseData : bytes -> option TFAAuthResponseData :=
  Unmarshal (dec_struct TFAAuthResponseData_fields) (mkTFAAuthResponseData "" "" "" "" "" 0 "").

Definition TFAAuthResponseData_GetSessionID (t : TFAAuthResponseData) : string :=
  if negb (bool_decide (tard_SessionID t = "")) then tard_SessionID t else tard_TFASessionID t.

Definition TFAAuthResponseData_GetPData (t : TFAAuthResponseData) : string :=
  if negb (bool_decide (tard_PData t = "")) then tard_PData t else tard_Response t.

(** ** EUDIW data *)

Record EUDIWAttestationRequest := mkEUDIWAttestationRequest {
  ear_KeysToAttest : list string;
  ear_Ver : string
}.

Definition Unmarshal_EUDIWAttestationRequest : bytes -> option EUDIWAttestationRequest :=
  Unmarshal (dec_struct
    [ fld "keys_to_attest" dec_strings ear_KeysToAttest
        (fun '(mkEUDIWAttestationRequest _ v) k => mkEUDIWAttestationRequest k v);
      fld "ver" dec_string ear_Ver
        (fun '(mkEUDIWAttestationRequest k _) v => mkEUDIWAttestationRequest k v) ])
    (mkEUDIWAttestationRequest [] "").

Record StatusListRef := mkStatusListRef { slr_Idx : Z; slr_URI : string }.

(** [StatusObject], with the one field of [StatusListStatus] inlined. *)
Record StatusObject := mkStatusObject { so_StatusList : StatusListRef; so_Exp : Z }.

Definition enc_StatusListRef (r : StatusListRef) : bytes :=
  enc_struct [("idx", enc_int (slr_Idx r)); ("uri", enc_string (slr_URI r))].

Definition enc_StatusObject (o : StatusObject) : bytes :=
  enc_struct ([("status", enc_struct [("status_list", enc_StatusListRef (so_StatusList o))])]
              ++ omit_int "exp" (so_Exp o)).

Record WKAPayload := mkWKAPayload {
  wka_Iat : Z;
  wka_Exp : Z;
  wka_AttestedKeys : list bytes;
  wka_KeyStorage : option (list string);
  wka_UserAuthentication : option (list string);
  wka_Certification : string;
  wka_WalletLink : string;
  wka_KeyStorageStatus : StatusObject
}.

(** A [[]string]: the [nil] slice is [null]. *)
Definition enc_strings (l : option (list string)) : bytes :=
  match l with Some l => enc_array (enc_string <$> l) | None => lit_null end.

(** [json.Marshal]; the attested keys are raw messages. *)
Definition Marshal_WKAPayload (p : WKAPayload) : option bytes :=
  (fun ks => enc_struct (
     [ ("iat", enc_int (wka_Iat p)); ("exp", enc_int (wka_Exp p));
       ("attested_keys", enc_array ks);
       ("key_storage", enc_strings (wka_KeyStorage p));
       ("user_authentication", enc_strings (wka_UserAuthentication p));
       ("certification", enc_string (wka_Certification p)) ]
     ++ omit_string "wallet_link" (wka_WalletLink p)
     ++ [("key_storage_status", enc_StatusObject (wka_KeyStorageStatus p))]))
  <$> mapM (fun k => enc_raw (Some k)) (wka_AttestedKeys p).

Record WIAPayload := mkWIAPayload {
  wia_Iat : Z;
  wia_Exp : Z;
  wia_Sub : string;
  wia_WalletName : string;
  wia_WalletVersion : string;
  wia_CertificationInformation : string;
  wia_WalletLink : string;
  wia_ClientStatus : StatusObject;
  wia_CnfJWK : bytes
}.

(** The certification information is an [interface{}] the server only ever
    fills with a string ([cmd/server/main.go], [walletProviderConfig]). *)
Definition Marshal_WIAPayload (p : WIAPayload) : option bytes :=
  (fun k => enc_struct (
     [ ("iat", enc_int (wia_Iat p)); ("exp", enc_int (wia_Exp p)); ("sub", enc_string (wia_Sub p));
       ("wallet_name", enc_string (wia_WalletName p));
       ("wallet_version", enc_string (wia_WalletVersion p));
       ("wallet_solution_certification_information", enc_string (wia_CertificationInformation p)) ]
     ++ omit_string "wallet_link" (wia_WalletLink p)
     ++ [ ("client_status", enc_StatusObject (wia_ClientStatus p));
          ("cnf", enc_struct [("jwk", k)]) ]))
  <$> enc_raw (Some (wia_CnfJWK p)).

Definition Marshal_WKAResponse (wka : string) : bytes := enc_struct [("wka", enc_string wka)].
Definition Marshal_WIAResponse (wia : string) : bytes := enc_struct [("wia", enc_string wia)].

(** [WIRevokeRequest] and [WISuspendRequest]: their [reason]. *)
Definition Unmarshal_reason : bytes -> option string :=
  Unmarshal (dec_struct [fld "reason" dec_string (fun r : string => r) (fun _ r => r)]) "".

Definition Marshal_WIRevokeResponse (n : Z) (msg : string) : bytes :=
  enc_struct [("revoked_indices", enc_int n); ("message", enc_string msg)].
Definition Marshal_WISuspendResponse (n : Z) (msg : string) : bytes :=
  enc_struct [("suspended_indices", enc_int n); ("message", enc_string msg)].

