(* ===== verification/Messages.v ===== *)
(** * The protocol's messages, there and back

    What one side marshals the other side reads: requests, responses and the
    second-factor data survive [json.Marshal] and [json.Unmarshal], their raw
    data in compact form, their strings up to bytes that are not UTF-8. *)

From S2P Require Import Prelude GoStrings GoJson JsonText JsonRound JsonCompact Protocol.
Local Open Scope Z_scope.

(** ** Decoding a struct, field by field *)

Lemma dec_members_cons {T} (fs : list (field T)) old new k v ms d :
  find_field fs k = Some d -> d old v = Some new ->
  dec_members fs old ((k, v) :: ms) = dec_members fs new ms.
Proof. intros Hf Hd. cbn [dec_members]. by rewrite Hf, Hd. Qed.

(** The fields of an encoded struct: a string, an integer, a text that is
    readable already; with the members they are read as. *)
Abbreviation reads_fields h := (Forall2 (reads_field h)).

Lemma reads_string_field h k s : 0 <= h -> repair k = k ->
  reads_field h (k, enc_string s) (k, (enc_string s, JStr (repair s))).
Proof. intros Hh Hk. split_and!; [done|done|]. by apply (reads_mono _ 0), reads_string. Qed.

Lemma reads_int_field h k z : 0 <= h -> repair k = k ->
  reads_field h (k, enc_int z) (k, (enc_int z, JNum (enc_int z))).
Proof. intros Hh Hk. split_and!; [done|done|]. by apply (reads_mono _ 0), reads_int. Qed.

Lemma reads_bool_field h k b : 0 <= h -> repair k = k ->
  reads_field h (k, enc_bool b) (k, (enc_bool b, JBool b)).
Proof. intros Hh Hk. split_and!; [done|done|]. by apply (reads_mono _ 0), reads_bool. Qed.

Lemma reads_raw_field h k t v : repair k = k -> reads t h v -> reads_field h (k, t) (k, (t, v)).
Proof. intros Hk Hr. by split_and!. Qed.

(** The members an optional field is read as. *)
Definition opt_string_member (k s : string) : list (string * jval) :=
  if bool_decide (s = "") then [] else [(k, (enc_string s, JStr (repair s)))].
Definition opt_int_member (k : string) (z : Z) : list (string * jval) :=
  if z =? 0 then [] else [(k, (enc_int z, JNum (enc_int z)))].

Lemma reads_opt_string h k s : 0 <= h -> repair k = k ->
  reads_fields h (omit_string k s) (opt_string_member k s).
Proof.
  intros Hh Hk. unfold omit_string, opt_string_member. case_bool_decide; constructor; [|constructor].
  by apply reads_string_field.
Qed.

Lemma reads_opt_int h k z : 0 <= h -> repair k = k ->
  reads_fields h (omit_int k z) (opt_int_member k z).
Proof.
  intros Hh Hk. unfold omit_int, opt_int_member. case_match; constructor; [|constructor].
  by apply reads_int_field.
Qed.

Create HintDb reads.
#[local] Hint Resolve reads_string_field reads_int_field reads_bool_field reads_raw_field
  reads_opt_string reads_opt_int : reads.
#[local] Hint Extern 1 (0 <= _) => lia : reads.
#[local] Hint Extern 1 (repair _ = _) => (vm_compute; reflexivity) : reads.

Lemma repair_empty : repair "" = "".
Proof. reflexivity. Qed.

(** A member that may be missing: without it the field is left empty. *)
Lemma dec_opt_string {T} (fs : list (field T)) get set old k s ms :
  find_field fs k = Some (fun o v => set o <$> dec_string (get o) v) -> set old "" = old ->
  dec_members fs old (opt_string_member k s ++ ms) = dec_members fs (set old (repair s)) ms.
Proof.
  intros Hf Hs. unfold opt_string_member. case_bool_decide; [|by eapply dec_members_cons].
  subst. by rewrite repair_empty, Hs.
Qed.

Lemma dec_opt_int {T} (fs : list (field T)) get set old k z ms :
  is_int64 z ->
  find_field fs k = Some (fun o v => set o <$> dec_int64 (get o) v) -> set old 0 = old ->
  dec_members fs old (opt_int_member k z ++ ms) = dec_members fs (set old z) ms.
Proof.
  intros Hz Hf Hs. unfold opt_int_member. destruct (Z.eqb_spec z 0) as [->|Hn]; [by rewrite Hs|].
  eapply dec_members_cons; [exact Hf|]. cbn. by rewrite ParseInt64_enc_int.
Qed.

(** Decode the members of a struct one after the other. *)
Ltac dec_member := first
  [ erewrite dec_opt_string; [|reflexivity|reflexivity]
  | erewrite dec_opt_int; [|done|reflexivity|reflexivity]
  | erewrite dec_members_cons;
    [|reflexivity|first [reflexivity | cbn; rewrite ParseInt64_enc_int by done; reflexivity]] ];
  cbn match beta.

Ltac dec_all ms :=
  unfold dec_struct; cbn [snd]; rewrite <- (app_nil_r ms); unfold ms; rewrite <- ?app_assoc; cbn [app];
  repeat dec_member; reflexivity.

Ltac read_fields :=
  repeat first [apply Forall2_app | apply List.Forall2_nil | apply List.Forall2_cons]; auto with reads.

(** ** Requests *)

(** What a request is on the wire. *)
Definition wire_request (r : ServiceRequest) : ServiceRequest :=
  mkServiceRequest (repair (sr_Ver r)) (repair (sr_Nonce r)) (sr_Iat r)
    (compact <$> sr_Data r) (repair (sr_ClientID r)) (repair (sr_Context r)) (repair (sr_Type r))
    (repair (sr_TFASessionID r)) (repair (sr_JWEHash r)).

Lemma ServiceRequest_wire r t :
  sr_Data r = Some t -> json_ValidInside t = true -> is_int64 (sr_Iat r) ->
  exists b, Marshal_ServiceRequest r = Some b /\ Unmarshal_ServiceRequest b = Some (wire_request r).
Proof.
  intros Hd Ht Hi. destruct (enc_raw_inside t Ht) as (h & v & He & Hh & Hmax & Hr).
  unfold Marshal_ServiceRequest. rewrite Hd, He. eexists. split; [reflexivity|].
  unfold Unmarshal_ServiceRequest, wire_request. destruct r as [ver nonce iat data cl cx ty ses jh].
  cbn [sr_Ver sr_Nonce sr_Iat sr_Data sr_ClientID sr_Context sr_Type sr_TFASessionID sr_JWEHash] in *. subst data.
  match goal with |- context [enc_struct ?fs] => set (fs_ := fs) end.
  pose (ms := [("ver", (enc_string ver, JStr (repair ver))); ("nonce", (enc_string nonce, JStr (repair nonce)));
    ("iat", (enc_int iat, JNum (enc_int iat))); ("data", (compact t, v));
    ("client_id", (enc_string cl, JStr (repair cl))); ("context", (enc_string cx, JStr (repair cx)));
    ("type", (enc_string ty, JStr (repair ty)))]
    ++ opt_string_member "2fa_session_id" ses ++ opt_string_member "jwe_hash" jh).
  assert (reads_fields h fs_ ms) as Hf.
  { read_fields. }
  rewrite (reads_Unmarshal _ _ _ (h + 1) (JObj ms)); [|by apply reads_struct|done].
  dec_all ms.
Qed.

(** ** Responses *)

Definition wire_response (r : ServiceResponse) : ServiceResponse :=
  mkServiceResponse (repair (rsp_Ver r)) (repair (rsp_Nonce r)) (rsp_Iat r)
    (compact <$> rsp_Data r) (rsp_Success r).

Lemma ServiceResponse_wire r t :
  rsp_Data r = Some t -> json_ValidInside t = true -> is_int64 (rsp_Iat r) ->
  exists b, Marshal_ServiceResponse r = Some b /\ Unmarshal_ServiceResponse b = Some (wire_response r).
Proof.
  intros Hd Ht Hi. destruct (enc_raw_inside t Ht) as (h & v & He & Hh & Hmax & Hr).
  unfold Marshal_ServiceResponse. rewrite Hd, He. eexists. split; [reflexivity|].
  unfold Unmarshal_ServiceResponse, wire_response. destruct r as [ver nonce iat data succ].
  cbn [rsp_Ver rsp_Nonce rsp_Iat rsp_Data rsp_Success] in *. subst data.
  match goal with |- context [enc_struct ?fs] => set (fs_ := fs) end.
  pose (ms := [("ver", (enc_string ver, JStr (repair ver))); ("nonce", (enc_string nonce, JStr (repair nonce)));
    ("iat", (enc_int iat, JNum (enc_int iat))); ("data", (compact t, v))]
    ++ match succ with Some b => [("success", (enc_bool b, JBool b))] | None => [] end).
  assert (reads_fields h fs_ ms) as Hf by (apply Forall2_app; [|destruct succ]; read_fields).
  rewrite (reads_Unmarshal _ _ _ (h + 1) (JObj ms)); [|by apply reads_struct|done].
  destruct succ; dec_all ms.
Qed.

(** ** Second-factor data *)

(** The texts of the second factor's messages are readable. *)
Definition wire_tfa (t : TFARequestData) : TFARequestData :=
  mkTFARequestData (repair (tfa_Protocol t)) (repair (tfa_TFAMode t)) (repair (tfa_State t))
    (repair (tfa_PData t)) (repair (tfa_Request t)) (repair (tfa_Authorization t))
    (repair (tfa_AuthorizationType t)) (tfa_SessionDuration t).

Lemma TFARequestData_wire t :
  is_int64 (tfa_SessionDuration t) ->
  exists v, reads (Marshal_TFARequestData t) 1 v /\
    Unmarshal_TFARequestData (Some (Marshal_TFARequestData t)) = Some (wire_tfa t).
Proof.
  intros Hi. destruct t as [p m s pd rq a ay d]. cbn [tfa_SessionDuration] in Hi.
  unfold Marshal_TFARequestData, Unmarshal_TFARequestData, wire_tfa. cbn [default from_option id].
  cbn [tfa_Protocol tfa_TFAMode tfa_State tfa_PData tfa_Request tfa_Authorization
       tfa_AuthorizationType tfa_SessionDuration].
  match goal with |- context [enc_struct ?fs] => set (fs_ := fs) end.
  pose (ms := [("protocol", (enc_string p, JStr (repair p)))] ++ opt_string_member "2fa_mode" m
    ++ opt_string_member "state" s ++ opt_string_member "p_data" pd ++ opt_string_member "request" rq
    ++ opt_string_member "authorization" a ++ opt_string_member "authorization_type" ay
    ++ opt_int_member "session_duration" d).
  assert (reads_fields 0 fs_ ms) as Hf by read_fields.
  exists (JObj ms). pose proof (reads_struct 0 fs_ ms ltac:(done) Hf) as Hr. split; [exact Hr|].
  rewrite (reads_Unmarshal _ _ _ 1 (JObj ms)) by done.
  dec_all ms.
Qed.

Definition wire_tfa_response (t : TFAResponseData) : TFAResponseData :=
  mkTFAResponseData (repair (trd_PData t)) (repair (trd_Response t)) (repair (trd_Message t)).

Lemma TFAResponseData_wire t :
  exists v, reads (Marshal_TFAResponseData t) 1 v /\
    Unmarshal_TFAResponseData (Marshal_TFAResponseData t) = Some (wire_tfa_response t).
Proof.
  destruct t as [p r m]. unfold Marshal_TFAResponseData, Unmarshal_TFAResponseData, wire_tfa_response.
  cbn [trd_PData trd_Response trd_Message].
  match goal with |- context [enc_struct ?fs] => set (fs_ := fs) end.
  pose (ms := opt_string_member "p_data" p ++ opt_string_member "response" r ++ opt_string_member "message" m).
  assert (reads_fields 0 fs_ ms) as Hf by read_fields.
  exists (JObj ms). pose proof (reads_struct 0 fs_ ms ltac:(done) Hf) as Hr. split; [exact Hr|].
  rewrite (reads_Unmarshal _ _ _ 1 (JObj ms)) by done. dec_all ms.
Qed.

Definition wire_auth_response (t : TFAAuthResponseData) : TFAAuthResponseData :=
  mkTFAAuthResponseData (repair (tard_SessionID t)) (repair (tard_TFASessionID t)) (repair (tard_PData t))
    (repair (tard_Response t)) (repair (tard_Message t)) (tard_SessionExpirationTime t) (repair (tard_Task t)).

Lemma TFAAuthResponseData_wire t :
  is_int64 (tard_SessionExpirationTime t) ->
  exists v, reads (Marshal_TFAAuthResponseData t) 1 v /\
    Unmarshal_TFAAuthResponseData (Marshal_TFAAuthResponseData t) = Some (wire_auth_response t).
Proof.
  intros Hi. destruct t as [s ts p r m e k]. cbn [tard_SessionExpirationTime] in Hi.
  unfold Marshal_TFAAuthResponseData, Unmarshal_TFAAuthResponseData, wire_auth_response.
  cbn [tard_SessionID tard_TFASessionID tard_PData tard_Response tard_Message tard_SessionExpirationTime tard_Task].
  match goal with |- context [enc_struct ?fs] => set (fs_ := fs) end.
  pose (ms := opt_string_member "session_id" s ++ opt_string_member "2fa_session_id" ts
    ++ opt_string_member "p_data" p ++ opt_string_member "response" r ++ opt_string_member "message" m
    ++ opt_int_member "session_expiration_time" e ++ opt_string_member "task" k).
  assert (reads_fields 0 fs_ ms) as Hf by read_fields.
  exists (JObj ms). pose proof (reads_struct 0 fs_ ms ltac:(done) Hf) as Hr. split; [exact Hr|].
  rewrite (reads_Unmarshal _ _ _ 1 (JObj ms)) by done. dec_all ms.
Qed.

(** *** The round trip *)

(** The strings of a request are UTF-8. *)
Definition request_ValidString (r : ServiceRequest) : bool :=
  forallb ValidString [sr_Ver r; sr_Nonce r; sr_ClientID r; sr_Context r; sr_Type r; sr_TFASessionID r; sr_JWEHash r].

Definition set_Data (r : ServiceRequest) (data : option bytes) : ServiceRequest :=
  mkServiceRequest (sr_Ver r) (sr_Nonce r) (sr_Iat r) data (sr_ClientID r) (sr_Context r) (sr_Type r)
    (sr_TFASessionID r) (sr_JWEHash r).

(** C19: a request with valid data is marshalled to a text that unmarshals to
    the same request, whatever its strings hold as long as they are UTF-8;
    its raw data come back compacted. *)
Theorem ServiceRequest_roundtrip r t :
  sr_Data r = Some t -> json_ValidInside t = true -> is_int64 (sr_Iat r) -> request_ValidString r = true ->
  exists b, Marshal_ServiceRequest r = Some b /\
    Unmarshal_ServiceRequest b = Some (set_Data r (Some (compact t))).
Proof.
  intros Hd Ht Hi Hv. destruct (ServiceRequest_wire r t Hd Ht Hi) as (b & Hb & Hu).
  exists b. split; [done|]. rewrite Hu. unfold wire_request, set_Data. rewrite Hd.
  unfold request_ValidString, ValidString in Hv. cbn [forallb] in Hv. rewrite !andb_true_iff in Hv.
  destruct Hv as (H1 & H2 & H3 & H4 & H5 & H6 & H7 & _).
  apply bool_decide_eq_true in H1, H2, H3, H4, H5, H6, H7. by rewrite H1, H2, H3, H4, H5, H6, H7.
Qed.

Lemma ServiceRequest_roundtrip_witness :
  let r := mkServiceRequest "1.0" "n/\" (-5) (Some (jtext " {'a' : [1 ,'<'] }")) "<alice>" "wallet" "t" "" "" in
  exists b, Marshal_ServiceRequest r = Some b /\
    Unmarshal_ServiceRequest b = Some (set_Data r (Some (jtext "{'a':[1,'\u003c']}"))).
Proof.
  cbv zeta.
  apply (ServiceRequest_roundtrip
    (mkServiceRequest "1.0" "n/\" (-5) (Some (jtext " {'a' : [1 ,'<'] }")) "<alice>" "wallet" "t" "" "")
    (jtext " {'a' : [1 ,'<'] }")).
  - reflexivity.
  - vm_compute. reflexivity.
  - split; vm_compute; congruence.
  - vm_compute. reflexivity.
Defined.
