(* ===== verification/Counter.v ===== *)
(** * [internal/pake/counter.go]: the failed-attempt counter

    [AttemptCounter] and its three operations, and the lockout policy they
    implement: a specification on the history of calls ([locked]) and the
    theorem that the counter refines it. *)

From S2P Require Import Prelude GoTime GoStrings.
Local Open Scope Z_scope.

Record attemptRecord := mkAttempt { failures : Z; lockedAt : Time }.

(** The zero [attemptRecord] ([time.Time{}] is the zero instant). *)
Definition zero_attempt : attemptRecord := mkAttempt 0 (mkTime 0 0 None).

Record AttemptCounter := mkCounter {
  attempts : gmap string attemptRecord;
  maxFails : Z;
  lockout : Z
}.

Definition NewAttemptCounter (maxFails lockout : Z) : AttemptCounter :=
  mkCounter ∅ maxFails lockout.

Definition set_attempts (c : AttemptCounter) (m : gmap string attemptRecord) : AttemptCounter :=
  mkCounter m (maxFails c) (lockout c).

Definition counterKey (clientID kid context : string) : string :=
  clientID +:+ "|" +:+ kid +:+ "|" +:+ context.

Definition err_locked : error := Errorf "account locked: too many failed attempts".
Definition err_now_locked (n : Z) : error :=
  Errorf ("account locked after " +:+ pretty n +:+ " failures").

(** [now] is the reading of the [time.Now()] in the method. *)
Definition Check (now : Time) (clientID kid context : string) : M AttemptCounter error unit :=
  fun c =>
    let key := counterKey clientID kid context in
    match attempts c !! key with
    | None => (c, Ok tt)
    | Some rec =>
        if maxFails c <=? failures rec then
          if Before now (TimeAdd (lockedAt rec) (lockout c))
          then (c, Err err_locked)
          else (set_attempts c (delete key (attempts c)), Ok tt)
        else (c, Ok tt)
    end.

Definition RecordFailure (now : Time) (clientID kid context : string) : M AttemptCounter error unit :=
  fun c =>
    let key := counterKey clientID kid context in
    let rec := default zero_attempt (attempts c !! key) in
    let n := failures rec + 1 in
    if maxFails c <=? n
    then (set_attempts c (<[key := mkAttempt n now]> (attempts c)), Err (err_now_locked (maxFails c)))
    else (set_attempts c (<[key := mkAttempt n (lockedAt rec)]> (attempts c)), Ok tt).

Definition RecordSuccess (clientID kid context : string) : M AttemptCounter error unit :=
  fun c => (set_attempts c (delete (counterKey clientID kid context) (attempts c)), Ok tt).

(** ** The lockout policy

    A history is the list of calls on the counter, newest first. *)

Inductive call :=
| CCheck (now : Time) (key : string)
| CFail (now : Time) (key : string)
| CSuccess (key : string).

Section Policy.
Context (max lock : Z).

(** The instants of the failures of [key] that still count, newest first:
    a success, and a check after the lockout has run out, forgive them. *)
Definition is_locked (streak : list Time) (now : Time) : bool :=
  match streak with
  | [] => false
  | last :: _ => (max <=? Z.of_nat (length streak)) && Before now (TimeAdd last lock)
  end.

Definition is_full (streak : list Time) : bool :=
  match streak with [] => false | _ => max <=? Z.of_nat (length streak) end.

Fixpoint streak (h : list call) (key : string) : list Time :=
  match h with
  | [] => []
  | CFail now k :: h' =>
      if bool_decide (k = key) then now :: streak h' key else streak h' key
  | CSuccess k :: h' => if bool_decide (k = key) then [] else streak h' key
  | CCheck now k :: h' =>
      if bool_decide (k = key) && is_full (streak h' key) && negb (is_locked (streak h' key) now)
      then [] else streak h' key
  end.

(** The policy: locked while the last [max]-th-or-later failure of the
    streak is less than the lockout duration ago. *)
Definition locked (h : list call) (key : string) (now : Time) : bool :=
  is_locked (streak h key) now.
End Policy.

(** The counter after a history; a call's key is a [counterKey]. *)
Definition step_call (c : AttemptCounter) (x : call) : AttemptCounter :=
  match x with
  | CCheck now k =>
      match attempts c !! k with
      | Some rec =>
          if maxFails c <=? failures rec then
            if Before now (TimeAdd (lockedAt rec) (lockout c)) then c
            else set_attempts c (delete k (attempts c))
          else c
      | None => c
      end
  | CFail now k =>
      let rec := default zero_attempt (attempts c !! k) in
      let n := failures rec + 1 in
      set_attempts c (<[k := mkAttempt n (if maxFails c <=? n then now else lockedAt rec)]> (attempts c))
  | CSuccess k => set_attempts c (delete k (attempts c))
  end.

Fixpoint run_calls (c : AttemptCounter) (h : list call) : AttemptCounter :=
  match h with [] => c | x :: h' => step_call (run_calls c h') x end.

Section Refinement.
Lemma Check_step now clientID kid context c :
  (Check now clientID kid context c).1 = step_call c (CCheck now (counterKey clientID kid context)).
Proof. unfold Check, step_call. repeat case_match; done. Qed.

Lemma RecordFailure_step now clientID kid context c :
  (RecordFailure now clientID kid context c).1
  = step_call c (CFail now (counterKey clientID kid context)).
Proof. unfold RecordFailure, step_call. repeat case_match; done. Qed.

Lemma RecordSuccess_step clientID kid context c :
  (RecordSuccess clientID kid context c).1
  = step_call c (CSuccess (counterKey clientID kid context)).
Proof. done. Qed.

Lemma step_config c x : maxFails (step_call c x) = maxFails c /\ lockout (step_call c x) = lockout c.
Proof. destruct x; simpl; repeat case_match; done. Qed.

Lemma run_config c h : maxFails (run_calls c h) = maxFails c /\ lockout (run_calls c h) = lockout c.
Proof.
  induction h as [|x h IH]; [done|]. simpl.
  destruct (step_config (run_calls c h) x) as [-> ->]. done.
Qed.

(** The representation of a streak by a counter entry. *)
Definition represents (max : Z) (o : option attemptRecord) (s : list Time) : Prop :=
  match o, s with
  | None, [] => True
  | Some r, t :: _ =>
      failures r = Z.of_nat (length s) /\ (max <= failures r -> lockedAt r = t)
  | _, _ => False
  end.

Lemma run_represents max lock h key :
  represents max (attempts (run_calls (NewAttemptCounter max lock) h) !! key)
    (streak max lock h key).
Proof.
  induction h as [|x h IH]; [done|]. cbn [run_calls].
  set (c := run_calls _ h) in *.
  destruct (run_config (NewAttemptCounter max lock) h) as [Hm Hl].
  fold c in Hm, Hl. simpl in Hm, Hl.
  destruct x as [now k|now k|k]; cbn [step_call streak].
  - (* Check *)
    rewrite Hm, Hl.
    destruct (decide (k = key)) as [->|Hne]; [rewrite bool_decide_true by done|].
    + destruct (attempts c !! key) as [r|] eqn:E, (streak max lock h key) as [|t s] eqn:Es;
        cbn [represents] in IH; try done; [|by rewrite E].
      destruct IH as [Hf Ht]. unfold is_full, is_locked. rewrite <-Hf.
      destruct (max <=? failures r) eqn:Em; simpl; [|by rewrite E].
      rewrite Ht by lia. destruct (Before _ _); simpl; [by rewrite E|].
      by rewrite lookup_delete_eq.
    + rewrite bool_decide_false by done. simpl.
      enough (attempts (match attempts c !! k with
               | Some rec => if max <=? failures rec then
                   if Before now (TimeAdd (lockedAt rec) lock) then c
                   else set_attempts c (delete k (attempts c)) else c
               | None => c end) !! key = attempts c !! key) as -> by done.
      repeat case_match; try done. simpl. by rewrite lookup_delete_ne.
  - (* RecordFailure *)
    rewrite Hm. destruct (decide (k = key)) as [->|Hne].
    + rewrite bool_decide_true by done. cbn [attempts set_attempts].
      rewrite lookup_insert_eq. cbn [represents].
      assert (failures (default zero_attempt (attempts c !! key))
              = Z.of_nat (length (streak max lock h key))) as Hf.
      { destruct (attempts c !! key), (streak max lock h key); cbn [represents] in IH;
          try done. by destruct IH. }
      cbn [failures lockedAt length]. rewrite Hf. split; [lia|].
      intros Hle. destruct (max <=? _) eqn:E; [done|lia].
    + rewrite bool_decide_false by done. simpl. by rewrite lookup_insert_ne.
  - (* RecordSuccess *)
    destruct (decide (k = key)) as [->|Hne].
    + rewrite bool_decide_true by done. simpl. by rewrite lookup_delete_eq.
    + rewrite bool_decide_false by done. simpl. by rewrite lookup_delete_ne.
Qed.

Lemma Check_result now clientID kid context c :
  (Check now clientID kid context c).2 =
    match attempts c !! counterKey clientID kid context with
    | Some r => if (maxFails c <=? failures r) && Before now (TimeAdd (lockedAt r) (lockout c))
                then Err err_locked else Ok tt
    | None => Ok tt
    end.
Proof. unfold Check. repeat case_match; simpl in *; done. Qed.

(** The verdict of a check, from the history alone. *)
Lemma Check_verdict max lock h now clientID kid context :
  (Check now clientID kid context (run_calls (NewAttemptCounter max lock) h)).2 =
    if locked max lock h (counterKey clientID kid context) now
    then Err err_locked else Ok tt.
Proof.
  rewrite Check_result. unfold locked.
  pose proof (run_represents max lock h (counterKey clientID kid context)) as Hr.
  destruct (run_config (NewAttemptCounter max lock) h) as [-> ->]. simpl.
  destruct (attempts _ !! _) as [r|], (streak _ _ _ _) as [|t s]; cbn [represents] in Hr; try done.
  destruct Hr as [Hf Ht]. unfold is_locked. rewrite <-Hf.
  destruct (max <=? failures r) eqn:E; simpl; [|done].
  rewrite Ht by lia. by destruct (Before _ _).
Qed.

(** A check that denies changes nothing. *)
Lemma Check_denied now clientID kid context c e :
  (Check now clientID kid context c).2 = Err e -> (Check now clientID kid context c).1 = c.
Proof. unfold Check. repeat case_match; done. Qed.
End Refinement.

(** ** Properties *)


(** Calls on other keys never change the verdict on a key. *)
Theorem streak_other_key max lock h key :
  streak max lock h key =
  streak max lock (List.filter (fun x => match x with
    | CCheck _ k | CFail _ k | CSuccess k => bool_decide (k = key) end) h) key.
Proof.
  induction h as [|x h IH]; [done|].
  destruct x as [now k|now k|k]; cbn [streak List.filter];
    (destruct (bool_decide (k = key)) eqn:E; cbn [streak]; rewrite ?E, <-?IH; done).
Qed.

(** After [max] failures in a row the account is locked until the lockout
    has run out, and free afterwards. *)
Lemma locked_after_failures max lock h key now ts last :
  0 < max -> Z.of_nat (length ts) = max - 1 ->
  locked max lock (CFail last key :: ((fun t => CFail t key) <$> ts) ++ CSuccess key :: h) key now
  = Before now (TimeAdd last lock).
Proof.
  intros Hmax Hlen.
  assert (streak max lock (((fun t => CFail t key) <$> ts) ++ CSuccess key :: h) key = ts) as Hs.
  { clear. induction ts as [|t ts IH]; cbn; rewrite bool_decide_true by done; [done|].
    f_equal. exact IH. }
  unfold locked. cbn [streak]. rewrite bool_decide_true by done. rewrite Hs.
  unfold is_locked. cbn [length].
  rewrite (proj2 (Z.leb_le _ _)); [done|]. cbn [length]. lia.
Qed.
