(* ===== verification/Sessions.v ===== *)
(** * [internal/pake/session.go]: the session store

    The store maps a session ID to its [Session].  [Get] hides a session
    that has expired; [CleanExpired] removes it, which no later [Get] can
    tell. *)

From S2P Require Import Prelude GoTime.
Local Open Scope Z_scope.

Record Session := mkSession {
  s_ID : string;
  s_ClientID : string;
  s_Context : string;
  s_SessionKey : bytes;
  s_ClientMAC : bytes;
  s_ExpiresAt : Time;
  s_Verified : bool;
  s_Task : string
}.

#[export] Instance Session_eq_dec : EqDecision Session.
Proof. solve_decision. Defined.

Abbreviation SessionStore := (gmap string Session).

Definition NewSessionStore : SessionStore := ∅.

Definition Create (session : Session) : M SessionStore error unit := fun s =>
  match s !! s_ID session with
  | Some _ => (s, Err (Errorf ("session already exists: " +:+ s_ID session)))
  | None => (<[s_ID session := session]> s, Ok tt)
  end.

(** [None] is the [nil] pointer; [now] is the method's [time.Now()]. *)
Definition Get (now : Time) (id : string) (s : SessionStore) : option Session :=
  match s !! id with
  | None => None
  | Some sess => if After now (s_ExpiresAt sess) then None else Some sess
  end.

Definition set_Verified (s : Session) : Session :=
  mkSession (s_ID s) (s_ClientID s) (s_Context s) (s_SessionKey s) (s_ClientMAC s)
    (s_ExpiresAt s) true (s_Task s).

Definition MarkVerified (id : string) : M SessionStore error unit := fun s =>
  match s !! id with
  | None => (s, Err (Errorf ("session not found: " +:+ id)))
  | Some sess => (<[id := set_Verified sess]> s, Ok tt)
  end.

Definition Delete (id : string) (s : SessionStore) : SessionStore := delete id s.

(** The loop of [CleanExpired] over the entries of the map. *)
Definition clean_one (now : Time) (id : string) (sess : Session)
    (acc : SessionStore * Z) : SessionStore * Z :=
  let '(s, count) := acc in
  if After now (s_ExpiresAt sess) then (delete id s, count + 1) else acc.

Definition CleanExpired (now : Time) (s : SessionStore) : SessionStore * Z :=
  map_fold (clean_one now) (s, 0) s.

Definition Count (s : SessionStore) : Z := Z.of_nat (size s).

(** ** The store's invariant: a session is filed under its own ID. *)

Definition sessions_ok (s : SessionStore) : Prop :=
  forall id sess, s !! id = Some sess -> s_ID sess = id.

Lemma sessions_ok_empty : sessions_ok NewSessionStore.
Proof. intros id sess. unfold NewSessionStore. by rewrite lookup_empty. Qed.

Lemma sessions_ok_Create sess : steps (keeps sessions_ok) (Create sess).
Proof.
  intros s Hs id x. unfold Create. destruct (s !! s_ID sess); simpl; [by apply Hs|].
  rewrite lookup_insert_Some. naive_solver.
Qed.

Lemma sessions_ok_MarkVerified id : steps (keeps sessions_ok) (MarkVerified id).
Proof.
  intros s Hs id' x. unfold MarkVerified. destruct (s !! id) as [sess|] eqn:E; simpl; [|by apply Hs].
  rewrite lookup_insert_Some. intros [[<- <-]|[_ H]]; [by apply (Hs id sess)|by apply Hs].
Qed.

Lemma sessions_ok_Delete id s : sessions_ok s -> sessions_ok (Delete id s).
Proof. intros Hs id' x. unfold Delete. rewrite lookup_delete_Some. naive_solver. Qed.

(** ** What each operation does to a lookup *)

Lemma lookup_Create sess id s :
  (Create sess s).1 !! id =
    if bool_decide (id = s_ID sess) then
      match s !! id with Some x => Some x | None => Some sess end
    else s !! id.
Proof.
  unfold Create. case_bool_decide as H; [subst id|].
  - destruct (s !! s_ID sess) eqn:E; simpl; [done|by rewrite lookup_insert_eq].
  - destruct (s !! s_ID sess) eqn:E; simpl; [done|by rewrite lookup_insert_ne].
Qed.

Lemma lookup_MarkVerified id id' s :
  (MarkVerified id s).1 !! id' =
    if bool_decide (id' = id) then set_Verified <$> s !! id' else s !! id'.
Proof.
  unfold MarkVerified. case_bool_decide as H; [subst id'|].
  - destruct (s !! id) eqn:E; simpl; [by rewrite lookup_insert_eq|by rewrite E].
  - destruct (s !! id) eqn:E; simpl; [by rewrite lookup_insert_ne|done].
Qed.

(** [CleanExpired] keeps exactly the live sessions and counts the others. *)
Lemma CleanExpired_spec now s :
  (forall id, (CleanExpired now s).1 !! id =
     match s !! id with
     | Some sess => if After now (s_ExpiresAt sess) then None else Some sess
     | None => None
     end) /\
  (CleanExpired now s).2 + Z.of_nat (size (CleanExpired now s).1) = Z.of_nat (size s).
Proof.
  unfold CleanExpired.
  enough (forall m, m ⊆ s ->
    let r := map_fold (clean_one now) (s, 0) m in
    (forall id, r.1 !! id =
       match m !! id with
       | Some sess => if After now (s_ExpiresAt sess) then None else Some sess
       | None => s !! id
       end) /\ r.2 + Z.of_nat (size r.1) = Z.of_nat (size s)) as H.
  { destruct (H s (reflexivity s)) as [H1 H2]. split; [|done].
    intros id. rewrite H1. by destruct (s !! id). }
  intros m. apply (map_fold_weak_ind (fun r m => m ⊆ s ->
    (forall id, r.1 !! id =
       match m !! id with
       | Some sess => if After now (s_ExpiresAt sess) then None else Some sess
       | None => s !! id
       end) /\ r.2 + Z.of_nat (size r.1) = Z.of_nat (size s))); clear m.
  { split; [done|]. simpl. lia. }
  intros id sess m [s' n] Hm IH Hsub.
  assert (s !! id = Some sess) as Hs.
  { eapply lookup_weaken; [|done]. by rewrite lookup_insert_eq. }
  destruct IH as [IH1 IH2].
  { etrans; [|done]. by apply insert_subseteq. }
  simpl in IH1, IH2. specialize (IH1 id) as Hid. rewrite Hm, Hs in Hid.
  unfold clean_one. destruct (After now (s_ExpiresAt sess)) eqn:E; split; simpl.
  - intros id'. rewrite lookup_insert, lookup_delete. case_decide; subst; [by rewrite E|].
    apply IH1.
  - pose proof (map_size_delete_Some id s' ltac:(by eexists)) as Hsz.
    assert (size s' <> 0%nat).
    { intros ?%map_size_empty_iff. subst. by rewrite lookup_empty in Hid. }
    lia.
  - intros id'. rewrite lookup_insert. case_decide; subst; [by rewrite E, Hid|]. apply IH1.
  - done.
Qed.

Lemma sessions_ok_CleanExpired now s : sessions_ok s -> sessions_ok (CleanExpired now s).1.
Proof.
  intros Hs id sess. rewrite (proj1 (CleanExpired_spec now s)).
  destruct (s !! id) as [x|] eqn:E; [|done]. case_match; [done|]. intros [= <-]. by apply Hs.
Qed.

(** ** Properties *)

(** C33 *)
Theorem CleanExpired_unobservable now now' id s :
  (forall i sess, s !! i = Some sess -> is_Some (t_mono (s_ExpiresAt sess))) ->
  not_before now' now ->
  Get now' id (CleanExpired now s).1 = Get now' id s.
Proof.
  intros Hm Hle. unfold Get. rewrite (proj1 (CleanExpired_spec now s)).
  destruct (s !! id) as [sess|] eqn:E; [|done].
  destruct (After now (s_ExpiresAt sess)) eqn:Ea; [|done].
  by rewrite (After_mono _ _ _ Hle (Hm _ _ E) Ea).
Qed.

Definition demo_session (id : string) (exp : Z) : Session :=
  mkSession id "alice" "wallet" [] [] (instant exp exp) true "".

Lemma CleanExpired_unobservable_witness :
  Get (instant 30 30) "a" (CleanExpired (instant 20 20) {[ "a" := demo_session "a" 10 ]}).1 =
  Get (instant 30 30) "a" {[ "a" := demo_session "a" 10 ]}.
Proof.
  apply (CleanExpired_unobservable (instant 20 20) (instant 30 30) "a" {[ "a" := demo_session "a" 10 ]}).
  - intros i sess Hi. apply lookup_singleton_Some in Hi as [_ <-]. by eexists.
  - exists 30, 20. by vm_compute.
Defined.
