(* ===== verification/Store.v ===== *)
(** * [internal/store]: the persistence interface and the in-memory store

    [Store] is the Go interface as a class of operations; [StoreLaws] is what
    its clients (the dispatcher, the attestation handlers, the status list)
    rely on, stated on what a store lets one observe.  [MemoryStore] is
    [memory.go], and the last section proves that it keeps the laws. *)

From S2P Require Import Prelude GoStrings.
Local Open Scope Z_scope.

(** ** [store.go] *)

(** Status values: a [byte]. *)
Definition StatusValid : Z := 0.
Definition StatusInvalid : Z := 1.
Definition StatusSuspended : Z := 2.

Record PublicKeyInfo := mkPublicKeyInfo {
  pk_Kid : string;
  pk_Curve : string;
  pk_PubKey : bytes;
  pk_CreationTime : Z;
  pk_ClientID : string
}.

#[export] Instance PublicKeyInfo_eq_dec : EqDecision PublicKeyInfo.
Proof. solve_decision. Defined.

Record WebAuthnCredential := mkWebAuthnCredential {
  wc_CredentialID : bytes;
  wc_PublicKey : bytes;
  wc_SignCount : Z;
  wc_AAGUID : bytes;
  wc_CreatedAt : Z
}.

#[export] Instance WebAuthnCredential_eq_dec : EqDecision WebAuthnCredential.
Proof. solve_decision. Defined.

Class Store (St : Type) := {
  AllocateIndex : string -> M St error Z;
  GetStatus : string -> Z -> M St error Z;
  SetStatus : string -> Z -> Z -> M St error unit;
  GetAllStatuses : string -> M St error (gmap Z Z);
  RecordWUA : string -> string -> Z -> M St error unit;
  GetClientIndices : string -> string -> M St error (list Z);
  RecordUsage : string -> Z -> M St error unit;
  IsUsed : string -> Z -> M St error bool;
  PutPublicKey : PublicKeyInfo -> M St error unit;
  GetPublicKey : string -> M St error PublicKeyInfo;
  ListPublicKeys : string -> M St error (list PublicKeyInfo);
  PutRecord : string -> string -> bytes -> M St error unit;
  GetRecord : string -> string -> M St error bytes;
  PutWebAuthnCredential : string -> string -> WebAuthnCredential -> M St error unit;
  GetWebAuthnCredential : string -> string -> M St error (list WebAuthnCredential);
  UpdateWebAuthnSignCount : string -> string -> bytes -> Z -> M St error unit
}.

(** ** [memory.go] *)

Record MemoryStore := mkMemoryStore {
  m_counters : gmap string Z;
  m_statuses : gmap string (gmap Z Z);
  m_clientIndices : gmap string (list Z);
  m_usage : gmap string bool;
  m_publicKeys : gmap string PublicKeyInfo;
  m_records : gmap string bytes;
  m_webauthn : gmap string (list WebAuthnCredential)
}.

Definition NewMemoryStore : MemoryStore := mkMemoryStore ∅ ∅ ∅ ∅ ∅ ∅ ∅.

Module Memory.
Definition set_statuses (m : MemoryStore) (x : gmap string (gmap Z Z)) : MemoryStore :=
  mkMemoryStore (m_counters m) x (m_clientIndices m) (m_usage m) (m_publicKeys m)
    (m_records m) (m_webauthn m).

(** The map index of a [nil] inner map reads nothing. *)
Definition AllocateIndex (category : string) : M MemoryStore error Z := fun m =>
  let idx := default 0 (m_counters m !! category) in
  let inner := default ∅ (m_statuses m !! category) in
  (mkMemoryStore (<[category := idx + 1]> (m_counters m))
     (<[category := <[idx := StatusValid]> inner]> (m_statuses m))
     (m_clientIndices m) (m_usage m) (m_publicKeys m) (m_records m) (m_webauthn m), Ok idx).

Definition err_category (category : string) : error :=
  Errorf ("category " +:+ fmt_q category +:+ " not found").
Definition err_index (idx : Z) (category : string) : error :=
  Errorf ("index " +:+ fmt_d idx +:+ " not found in category " +:+ fmt_q category).

Definition GetStatus (category : string) (idx : Z) : M MemoryStore error Z := fun m =>
  match m_statuses m !! category with
  | None => (m, Err (err_category category))
  | Some inner =>
      match inner !! idx with
      | None => (m, Err (err_index idx category))
      | Some status => (m, Ok status)
      end
  end.

Definition SetStatus (category : string) (idx status : Z) : M MemoryStore error unit := fun m =>
  match m_statuses m !! category with
  | None => (m, Err (err_category category))
  | Some inner =>
      match inner !! idx with
      | None => (m, Err (err_index idx category))
      | Some _ => (set_statuses m (<[category := <[idx := status]> inner]> (m_statuses m)), Ok tt)
      end
  end.

Definition GetAllStatuses (category : string) : M MemoryStore error (gmap Z Z) :=
  gets (fun m => default ∅ (m_statuses m !! category)).

Definition pair_key (a b : string) : string := a +:+ "|" +:+ b.
Definition usage_key (category : string) (idx : Z) : string := category +:+ "|" +:+ fmt_d idx.

Definition RecordWUA (clientID category : string) (idx : Z) : M MemoryStore error unit :=
  modify (fun m =>
    let key := pair_key clientID category in
    mkMemoryStore (m_counters m) (m_statuses m)
      (<[key := default [] (m_clientIndices m !! key) ++ [idx]]> (m_clientIndices m))
      (m_usage m) (m_publicKeys m) (m_records m) (m_webauthn m)).

Definition GetClientIndices (clientID category : string) : M MemoryStore error (list Z) :=
  gets (fun m => default [] (m_clientIndices m !! pair_key clientID category)).

Definition RecordUsage (category : string) (idx : Z) : M MemoryStore error unit :=
  modify (fun m =>
    mkMemoryStore (m_counters m) (m_statuses m) (m_clientIndices m)
      (<[usage_key category idx := true]> (m_usage m)) (m_publicKeys m) (m_records m) (m_webauthn m)).

Definition IsUsed (category : string) (idx : Z) : M MemoryStore error bool :=
  gets (fun m => default false (m_usage m !! usage_key category idx)).

Definition PutPublicKey (key : PublicKeyInfo) : M MemoryStore error unit :=
  modify (fun m =>
    mkMemoryStore (m_counters m) (m_statuses m) (m_clientIndices m) (m_usage m)
      (<[pk_Kid key := key]> (m_publicKeys m)) (m_records m) (m_webauthn m)).

Definition GetPublicKey (kid : string) : M MemoryStore error PublicKeyInfo := fun m =>
  match m_publicKeys m !! kid with
  | None => (m, Err (Errorf ("key " +:+ fmt_q kid +:+ " not found")))
  | Some k => (m, Ok k)
  end.

(** The order is the map's iteration order, which Go leaves open. *)
Definition ListPublicKeys (clientID : string) : M MemoryStore error (list PublicKeyInfo) :=
  gets (fun m =>
    List.filter (fun k => bool_decide (clientID = "") || bool_decide (pk_ClientID k = clientID))
      (map_to_list (m_publicKeys m)).*2).

Definition PutRecord (clientID context : string) (record : bytes) : M MemoryStore error unit :=
  modify (fun m =>
    mkMemoryStore (m_counters m) (m_statuses m) (m_clientIndices m) (m_usage m) (m_publicKeys m)
      (<[pair_key clientID context := record]> (m_records m)) (m_webauthn m)).

Definition GetRecord (clientID context : string) : M MemoryStore error bytes := fun m =>
  match m_records m !! pair_key clientID context with
  | None => (m, Err (Errorf ("no record for " +:+ clientID +:+ "/" +:+ context)))
  | Some r => (m, Ok r)
  end.

Definition set_webauthn (m : MemoryStore) (x : gmap string (list WebAuthnCredential)) : MemoryStore :=
  mkMemoryStore (m_counters m) (m_statuses m) (m_clientIndices m) (m_usage m) (m_publicKeys m)
    (m_records m) x.

Definition PutWebAuthnCredential (clientID context : string) (cred : WebAuthnCredential) :
    M MemoryStore error unit :=
  modify (fun m =>
    let key := pair_key clientID context in
    set_webauthn m (<[key := default [] (m_webauthn m !! key) ++ [cred]]> (m_webauthn m))).

Definition GetWebAuthnCredential (clientID context : string) :
    M MemoryStore error (list WebAuthnCredential) := fun m =>
  match default [] (m_webauthn m !! pair_key clientID context) with
  | [] => (m, Err (Errorf ("no WebAuthn credentials for " +:+ clientID +:+ "/" +:+ context)))
  | creds => (m, Ok creds)
  end.

Fixpoint bytesEqual (a b : bytes) : bool :=
  match a, b with
  | [], [] => true
  | x :: a', y :: b' => Byte.eqb x y && bytesEqual a' b'
  | _, _ => false
  end.

Definition set_SignCount (n : Z) (c : WebAuthnCredential) : WebAuthnCredential :=
  mkWebAuthnCredential (wc_CredentialID c) (wc_PublicKey c) n (wc_AAGUID c) (wc_CreatedAt c).

(** The first credential with the ID is updated; [None] when there is none. *)
Fixpoint update_first (credentialID : bytes) (n : Z) (l : list WebAuthnCredential) :
    option (list WebAuthnCredential) :=
  match l with
  | [] => None
  | c :: l' =>
      if bytesEqual (wc_CredentialID c) credentialID then Some (set_SignCount n c :: l')
      else cons c <$> update_first credentialID n l'
  end.

Definition UpdateWebAuthnSignCount (clientID context : string) (credentialID : bytes)
    (signCount : Z) : M MemoryStore error unit := fun m =>
  let key := pair_key clientID context in
  match update_first credentialID signCount (default [] (m_webauthn m !! key)) with
  | None => (m, Err (Errorf "credential not found"))
  | Some l => (set_webauthn m (<[key := l]> (m_webauthn m)), Ok tt)
  end.
End Memory.

#[export] Instance MemoryStore_Store : Store MemoryStore := {
  AllocateIndex := Memory.AllocateIndex;
  GetStatus := Memory.GetStatus;
  SetStatus := Memory.SetStatus;
  GetAllStatuses := Memory.GetAllStatuses;
  RecordWUA := Memory.RecordWUA;
  GetClientIndices := Memory.GetClientIndices;
  RecordUsage := Memory.RecordUsage;
  IsUsed := Memory.IsUsed;
  PutPublicKey := Memory.PutPublicKey;
  GetPublicKey := Memory.GetPublicKey;
  ListPublicKeys := Memory.ListPublicKeys;
  PutRecord := Memory.PutRecord;
  GetRecord := Memory.GetRecord;
  PutWebAuthnCredential := Memory.PutWebAuthnCredential;
  GetWebAuthnCredential := Memory.GetWebAuthnCredential;
  UpdateWebAuthnSignCount := Memory.UpdateWebAuthnSignCount
}.

(** ** What the clients of a store rely on *)

(** The parts of a store's state a client can observe. *)
Inductive part := PStatus | PIndices | PRecords | PCreds | PKeys | PUsed.

Class StoreLaws (St : Type) `{Store St} := {
  (** the names the store keeps apart in its compound keys *)
  plain : string -> Prop;
  store_ok : St -> Prop;
  status_of : St -> string -> Z -> option Z;
  indices_of : St -> string -> string -> list Z;
  record_of : St -> string -> string -> option bytes;
  creds_of : St -> string -> string -> list WebAuthnCredential;
  key_of : St -> string -> option PublicKeyInfo;
  used_of : St -> string -> Z -> bool;

  agree (p : part) (s s' : St) : Prop :=
    match p with
    | PStatus => forall c i, status_of s' c i = status_of s c i
    | PIndices => forall cl c, plain c -> indices_of s' cl c = indices_of s cl c
    | PRecords => forall cl x, plain x -> record_of s' cl x = record_of s cl x
    | PCreds => forall cl x, plain x -> creds_of s' cl x = creds_of s cl x
    | PKeys => forall k, key_of s' k = key_of s k
    | PUsed => forall c i, used_of s' c i = used_of s c i
    end;
  frame (p : part) (s s' : St) : Prop :=
    (store_ok s -> store_ok s') /\ forall q, q <> p -> agree q s s';
  unchanged (s s' : St) : Prop := (store_ok s -> store_ok s') /\ forall q, agree q s s';

  (** An index is fresh, valid from the start, and never negative. *)
  AllocateIndex_law s c : store_ok s ->
    match AllocateIndex c s with
    | (s', Ok i) => frame PStatus s s' /\ 0 <= i /\ status_of s c i = None /\
        (forall c' i', status_of s' c' i' =
           if decide (c' = c /\ i' = i) then Some StatusValid else status_of s c' i')
    | (s', Err _) => unchanged s s'
    | (_, Panic _) => False
    end;
  GetStatus_law s c i :
    match GetStatus c i s with
    | (s', Ok v) => s' = s /\ status_of s c i = Some v
    | (s', Err _) => s' = s
    | (_, Panic _) => False
    end;
  SetStatus_law s c i v :
    match SetStatus c i v s with
    | (s', Ok _) => frame PStatus s s' /\ is_Some (status_of s c i) /\
        (forall c' i', status_of s' c' i' =
           if decide (c' = c /\ i' = i) then Some v else status_of s c' i')
    | (s', Err _) => unchanged s s'
    | (_, Panic _) => False
    end;
  GetAllStatuses_law s c :
    match GetAllStatuses c s with
    | (s', Ok m) => s' = s /\ (store_ok s -> forall i, m !! i = status_of s c i)
    | (s', Err _) => s' = s
    | (_, Panic _) => False
    end;
  RecordWUA_law s cl c i : plain c ->
    match RecordWUA cl c i s with
    | (s', Ok _) => frame PIndices s s' /\
        (forall cl' c', plain c' -> indices_of s' cl' c' =
           if decide (cl' = cl /\ c' = c) then indices_of s cl c ++ [i] else indices_of s cl' c')
    | (s', Err _) => unchanged s s'
    | (_, Panic _) => False
    end;
  GetClientIndices_law s cl c :
    match GetClientIndices cl c s with
    | (s', Ok l) => s' = s /\ l = indices_of s cl c
    | (s', Err _) => s' = s
    | (_, Panic _) => False
    end;
  PutPublicKey_law s k :
    match PutPublicKey k s with
    | (s', Ok _) => frame PKeys s s' /\
        (forall kid, key_of s' kid = if decide (kid = pk_Kid k) then Some k else key_of s kid)
    | (s', Err _) => unchanged s s'
    | (_, Panic _) => False
    end;
  GetPublicKey_law s kid :
    match GetPublicKey kid s with
    | (s', Ok k) => s' = s /\ key_of s kid = Some k
    | (s', Err _) => s' = s
    | (_, Panic _) => False
    end;
  PutRecord_law s cl x r : plain x ->
    match PutRecord cl x r s with
    | (s', Ok _) => frame PRecords s s' /\
        (forall cl' x', plain x' -> record_of s' cl' x' =
           if decide (cl' = cl /\ x' = x) then Some r else record_of s cl' x')
    | (s', Err _) => unchanged s s'
    | (_, Panic _) => False
    end;
  GetRecord_law s cl x :
    match GetRecord cl x s with
    | (s', Ok r) => s' = s /\ record_of s cl x = Some r
    | (s', Err _) => s' = s
    | (_, Panic _) => False
    end;
  PutWebAuthnCredential_law s cl x cred : plain x ->
    match PutWebAuthnCredential cl x cred s with
    | (s', Ok _) => frame PCreds s s' /\
        (forall cl' x', plain x' -> creds_of s' cl' x' =
           if decide (cl' = cl /\ x' = x) then creds_of s cl x ++ [cred] else creds_of s cl' x')
    | (s', Err _) => unchanged s s'
    | (_, Panic _) => False
    end;
  GetWebAuthnCredential_law s cl x :
    match GetWebAuthnCredential cl x s with
    | (s', Ok l) => s' = s /\ l = creds_of s cl x
    | (s', Err _) => s' = s
    | (_, Panic _) => False
    end;
  UpdateWebAuthnSignCount_law s cl x id n : plain x ->
    match UpdateWebAuthnSignCount cl x id n s with
    | (s', Ok _) => frame PCreds s s' /\
        (store_ok s -> exists l, Memory.update_first id n (creds_of s cl x) = Some l /\
         forall cl' x', plain x' -> creds_of s' cl' x' =
           if decide (cl' = cl /\ x' = x) then l else creds_of s cl' x')
    | (s', Err _) => unchanged s s'
    | (_, Panic _) => False
    end;
  RecordUsage_law s c i :
    match RecordUsage c i s with
    | (s', Ok _) => frame PUsed s s' /\
        (store_ok s -> forall c' i', used_of s' c' i' = if decide (c' = c /\ i' = i) then true else used_of s c' i')
    | (s', Err _) => unchanged s s'
    | (_, Panic _) => False
    end;
  IsUsed_law s c i :
    match IsUsed c i s with
    | (s', Ok b) => s' = s /\ b = used_of s c i
    | (s', Err _) => s' = s
    | (_, Panic _) => False
    end;
  ListPublicKeys_law s cl :
    match ListPublicKeys cl s with
    | (s', Ok l) => s' = s /\ (store_ok s ->
        forall k, k ∈ l <-> (exists kid, key_of s kid = Some k) /\ (cl = "" \/ pk_ClientID k = cl))
    | (s', Err _) => s' = s
    | (_, Panic _) => False
    end
}.

(** ** The in-memory store keeps the laws *)

Section MemoryLaws.
(** Every index allocated so far is below the category's counter. *)
Definition memory_ok (m : MemoryStore) : Prop :=
  forall c inner i, m_statuses m !! c = Some inner -> is_Some (inner !! i) ->
    0 <= i < default 0 (m_counters m !! c).
Definition counters_ok (m : MemoryStore) : Prop :=
  memory_ok m /\ forall c n, m_counters m !! c = Some n -> 0 <= n.

Definition mem_status (m : MemoryStore) (c : string) (i : Z) : option Z :=
  m_statuses m !! c ≫= (.!! i).
Definition mem_indices (m : MemoryStore) (cl c : string) : list Z :=
  default [] (m_clientIndices m !! Memory.pair_key cl c).
Definition mem_record (m : MemoryStore) (cl x : string) : option bytes :=
  m_records m !! Memory.pair_key cl x.
Definition mem_creds (m : MemoryStore) (cl x : string) : list WebAuthnCredential :=
  default [] (m_webauthn m !! Memory.pair_key cl x).
Definition mem_used (m : MemoryStore) (c : string) (i : Z) : bool :=
  default false (m_usage m !! Memory.usage_key c i).

Lemma pair_key_eq a b a' b' :
  plain_name b -> plain_name b' ->
  Memory.pair_key a b = Memory.pair_key a' b' <-> a = a' /\ b = b'.
Proof.
  intros Hb Hb'. split; [by apply key_inj_r|]. by intros [-> ->].
Qed.

(** An insertion under a compound key, seen through its parts. *)
Lemma lookup_pair_insert {A} (m : gmap string A) a b a' b' v :
  plain_name b -> plain_name b' ->
  <[Memory.pair_key a b := v]> m !! Memory.pair_key a' b' =
    if decide (a' = a /\ b' = b) then Some v else m !! Memory.pair_key a' b'.
Proof.
  intros Hb Hb'. rewrite lookup_insert.
  destruct (decide (a' = a /\ b' = b)) as [[-> ->]|Hn]; [by rewrite decide_True|].
  rewrite decide_False; [done|]. rewrite pair_key_eq by done. naive_solver.
Qed.

Lemma usage_key_eq c i c' i' :
  Memory.usage_key c i = Memory.usage_key c' i' <-> c = c' /\ i = i'.
Proof.
  split; [|by intros [-> ->]]. unfold Memory.usage_key. intros H.
  apply key_inj_r in H as [-> H]; [|apply plain_fmt_d..]. by apply (inj pretty) in H.
Qed.

Lemma lookup_usage_insert (m : gmap string bool) c i c' i' v :
  <[Memory.usage_key c i := v]> m !! Memory.usage_key c' i' =
    if decide (c' = c /\ i' = i) then Some v else m !! Memory.usage_key c' i'.
Proof.
  rewrite lookup_insert.
  destruct (decide (c' = c /\ i' = i)) as [[-> ->]|Hn]; [by rewrite decide_True|].
  rewrite decide_False; [done|]. rewrite usage_key_eq. naive_solver.
Qed.

Lemma mem_status_insert m c inner i v c' i' :
  m_statuses m !! c = inner ->
  (<[c := <[i := v]> (default ∅ inner)]> (m_statuses m) !! c') ≫= (.!! i') =
    if decide (c' = c /\ i' = i) then Some v else mem_status m c' i'.
Proof.
  intros Hi. unfold mem_status. rewrite lookup_insert.
  destruct (decide (c = c')) as [<-|Hc]; simpl.
  - rewrite lookup_insert, Hi.
    destruct (decide (i = i')) as [<-|Hn]; [by rewrite decide_True|].
    rewrite (decide_False (P := _ /\ _)) by naive_solver.
    destruct inner; simpl; [done|]. apply lookup_empty.
  - by rewrite decide_False by naive_solver.
Qed.

Lemma counters_ok_status m c i v :
  counters_ok m -> is_Some (mem_status m c i) ->
  counters_ok (Memory.set_statuses m
    (<[c := <[i := v]> (default ∅ (m_statuses m !! c))]> (m_statuses m))).
Proof.
  intros [Hm Hn] [v0 Hv]. split; [|done]. intros c' inner i'. simpl.
  rewrite lookup_insert. destruct (decide (c = c')) as [<-|Hc]; [|by apply Hm].
  intros [= <-] Hi'. unfold mem_status in Hv.
  destruct (m_statuses m !! c) as [inner|] eqn:E; [|done]. simpl in *.
  rewrite lookup_insert in Hi'. destruct (decide (i = i')) as [<-|Hne]; eauto.
Qed.

Lemma counters_ok_alloc m c :
  counters_ok m -> counters_ok (Memory.AllocateIndex c m).1.
Proof.
  intros [Hm Hn]. unfold Memory.AllocateIndex. simpl.
  assert (0 <= default 0 (m_counters m !! c)) as H0.
  { destruct (m_counters m !! c) eqn:E; simpl; [by eapply Hn|lia]. }
  split; simpl.
  - intros c' inner i'. simpl. rewrite !lookup_insert.
    destruct (decide (c = c')) as [<-|Hc]; [|by apply Hm].
    intros [= <-]. rewrite lookup_insert. simpl.
    destruct (decide _) as [<-|Hne]; [lia|]. intros Hi.
    destruct (m_statuses m !! c) as [inner|] eqn:E; simpl in *.
    + specialize (Hm _ _ _ E Hi). lia.
    + rewrite lookup_empty in Hi. by destruct Hi.
  - intros c' n. rewrite lookup_insert. destruct (decide _); [|by apply Hn].
    intros [= <-]. lia.
Qed.

#[export] Program Instance MemoryStore_StoreLaws : StoreLaws MemoryStore := {
  plain := plain_name;
  store_ok := counters_ok;
  status_of := mem_status;
  indices_of := mem_indices;
  record_of := mem_record;
  creds_of := mem_creds;
  key_of m k := m_publicKeys m !! k;
  used_of := mem_used
}.
Next Obligation.
  intros s c Hok. unfold AllocateIndex, MemoryStore_Store, Memory.AllocateIndex.
  set (idx := default 0 (m_counters s !! c)).
  assert (0 <= idx).
  { unfold idx. destruct Hok as [_ Hn], (m_counters s !! c) eqn:E; simpl; [by eapply Hn|lia]. }
  split_and!; [|by intros []|done| |].
  - intros Hok'. apply (counters_ok_alloc s c Hok').
  - unfold mem_status. destruct (m_statuses s !! c) as [inner|] eqn:E; [simpl|done].
    destruct (inner !! idx) eqn:E2; [|done]. destruct Hok as [Hm _].
    specialize (Hm _ _ idx E (ltac:(eauto))). unfold idx in Hm. lia.
  - intros c' i'. by apply (mem_status_insert s c (m_statuses s !! c)).
Qed.
Next Obligation.
  intros s c i. simpl. unfold Memory.GetStatus, mem_status.
  destruct (m_statuses s !! c) as [inner|]; simpl; [|done]. by destruct (inner !! i).
Qed.
Next Obligation.
  intros s c i v. simpl. unfold Memory.SetStatus.
  destruct (m_statuses s !! c) as [inner|] eqn:E; [|by split; [|intros []]].
  destruct (inner !! i) as [v0|] eqn:E2; [|by split; [|intros []]].
  assert (is_Some (mem_status s c i)) as Hs.
  { exists v0. unfold mem_status. by rewrite E. }
  split_and!; [|by intros []|done|].
  - intros Hok. pose proof (counters_ok_status s c i v Hok Hs) as H.
    by rewrite E in H.
  - intros c' i'. pose proof (mem_status_insert s c (Some inner) i v c' i' E) as H. exact H.
Qed.
Next Obligation.
  intros s c. split; [done|]. intros _ i. unfold mem_status.
  destruct (m_statuses s !! c); [done|]. apply lookup_empty.
Qed.
Next Obligation.
  intros s cl c i Hp. split_and!; [done|by intros []|].
  intros cl' c' Hp'. unfold mem_indices. simpl. rewrite lookup_pair_insert by done.
  by case_decide.
Qed.
Next Obligation. by intros s cl c. Qed.
Next Obligation.
  intros s k. split_and!; [done|by intros []|]. intros kid. simpl. rewrite lookup_insert.
  by repeat case_decide; subst.
Qed.
Next Obligation.
  intros s kid. simpl. unfold Memory.GetPublicKey. by destruct (m_publicKeys s !! kid).
Qed.
Next Obligation.
  intros s cl x r Hp. split_and!; [done|by intros []|].
  intros cl' x' Hp'. unfold mem_record. simpl. by rewrite lookup_pair_insert by done.
Qed.
Next Obligation.
  intros s cl x. simpl. unfold Memory.GetRecord, mem_record.
  by destruct (m_records s !! _) eqn:E.
Qed.
Next Obligation.
  intros s cl x cred Hp. split_and!; [done|by intros []|].
  intros cl' x' Hp'. unfold mem_creds. simpl. rewrite lookup_pair_insert by done.
  by case_decide.
Qed.
Next Obligation.
  intros s cl x. simpl. unfold Memory.GetWebAuthnCredential. fold (mem_creds s cl x).
  by destruct (mem_creds s cl x).
Qed.
Next Obligation.
  intros s cl x id n Hp. simpl. unfold Memory.UpdateWebAuthnSignCount. fold (mem_creds s cl x).
  destruct (Memory.update_first _ _ _) as [l|] eqn:E; [|by split; [|intros []]].
  split_and!; [done|by intros []|]. intros _. exists l. split; [done|].
  intros cl' x' Hp'. unfold mem_creds. simpl. rewrite lookup_pair_insert by done.
  by case_decide.
Qed.
Next Obligation.
  intros s c i. split_and!; [done|by intros []|].
  intros _ c' i'. unfold mem_used. simpl. rewrite lookup_usage_insert. by case_decide.
Qed.
Next Obligation. by intros s c i. Qed.
Next Obligation.
  intros s cl. split; [done|]. intros _ k. rewrite list_elem_of_In, filter_In, <-list_elem_of_In.
  rewrite orb_true_iff, !bool_decide_eq_true. apply and_iff_compat_r.
  rewrite list_elem_of_fmap. split.
  - intros ([kid k'] & -> & Hk). exists kid. by apply elem_of_map_to_list in Hk.
  - intros [kid Hk]. exists (kid, k). split; [done|]. by apply elem_of_map_to_list.
Qed.
End MemoryLaws.

(** ** No operation of a store panics *)

Class StoreSafe (St : Type) `{Store St} := {
  AllocateIndex_safe c : safe (AllocateIndex c);
  GetStatus_safe c i : safe (GetStatus c i);
  SetStatus_safe c i v : safe (SetStatus c i v);
  GetAllStatuses_safe c : safe (GetAllStatuses c);
  RecordWUA_safe cl c i : safe (RecordWUA cl c i);
  GetClientIndices_safe cl c : safe (GetClientIndices cl c);
  RecordUsage_safe c i : safe (RecordUsage c i);
  IsUsed_safe c i : safe (IsUsed c i);
  PutPublicKey_safe k : safe (PutPublicKey k);
  GetPublicKey_safe k : safe (GetPublicKey k);
  ListPublicKeys_safe cl : safe (ListPublicKeys cl);
  PutRecord_safe cl x r : safe (PutRecord cl x r);
  GetRecord_safe cl x : safe (GetRecord cl x);
  PutWebAuthnCredential_safe cl x c : safe (PutWebAuthnCredential cl x c);
  GetWebAuthnCredential_safe cl x : safe (GetWebAuthnCredential cl x);
  UpdateWebAuthnSignCount_safe cl x i n : safe (UpdateWebAuthnSignCount cl x i n)
}.

#[export] Hint Resolve AllocateIndex_safe GetStatus_safe SetStatus_safe GetAllStatuses_safe RecordWUA_safe
  GetClientIndices_safe RecordUsage_safe IsUsed_safe PutPublicKey_safe GetPublicKey_safe
  ListPublicKeys_safe PutRecord_safe GetRecord_safe PutWebAuthnCredential_safe
  GetWebAuthnCredential_safe UpdateWebAuthnSignCount_safe : safe.

#[export] Instance MemoryStore_safe : StoreSafe MemoryStore.
Proof.
  split; intros;
    (by intros m) ||
    (intros m; simpl; unfold Memory.GetStatus, Memory.SetStatus, Memory.GetPublicKey, Memory.GetRecord,
       Memory.GetWebAuthnCredential, Memory.UpdateWebAuthnSignCount; by repeat case_match).
Qed.

(** ** A store whose backend is up: an entry that exists can be set, and the
    indices of a client can be listed. *)
Class StoreLive (St : Type) `{StoreLaws St} : Prop := {
  SetStatus_live s c i v : is_Some (status_of s c i) -> is_ok (SetStatus c i v s).2 = true;
  GetClientIndices_live s cl c : is_ok (GetClientIndices cl c s).2 = true
}.

#[export] Instance MemoryStore_live : StoreLive MemoryStore.
Proof.
  split; [|done]. intros m c i v. cbn. unfold mem_status, Memory.SetStatus.
  intros [x Hx]. destruct (m_statuses m !! c) as [e|]; [|done]. simpl in Hx. by rewrite Hx.
Qed.

(** ** A registration, whatever its context, touches its own part only. *)
Class StoreFrames (St : Type) `{StoreLaws St} : Prop := {
  PutRecord_frame s cl x r : frame PRecords s (PutRecord cl x r s).1;
  PutWebAuthnCredential_frame s cl x c : frame PCreds s (PutWebAuthnCredential cl x c s).1;
  UpdateWebAuthnSignCount_frame s cl x i n : frame PCreds s (UpdateWebAuthnSignCount cl x i n s).1
}.

#[export] Instance MemoryStore_frames : StoreFrames MemoryStore.
Proof.
  split; intros s cl x; intros; cbn; unfold Memory.UpdateWebAuthnSignCount;
    try case_match; split; try done; by intros [].
Qed.
