(* ===== verification/StoreSpec.v ===== *)
(** * An abstract store, and what it means to implement it

    The abstract store is six finite maps and sets.  A history is the list of
    the operations that succeeded, each with its answer: [history_ok] says
    which answers the abstract store allows at each point.  An index it
    allocates may be any that is not in use. *)

From S2P Require Import Prelude GoStrings Store.
From stdpp Require Import gmap.
Local Open Scope Z_scope.

#[export] Instance part_eq_dec : EqDecision part.
Proof. solve_decision. Defined.

Record abstract := mkAbstract {
  a_status : gmap (string * Z) Z;
  a_indices : gmap (string * string) (list Z);
  a_records : gmap (string * string) bytes;
  a_creds : gmap (string * string) (list WebAuthnCredential);
  a_keys : gmap string PublicKeyInfo;
  a_used : gset (string * Z)
}.

Definition abstract_empty : abstract := mkAbstract ∅ ∅ ∅ ∅ ∅ ∅.

(** A call on a store. *)
Inductive op :=
| OAllocateIndex (category : string)
| OGetStatus (category : string) (idx : Z)
| OSetStatus (category : string) (idx status : Z)
| OGetAllStatuses (category : string)
| ORecordWUA (clientID category : string) (idx : Z)
| OGetClientIndices (clientID category : string)
| ORecordUsage (category : string) (idx : Z)
| OIsUsed (category : string) (idx : Z)
| OPutPublicKey (key : PublicKeyInfo)
| OGetPublicKey (kid : string)
| OListPublicKeys (clientID : string)
| OPutRecord (clientID context : string) (record : bytes)
| OGetRecord (clientID context : string)
| OPutWebAuthnCredential (clientID context : string) (cred : WebAuthnCredential)
| OGetWebAuthnCredential (clientID context : string)
| OUpdateWebAuthnSignCount (clientID context : string) (credentialID : bytes) (signCount : Z).

(** A call that succeeded, with its answer. *)
Inductive event :=
| EWrite (o : op)
| EAllocated (category : string) (idx : Z)
| EStatus (category : string) (idx status : Z)
| EStatuses (category : string) (m : gmap Z Z)
| EIndices (clientID category : string) (l : list Z)
| EUsed (category : string) (idx : Z) (used : bool)
| EKey (kid : string) (key : PublicKeyInfo)
| EKeys (clientID : string) (l : list PublicKeyInfo)
| ERecord (clientID context : string) (record : bytes)
| ECreds (clientID context : string) (l : list WebAuthnCredential).

Section Run.
Context {St : Type} `{Store St}.

Definition call (o : op) : M St error event :=
  match o with
  | OAllocateIndex c => let! i := AllocateIndex c in ret (EAllocated c i)
  | OGetStatus c i => let! v := GetStatus c i in ret (EStatus c i v)
  | OSetStatus c i v => SetStatus c i v ;;! ret (EWrite o)
  | OGetAllStatuses c => let! m := GetAllStatuses c in ret (EStatuses c m)
  | ORecordWUA cl c i => RecordWUA cl c i ;;! ret (EWrite o)
  | OGetClientIndices cl c => let! l := GetClientIndices cl c in ret (EIndices cl c l)
  | ORecordUsage c i => RecordUsage c i ;;! ret (EWrite o)
  | OIsUsed c i => let! b := IsUsed c i in ret (EUsed c i b)
  | OPutPublicKey k => PutPublicKey k ;;! ret (EWrite o)
  | OGetPublicKey kid => let! k := GetPublicKey kid in ret (EKey kid k)
  | OListPublicKeys cl => let! l := ListPublicKeys cl in ret (EKeys cl l)
  | OPutRecord cl x r => PutRecord cl x r ;;! ret (EWrite o)
  | OGetRecord cl x => let! r := GetRecord cl x in ret (ERecord cl x r)
  | OPutWebAuthnCredential cl x c => PutWebAuthnCredential cl x c ;;! ret (EWrite o)
  | OGetWebAuthnCredential cl x => let! l := GetWebAuthnCredential cl x in ret (ECreds cl x l)
  | OUpdateWebAuthnSignCount cl x id n => UpdateWebAuthnSignCount cl x id n ;;! ret (EWrite o)
  end.

(** Calls one after the other, whatever each returns; the history is that of
    the calls that succeeded. *)
Fixpoint run (os : list op) (s : St) : St * list event :=
  match os with
  | [] => (s, [])
  | o :: os' =>
      let '(s1, r) := call o s in
      let '(s2, es) := run os' s1 in
      (s2, match r with Ok e => e :: es | _ => es end)
  end.
End Run.

(** ** The abstract store *)

Definition update_status (f : gmap (string * Z) Z -> gmap (string * Z) Z) (a : abstract) : abstract :=
  mkAbstract (f (a_status a)) (a_indices a) (a_records a) (a_creds a) (a_keys a) (a_used a).

Definition after (e : event) (a : abstract) : abstract :=
  match e with
  | EAllocated c i => update_status <[(c, i) := StatusValid]> a
  | EWrite (OSetStatus c i v) => update_status <[(c, i) := v]> a
  | EWrite (ORecordWUA cl c i) =>
      mkAbstract (a_status a) (<[(cl, c) := default [] (a_indices a !! (cl, c)) ++ [i]]> (a_indices a))
        (a_records a) (a_creds a) (a_keys a) (a_used a)
  | EWrite (ORecordUsage c i) =>
      mkAbstract (a_status a) (a_indices a) (a_records a) (a_creds a) (a_keys a) ({[(c, i)]} ∪ a_used a)
  | EWrite (OPutPublicKey k) =>
      mkAbstract (a_status a) (a_indices a) (a_records a) (a_creds a) (<[pk_Kid k := k]> (a_keys a)) (a_used a)
  | EWrite (OPutRecord cl x r) =>
      mkAbstract (a_status a) (a_indices a) (<[(cl, x) := r]> (a_records a)) (a_creds a) (a_keys a) (a_used a)
  | EWrite (OPutWebAuthnCredential cl x c) =>
      mkAbstract (a_status a) (a_indices a) (a_records a)
        (<[(cl, x) := default [] (a_creds a !! (cl, x)) ++ [c]]> (a_creds a)) (a_keys a) (a_used a)
  | EWrite (OUpdateWebAuthnSignCount cl x id n) =>
      mkAbstract (a_status a) (a_indices a) (a_records a)
        (match Memory.update_first id n (default [] (a_creds a !! (cl, x))) with
         | Some l => <[(cl, x) := l]> (a_creds a)
         | None => a_creds a
         end) (a_keys a) (a_used a)
  | _ => a
  end.

Definition allowed (a : abstract) (e : event) : Prop :=
  match e with
  | EAllocated c i => 0 <= i /\ a_status a !! (c, i) = None
  | EStatus c i v => a_status a !! (c, i) = Some v
  | EStatuses c m => forall i, m !! i = a_status a !! (c, i)
  | EIndices cl c l => l = default [] (a_indices a !! (cl, c))
  | EUsed c i b => b = true <-> (c, i) ∈ a_used a
  | EKey kid k => a_keys a !! kid = Some k
  | EKeys cl l => forall k, k ∈ l <-> (exists kid, a_keys a !! kid = Some k) /\ (cl = "" \/ pk_ClientID k = cl)
  | ERecord cl x r => a_records a !! (cl, x) = Some r
  | ECreds cl x l => l = default [] (a_creds a !! (cl, x))
  | EWrite (OSetStatus c i _) => is_Some (a_status a !! (c, i))
  | EWrite (OUpdateWebAuthnSignCount cl x id n) =>
      is_Some (Memory.update_first id n (default [] (a_creds a !! (cl, x))))
  | EWrite _ => True
  end.

Fixpoint history_ok (a : abstract) (es : list event) : Prop :=
  match es with
  | [] => True
  | e :: es' => allowed a e /\ history_ok (after e a) es'
  end.

(** ** A lawful store implements it *)

Section Refines.
Context {St : Type} `{StoreLaws St}.

(** The names an operation writes under, where the store needs them plain. *)
Definition op_plain (o : op) : Prop :=
  match o with
  | ORecordWUA _ c _ | OGetClientIndices _ c => plain c
  | OPutRecord _ x _ | OGetRecord _ x | OPutWebAuthnCredential _ x _ | OGetWebAuthnCredential _ x
  | OUpdateWebAuthnSignCount _ x _ _ => plain x
  | _ => True
  end.

Definition show_part (p : part) (s : St) (a : abstract) : Prop :=
  match p with
  | PStatus => forall c i, status_of s c i = a_status a !! (c, i)
  | PIndices => forall cl c, plain c -> indices_of s cl c = default [] (a_indices a !! (cl, c))
  | PRecords => forall cl x, plain x -> record_of s cl x = a_records a !! (cl, x)
  | PCreds => forall cl x, plain x -> creds_of s cl x = default [] (a_creds a !! (cl, x))
  | PKeys => forall kid, key_of s kid = a_keys a !! kid
  | PUsed => forall c i, used_of s c i = true <-> (c, i) ∈ a_used a
  end.

(** The store shows the abstract one. *)
Definition shows (s : St) (a : abstract) : Prop := store_ok s /\ forall p, show_part p s a.

Lemma show_part_agree q s s' a : agree q s s' -> show_part q s a -> show_part q s' a.
Proof.
  destruct q; simpl; intros Ha Hs; intros; rewrite Ha by done; by apply Hs.
Qed.

Lemma shows_unchanged s s' a : unchanged s s' -> shows s a -> shows s' a.
Proof.
  intros [Hok Ha] [Hs Hp]. split; [by apply Hok|]. intros q. by eapply show_part_agree.
Qed.

(** A write to one part, on both sides. *)
Lemma shows_frame p s s' a a' :
  frame p s s' -> shows s a ->
  (forall q, q <> p -> show_part q s' a -> show_part q s' a') ->
  show_part p s' a' -> shows s' a'.
Proof.
  intros [Hok Hf] [Hs Hp] Hq Hp'. split; [by apply Hok|]. intros q.
  destruct (decide (q = p)) as [->|Hne]; [done|]. apply Hq; [done|].
  eapply show_part_agree; [by apply Hf|done].
Qed.

(** What a call has to show for itself. *)
Definition simulates (a : abstract) (r : St * outcome error event) : Prop :=
  match r with
  | (s', Ok e) => allowed a e /\ shows s' (after e a)
  | (s', Err _) => shows s' a
  | (_, Panic _) => False
  end.

Ltac other_parts :=
  let q := fresh "q" in let Hq := fresh "Hq" in let Hx := fresh "Hx" in
  intros q Hq Hx; destruct q; first [exact Hx|by destruct Hq].

Lemma status_calls s a o :
  shows s a ->
  match o with OAllocateIndex _ | OGetStatus _ _ | OSetStatus _ _ _ | OGetAllStatuses _ => True | _ => False end ->
  simulates a (call o s).
Proof.
  intros Hs Ho. pose proof Hs as [Hok Hp]. pose proof (Hp PStatus) as Hst. cbn [show_part] in Hst.
  destruct o as [c|c i|c i v|c| | | | | | | | | | | |]; try done; cbn [call]; unfold bind, ret.
  - pose proof (AllocateIndex_law s c Hok) as HL.
    destruct (AllocateIndex c s) as [s' [i|e|m]]; [|by eapply shows_unchanged|done].
    destruct HL as (Hf & Hi & Hn & Hu). split; [split; [done|by rewrite <-Hst]|].
    eapply (shows_frame PStatus); [done|done|other_parts|]. intros c' i'. rewrite Hu. cbn.
    rewrite lookup_insert, Hst. repeat case_decide; naive_solver.
  - pose proof (GetStatus_law s c i) as HL.
    destruct (GetStatus c i s) as [s' [v|e|m]]; [|by subst|done].
    destruct HL as [-> HL]. split; [cbn; by rewrite <-Hst|done].
  - pose proof (SetStatus_law s c i v) as HL.
    destruct (SetStatus c i v s) as [s' [u|e|m]]; [|by eapply shows_unchanged|done].
    destruct HL as (Hf & Hsome & Hu). split; [cbn; by rewrite <-Hst|].
    eapply (shows_frame PStatus); [done|done|other_parts|]. intros c' i'. rewrite Hu. cbn.
    rewrite lookup_insert, Hst. repeat case_decide; naive_solver.
  - pose proof (GetAllStatuses_law s c) as HL.
    destruct (GetAllStatuses c s) as [s' [m|e|m]]; [|by subst|done].
    destruct HL as [-> HL]. split; [|done]. intros i. by rewrite HL, Hst.
Qed.

Lemma wua_calls s a o :
  shows s a -> op_plain o ->
  match o with ORecordWUA _ _ _ | OGetClientIndices _ _ | ORecordUsage _ _ | OIsUsed _ _ => True | _ => False end ->
  simulates a (call o s).
Proof.
  intros Hs Hpl Ho. pose proof Hs as [Hok Hp].
  pose proof (Hp PIndices) as Hi. pose proof (Hp PUsed) as Hu. cbn [show_part] in Hi, Hu.
  destruct o as [| | | |cl c i|cl c|c i|c i| | | | | | | |]; try done; cbn [call]; unfold bind, ret;
    cbn [op_plain] in Hpl.
  - pose proof (RecordWUA_law s cl c i Hpl) as HL.
    destruct (RecordWUA cl c i s) as [s' [u|e|m]]; [|by eapply shows_unchanged|done].
    destruct HL as (Hf & HL). split; [done|].
    eapply (shows_frame PIndices); [done|done|other_parts|]. intros cl' c' Hc'. rewrite HL by done. cbn.
    rewrite lookup_insert. rewrite !Hi by done. repeat case_decide; naive_solver.
  - pose proof (GetClientIndices_law s cl c) as HL.
    destruct (GetClientIndices cl c s) as [s' [l|e|m]]; [|by subst|done].
    destruct HL as [-> ->]. split; [by apply Hi|done].
  - pose proof (RecordUsage_law s c i) as HL.
    destruct (RecordUsage c i s) as [s' [u|e|m]]; [|by eapply shows_unchanged|done].
    destruct HL as (Hf & HL). specialize (HL Hok). split; [done|].
    eapply (shows_frame PUsed); [done|done|other_parts|]. intros c' i'. rewrite HL. cbn.
    rewrite elem_of_union, elem_of_singleton, <-Hu. case_decide; naive_solver.
  - pose proof (IsUsed_law s c i) as HL.
    destruct (IsUsed c i s) as [s' [b|e|m]]; [|by subst|done].
    destruct HL as [-> ->]. split; [apply Hu|done].
Qed.

Lemma key_calls s a o :
  shows s a ->
  match o with OPutPublicKey _ | OGetPublicKey _ | OListPublicKeys _ => True | _ => False end ->
  simulates a (call o s).
Proof.
  intros Hs Ho. pose proof Hs as [Hok Hp]. pose proof (Hp PKeys) as Hk. cbn [show_part] in Hk.
  destruct o as [| | | | | | | |k|kid|cl| | | | |]; try done; cbn [call]; unfold bind, ret.
  - pose proof (PutPublicKey_law s k) as HL.
    destruct (PutPublicKey k s) as [s' [u|e|m]]; [|by eapply shows_unchanged|done].
    destruct HL as (Hf & HL). split; [done|].
    eapply (shows_frame PKeys); [done|done|other_parts|]. intros kid. rewrite HL. cbn.
    rewrite lookup_insert, Hk. repeat case_decide; naive_solver.
  - pose proof (GetPublicKey_law s kid) as HL.
    destruct (GetPublicKey kid s) as [s' [k|e|m]]; [|by subst|done].
    destruct HL as [-> HL]. split; [cbn; by rewrite <-Hk|done].
  - pose proof (ListPublicKeys_law s cl) as HL.
    destruct (ListPublicKeys cl s) as [s' [l|e|m]]; [|by subst|done].
    destruct HL as [-> HL]. split; [|done]. intros k. rewrite (HL Hok). by setoid_rewrite Hk.
Qed.

Lemma factor_calls s a o :
  shows s a -> op_plain o ->
  match o with
  | OPutRecord _ _ _ | OGetRecord _ _ | OPutWebAuthnCredential _ _ _ | OGetWebAuthnCredential _ _
  | OUpdateWebAuthnSignCount _ _ _ _ => True
  | _ => False
  end ->
  simulates a (call o s).
Proof.
  intros Hs Hpl Ho. pose proof Hs as [Hok Hp].
  pose proof (Hp PRecords) as Hr. pose proof (Hp PCreds) as Hc. cbn [show_part] in Hr, Hc.
  destruct o as [| | | | | | | | | | |cl x r|cl x|cl x c|cl x|cl x id n]; try done; cbn [call];
    unfold bind, ret; cbn [op_plain] in Hpl.
  - pose proof (PutRecord_law s cl x r Hpl) as HL.
    destruct (PutRecord cl x r s) as [s' [u|e|m]]; [|by eapply shows_unchanged|done].
    destruct HL as (Hf & HL). split; [done|].
    eapply (shows_frame PRecords); [done|done|other_parts|]. intros cl' x' Hx'. rewrite HL by done. cbn.
    rewrite lookup_insert. rewrite Hr by done. repeat case_decide; naive_solver.
  - pose proof (GetRecord_law s cl x) as HL.
    destruct (GetRecord cl x s) as [s' [r|e|m]]; [|by subst|done].
    destruct HL as [-> HL]. split; [cbn; by rewrite <-Hr|done].
  - pose proof (PutWebAuthnCredential_law s cl x c Hpl) as HL.
    destruct (PutWebAuthnCredential cl x c s) as [s' [u|e|m]]; [|by eapply shows_unchanged|done].
    destruct HL as (Hf & HL). split; [done|].
    eapply (shows_frame PCreds); [done|done|other_parts|]. intros cl' x' Hx'. rewrite HL by done. cbn.
    rewrite lookup_insert. rewrite !Hc by done. repeat case_decide; naive_solver.
  - pose proof (GetWebAuthnCredential_law s cl x) as HL.
    destruct (GetWebAuthnCredential cl x s) as [s' [l|e|m]]; [|by subst|done].
    destruct HL as [-> ->]. split; [by apply Hc|done].
  - pose proof (UpdateWebAuthnSignCount_law s cl x id n Hpl) as HL.
    destruct (UpdateWebAuthnSignCount cl x id n s) as [s' [u|e|m]]; [|by eapply shows_unchanged|done].
    destruct HL as (Hf & HL). destruct (HL Hok) as (l & Hl & Hu). rewrite Hc in Hl by done.
    split; [cbn; by rewrite Hl|].
    eapply (shows_frame PCreds); [done|done|other_parts|]. intros cl' x' Hx'. rewrite Hu by done.
    cbn. rewrite Hl, lookup_insert, Hc by done. repeat case_decide; naive_solver.
Qed.

Lemma call_simulates s a o : shows s a -> op_plain o -> simulates a (call o s).
Proof.
  intros Hs Hpl. destruct o;
    first [by apply status_calls|by apply wua_calls|by apply key_calls|by apply factor_calls].
Qed.

(** Every run of a lawful store is a history of the abstract one. *)
Lemma run_refines os s a s' es :
  shows s a -> Forall op_plain os -> run os s = (s', es) ->
  history_ok a es /\ shows s' (fold_left (fun a e => after e a) es a).
Proof.
  intros Hs Hpl. revert s a s' es Hs. induction Hpl as [|o os Ho Hpl IH]; intros s a s' es Hs; cbn [run].
  { by intros [= <- <-]. }
  pose proof (call_simulates s a o Hs Ho) as Hc. destruct (call o s) as [s1 r].
  destruct (run os s1) as [s2 es'] eqn:Hr. intros [= <- <-].
  destruct r as [e|e|m]; [|by eapply IH|done].
  destruct Hc as [Ha Hs1]. cbn. destruct (IH _ _ _ _ Hs1 Hr). done.
Qed.
End Refines.

Lemma shows_empty {St} `{StoreLaws St} (s : St) :
  store_ok s ->
  (forall c i, status_of s c i = None) -> (forall cl c, plain c -> indices_of s cl c = []) ->
  (forall cl x, plain x -> record_of s cl x = None) -> (forall cl x, plain x -> creds_of s cl x = []) ->
  (forall kid, key_of s kid = None) -> (forall c i, used_of s c i = false) ->
  shows s abstract_empty.
Proof.
  intros Hok Hst Hi Hr Hc Hk Hu. split; [done|]. intros []; cbn; intros.
  - by rewrite lookup_empty.
  - rewrite lookup_empty. by apply Hi.
  - rewrite lookup_empty. by apply Hr.
  - rewrite lookup_empty. by apply Hc.
  - by rewrite lookup_empty.
  - rewrite Hu. set_solver.
Qed.

Lemma NewMemoryStore_ok : store_ok NewMemoryStore.
Proof. split; [intros c inner i Hc|intros c n Hc]; exfalso; revert Hc; cbn; by rewrite lookup_empty. Qed.

(** C18: the in-memory store implements the abstract store: whatever calls are
    made on it, in whatever order, and whichever of them fail, the answers of
    those that succeed are a history of the abstract store. *)
Theorem MemoryStore_refines os s es :
  Forall (op_plain (St := MemoryStore)) os -> run os NewMemoryStore = (s, es) ->
  history_ok abstract_empty es.
Proof.
  intros Hpl Hr. eapply run_refines; [|done|exact Hr].
  apply shows_empty; [apply NewMemoryStore_ok|..]; cbn; intros;
    unfold mem_status, mem_indices, mem_record, mem_creds, mem_used; cbn; by rewrite lookup_empty.
Qed.

(** A run with an operation of each kind; the fifth and the last fail. *)
Definition sample_key : PublicKeyInfo := mkPublicKeyInfo "key-1" "P-256" [x02; x01] 1700000000 "alice".
Definition sample_cred : WebAuthnCredential := mkWebAuthnCredential [x07] [x04] 1 [] 1700000000.
Definition sample_ops : list op :=
  [OAllocateIndex "ka"; OAllocateIndex "ka"; OSetStatus "ka" 1 2; OGetStatus "ka" 1; OGetStatus "ka" 7;
   OGetAllStatuses "ka"; ORecordWUA "alice" "ka" 1; ORecordWUA "alice" "ka" 0; OGetClientIndices "alice" "ka";
   ORecordUsage "ka" 1; ORecordUsage "ka" 1; OIsUsed "ka" 1; OIsUsed "ka" 0;
   OPutPublicKey sample_key; OGetPublicKey "key-1"; OListPublicKeys "alice"; OListPublicKeys "bob";
   OPutRecord "alice" "hsm" [x01]; OPutRecord "alice" "hsm" [x02]; OGetRecord "alice" "hsm";
   OPutWebAuthnCredential "alice" "hsm" sample_cred; OUpdateWebAuthnSignCount "alice" "hsm" [x07] 5;
   OGetWebAuthnCredential "alice" "hsm"; OUpdateWebAuthnSignCount "alice" "hsm" [x08] 5].

(** The events that tell it apart from a store that refuses everything. *)
Definition answered (es : list event) : Prop :=
  length es = 22%nat /\ EStatus "ka" 1 2 ∈ es /\ EIndices "alice" "ka" [1; 0] ∈ es /\
  EUsed "ka" 1 true ∈ es /\ EUsed "ka" 0 false ∈ es /\ EKeys "alice" [sample_key] ∈ es /\
  ERecord "alice" "hsm" [x02] ∈ es /\ ECreds "alice" "hsm" [Memory.set_SignCount 5 sample_cred] ∈ es.

#[export] Instance op_eq_dec : EqDecision op.
Proof. solve_decision. Defined.
#[export] Instance event_eq_dec : EqDecision event.
Proof. solve_decision. Defined.

#[export] Instance answered_dec es : Decision (answered es).
Proof. unfold answered. apply _. Defined.

Lemma sample_plain : Forall (op_plain (St := MemoryStore)) sample_ops.
Proof.
  unfold sample_ops.
  repeat (apply Forall_cons; split;
    [cbn [op_plain]; first [exact I|apply (bool_decide_unpack (plain_name _)); vm_compute; exact I]|]).
  apply Forall_nil_2.
Qed.

Lemma MemoryStore_refines_witness :
  answered (run sample_ops NewMemoryStore).2 /\
  history_ok abstract_empty (run sample_ops NewMemoryStore).2.
Proof.
  split; [apply (bool_decide_unpack _); vm_compute; exact I|].
  apply (MemoryStore_refines sample_ops (run sample_ops NewMemoryStore).1).
  - exact sample_plain.
  - apply surjective_pairing.
Defined.
