(* ===== verification/Sha256.v ===== *)
(** * [crypto/sha256]: SHA-256 over byte lists (FIPS 180-4)

    The standard-library hash the service calls directly ([sha256.Sum256]):
    the task commitments, the relying-party hash, the WebAuthn signature base
    and the FIDO2 transcript.  Words are 32-bit integers. *)

From S2P Require Import Prelude GoStrings.
Local Open Scope Z_scope.

Definition w32 (z : Z) : Z := Z.land z 4294967295.
Definition rotr (n x : Z) : Z := Z.lor (Z.shiftr x n) (w32 (Z.shiftl x (32 - n))).

Definition Ch (x y z : Z) : Z := Z.lxor (Z.land x y) (Z.land (Z.lxor x 4294967295) z).
Definition Maj (x y z : Z) : Z := Z.lxor (Z.lxor (Z.land x y) (Z.land x z)) (Z.land y z).
Definition Sigma0 (x : Z) : Z := Z.lxor (Z.lxor (rotr 2 x) (rotr 13 x)) (rotr 22 x).
Definition Sigma1 (x : Z) : Z := Z.lxor (Z.lxor (rotr 6 x) (rotr 11 x)) (rotr 25 x).
Definition sigma0 (x : Z) : Z := Z.lxor (Z.lxor (rotr 7 x) (rotr 18 x)) (Z.shiftr x 3).
Definition sigma1 (x : Z) : Z := Z.lxor (Z.lxor (rotr 17 x) (rotr 19 x)) (Z.shiftr x 10).

(** The first 64 primes, by trial division. *)
Definition is_prime (n : nat) : bool :=
  forallb (fun d => negb (n mod d =? 0)%nat) (seq 2 (Nat.sqrt n - 1)).

Definition primes : list Z := Eval vm_compute in (Z.of_nat <$> List.filter is_prime (seq 2 310)).

(** [icbrt n] is the integer cube root of [n < 2^(3 k)], bit by bit. *)
Fixpoint icbrt_from (k : nat) (n r : Z) : Z :=
  match k with
  | 0%nat => r
  | S k' =>
      let r' := r + 2 ^ Z.of_nat k' in
      icbrt_from k' n (if r' * r' * r' <=? n then r' else r)
  end.
Definition icbrt (n : Z) : Z := icbrt_from 36 n 0.

(** The first 32 bits of the fractional parts of the cube roots of the primes. *)
Definition round_constants : list Z :=
  Eval vm_compute in ((fun p => w32 (icbrt (p * 2 ^ 96))) <$> primes).

(** The chaining state and the working variables [a..h]. *)
Record hstate := mkH { va : Z; vb : Z; vc : Z; vd : Z; ve : Z; vf : Z; vg : Z; vh : Z }.

(** The first 32 bits of the fractional parts of the square roots of the
    first eight primes. *)
Definition initial_words : list Z :=
  Eval vm_compute in ((fun p => w32 (Z.sqrt (p * 2 ^ 64))) <$> take 8 primes).

Definition initial_hash : hstate :=
  let h i := nth i initial_words 0 in mkH (h 0%nat) (h 1%nat) (h 2%nat) (h 3%nat) (h 4%nat) (h 5%nat) (h 6%nat) (h 7%nat).

(** The message schedule is a window of the last sixteen words, oldest first. *)
Definition next_word (w : list Z) : Z :=
  match w with
  | w0 :: w1 :: _ :: _ :: _ :: _ :: _ :: _ :: _ :: w9 :: _ :: _ :: _ :: _ :: w14 :: _ =>
      w32 (sigma1 w14 + w9 + sigma0 w1 + w0)
  | _ => 0
  end.

Definition round (s : hstate) (k w : Z) : hstate :=
  let t1 := vh s + Sigma1 (ve s) + Ch (ve s) (vf s) (vg s) + k + w in
  let t2 := Sigma0 (va s) + Maj (va s) (vb s) (vc s) in
  mkH (w32 (t1 + t2)) (va s) (vb s) (vc s) (w32 (vd s + t1)) (ve s) (vf s) (vg s).

Fixpoint rounds (ks : list Z) (w : list Z) (s : hstate) : hstate :=
  match ks with
  | [] => s
  | k :: ks' => rounds ks' (tail w ++ [next_word w]) (round s k (hd 0 w))
  end.

Definition add_hash (s t : hstate) : hstate :=
  mkH (w32 (va s + va t)) (w32 (vb s + vb t)) (w32 (vc s + vc t)) (w32 (vd s + vd t))
    (w32 (ve s + ve t)) (w32 (vf s + vf t)) (w32 (vg s + vg t)) (w32 (vh s + vh t)).

Fixpoint words (n : nat) (l : bytes) : list Z :=
  match n with 0%nat => [] | S n' => be_uint (take 4 l) :: words n' (drop 4 l) end.

Definition compress (s : hstate) (block : bytes) : hstate :=
  add_hash s (rounds round_constants (words 16 block) s).

Fixpoint blocks (n : nat) (l : bytes) (s : hstate) : hstate :=
  match n with 0%nat => s | S n' => blocks n' (drop 64 l) (compress s (take 64 l)) end.

(** A one bit, zeros, and the length in bits, to a multiple of 64 bytes. *)
Definition sha_pad (l : bytes) : bytes :=
  let n := Z.of_nat (length l) in
  l ++ x80 :: replicate (Z.to_nat ((55 - n) mod 64)) x00 ++ put_be 8 (8 * n).

Definition Sum256 (l : bytes) : bytes :=
  let m := sha_pad l in
  let s := blocks (length m / 64) m initial_hash in
  concat (put_be 4 <$> [va s; vb s; vc s; vd s; ve s; vf s; vg s; vh s]).

Lemma length_Sum256 l : length (Sum256 l) = 32%nat.
Proof. done. Qed.

Example sha_abc : HexEncodeToString (Sum256 (go_bytes "abc")) =
  "ba7816bf8f01cfea414140de5dae2223b00361a396177a9cb410ff61f20015ad".
Proof. vm_compute. reflexivity. Qed.

Example sha_two_blocks :
  HexEncodeToString (Sum256 (go_bytes "abcdbcdecdefdefgefghfghighijhijkijkljklmklmnlmnomnopnopq")) =
  "248d6a61d20638b8e5c026930c3e6039a33ce45964ff2167f6ecedd419db06c1".
Proof. vm_compute. reflexivity. Qed.
