(* ===== verification/Sad.v ===== *)
(** * [internal/service/sad.go]: signature activation data

    A session's [task] may list the hashes it authorises for signing.
    [ParseSADTask] reads the list, [ValidateSAD] enforces it. *)

From S2P Require Import Prelude GoStrings Sha256.
Local Open Scope Z_scope.

Definition sadTaskPrefix : string := "sign:".

(** SHA-256, SHA-384 and SHA-512 lengths. *)
Definition valid_hash_len (h : bytes) : bool :=
  let n := length h in (n =? 32)%nat || (n =? 48)%nat || (n =? 64)%nat.

(** The body of the loop over the parts. *)
Definition parse_part (p : string) : option bytes :=
  let p := TrimSpace p in
  if bool_decide (p = "") then None
  else match HexDecodeString p with
       | None => None
       | Some h => if valid_hash_len h then Some h else None
       end.

(** [None] is the [nil] slice. *)
Definition ParseSADTask (task : string) : option (list bytes) :=
  if negb (HasPrefix task sadTaskPrefix) then None
  else
    let hashList := TrimPrefix task sadTaskPrefix in
    if bool_decide (hashList = "") then None
    else
      let hashes := omap parse_part (Split hashList x2c) in
      match hashes with [] => None | _ => Some hashes end.

Fixpoint xor_acc (acc : Z) (a b : bytes) : Z :=
  match a, b with
  | x :: a', y :: b' => xor_acc (Z.lor acc (Z.lxor (b2z x) (b2z y))) a' b'
  | _, _ => acc
  end.

Definition bytesEqualConstant (a b : bytes) : bool :=
  if negb (length a =? length b)%nat then false
  else xor_acc 0 a b =? 0.

Definition err_sad : error :=
  Errorf "tbs_hash not authorized by session task (SAD binding violation)".

Definition ValidateSAD (sessionTask : string) (tbsHash : bytes) : outcome error unit :=
  match ParseSADTask sessionTask with
  | None => Ok tt
  | Some authorizedHashes =>
      if existsb (fun auth => bytesEqualConstant auth tbsHash) authorizedHashes then Ok tt
      else
        let commitment := Sum256 tbsHash in
        if existsb (fun auth => (length auth =? 32)%nat && bytesEqualConstant auth commitment)
             authorizedHashes
        then Ok tt
        else Err err_sad
  end.

(** ** The constant-time comparison is equality *)

Lemma xor_acc_zero acc a b :
  length a = length b -> xor_acc acc a b = 0 <-> acc = 0 /\ a = b.
Proof.
  revert acc b. induction a as [|x a IH]; intros acc [|y b] Hl; try done; simpl; [naive_solver|].
  rewrite IH by (simpl in Hl; congruence). rewrite Z.lor_eq_0_iff, Z.lxor_eq_0_iff.
  split; [intros [[-> ->%(inj b2z)] ->]; done|]. intros [-> [= -> ->]]. done.
Qed.

Lemma bytesEqualConstant_spec a b : bytesEqualConstant a b = true <-> a = b.
Proof.
  unfold bytesEqualConstant. destruct (Nat.eqb_spec (length a) (length b)) as [Hl|Hl]; simpl.
  - rewrite Z.eqb_eq, xor_acc_zero by done. naive_solver.
  - split; [done|congruence].
Qed.

Lemma existsb_bytesEqual (P : bytes -> bool) (h : bytes) l :
  existsb (fun a => P a && bytesEqualConstant a h) l = true <-> h ∈ l /\ P h = true.
Proof.
  rewrite existsb_exists. setoid_rewrite andb_true_iff. setoid_rewrite bytesEqualConstant_spec.
  setoid_rewrite <-list_elem_of_In. naive_solver.
Qed.

(** ** Well-formed tasks *)

(** The task a client binds to the hashes [hs]. *)
Fixpoint join (sep : string) (l : list string) : string :=
  match l with
  | [] => ""
  | [x] => x
  | x :: l' => x +:+ sep +:+ join sep l'
  end.

Definition sign_task (hs : list bytes) : string :=
  sadTaskPrefix +:+ join "," (HexEncodeToString <$> hs).

Definition hexy (b : Byte.byte) : Prop := is_Some (hex_digit b).

Lemma hexy_char z : 0 <= z < 16 -> hexy (hex_char z).
Proof. intros Hz. unfold hexy. by rewrite hex_digit_char. Qed.

Lemma hex_encode_hexy l : Forall hexy (hex_encode l).
Proof.
  induction l as [|b l IH]; simpl; [done|]. pose proof (b2z_range b).
  repeat constructor; [apply hexy_char; zlia..|done].
Qed.

Lemma strip_any_none ps b l :
  Forall (fun p => match p with [] => False | c :: _ => ~ hexy c end) ps ->
  hexy b -> strip_any ps (b :: l) = None.
Proof.
  intros Hps Hb. induction Hps as [|p ps Hp _ IH]; simpl; [done|].
  destruct p as [|c p]; [done|]. simpl.
  destruct (Byte.eqb c b) eqn:E; [apply byte_eqb_eq in E; by subst|]. done.
Qed.

Lemma trim_left_hexy fuel ps l :
  Forall (fun p => match p with [] => False | c :: _ => ~ hexy c end) ps ->
  Forall hexy l -> trim_left fuel ps l = l.
Proof.
  intros Hps Hl. destruct fuel; [done|]. simpl. destruct Hl as [|b l Hb Hl].
  - assert (strip_any ps [] = None) as ->; [|done].
    induction Hps as [|[|c p] ps Hp _ IH]; simpl; [done|done|exact IH].
  - by rewrite strip_any_none.
Qed.

Lemma space_not_hexy :
  Forall (fun p : bytes => match p with [] => False | c :: _ => ~ hexy c end) space_runes /\
  Forall (fun p : bytes => match p with [] => False | c :: _ => ~ hexy c end) (reverse <$> space_runes).
Proof. split; repeat constructor; intros [? H]; vm_compute in H; done. Qed.

Lemma TrimSpace_hexy s : Forall hexy (go_bytes s) -> TrimSpace s = s.
Proof.
  intros Hs. unfold TrimSpace, trim_bytes. destruct space_not_hexy as [H1 H2].
  rewrite (trim_left_hexy _ _ _ H1 Hs), (trim_left_hexy _ _ _ H2) by by apply Forall_reverse.
  by rewrite reverse_involutive, go_string_bytes.
Qed.

Lemma parse_part_hex h : valid_hash_len h = true -> parse_part (HexEncodeToString h) = Some h.
Proof.
  intros Hv. unfold parse_part.
  rewrite TrimSpace_hexy by (unfold HexEncodeToString; rewrite go_bytes_string; apply hex_encode_hexy).
  rewrite bool_decide_false; [by rewrite HexDecode_Encode, Hv|].
  intros He. apply (f_equal HexDecodeString) in He. rewrite HexDecode_Encode in He.
  injection He as ->. done.
Qed.

Lemma hexy_no_comma l : Forall hexy l -> (x2c : Byte.byte) ∉ l.
Proof. intros Hl Hin. rewrite Forall_forall in Hl. destruct (Hl _ Hin) as [? H]. done. Qed.

Lemma Split_join hs :
  hs <> [] -> Split (join "," (HexEncodeToString <$> hs)) x2c = HexEncodeToString <$> hs.
Proof.
  intros Hne. unfold Split. induction hs as [|h hs IH]; [done|].
  assert (go_bytes (HexEncodeToString h) = hex_encode h) as Hh by apply go_bytes_string.
  pose proof (hexy_no_comma _ (hex_encode_hexy h)) as Hc.
  destruct hs as [|h' hs]; simpl.
  - by rewrite Hh, split_bytes_none.
  - rewrite !go_bytes_app, Hh. change (go_bytes ",") with [x2c]. cbn [app].
    rewrite split_bytes_app by done. simpl. f_equal. by apply IH.
Qed.

Lemma omap_parse_parts hs :
  Forall (fun h => valid_hash_len h = true) hs ->
  omap parse_part (HexEncodeToString <$> hs) = hs.
Proof. induction 1 as [|h hs Hh _ IH]; [done|]. cbn. by rewrite parse_part_hex, IH by done. Qed.

Lemma ParseSADTask_sign hs :
  hs <> [] -> Forall (fun h => valid_hash_len h = true) hs ->
  ParseSADTask (sign_task hs) = Some hs.
Proof.
  intros Hne Hv. unfold ParseSADTask, sign_task.
  rewrite HasPrefix_app, TrimPrefix_app. simpl.
  rewrite Split_join, omap_parse_parts by done.
  rewrite bool_decide_false; [by destruct hs|].
  intros He. pose proof (Split_join hs Hne) as Hs. rewrite He in Hs.
  destruct hs as [|h hs]; [done|]. injection Hs as Hs _.
  apply (f_equal HexDecodeString) in Hs. rewrite HexDecode_Encode in Hs.
  vm_compute in Hs. injection Hs as <-. by inversion Hv.
Qed.

(** ** Properties *)

(** C27: a session whose task was bound to the hashes [hs] authorises exactly
    the signatures over one of them, or over data whose SHA-256 commitment is
    one of them. *)
Theorem ValidateSAD_sign_task hs tbs :
  hs <> [] -> Forall (fun h => valid_hash_len h = true) hs ->
  ValidateSAD (sign_task hs) tbs =
    if decide (tbs ∈ hs \/ Sum256 tbs ∈ hs) then Ok tt else Err err_sad.
Proof.
  intros Hne Hv. unfold ValidateSAD. rewrite ParseSADTask_sign by done.
  pose proof (existsb_bytesEqual (fun _ => true) tbs hs) as H1.
  pose proof (existsb_bytesEqual (fun a => (length a =? 32)%nat) (Sum256 tbs) hs) as H2.
  cbv beta in H1, H2. simpl in H1. rewrite length_Sum256 in H2.
  destruct (existsb _ hs); [rewrite decide_True by (left; apply H1; done); done|].
  destruct (existsb _ hs); [rewrite decide_True by (right; apply H2; done); done|].
  rewrite decide_False; [done|]. intuition congruence.
Qed.

(** A task that names no usable hash restricts nothing. *)
Example sad_fail_open : ValidateSAD "sign:deadbeef" [x00] = Ok tt.
Proof. reflexivity. Qed.

Lemma ValidateSAD_sign_task_witness :
  ValidateSAD (sign_task [replicate 32 x2a]) (replicate 32 x2a) = Ok tt /\
  ValidateSAD (sign_task [replicate 32 x2a]) (replicate 32 x2b) = Err err_sad.
Proof.
  assert (forall tbs, ValidateSAD (sign_task [replicate 32 x2a]) tbs =
            if decide (tbs ∈ [replicate 32 x2a] \/ Sum256 tbs ∈ [replicate 32 x2a]) then Ok tt else Err err_sad)
    as He.
  { intros tbs. apply (ValidateSAD_sign_task [replicate 32 x2a] tbs); [done|by repeat constructor]. }
  rewrite !He. split; vm_compute; reflexivity.
Defined.
