(* ===== verification/Ecc.v ===== *)
(** * [internal/crypto/ecdh.go]: elliptic-curve points on the wire

    The NIST curves of [crypto/elliptic], the encodings of a public key, and
    the raw ECDH of the service.  Scalar multiplication and ECDSA
    verification are the operations of [GoCrypto]. *)

From S2P Require Import Prelude GoStrings.
Local Open Scope Z_scope.

(** ** [crypto/elliptic] *)

Inductive Curve := P224 | P256 | P384 | P521.

#[export] Instance Curve_eq_dec : EqDecision Curve.
Proof. solve_decision. Defined.

Definition BitSize (c : Curve) : Z :=
  match c with P224 => 224 | P256 => 256 | P384 => 384 | P521 => 521 end.

Definition CurveName (c : Curve) : string :=
  match c with P224 => "P-224" | P256 => "P-256" | P384 => "P-384" | P521 => "P-521" end.

(** [Params().P] and [Params().B] *)
Definition curve_p (c : Curve) : Z :=
  match c with
  | P224 => 2^224 - 2^96 + 1
  | P256 => 2^256 - 2^224 + 2^192 + 2^96 - 1
  | P384 => 2^384 - 2^128 - 2^96 + 2^32 - 1
  | P521 => 2^521 - 1
  end.

Definition curve_b (c : Curve) : Z :=
  match c with
  | P224 => 0xb4050a850c04b3abf54132565044b0b7d7bfd8ba270b39432355ffb4
  | P256 => 0x5ac635d8aa3a93e7b3ebbd55769886bc651d06b0cc53b0f63bce3c3e27d2604b
  | P384 => 0xb3312fa7e23ee7e4988e056be3f82d19181d9c6efe8141120314088f5013875ac656398d8a2ed19d2a85c8edd3ec2aef
  | P521 => 0x0051953eb9618e1c9a1f929a21a0b68540eea2da725b99b315f3b8b489918ef109e156193951ec7e937b1652c0bd3bb1bf073573df883d2c34f1ef451fd46b503f00
  end.

Definition byteLen (c : Curve) : nat := Z.to_nat ((BitSize c + 7) / 8).

(** [y^2 = x^3 - 3x + b], right-hand side. *)
Definition curve_rhs (c : Curve) (x : Z) : Z :=
  let p := curve_p c in ((x * x * x) mod p - (3 * x) mod p + curve_b c) mod p.

(** [IsOnCurve] rejects coordinates outside the field. *)
Definition IsOnCurve (c : Curve) (x y : Z) : bool :=
  let p := curve_p c in
  (0 <=? x) && (x <? p) && (0 <=? y) && (y <? p) && ((y * y) mod p =? curve_rhs c x).

Fixpoint powmod (m a : Z) (e : positive) : Z :=
  match e with
  | xH => a mod m
  | xO e' => let r := powmod m a e' in (r * r) mod m
  | xI e' => let r := powmod m a e' in ((r * r) mod m * a) mod m
  end.

(** [big.Int.ModSqrt] for a prime [p = 3 mod 4] (every curve but P-224):
    [a^((p+1)/4)] when that is a root. *)
Definition ModSqrt (a p : Z) : option Z :=
  match (p + 1) / 4 with
  | Zpos e => let r := powmod p a e in if (r * r) mod p =? a mod p then Some r else None
  | _ => None
  end.

(** [big.Int.SetBytes], [Bytes], [FillBytes] *)
Definition SetBytes : bytes -> Z := be_uint.
Definition byte_size (z : Z) : nat := Z.to_nat ((Z.log2 z + 8) / 8).
Definition IntBytes (z : Z) : bytes := if z =? 0 then [] else put_be (byte_size z) z.
Definition FillBytes (n : nat) (z : Z) : bytes := put_be n z.

(** [elliptic.Marshal] panics on a point that is not on the curve. *)
Definition EllipticMarshal {E} (c : Curve) (x y : Z) : outcome E bytes :=
  if IsOnCurve c x y
  then Ok (x04 :: FillBytes (byteLen c) x ++ FillBytes (byteLen c) y)
  else Panic "crypto/elliptic: attempted operation on invalid point".

(** [None] is the [nil] coordinate. *)
Definition EllipticUnmarshal (c : Curve) (data : bytes) : option (Z * Z) :=
  match data with
  | x04 :: l =>
      if (length l =? 2 * byteLen c)%nat then
        let x := SetBytes (slice l 0 (byteLen c)) in
        let y := SetBytes (slice l (byteLen c) (2 * byteLen c)) in
        if IsOnCurve c x y then Some (x, y) else None
      else None
  | _ => None
  end.

Definition UnmarshalCompressed (c : Curve) (data : bytes) : option (Z * Z) :=
  match data with
  | b :: l =>
      if (Byte.eqb b x02 || Byte.eqb b x03) && (length l =? byteLen c)%nat then
        let x := SetBytes l in
        if x <? curve_p c then
          match ModSqrt (curve_rhs c x) (curve_p c) with
          | None => None
          | Some y =>
              let y' := if Bool.eqb (Z.odd y) (Byte.eqb b x03) then y else (- y) mod curve_p c in
              Some (x, y')
          end
        else None
      else None
  | [] => None
  end.

(** ** [crypto/ecdsa] *)

Record PublicKey := mkPublicKey { pub_Curve : Curve; pub_X : Z; pub_Y : Z }.
Record PrivateKey := mkPrivateKey { priv_PublicKey : PublicKey; priv_D : Z }.

#[export] Instance PublicKey_eq_dec : EqDecision PublicKey.
Proof. solve_decision. Defined.

(** Go's curve arithmetic: [ScalarMult] of a point on the curve,
    [ecdsa.Verify] of a signature [(r, s)] over a hash, and the key
    [ecdsa.GenerateKey] makes of a draw of randomness. *)
Class GoCrypto := {
  ScalarMult : Curve -> Z -> Z -> bytes -> Z * Z;
  EcdsaVerify : PublicKey -> bytes -> Z -> Z -> bool;
  EcdsaGenerateKey : nat -> Curve -> option PrivateKey
}.

(** ** [ecdh.go] *)

Definition MarshalUncompressedPublicKey {E} (pub : PublicKey) : outcome E bytes :=
  EllipticMarshal (pub_Curve pub) (pub_X pub) (pub_Y pub).

Definition UnmarshalPublicKey (curve : Curve) (data : bytes) : outcome error PublicKey :=
  match EllipticUnmarshal curve data with
  | None => Err (Errorf "invalid EC point")
  | Some (x, y) => Ok (mkPublicKey curve x y)
  end.

(** [copy] writes the end of the buffer; an [x] wider than the field makes the
    slice expression panic. *)
Definition MarshalCompressedPublicKey {E} (pub : PublicKey) : outcome E bytes :=
  let n := byteLen (pub_Curve pub) in
  let xBytes := IntBytes (pub_X pub) in
  let head := if Z.odd (pub_Y pub) then x03 else x02 in
  if (length xBytes <=? n + 1)%nat then
    if (length xBytes =? n + 1)%nat then Ok xBytes
    else Ok (head :: replicate (n - length xBytes) x00 ++ xBytes)
  else Panic "runtime error: slice bounds out of range".

Definition boolToBit (b : bool) : Z := if b then 1 else 0.

Definition decompressY (curve : Curve) (x : Z) (odd : bool) : outcome error Z :=
  let p := curve_p curve in
  let x3 := (x * x * x) mod p in
  let threeX := (3 * x) mod p in
  let y2 := (x3 - threeX + curve_b curve) mod p in
  match ModSqrt y2 p with
  | None => Err (Errorf "no square root exists for x coordinate")
  | Some y => if negb (y mod 2 =? boolToBit odd) then Ok (p - y) else Ok y
  end.

Definition hex2 (b : Byte.byte) : string := HexEncodeToString [b].

Definition DecompressPublicKey (curve : Curve) (data : bytes) : outcome error PublicKey :=
  match data with
  | [] => Err (Errorf "empty data")
  | b :: rest =>
      if Byte.eqb b x04 then UnmarshalPublicKey curve data
      else if Byte.eqb b x02 || Byte.eqb b x03 then
        if negb (length data =? 1 + byteLen curve)%nat
        then Err (Errorf "invalid compressed key length")
        else
          let x := SetBytes rest in
          let? y := decompressY curve x (Byte.eqb b x03) in
          Ok (mkPublicKey curve x y)
      else Err (Errorf ("unsupported point format: 0x" +:+ hex2 b))
  end.

Section Ecdh.
Context `{GoCrypto}.

(** The curve's [ScalarMult] method panics off the curve. *)
Definition curve_ScalarMult {E} (c : Curve) (x y : Z) (k : bytes) : outcome E (Z * Z) :=
  if IsOnCurve c x y then Ok (ScalarMult c x y k)
  else Panic "crypto/elliptic: ScalarMult was called on an invalid point".

Definition ECDHSharedSecret (privKey : PrivateKey) (pubKey : PublicKey) : outcome error bytes :=
  let c := pub_Curve (priv_PublicKey privKey) in
  if negb (bool_decide (c = pub_Curve pubKey))
  then Err (Errorf ("curve mismatch: " +:+ CurveName c +:+ " vs " +:+ CurveName (pub_Curve pubKey)))
  else
    let? (x, _) := curve_ScalarMult c (pub_X pubKey) (pub_Y pubKey) (IntBytes (priv_D privKey)) in
    let secret := IntBytes x in
    if (length secret <? byteLen c)%nat
    then Ok (replicate (byteLen c - length secret) x00 ++ secret)
    else Ok secret.

Definition ecdsa_err : error := PkgError "crypto/ecdsa".

(** The ephemeral key is drawn at [draw]. *)
Definition GenerateEphemeralECDH (draw : nat) (peerPubKey : PublicKey) :
    outcome error (PublicKey * bytes) :=
  let? ephemeral := of_option (Wrapf "generate ephemeral key" ecdsa_err)
                      (EcdsaGenerateKey draw (pub_Curve peerPubKey)) in
  let? secret := ECDHSharedSecret ephemeral peerPubKey in
  Ok (priv_PublicKey ephemeral, secret).
End Ecdh.

Definition valid_pub (pub : PublicKey) : Prop :=
  IsOnCurve (pub_Curve pub) (pub_X pub) (pub_Y pub) = true.

(** The base points. *)
Definition P256_G : PublicKey := mkPublicKey P256
  0x6b17d1f2e12c4247f8bce6e563a440f277037d812deb33a0f4a13945d898c296
  0x4fe342e2fe1a7f9b8ee7eb4a7c0f9e162bce33576b315ececbb6406837bf51f5.

Definition P384_G : PublicKey := mkPublicKey P384
  0xaa87ca22be8b05378eb1c71ef320ad746e1d3b628ba79b9859f741e082542a385502f25dbf55296c3a545e3872760ab7
  0x3617de4a96262c6f5d9e98bf9292dc29f8f41dbd289a147ce9da3113b5f0b8c00a60b1ce1d7e819d7a431d7c90ea0e5f.

Definition P521_G : PublicKey := mkPublicKey P521
  0x00c6858e06b70404e9cd9e3ecb662395b4429c648139053fb521f828af606b4d3dbaa14b5e77efe75928fe1dc127a2ffa8de3348b3c1856a429bf97e7e31c2e5bd66
  0x011839296a789a3bc0045c8a5fb42c7d1bd998f54449579b446817afbd17273e662c97ee72995ef42640c550b9013fad0761353c7086a272c24088be94769fd16650.

Example base_points_valid : forallb (fun g => IsOnCurve (pub_Curve g) (pub_X g) (pub_Y g))
  [P256_G; P384_G; P521_G] = true.
Proof. vm_compute. reflexivity. Qed.

(** ** Encodings round trip *)

Lemma curve_p_bound c : 0 < curve_p c < 2 ^ (8 * Z.of_nat (byteLen c)).
Proof. by destruct c. Qed.

Lemma curve_p_odd c : Z.odd (curve_p c) = true.
Proof. by destruct c. Qed.

Lemma IsOnCurve_range c x y :
  IsOnCurve c x y = true -> 0 <= x < curve_p c /\ 0 <= y < curve_p c.
Proof. unfold IsOnCurve. rewrite !andb_true_iff. lia. Qed.

Lemma SetBytes_FillBytes c z : 0 <= z < curve_p c -> SetBytes (FillBytes (byteLen c) z) = z.
Proof.
  intros Hz. unfold SetBytes, FillBytes. rewrite be_uint_put_be.
  pose proof (curve_p_bound c). apply Z.mod_small. lia.
Qed.

Lemma FillBytes_SetBytes n l : length l = n -> FillBytes n (SetBytes l) = l.
Proof. intros <-. apply put_be_be_uint. Qed.

Lemma EllipticUnmarshal_spec c data x y :
  EllipticUnmarshal c data = Some (x, y) <->
  IsOnCurve c x y = true /\ data = x04 :: FillBytes (byteLen c) x ++ FillBytes (byteLen c) y.
Proof.
  split.
  - unfold EllipticUnmarshal. destruct data as [|b l]; [done|]. destruct b; try done.
    destruct (Nat.eqb_spec (length l) (2 * byteLen c)) as [Hl|]; [|done].
    case_match eqn:Hc; [|done]. intros [= <- <-]. split; [done|]. f_equal.
    rewrite !FillBytes_SetBytes by (rewrite length_slice; lia).
    unfold slice. rewrite drop_0, Nat.sub_0_r, (firstn_all2 (drop _ _)) by (rewrite length_drop; lia).
    by rewrite take_drop.
  - intros [Hc ->]. destruct (IsOnCurve_range _ _ _ Hc) as [Hx Hy].
    assert (length (FillBytes (byteLen c) x) = byteLen c) as Lx by apply length_put_be.
    assert (length (FillBytes (byteLen c) y) = byteLen c) as Ly by apply length_put_be.
    unfold EllipticUnmarshal. rewrite length_app, Lx, Ly, (proj2 (Nat.eqb_eq _ _)) by lia.
    unfold slice. rewrite drop_0, Nat.sub_0_r, take_app_length' by done.
    rewrite drop_app_length', (firstn_all2 (FillBytes _ y)) by lia.
    by rewrite !SetBytes_FillBytes, Hc.
Qed.

(** The uncompressed encoding and its decoder are inverse on valid keys. *)
Lemma UnmarshalPublicKey_spec c data pub :
  UnmarshalPublicKey c data = Ok pub <->
  pub_Curve pub = c /\ MarshalUncompressedPublicKey (E := error) pub = Ok data.
Proof.
  unfold UnmarshalPublicKey, MarshalUncompressedPublicKey, EllipticMarshal.
  destruct pub as [c' x' y']; simpl. destruct (EllipticUnmarshal c data) as [[x y]|] eqn:E.
  - apply EllipticUnmarshal_spec in E as [Hc ->]. split.
    + intros [= <- <- <-]. by rewrite Hc.
    + intros [<- He]. destruct (IsOnCurve c' x' y') eqn:Hc'; [|done].
      assert (EllipticUnmarshal c' (x04 :: FillBytes (byteLen c') x ++ FillBytes (byteLen c') y) =
              Some (x', y')) as Hu by (apply EllipticUnmarshal_spec; split; congruence).
      rewrite (proj2 (EllipticUnmarshal_spec _ _ x y)) in Hu by done. by injection Hu as -> ->.
  - split; [done|]. intros [<- He]. destruct (IsOnCurve c' x' y') eqn:Hc'; [|done].
    injection He as <-. by rewrite (proj2 (EllipticUnmarshal_spec _ _ x' y')) in E by done.
Qed.

Lemma UnmarshalPublicKey_valid c data pub : UnmarshalPublicKey c data = Ok pub -> valid_pub pub.
Proof.
  rewrite UnmarshalPublicKey_spec. unfold MarshalUncompressedPublicKey, EllipticMarshal, valid_pub.
  intros [_ H]. by case_match.
Qed.

(** *** Compressed points *)

Lemma ModSqrt_root a p r : ModSqrt a p = Some r -> (r * r) mod p = a mod p.
Proof. unfold ModSqrt. repeat case_match; try done. intros [= <-]. lia. Qed.

Lemma powmod_range m a e : 0 < m -> 0 <= powmod m a e < m.
Proof. intros Hm. destruct e; simpl; by apply Z.mod_pos_bound. Qed.

Lemma ModSqrt_range a p r : 0 < p -> ModSqrt a p = Some r -> 0 <= r < p.
Proof.
  intros Hp. unfold ModSqrt. repeat case_match; try done. intros [= <-]. by apply powmod_range.
Qed.

(** [decompressY] finds a root of the curve equation with the parity asked for. *)
Lemma decompressY_spec c x odd y :
  decompressY c x odd = Ok y ->
  (y * y) mod curve_p c = curve_rhs c x /\ Z.odd y = odd /\ 0 <= y <= curve_p c.
Proof.
  unfold decompressY. set (p := curve_p c). fold (curve_rhs c x).
  pose proof (curve_p_bound c) as [Hp _]. fold p in Hp.
  destruct (ModSqrt _ p) as [r|] eqn:E; [|done].
  pose proof (ModSqrt_range _ _ _ Hp E). apply ModSqrt_root in E.
  assert ((r * r) mod p = curve_rhs c x) as Er by (rewrite E; apply Z.mod_mod; lia).
  rewrite Zmod_odd. destruct (negb _) eqn:Hb; intros [= <-].
  - split; [|split; [|lia]].
    + rewrite <-Er. replace ((p - r) * (p - r)) with (r * r + (p - 2 * r) * p) by ring.
      apply Z.mod_add. lia.
    + rewrite Z.odd_sub. unfold p. rewrite (curve_p_odd c). by destruct (Z.odd r), odd.
  - split; [done|split; [|lia]]. by destruct (Z.odd r), odd.
Qed.

(** A point that decodes is on the curve. *)
Lemma UnmarshalCompressed_on_curve c data x y :
  UnmarshalCompressed c data = Some (x, y) -> IsOnCurve c x y = true.
Proof.
  unfold UnmarshalCompressed. destruct data as [|b l]; [done|]. destruct (_ && _); [|done].
  destruct (Z.ltb_spec (SetBytes l) (curve_p c)) as [Hx|]; [|done].
  destruct (ModSqrt _ _) as [r|] eqn:Er; [|done]. intros [= <- <-].
  pose proof (curve_p_bound c) as [Hp _]. pose proof (ModSqrt_range _ _ _ Hp Er) as Hr.
  apply ModSqrt_root in Er. assert (curve_rhs c (SetBytes l) mod curve_p c = curve_rhs c (SetBytes l)) as Em
    by (apply Z.mod_mod; lia). rewrite Em in Er.
  pose proof (proj1 (be_uint_range l)) as Hx0. unfold IsOnCurve, SetBytes in *.
  set (p := curve_p c) in *. set (y := if Bool.eqb _ _ then _ else _).
  assert (0 <= y < p /\ (y * y) mod p = (r * r) mod p) as [Hy Hyy].
  { unfold y. destruct (Bool.eqb _ _); [done|]. split; [by apply Z.mod_pos_bound|].
    rewrite <-Z.mul_mod by lia. f_equal. lia. }
  rewrite !andb_true_iff, !Z.leb_le, !Z.ltb_lt, Z.eqb_eq. rewrite Hyy. lia.
Qed.

Lemma be_uint_zeros k l : be_uint (replicate k x00 ++ l) = be_uint l.
Proof. induction k as [|k IH]; [done|]. simpl. by rewrite IH. Qed.

Lemma byte_size_bound z : 0 < z -> z < 2 ^ (8 * Z.of_nat (byte_size z)).
Proof.
  intros Hz. unfold byte_size. pose proof (Z.log2_spec z Hz) as [_ H].
  pose proof (Z.log2_nonneg z). eapply Z.lt_le_trans; [exact H|].
  apply Z.pow_le_mono_r; [lia|]. zlia.
Qed.

Lemma be_uint_IntBytes z : 0 <= z -> be_uint (IntBytes z) = z.
Proof.
  intros Hz. unfold IntBytes. destruct (Z.eqb_spec z 0) as [->|]; [done|].
  rewrite be_uint_put_be. apply Z.mod_small. split; [done|]. apply byte_size_bound. lia.
Qed.

(** Left padding of the minimal encoding is the fixed-width encoding. *)
Lemma IntBytes_pad n z : 0 <= z -> (length (IntBytes z) <= n)%nat ->
  replicate (n - length (IntBytes z)) x00 ++ IntBytes z = FillBytes n z.
Proof.
  intros Hz Hl. unfold FillBytes.
  assert (length (replicate (n - length (IntBytes z)) x00 ++ IntBytes z) = n) as Hn.
  { rewrite length_app, length_replicate. lia. }
  apply be_uint_inj; [by rewrite Hn, length_put_be|].
  rewrite be_uint_put_be, be_uint_zeros, be_uint_IntBytes by done.
  pose proof (be_uint_range (IntBytes z)) as H. rewrite be_uint_IntBytes in H by done.
  symmetry. apply Z.mod_small. split; [done|]. eapply Z.lt_le_trans; [apply H|].
  apply Z.pow_le_mono_r; lia.
Qed.

Lemma length_IntBytes n z : 0 <= z < 2 ^ (8 * Z.of_nat n) -> (length (IntBytes z) <= n)%nat.
Proof.
  intros [Hz Hn]. unfold IntBytes. destruct (Z.eqb_spec z 0); simpl; [lia|].
  rewrite length_put_be. unfold byte_size.
  destruct (decide (n = 0%nat)) as [->|Hn0]; [simpl in Hn; lia|].
  apply Z.log2_lt_pow2 in Hn; [|lia]. pose proof (Z.log2_nonneg z). zlia.
Qed.

(** The shared secret has the curve's width. *)
Lemma length_ECDHSharedSecret `{GoCrypto} priv pub s :
  (forall c x y k, 0 <= (ScalarMult c x y k).1 < curve_p c) ->
  ECDHSharedSecret priv pub = Ok s -> length s = byteLen (pub_Curve pub).
Proof.
  intros Hx. unfold ECDHSharedSecret, curve_ScalarMult. case_bool_decide as Hc; [|done]. rewrite Hc.
  simpl. destruct (IsOnCurve _ _ _); [|done]. simpl.
  set (k := IntBytes (priv_D priv)). destruct (ScalarMult _ _ _ k) as [x y] eqn:E.
  pose proof (Hx (pub_Curve pub) (pub_X pub) (pub_Y pub) k) as Hr. rewrite E in Hr. simpl in Hr.
  pose proof (curve_p_bound (pub_Curve pub)).
  assert (length (IntBytes x) <= byteLen (pub_Curve pub))%nat by (apply length_IntBytes; lia).
  destruct (Nat.ltb_spec (length (IntBytes x)) (byteLen (pub_Curve pub))); intros [= <-]; [|lia].
  rewrite length_app, length_replicate. lia.
Qed.

(** ** Properties *)


Definition P256_G_compressed_bytes : bytes :=
  match MarshalCompressedPublicKey (E := error) P256_G with Ok b => b | _ => [] end.

(** The square root is computed once, here. *)
Lemma P256_G_decodes : DecompressPublicKey P256 P256_G_compressed_bytes = Ok P256_G.
Proof. vm_compute. reflexivity. Qed.


(** Where the point is reduced, this decoder and the one of [crypto/elliptic] agree. *)
Lemma UnmarshalCompressed_Decompress c data pub :
  DecompressPublicKey c data = Ok pub -> hd x00 data <> x04 ->
  pub_X pub < curve_p c -> 0 < pub_Y pub < curve_p c ->
  UnmarshalCompressed c data = Some (pub_X pub, pub_Y pub).
Proof.
  unfold DecompressPublicKey, UnmarshalCompressed. destruct data as [|b rest]; [done|]. simpl. intros Hd Hb.
  destruct (Byte.eqb b x04) eqn:E4; [by apply byte_eqb_eq in E4|].
  destruct (_ || _); [|done]. destruct (Nat.eqb_spec (length rest) (byteLen c)); [|done]. simpl in Hd.
  inv_ok Hd. injection Hd as <-. simpl. intros Hx Hy.
  rewrite (proj2 (Z.ltb_lt _ _) Hx). revert Hok. unfold decompressY. fold (curve_rhs c (SetBytes rest)).
  destruct (ModSqrt _ _) as [r|] eqn:Er; [|done]. pose proof (curve_p_bound c).
  apply ModSqrt_range in Er; [|lia]. rewrite Zmod_odd.
  destruct (Z.odd r), (Byte.eqb b x03); simpl; intros [= <-]; do 2 f_equal.
  all: rewrite <-(Z.mod_add _ 1), Z.mod_small by lia; lia.
Qed.
