(* ===== verification/Asn1.v ===== *)
(** * [encoding/asn1] and [crypto/ecdsa]'s DER signatures

    The elements the program reads and writes: definite-length DER elements,
    minimal integers, object identifiers, and the sequence of two integers
    that is an ECDSA signature. *)

From S2P Require Import Prelude GoStrings Ecc.
Local Open Scope Z_scope.

Definition zlen (data : bytes) : Z := Z.of_nat (length data).

(** ** Reading *)

(** The bytes of a long-form length. *)
Fixpoint asn1_len (n : nat) (acc : Z) (l : bytes) : option (Z * bytes) :=
  match n with
  | O => if acc <? 128 then None else Some (acc, l)
  | S n' =>
      match l with
      | [] => None
      | b :: l' =>
          if 2^23 <=? acc then None
          else
            let acc' := acc * 256 + b2z b in
            if acc' =? 0 then None else asn1_len n' acc' l'
      end
  end.

(** The content of an element with tag [tag], and what follows it. *)
Definition asn1_element (tag : Byte.byte) (l : bytes) : option (bytes * bytes) :=
  match l with
  | t :: b :: l' =>
      if negb (Byte.eqb t tag) then None
      else
        let lb := b2z b in
        let r := if lb <? 128 then Some (lb, l')
                 else if lb =? 128 then None
                 else asn1_len (Z.to_nat (lb - 128)) 0 l' in
        match r with
        | None => None
        | Some (n, rest) =>
            if zlen rest <? n then None
            else Some (take (Z.to_nat n) rest, drop (Z.to_nat n) rest)
        end
  | _ => None
  end.

(** A minimal two's-complement integer. *)
Definition asn1_int (l : bytes) : option Z :=
  match l with
  | [] => None
  | b :: l' =>
      let minimal :=
        match l' with
        | [] => true
        | c :: _ => negb ((b2z b =? 0) && (b2z c <? 128)) && negb ((b2z b =? 255) && (128 <=? b2z c))
        end in
      if negb minimal then None
      else if 128 <=? b2z b then Some (be_uint l - 2 ^ (8 * zlen l)) else Some (be_uint l)
  end.

(** Data after the sequence, or after [S] inside it, is allowed. *)
Definition asn1_signature (sig : bytes) : option (Z * Z) :=
  '(body, _) ← asn1_element x30 sig;
  '(rb, rest) ← asn1_element x02 body;
  r ← asn1_int rb;
  '(sb, _) ← asn1_element x02 rest;
  s ← asn1_int sb;
  Some (r, s).

(** One base-128 integer of an object identifier: at most five bytes, minimal,
    below 2^31; [shifted] counts the bytes read. *)
Fixpoint parse_base128 (shifted : nat) (acc : Z) (l : bytes) : option (Z * bytes) :=
  match l with
  | [] => None
  | b :: l' =>
      if (shifted =? 5)%nat then None
      else if (shifted =? 0)%nat && Byte.eqb b x80 then None
      else
        let acc' := acc * 128 + b2z b mod 128 in
        if b2z b <? 128 then if 2 ^ 31 - 1 <? acc' then None else Some (acc', l')
        else parse_base128 (S shifted) acc' l'
  end.

Fixpoint parse_arcs (fuel : nat) (l : bytes) : option (list Z) :=
  match fuel, l with
  | _, [] => Some []
  | O, _ => None
  | S fuel', _ =>
      '(v, l') ← parse_base128 0 0 l;
      arcs ← parse_arcs fuel' l';
      Some (v :: arcs)
  end.

(** [asn1.Unmarshal(der, &oid)]: data after the element are not looked at. *)
Definition asn1_oid (der : bytes) : option (list Z) :=
  '(body, _) ← asn1_element x06 der;
  match body with
  | [] => None
  | _ =>
      '(v, rest) ← parse_base128 0 0 body;
      arcs ← parse_arcs (length rest) rest;
      Some (if v <? 80 then v / 40 :: v mod 40 :: arcs else 2 :: v - 80 :: arcs)
  end.

(** ** Writing *)

Definition der_len (n : nat) : bytes :=
  let z := Z.of_nat n in
  if z <? 128 then [z2b z] else z2b (128 + Z.of_nat (byte_size z)) :: put_be (byte_size z) z.

Definition der (tag : Byte.byte) (body : bytes) : bytes := tag :: der_len (length body) ++ body.

(** A non-negative [big.Int]. *)
Definition int_bytes (z : Z) : bytes :=
  if z =? 0 then [x00]
  else match IntBytes z with
       | b :: l => if 128 <=? b2z b then x00 :: b :: l else b :: l
       | [] => []
       end.

Definition base128_bytes (n : nat) (z : Z) : bytes :=
  map (fun k => z2b ((z / 128 ^ Z.of_nat k) mod 128 + (if (k =? 0)%nat then 0 else 128))) (rev (seq 0 n)).
Definition base128_size (z : Z) : nat := if z =? 0 then 1%nat else Z.to_nat (Z.log2 z / 7 + 1).
Definition base128 (z : Z) : bytes := base128_bytes (base128_size z) z.

(** [asn1.Marshal(oid)]; an identifier has two arcs or more. *)
Definition oid_der (oid : list Z) : option bytes :=
  match oid with
  | a :: b :: arcs =>
      if (2 <? a) || ((a <? 2) && (40 <=? b)) then None
      else Some (der x06 (base128 (a * 40 + b) ++ concat (map base128 arcs)))
  | _ => None
  end.

(** [asn1.Marshal] of a sequence of two non-negative integers. *)
Definition signature_der (r s : Z) : bytes :=
  der x30 (der x02 (int_bytes r) ++ der x02 (int_bytes s)).

Example oid_ex :
  oid_der [1; 2; 840; 10045; 3; 1; 7] = Some [x06; x08; x2a; x86; x48; xce; x3d; x03; x01; x07] /\
  asn1_oid [x06; x08; x2a; x86; x48; xce; x3d; x03; x01; x07] = Some [1; 2; 840; 10045; 3; 1; 7].
Proof. split; vm_compute; reflexivity. Qed.

(** ** What is written is read back *)

Lemma asn1_len_be n z rest :
  128 <= z < 2 ^ 23 -> (n = 0%nat \/ 0 < z / 2 ^ (8 * (Z.of_nat n - 1))) ->
  asn1_len n (z / 2 ^ (8 * Z.of_nat n)) (put_be n z ++ rest) = Some (z, rest).
Proof.
  intros Hz. induction n as [|n IH]; intros Hn.
  - simpl. rewrite Z.div_1_r. by rewrite (proj2 (Z.ltb_ge z 128)) by lia.
  - destruct Hn as [|Hn]; [done|]. replace (Z.of_nat (S n) - 1) with (Z.of_nat n) in Hn by lia.
    cbn [put_be app asn1_len].
    assert (2 ^ (8 * Z.of_nat (S n)) = 2 ^ (8 * Z.of_nat n) * 256) as Hp
      by (rewrite Nat2Z.inj_succ, Z.mul_succ_r, Z.pow_add_r by lia; done).
    pose proof (Z.pow_pos_nonneg 2 (8 * Z.of_nat n) ltac:(lia) ltac:(lia)) as Hpos.
    rewrite (proj2 (Z.leb_gt _ _)) by (apply Z.div_lt_upper_bound; [lia|]; nia).
    rewrite b2z_z2b, Hp, <-Z.div_div by lia.
    set (q := z / 2 ^ (8 * Z.of_nat n)) in *.
    replace (q / 256 * 256 + q mod 256) with q by zlia.
    rewrite (proj2 (Z.eqb_neq q 0)) by lia. apply IH.
    destruct n as [|n]; [by left|right]. apply Z.div_str_pos.
    assert (2 ^ (8 * Z.of_nat (S n)) <= z) by (destruct (Z.le_gt_cases (2 ^ (8 * Z.of_nat (S n))) z);
      [done|]; unfold q in Hn; rewrite Z.div_small in Hn by lia; lia).
    split; [apply Z.pow_pos_nonneg; lia|]. etrans; [|done]. apply Z.pow_le_mono_r; lia.
Qed.

Lemma byte_size_spec z : 0 < z -> 2 ^ (8 * (Z.of_nat (byte_size z) - 1)) <= z < 2 ^ (8 * Z.of_nat (byte_size z)).
Proof.
  intros Hz. split; [|by apply byte_size_bound]. unfold byte_size.
  pose proof (Z.log2_nonneg z). rewrite Z2Nat.id by (apply Z.div_pos; lia).
  etrans; [|apply (proj1 (Z.log2_spec z Hz))]. apply Z.pow_le_mono_r; [lia|].
  replace ((Z.log2 z + 8) / 8 - 1) with (Z.log2 z / 8) by zlia. zlia.
Qed.

Lemma asn1_element_der tag body rest :
  Z.of_nat (length body) < 2 ^ 23 -> asn1_element tag (der tag body ++ rest) = Some (body, rest).
Proof.
  intros Hl. set (z := Z.of_nat (length body)) in *.
  assert (forall r, r = Some (z, body ++ rest) ->
    match r with
    | None => None
    | Some (n, rest0) => if zlen rest0 <? n then None
        else Some (take (Z.to_nat n) rest0, drop (Z.to_nat n) rest0)
    end = Some (body, rest)) as Hend.
  { intros ? ->. unfold zlen. rewrite length_app, Nat2Z.inj_add. fold z.
    rewrite (proj2 (Z.ltb_ge _ _)) by lia. unfold z. rewrite Nat2Z.id.
    by rewrite take_app_length, drop_app_length. }
  unfold der, der_len. fold z. destruct (Z.ltb_spec z 128) as [Hs|Hs]; cbn [app asn1_element];
    rewrite byte_eqb_refl; cbn [negb]; rewrite b2z_z2b; apply Hend.
  - rewrite Z.mod_small, (proj2 (Z.ltb_lt _ _)) by lia. done.
  - pose proof (byte_size_spec z ltac:(lia)) as [Hlo Hhi].
    assert (1 <= Z.of_nat (byte_size z) <= 3) as Hb.
    { split.
      - destruct (byte_size z); [|lia]. simpl in Hhi. lia.
      - destruct (Z.le_gt_cases (Z.of_nat (byte_size z)) 3); [done|].
        assert (2 ^ (8 * 3) <= 2 ^ (8 * (Z.of_nat (byte_size z) - 1))) by (apply Z.pow_le_mono_r; lia). lia. }
    rewrite Z.mod_small by lia. rewrite (proj2 (Z.ltb_ge _ _)), (proj2 (Z.eqb_neq _ _)) by lia.
    replace (128 + Z.of_nat (byte_size z) - 128) with (Z.of_nat (byte_size z)) by lia. rewrite Nat2Z.id.
    rewrite <-app_assoc. rewrite <-(Z.div_small z (2 ^ (8 * Z.of_nat (byte_size z)))) at 1 by lia.
    apply asn1_len_be; [lia|]. right. apply Z.div_str_pos. split; [apply Z.pow_pos_nonneg|]; lia.
Qed.

Lemma asn1_int_bytes z : 0 <= z -> asn1_int (int_bytes z) = Some z.
Proof.
  intros Hz. unfold int_bytes. destruct (Z.eqb_spec z 0) as [->|Hnz]; [done|].
  pose proof (be_uint_IntBytes z Hz) as Hb.
  assert (exists b l, IntBytes z = b :: l /\ b2z b <> 0) as (b & l & Hi & Hb0).
  { pose proof (byte_size_spec z ltac:(lia)) as [Hlo Hhi]. unfold IntBytes.
    rewrite (proj2 (Z.eqb_neq z 0)) by done.
    destruct (byte_size z) as [|n] eqn:En; [simpl in Hhi; lia|].
    cbn [put_be]. eexists _, _. split; [done|]. rewrite b2z_z2b.
    replace (Z.of_nat (S n) - 1) with (Z.of_nat n) in Hlo by lia.
    assert (2 ^ (8 * Z.of_nat (S n)) = 2 ^ (8 * Z.of_nat n) * 256) as Hp
      by (rewrite Nat2Z.inj_succ, Z.mul_succ_r, Z.pow_add_r by lia; done).
    pose proof (Z.pow_pos_nonneg 2 (8 * Z.of_nat n) ltac:(lia) ltac:(lia)).
    assert (1 <= z / 2 ^ (8 * Z.of_nat n) < 256).
    { split; [apply Z.div_le_lower_bound; lia|apply Z.div_lt_upper_bound; lia]. }
    rewrite Z.mod_small by lia. lia. }
  rewrite Hi in Hb |- *. destruct (Z.leb_spec 128 (b2z b)) as [H8|H8]; unfold asn1_int.
  - change (b2z x00 =? 0) with true. change (b2z x00 =? 255) with false. change (128 <=? b2z x00) with false.
    cbn [andb]. rewrite (proj2 (Z.ltb_ge _ _)) by done. cbn [negb andb]. cbn [be_uint] in Hb |- *.
    change (b2z x00) with 0. f_equal. lia.
  - rewrite (proj2 (Z.eqb_neq _ 0)), (proj2 (Z.eqb_neq (b2z b) 255)), (proj2 (Z.leb_gt _ _)) by lia.
    cbn [andb negb]. rewrite Hb. by destruct l.
Qed.

(** A written signature is read back. *)
Lemma asn1_signature_der r s :
  0 <= r -> 0 <= s -> Z.of_nat (length (int_bytes r)) + Z.of_nat (length (int_bytes s)) < 2 ^ 22 ->
  asn1_signature (signature_der r s) = Some (r, s).
Proof.
  intros Hr Hs Hl. unfold asn1_signature, signature_der.
  assert (forall b, (length (der_len b) <= 4 + Z.to_nat (Z.log2 (Z.of_nat b)))%nat) as Hd.
  { intros b. unfold der_len. case_match; simpl; [lia|]. rewrite length_put_be. unfold byte_size.
    pose proof (Z.log2_nonneg (Z.of_nat b)). zlia. }
  assert (forall b, Z.of_nat b < 2 ^ 22 -> Z.log2 (Z.of_nat b) < 22) as Hlog.
  { intros b Hb. destruct b; [done|]. apply Z.log2_lt_pow2; lia. }
  rewrite <-(app_nil_r (der x30 _)), asn1_element_der; cbn [mbind option_bind].
  2: { unfold der. rewrite length_app. cbn [length]. rewrite !length_app.
       pose proof (Hd (length (int_bytes r))). pose proof (Hd (length (int_bytes s))).
       pose proof (Hlog (length (int_bytes r)) ltac:(lia)). pose proof (Hlog (length (int_bytes s)) ltac:(lia)).
       lia. }
  rewrite asn1_element_der by lia. cbn [mbind option_bind]. rewrite asn1_int_bytes by done.
  cbn [mbind option_bind].
  rewrite <-(app_nil_r (der x02 (int_bytes s))), asn1_element_der by lia. cbn [mbind option_bind].
  by rewrite asn1_int_bytes.
Qed.
