(* ===== verification/External.v ===== *)
(** * The libraries the service calls

    One class per dependency that is not part of the repository: the JOSE
    library ([go-jose/v4]), the OPAQUE library ([bytemare/opaque]), HKDF
    ([golang.org/x/crypto/hkdf]) and the block-cipher modes of Go's
    [crypto/cipher].  Each operation is what the source calls; a randomised
    call takes the number of the draw it makes, so that it may return a
    different value each time.  What is known of these libraries is stated
    where a theorem needs it, as a hypothesis on the class. *)

From S2P Require Import Prelude GoStrings Ecc.
Local Open Scope Z_scope.

(** ** [go-jose] *)

Inductive SignatureAlgorithm := ES256 | ES384 | ES512.

(** The protected header of a signature: [KeyID] and the [typ] extra header
    when it is a string. *)
Record JWSHeader := mkJWSHeader { jh_KeyID : string; jh_typ : option string }.

(** Headers a signer is given ([WithType], [WithHeader]). *)
Record SignerOptions := mkSignerOptions {
  so_Typ : string;
  so_Kid : option string;
  so_X5C : option (list bytes)
}.

Class Jose := {
  JWS : Type;
  ParseSigned : string -> list SignatureAlgorithm -> option JWS;
  JWS_Signatures : JWS -> list JWSHeader;
  JWS_Verify : JWS -> PublicKey -> option bytes;
  (** [jose.NewSigner] *)
  NewSigner : SignatureAlgorithm -> PrivateKey -> SignerOptions -> bool;
  (** [Sign] and [CompactSerialize] with that signer, at a draw of the
      signature's randomness. *)
  JWS_Sign : nat -> SignatureAlgorithm -> PrivateKey -> SignerOptions -> bytes -> option string
}.

(** *** Encryption *)

Inductive KeyAlgorithm := ECDH_ES | ECDH_ES_A128KW | ECDH_ES_A256KW | A256KW | DIRECT.
Inductive ContentEncryption := A128GCM | A256GCM.

#[export] Instance KeyAlgorithm_eq_dec : EqDecision KeyAlgorithm.
Proof. solve_decision. Defined.
#[export] Instance ContentEncryption_eq_dec : EqDecision ContentEncryption.
Proof. solve_decision. Defined.

(** The key of a recipient, and the key that opens what was sent to it. *)
Inductive RecipientKey := RPublic (k : PublicKey) | RSymmetric (k : bytes).
Inductive DecryptionKey := DPrivate (k : PrivateKey) | DSymmetric (k : bytes).

Definition recipient_of (k : DecryptionKey) : RecipientKey :=
  match k with DPrivate k => RPublic (priv_PublicKey k) | DSymmetric k => RSymmetric k end.

(** [WithContentType], [WithType] and the [WithHeader] entries, in order. *)
Record EncrypterOptions := mkEncrypterOptions {
  eo_ContentType : string;
  eo_Type : option string;
  eo_Headers : list (string * string)
}.

Class JoseEncryption := {
  JWE : Type;
  (** [jose.NewEncrypter] *)
  NewEncrypter : ContentEncryption -> KeyAlgorithm -> RecipientKey -> EncrypterOptions -> bool;
  (** [Encrypt] with that encrypter, at a draw of its randomness *)
  JWE_Encrypt : nat -> ContentEncryption -> KeyAlgorithm -> RecipientKey -> EncrypterOptions -> bytes ->
    option JWE;
  JWE_CompactSerialize : JWE -> option string;
  ParseEncrypted : string -> list KeyAlgorithm -> list ContentEncryption -> option JWE;
  JWE_Decrypt : JWE -> DecryptionKey -> option bytes
}.

(** ** [bytemare/opaque] *)

Class OpaqueLib := {
  RegistrationRequest : Type;
  RegistrationRecord : Type;
  KE1 : Type;
  KE3 : Type;
  ServerKeyMaterial : Type;
  (** a [Server] with its key material set *)
  OServer : Type;
  DeserRegistrationRequest : bytes -> option RegistrationRequest;
  DeserRegistrationRecord : bytes -> option RegistrationRecord;
  DeserKE1 : bytes -> option KE1;
  DeserKE3 : bytes -> option KE3;
  SerRegistrationRecord : RegistrationRecord -> bytes;
  (** [OPAQUEConfig.KeyGen] (a private key and its encoded public key),
      [GenerateOPRFSeed], and the struct of the three *)
  OPrivateKey : Type;
  OKeyGen : nat -> OPrivateKey * bytes;
  GenerateOPRFSeed : nat -> bytes;
  KeyMaterial : OPrivateKey -> bytes -> bytes -> ServerKeyMaterial;
  (** [OPAQUEConfig.Server], [SetKeyMaterial], and whether
      [OPAQUEConfig.Deserializer] succeeds *)
  OUnkeyed : Type;
  NewServer : option OUnkeyed;
  SetKeyMaterial : OUnkeyed -> option ServerKeyMaterial -> option OServer;
  NewDeserializerServer : bool;
  (** the response message, serialized *)
  OpRegistrationResponse : OServer -> RegistrationRequest -> bytes -> option bytes;
  (** KE2 (serialized), client MAC and session secret; the record and its
      credential identifier, [None] for a [nil] record *)
  GenerateKE2 : nat -> OServer -> KE1 -> option (RegistrationRecord * bytes) ->
    option (bytes * bytes * bytes);
  LoginFinish : OServer -> KE3 -> bytes -> bool;
  GetFakeRecord : nat -> bytes -> option RegistrationRecord
}.

(** The client's side of the same library: a client instance holds the state
    of a run; what it sends comes serialized. *)
Class OpaqueClientLib := {
  OClient : Type;
  RegResponse : Type;
  KE2 : Type;
  (** [Configuration.Client] and [Configuration.Deserializer] *)
  NewClientLib : option OClient;
  NewDeserializer : bool;
  (** the password, blinded at a draw *)
  RegistrationInit : nat -> OClient -> bytes -> option (OClient * bytes);
  DeserRegistrationResponse : bytes -> option RegResponse;
  (** the record to send *)
  RegistrationFinalize : nat -> OClient -> RegResponse -> option bytes;
  ClientKE1 : nat -> OClient -> bytes -> option (OClient * bytes);
  DeserKE2 : bytes -> option KE2;
  (** KE3 and the session key *)
  ClientKE3 : OClient -> KE2 -> option (bytes * bytes)
}.

(** ** HKDF-SHA256: [n] bytes of the reader, or its error *)
Class HkdfLib := { Hkdf : bytes -> bytes -> bytes -> nat -> option bytes }.

(** ** [crypto/cipher]: the AES-GCM of a 32-byte key *)
Record AEAD := mkAEAD {
  NonceSize : nat;
  Seal : bytes -> bytes -> bytes;
  Open : bytes -> bytes -> option bytes
}.

(** [Open] of what [Seal] made, under the same nonce. *)
Definition aead_ok (a : AEAD) : Prop :=
  forall nonce plaintext, length nonce = NonceSize a ->
    Open a nonce (Seal a nonce plaintext) = Some plaintext /\
    0 < Z.of_nat (length (Seal a nonce plaintext)).
