(* ===== verification/World.v ===== *)
(** * The state of a running service, and its environment

    [Env] is what the process reads from outside: the successive readings of
    [time.Now] and the successive draws of [crypto/rand].  [World] is what its
    requests share: the session store, the attempt counter, the persistent
    store, the HSM and the Prometheus metrics; [w_tick] and [w_draw] count the
    readings and draws made so far.  The locks of the Go types serialise
    the operations on each part, so an operation is one step. *)

From S2P Require Import Prelude GoTime GoStrings Counter Sessions Store.
Local Open Scope Z_scope.

Class Env := {
  clock : nat -> Time;
  rand : nat -> nat -> bytes;
  length_rand : forall i n, length (rand i n) = n
}.

(** Readings of one process: each has a monotonic part, and they do not go back. *)
Definition clock_ok (c : nat -> Time) : Prop :=
  (forall i, is_Some (t_mono (c i)) /\ wf_time (c i)) /\
  forall i j, (i <= j)%nat -> not_before (c j) (c i).

(** An audit event: type, client, context and attributes. *)
Record AuditEvent := mkAudit {
  au_Event : string;
  au_ClientID : string;
  au_Context : string;
  au_Attrs : list (string * string)
}.

Record World (St H : Type) := mkWorld {
  w_sessions : SessionStore;
  w_counter : AttemptCounter;
  w_store : St;
  w_hsm : H;
  w_tick : nat;
  w_draw : nat;
  w_gauge : Z;
  w_metrics : gmap (string * string) Z;
  w_audit : list AuditEvent
}.
Arguments mkWorld {St H}.
Arguments w_sessions {St H}.
Arguments w_counter {St H}.
Arguments w_store {St H}.
Arguments w_hsm {St H}.
Arguments w_tick {St H}.
Arguments w_draw {St H}.
Arguments w_gauge {St H}.
Arguments w_metrics {St H}.
Arguments w_audit {St H}.

Section World.
Context {St H E : Type} `{Env}.
Local Abbreviation W := (World St H).

Definition set_sessions (x : SessionStore) (w : W) : W :=
  mkWorld x (w_counter w) (w_store w) (w_hsm w) (w_tick w) (w_draw w) (w_gauge w) (w_metrics w) (w_audit w).
Definition set_counter (x : AttemptCounter) (w : W) : W :=
  mkWorld (w_sessions w) x (w_store w) (w_hsm w) (w_tick w) (w_draw w) (w_gauge w) (w_metrics w) (w_audit w).
Definition set_store (x : St) (w : W) : W :=
  mkWorld (w_sessions w) (w_counter w) x (w_hsm w) (w_tick w) (w_draw w) (w_gauge w) (w_metrics w) (w_audit w).
Definition set_hsm (x : H) (w : W) : W :=
  mkWorld (w_sessions w) (w_counter w) (w_store w) x (w_tick w) (w_draw w) (w_gauge w) (w_metrics w) (w_audit w).
Definition set_gauge (x : Z) (w : W) : W :=
  mkWorld (w_sessions w) (w_counter w) (w_store w) (w_hsm w) (w_tick w) (w_draw w) x (w_metrics w) (w_audit w).

(** [time.Now()] *)
Definition Now : M W E Time := fun w =>
  (mkWorld (w_sessions w) (w_counter w) (w_store w) (w_hsm w) (S (w_tick w)) (w_draw w)
     (w_gauge w) (w_metrics w) (w_audit w), Ok (clock (w_tick w))).

(** The number of a draw of randomness inside a library call. *)
Definition Draw : M W E nat := fun w =>
  (mkWorld (w_sessions w) (w_counter w) (w_store w) (w_hsm w) (w_tick w) (S (w_draw w))
     (w_gauge w) (w_metrics w) (w_audit w), Ok (w_draw w)).

(** [icrypto.RandomBytes(n)]; Go's [rand.Read] does not fail. *)
Definition RandomBytes (n : nat) : M W E bytes :=
  let! i := Draw in ret (rand i n).

(** [vec.WithLabelValues(label).Inc()] and [Observe] count the events. *)
Definition Inc (name label : string) : M W E unit := modify (fun w =>
  mkWorld (w_sessions w) (w_counter w) (w_store w) (w_hsm w) (w_tick w) (w_draw w) (w_gauge w)
    (<[(name, label) := default 0 (w_metrics w !! (name, label)) + 1]> (w_metrics w)) (w_audit w)).

(** [audit.Logger.Log] *)
Definition AuditLog (e : AuditEvent) : M W E unit :=
  (let! _ := Now in ret tt) ;;!
  modify (fun w =>
    mkWorld (w_sessions w) (w_counter w) (w_store w) (w_hsm w) (w_tick w) (w_draw w) (w_gauge w)
      (w_metrics w) (w_audit w ++ [e])).

Definition on_sessions {A} (m : M SessionStore E A) : M W E A := zoom w_sessions set_sessions m.
Definition on_counter {A} (m : M AttemptCounter E A) : M W E A := zoom w_counter set_counter m.
Definition on_store {A} (m : M St E A) : M W E A := zoom w_store set_store m.
Definition on_hsm {A} (m : M H E A) : M W E A := zoom w_hsm set_hsm m.
End World.

(** ** Which parts a method may touch *)

Section Framing.
Context {St H : Type} `{Env}.
Local Abbreviation W := (World St H).

(** The readings and draws only grow. *)
Definition later (w w' : W) : Prop := (w_tick w <= w_tick w')%nat /\ (w_draw w <= w_draw w')%nat.

#[export] Instance later_preorder : PreOrder later.
Proof. split; unfold later; repeat intro; lia. Qed.

(** Nothing but clock readings, draws, metrics and audit events. *)
Definition quiet (w w' : W) : Prop :=
  w_sessions w' = w_sessions w /\ w_counter w' = w_counter w /\ w_store w' = w_store w /\
  w_hsm w' = w_hsm w /\ w_gauge w' = w_gauge w /\ later w w'.

#[export] Instance quiet_preorder : PreOrder quiet.
Proof. split; unfold quiet, later; repeat intro; intuition (congruence || lia). Qed.

(** As [quiet], and the HSM. *)
Definition hsm_only (w w' : W) : Prop :=
  w_sessions w' = w_sessions w /\ w_counter w' = w_counter w /\ w_store w' = w_store w /\
  w_gauge w' = w_gauge w /\ later w w'.

#[export] Instance hsm_only_preorder : PreOrder hsm_only.
Proof. split; unfold hsm_only, later; repeat intro; intuition (congruence || lia). Qed.

(** As [quiet], the HSM and the store: what a service handler may do. *)
Definition backend_only (w w' : W) : Prop :=
  w_sessions w' = w_sessions w /\ w_counter w' = w_counter w /\ w_gauge w' = w_gauge w /\ later w w'.

#[export] Instance backend_only_preorder : PreOrder backend_only.
Proof. split; unfold backend_only, later; repeat intro; intuition (congruence || lia). Qed.

Class Quiet (R : W -> W -> Prop) : Prop := quiet_sub w w' : quiet w w' -> R w w'.

#[export] Instance quiet_quiet : Quiet quiet.
Proof. by intros w w' Hq. Qed.
#[export] Instance quiet_hsm_only : Quiet hsm_only.
Proof. unfold Quiet, quiet, hsm_only. tauto. Qed.
#[export] Instance quiet_backend_only : Quiet backend_only.
Proof. unfold Quiet, quiet, backend_only. tauto. Qed.
#[export] Instance quiet_later : Quiet later.
Proof. unfold Quiet, quiet. tauto. Qed.

Context {E : Type} (R : W -> W -> Prop) `{!PreOrder R, !Quiet R}.

Lemma steps_Now : steps R (Now (E := E)).
Proof. intros w. apply quiet_sub. unfold quiet, later. simpl. repeat split; lia. Qed.
Lemma steps_Draw : steps R (Draw (E := E)).
Proof. intros w. apply quiet_sub. unfold quiet, later. simpl. repeat split; lia. Qed.
Lemma steps_Inc n l : steps R (Inc (E := E) n l).
Proof. intros w. apply quiet_sub. unfold quiet, later. simpl. repeat split; lia. Qed.
Lemma steps_RandomBytes n : steps R (RandomBytes (E := E) n).
Proof. apply steps_bind; [done|apply steps_Draw|intros a; by apply steps_ret]. Qed.
Lemma steps_AuditLog e : steps R (AuditLog (E := E) e).
Proof.
  apply steps_bind; [done| |intros _].
  - apply steps_bind; [done|apply steps_Now|intros a; by apply steps_ret].
  - apply steps_modify. intros w. apply quiet_sub. unfold quiet, later. simpl. repeat split; lia.
Qed.
End Framing.

#[export] Hint Resolve steps_Now steps_Draw steps_Inc steps_RandomBytes steps_AuditLog : steps.

(** A method on the HSM or on the store is a step of [backend_only]. *)
Lemma steps_on_hsm {St H E A} (m : M H E A) : steps (hsm_only (St := St)) (on_hsm (E := E) m).
Proof.
  apply steps_zoom. intros w. unfold hsm_only, later. simpl. repeat split; lia.
Qed.

Lemma steps_on_hsm_backend {St H E A} (m : M H E A) : steps (backend_only (St := St)) (on_hsm (E := E) m).
Proof. apply steps_zoom. intros w. unfold backend_only, later. simpl. repeat split; lia. Qed.

Lemma steps_on_store {St H E A} (m : M St E A) : steps (backend_only (H := H)) (on_store (E := E) m).
Proof. apply steps_zoom. intros w. unfold backend_only, later. simpl. repeat split; lia. Qed.

#[export] Hint Resolve steps_on_hsm steps_on_hsm_backend steps_on_store : steps.

(** None of them panics. *)
Section Safety.
Context {St H E : Type} `{Env}.

Lemma safe_Now : safe (Now (St := St) (H := H) (E := E)).
Proof. by intros w. Qed.
Lemma safe_Draw : safe (Draw (St := St) (H := H) (E := E)).
Proof. by intros w. Qed.
Lemma safe_Inc n l : safe (Inc (St := St) (H := H) (E := E) n l).
Proof. by intros w. Qed.
Lemma safe_RandomBytes n : safe (RandomBytes (St := St) (H := H) (E := E) n).
Proof. by intros w. Qed.
Lemma safe_AuditLog e : safe (AuditLog (St := St) (H := H) (E := E) e).
Proof. by intros w. Qed.
End Safety.

Lemma safe_on_store {St H E A} (m : M St E A) : safe m -> safe (on_store (H := H) m).
Proof. apply safe_zoom. Qed.
Lemma safe_on_hsm {St H E A} (m : M H E A) : safe m -> safe (on_hsm (St := St) m).
Proof. apply safe_zoom. Qed.

#[export] Hint Resolve safe_on_store safe_on_hsm : safe.
#[export] Hint Resolve safe_Now safe_Draw safe_Inc safe_RandomBytes safe_AuditLog : safe.

(** None of them fails. *)
Section Errors.
Context {St H E : Type} `{Env} (P : E -> Prop).

Lemma raises_Now : raises P (Now (St := St) (H := H) (E := E)).
Proof. by intros w w' e. Qed.
Lemma raises_Draw : raises P (Draw (St := St) (H := H) (E := E)).
Proof. by intros w w' e. Qed.
Lemma raises_Inc n l : raises P (Inc (St := St) (H := H) (E := E) n l).
Proof. by intros w w' e. Qed.
Lemma raises_RandomBytes n : raises P (RandomBytes (St := St) (H := H) (E := E) n).
Proof. by intros w w' e. Qed.
End Errors.

#[export] Hint Resolve raises_Now raises_Draw raises_Inc raises_RandomBytes : raises.

(** The shared parts, one operation at a time. *)
Lemma Now_Ok {St H E} `{Env} (w w' : World St H) t :
  Now (E := E) w = (w', Ok t) <-> w' = (Now (E := E) w).1 /\ t = clock (w_tick w).
Proof. unfold Now. simpl. naive_solver. Qed.

Lemma on_store_Ok {St H E A} (m : M St E A) (w w' : World St H) a :
  on_store m w = (w', Ok a) <-> exists s, m (w_store w) = (s, Ok a) /\ w' = set_store s w.
Proof. unfold on_store, zoom. destruct (m (w_store w)) as [s o]. naive_solver. Qed.
