(* ===== verification/Handlers.v ===== *)
(** * [internal/service/handler.go] and [handlers.go]: the HSM services

    The [Handler] interface, the HSM's [Backend] interface
    ([internal/hsm/backend.go]) and the four handlers in front of it: sign,
    key generation, key agreement and key listing. *)

From S2P Require Import Prelude GoTime GoStrings GoJson Protocol Counter Store World.
Local Open Scope Z_scope.

Definition Mode1FA : string := "1fa".
Definition Mode2FA : string := "2fa".

Definition decodeBase64 (s : string) : outcome error bytes :=
  of_option (PkgError "encoding/base64") (URLDecodeString s).
Definition encodeBase64 (b : bytes) : string := URLEncodeToString b.

Definition json_err : error := PkgError "encoding/json".

(** ** [hsm.Backend] *)

Record KeyInfo := mkKeyInfo {
  ki_Kid : string;
  ki_Curve : string;
  ki_CreationTime : Z;
  ki_PubKey : bytes
}.

#[export] Instance KeyInfo_eq_dec : EqDecision KeyInfo.
Proof. solve_decision. Defined.

Class Backend (H : Type) := {
  GenerateECKey : string -> M H error (string * bytes);
  Sign : string -> bytes -> M H error bytes;
  ECDH : string -> bytes -> M H error bytes;
  ListKeys : list string -> M H error (list KeyInfo)
}.

(** ** [service.Handler] *)

Record Handler (St H : Type) := mkHandler {
  h_Type : string;
  h_Mode : string;
  h_Handle : string -> option bytes -> M (World St H) error bytes
}.
Arguments mkHandler {St H}.
Arguments h_Type {St H}.
Arguments h_Mode {St H}.
Arguments h_Handle {St H}.

(** ** [validKid]: [^[a-zA-Z0-9_-]{1,128}$] *)

Definition kid_char (b : Byte.byte) : bool :=
  byte_in 97 122 b || byte_in 65 90 b || byte_in 48 57 b || Byte.eqb b x5f || Byte.eqb b x2d.

Definition validKid (kid : string) : bool :=
  let b := go_bytes kid in
  (1 <=? length b)%nat && (length b <=? 128)%nat && forallb kid_char b.

Definition validateKid (kid : string) : outcome error unit :=
  if negb (validKid kid) then Err (Errorf "invalid kid format") else Ok tt.

(** ** Requests and responses *)

Record ECDSASignRequest := mkECDSASignRequest { es_Kid : string; es_TbsHash : string }.

Definition Unmarshal_ECDSASignRequest (d : option bytes) : option ECDSASignRequest :=
  Unmarshal (dec_struct
    [ fld "kid" dec_string es_Kid (fun '(mkECDSASignRequest _ t) k => mkECDSASignRequest k t);
      fld "tbs_hash" dec_string es_TbsHash (fun '(mkECDSASignRequest k _) t => mkECDSASignRequest k t) ])
    (mkECDSASignRequest "" "") (default [] d).

Definition Unmarshal_ECKeygenRequest (d : option bytes) : option string :=
  Unmarshal (dec_struct [fld "curve" dec_string (fun c : string => c) (fun _ c => c)]) "" (default [] d).

Definition Marshal_ECKeygenResponse (created : string) : bytes :=
  enc_struct [("created_key", enc_string created)].

Record ECDHRequest := mkECDHRequest { ecr_Kid : string; ecr_PublicKey : string }.

Definition Unmarshal_ECDHRequest (d : option bytes) : option ECDHRequest :=
  Unmarshal (dec_struct
    [ fld "kid" dec_string ecr_Kid (fun '(mkECDHRequest _ p) k => mkECDHRequest k p);
      fld "public_key" dec_string ecr_PublicKey (fun '(mkECDHRequest k _) p => mkECDHRequest k p) ])
    (mkECDHRequest "" "") (default [] d).

Definition Unmarshal_ListKeysRequest (d : option bytes) : option (list string) :=
  Unmarshal (dec_struct [fld "curve" dec_strings (fun c : list string => c) (fun _ c => c)])
    [] (default [] d).

Definition enc_WireKeyInfo (k : KeyInfo) : bytes :=
  enc_struct [("kid", enc_string (ki_Kid k)); ("curve_name", enc_string (ki_Curve k));
              ("creation_time", enc_int (ki_CreationTime k));
              ("public_key", enc_string (encodeBase64 (ki_PubKey k)))].

Definition Marshal_ListKeysResponse (keys : list KeyInfo) : bytes :=
  enc_struct [("key_info", enc_array (enc_WireKeyInfo <$> keys))].

(** ** The handlers *)

Section Handlers.
Context {St H : Type} `{Env, Store St, Backend H}.
Local Abbreviation W := (World St H).
Local Abbreviation m := (M W error).

(** One timed and counted HSM call. *)
Definition observed {A} (op : string) (ctx : string) (call : M H error A) : m A :=
  let! r := attempt (on_hsm call) in
  let! _ := Now in
  Inc "hsm_operation_duration_seconds" op ;;!
  match r with
  | inr e => Inc "hsm_operations_total" (op +:+ "/error") ;;! fail (Wrapf ctx e)
  | inl a => Inc "hsm_operations_total" (op +:+ "/success") ;;! ret a
  end.

Definition ECDSAHandle (_ : string) (reqData : option bytes) : m bytes :=
  let! _ := Now in
  let! req := lift (of_option (Wrapf "parse sign request" json_err)
                      (Unmarshal_ECDSASignRequest reqData)) in
  let! hashBytes := lift (map_err (Wrapf "decode tbs_hash") (decodeBase64 (es_TbsHash req))) in
  lift (validateKid (es_Kid req)) ;;!
  if negb (length hashBytes =? 32)%nat && negb (length hashBytes =? 48)%nat
     && negb (length hashBytes =? 64)%nat
  then fail (Errorf ("invalid hash length: " +:+ fmt_d (Z.of_nat (length hashBytes))))
  else observed "sign" "sign" (Sign (es_Kid req) hashBytes).

(** [keyStore] tells whether the handler was given a store. *)
Definition ECKeygenHandle (keyStore : bool) (clientID : string) (reqData : option bytes) : m bytes :=
  let! _ := Now in
  let! curve := lift (of_option (Wrapf "parse keygen request" json_err)
                        (Unmarshal_ECKeygenRequest reqData)) in
  let! (kid, pubKey) := observed "keygen" "keygen" (GenerateECKey curve) in
  (if keyStore then
     let! now := Now in
     let! _ := attempt (on_store (PutPublicKey
                 (mkPublicKeyInfo kid curve pubKey (Unix now) clientID))) in
     ret tt
   else ret tt) ;;!
  ret (Marshal_ECKeygenResponse curve).

Definition valid_point_len (n : nat) : bool :=
  (n =? 33)%nat || (n =? 65)%nat || (n =? 49)%nat || (n =? 97)%nat || (n =? 67)%nat || (n =? 133)%nat.

Definition ECDHHandle (_ : string) (reqData : option bytes) : m bytes :=
  let! _ := Now in
  let! req := lift (of_option (Wrapf "parse ECDH request" json_err)
                      (Unmarshal_ECDHRequest reqData)) in
  let! peerKey := lift (map_err (Wrapf "decode public_key") (decodeBase64 (ecr_PublicKey req))) in
  lift (validateKid (ecr_Kid req)) ;;!
  if negb (valid_point_len (length peerKey))
  then fail (Errorf "invalid peer public key length")
  else observed "ecdh" "ECDH" (ECDH (ecr_Kid req) peerKey).

Definition ListKeysHandle (_ : string) (reqData : option bytes) : m bytes :=
  let! _ := Now in
  let! curves := lift (of_option (Wrapf "parse list keys request" json_err)
                         (Unmarshal_ListKeysRequest reqData)) in
  let! keys := observed "list_keys" "list keys" (ListKeys curves) in
  ret (Marshal_ListKeysResponse keys).

Definition ECDSAHandler : Handler St H := mkHandler TypeSignECDSA Mode2FA ECDSAHandle.
Definition ECKeygenHandler (keyStore : bool) : Handler St H :=
  mkHandler TypeP256Generate Mode1FA (ECKeygenHandle keyStore).
Definition ECDHHandler : Handler St H := mkHandler TypeAgreeECDH Mode2FA ECDHHandle.
Definition ListKeysHandler : Handler St H := mkHandler TypeHSMListKeys Mode2FA ListKeysHandle.

(** *** What they may touch *)

Lemma steps_observed {A} op ctx (call : M H error A) (R : W -> W -> Prop) `{!PreOrder R, !Quiet R} :
  steps R (on_hsm (E := error) call) -> steps R (observed op ctx call).
Proof. intros Hc. unfold observed. steps_auto. Qed.

Lemma steps_ECDSAHandle c d : steps hsm_only (ECDSAHandle c d).
Proof. unfold ECDSAHandle. steps_auto. apply steps_observed; [typeclasses eauto..|]. eauto with steps. Qed.

Lemma steps_ECDHHandle c d : steps hsm_only (ECDHHandle c d).
Proof. unfold ECDHHandle. steps_auto. apply steps_observed; [typeclasses eauto..|]. eauto with steps. Qed.

Lemma steps_ListKeysHandle c d : steps hsm_only (ListKeysHandle c d).
Proof.
  unfold ListKeysHandle. steps_auto. apply steps_observed; [typeclasses eauto..|]. eauto with steps.
Qed.

Lemma steps_ECKeygenHandle ks c d : steps backend_only (ECKeygenHandle ks c d).
Proof.
  unfold ECKeygenHandle. steps_auto. apply steps_observed; [typeclasses eauto..|]. eauto with steps.
Qed.
End Handlers.

(** ** No handler panics on a backend that does not *)

Class BackendSafe (H : Type) `{Backend H} := {
  GenerateECKey_safe c : safe (GenerateECKey c);
  Sign_safe k h : safe (Sign k h);
  ECDH_safe k p : safe (ECDH k p);
  ListKeys_safe c : safe (ListKeys c)
}.

(** A backend whose generated keys have a point. *)
Class BackendPoints (H : Type) `{Backend H} : Prop :=
  generated_point c h h' kid pub : GenerateECKey c h = (h', Ok (kid, pub)) -> pub <> [].

#[export] Hint Resolve GenerateECKey_safe Sign_safe ECDH_safe ListKeys_safe : safe.

Lemma decodeBase64_no_panic s : is_panic (decodeBase64 s) = false.
Proof. apply of_option_no_panic. Qed.

Lemma validateKid_no_panic k : is_panic (validateKid k) = false.
Proof. unfold validateKid. by case_match. Qed.

#[export] Hint Resolve decodeBase64_no_panic validateKid_no_panic : safe.
#[export] Hint Extern 1 (is_panic (map_err _ _) = false) => rewrite map_err_no_panic : safe.

Section HandlersSafe.
Context {St H : Type} `{Env, StoreSafe St, BackendSafe H}.
Local Abbreviation W := (World St H).

Lemma safe_observed {A} op ctx (call : M H error A) :
  safe call -> safe (observed (St := St) op ctx call).
Proof. intros Hc. unfold observed. safe_auto. Qed.

Hint Resolve safe_observed : safe.

Lemma safe_ECDSAHandle c data : safe (ECDSAHandle (St := St) c data).
Proof. unfold ECDSAHandle. safe_auto. Qed.
Lemma safe_ECKeygenHandle ks c data : safe (ECKeygenHandle (St := St) ks c data).
Proof. unfold ECKeygenHandle. safe_auto. Qed.
Lemma safe_ECDHHandle c data : safe (ECDHHandle (St := St) c data).
Proof. unfold ECDHHandle. safe_auto. Qed.
Lemma safe_ListKeysHandle c data : safe (ListKeysHandle (St := St) c data).
Proof. unfold ListKeysHandle. safe_auto. Qed.
End HandlersSafe.

(** ** Properties *)

Section HandlerSpecs.
Context {St H : Type} `{Env, StoreLaws St, Backend H}.
Local Abbreviation W := (World St H).

(** The key and hash of a well-formed signing request. *)
Definition sign_args (d : option bytes) : option (string * bytes) :=
  match Unmarshal_ECDSASignRequest d with
  | None => None
  | Some req =>
      match URLDecodeString (es_TbsHash req) with
      | None => None
      | Some h =>
          if validKid (es_Kid req) && bool_decide (length h = 32 \/ length h = 48 \/ length h = 64)%nat
          then Some (es_Kid req, h) else None
      end
  end.

Lemma observed_run {A} op ctx (call : M H error A) (w : W) :
  w_hsm (observed (H0 := H0) op ctx call w).1 = (call (w_hsm w)).1 /\
  (observed op ctx call w).2 = map_err (Wrapf ctx) (call (w_hsm w)).2.
Proof.
  unfold observed, attempt, on_hsm, zoom, bind. by destruct (call (w_hsm w)) as [h []].
Qed.

Lemma hash_len_bool (n : nat) :
  negb (n =? 32)%nat && negb (n =? 48)%nat && negb (n =? 64)%nat =
  negb (bool_decide (n = 32 \/ n = 48 \/ n = 64)%nat).
Proof.
  case_bool_decide; destruct (Nat.eqb_spec n 32), (Nat.eqb_spec n 48), (Nat.eqb_spec n 64);
    simpl; tauto || done.
Qed.

Lemma ECDSAHandle_spec c d (w : W) :
  let r := ECDSAHandle c d w in
  match sign_args d with
  | Some (kid, h) =>
      w_hsm r.1 = (Sign kid h (w_hsm w)).1 /\ r.2 = map_err (Wrapf "sign") (Sign kid h (w_hsm w)).2
  | None => w_hsm r.1 = w_hsm w /\ exists e, r.2 = Err e
  end.
Proof.
  unfold ECDSAHandle, sign_args, decodeBase64, validateKid. simpl.
  unfold bind at 1. simpl. destruct (Unmarshal_ECDSASignRequest d) as [req|]; simpl; [|eauto].
  unfold bind, lift. simpl. destruct (URLDecodeString (es_TbsHash req)) as [h|]; simpl; [|eauto].
  destruct (validKid (es_Kid req)); [|simpl; eauto]. cbn [negb andb].
  rewrite hash_len_bool. case_bool_decide; cbn [negb]; [|simpl; eauto].
  exact (observed_run "sign" "sign" (Sign (es_Kid req) h) (Now (E := error) w).1).
Qed.

(** The signing service calls the HSM exactly once, with the key and
    hash of the request, when the key ID is well formed and the hash has an
    accepted length; any other request is refused before the HSM. *)
Theorem ECDSAHandle_functional c d (w : W) :
  let r := ECDSAHandle c d w in
  match sign_args d with
  | Some (kid, h) =>
      w_hsm r.1 = (Sign kid h (w_hsm w)).1 /\ r.2 = map_err (Wrapf "sign") (Sign kid h (w_hsm w)).2
  | None => w_hsm r.1 = w_hsm w /\ exists e, r.2 = Err e
  end.
Proof. apply ECDSAHandle_spec. Qed.

End HandlerSpecs.

(** A one-key software HSM, for the witnesses: the key's signature of a hash
    is the hash itself. *)
Definition toy_hsm : Backend nat := {|
  GenerateECKey := fun _ n => (S n, Ok ("key-" +:+ pretty n, x04 :: replicate 64 x01));
  Sign := fun _ h n => (n, Ok h);
  ECDH := fun _ p n => (n, Ok p);
  ListKeys := fun _ n => (n, Ok [])
|}.

#[export] Instance toy_hsm_safe : @BackendSafe nat toy_hsm.
Proof. split; by intros. Qed.

(** A clock that starts at [t] and ticks once a second; draws of zeros. *)
Definition ticking (t : Z) : Env := {|
  clock := fun i => instant (t + Z.of_nat i) (Z.of_nat i * Second);
  rand := fun i n => replicate n (z2b (Z.of_nat i));
  length_rand := fun i n => length_replicate n _
|}.

Definition new_world {St} (s : St) : World St nat :=
  mkWorld ∅ (NewAttemptCounter 5 (15 * Minute)) s 0%nat 0 0 0 ∅ [].

Definition keygen_run : World MemoryStore nat * outcome error bytes :=
  ECKeygenHandle (H0 := ticking 1700000000) (H2 := toy_hsm) true "alice"
    (Some (jtext "{'curve':'P-256'}")) (new_world NewMemoryStore).

