(* ===== verification/Jws.v ===== *)
(** * [internal/crypto/jws.go]: signing and verifying

    Thin functions over the JOSE library: the algorithm of a key's curve,
    [SignJWS], [SignJWT], [VerifyJWS] and [PeekJWSHeaders]. *)

From S2P Require Import Prelude GoStrings Ecc External.

Definition jose_err : error := PkgError "go-jose".

(** The package's own functions on keys, by its name: the HSM backend has a
    [GenerateECKey] too. *)
Module icrypto.
Definition GenerateECKey `{GoCrypto} (draw : nat) (curve : Curve) : outcome error PrivateKey :=
  of_option ecdsa_err (EcdsaGenerateKey draw curve).

(** [crypto.PublicKey] is an interface; this is the key in it. *)
Definition PublicKeyFromPrivate (key : PrivateKey) : PublicKey := priv_PublicKey key.
End icrypto.

Section Jws.
Context `{Jose}.

Definition accepted_algorithms : list SignatureAlgorithm := [ES256; ES384; ES512].

Definition ecAlgorithm (curve : Curve) : outcome error SignatureAlgorithm :=
  match curve with
  | P256 => Ok ES256
  | P384 => Ok ES384
  | P521 => Ok ES512
  | P224 => Err (Errorf "unsupported curve")
  end.

(** [draw] is the randomness of the signature. *)
Definition sign_with (draw : nat) (alg : SignatureAlgorithm) (key : PrivateKey)
    (sopts : SignerOptions) (payload : bytes) : outcome error string :=
  if negb (NewSigner alg key sopts) then Err (Wrapf "create signer" jose_err)
  else of_option (Wrapf "sign" jose_err) (JWS_Sign draw alg key sopts payload).

(** [typ] is the optional fourth argument, [""] when it is missing. *)
Definition SignJWS (draw : nat) (payload : bytes) (key : PrivateKey) (kid typ : string) :
    outcome error string :=
  let? alg := ecAlgorithm (pub_Curve (priv_PublicKey key)) in
  let typ := if negb (bool_decide (typ = "")) then typ else "JOSE" in
  let kid := if negb (bool_decide (kid = "")) then Some kid else None in
  sign_with draw alg key (mkSignerOptions typ kid None) payload.

Definition SignJWT (draw : nat) (payload : bytes) (key : PrivateKey) (typ : string)
    (x5cDER : list bytes) : outcome error string :=
  let? alg := ecAlgorithm (pub_Curve (priv_PublicKey key)) in
  let x5c := match x5cDER with [] => None | _ => Some x5cDER end in
  sign_with draw alg key (mkSignerOptions typ None x5c) payload.

Definition VerifyJWS (compact : string) (key : PublicKey) : outcome error bytes :=
  let? jws := of_option (Wrapf "parse JWS" jose_err) (ParseSigned compact accepted_algorithms) in
  of_option (Wrapf "verify JWS" jose_err) (JWS_Verify jws key).

(** The [kid] and [typ] entries of the header map. *)
Definition PeekJWSHeaders (compact : string) : outcome error (option string * option string) :=
  let? jws := of_option (Wrapf "parse JWS" jose_err) (ParseSigned compact accepted_algorithms) in
  match JWS_Signatures jws with
  | [] => Err (Errorf "no signatures in JWS")
  | h :: _ =>
      let kid := if negb (bool_decide (jh_KeyID h = "")) then Some (jh_KeyID h) else None in
      let typ := match jh_typ h with
                 | Some s => if negb (bool_decide (s = "")) then Some s else None
                 | None => None
                 end in
      Ok (kid, typ)
  end.

(** The signing functions neither panic nor touch anything else. *)
Lemma SignJWS_no_panic draw p k kid typ : is_panic (SignJWS draw p k kid typ) = false.
Proof.
  unfold SignJWS, sign_with. destruct (pub_Curve _); simpl; try done;
    destruct (NewSigner _ _ _); simpl; try done; by apply of_option_no_panic.
Qed.

Lemma SignJWT_no_panic draw p k typ x : is_panic (SignJWT draw p k typ x) = false.
Proof.
  unfold SignJWT, sign_with. destruct (pub_Curve _); simpl; try done;
    destruct (NewSigner _ _ _); simpl; try done; by apply of_option_no_panic.
Qed.

Lemma VerifyJWS_no_panic c k : is_panic (VerifyJWS c k) = false.
Proof. unfold VerifyJWS. destruct (ParseSigned _ _); [apply of_option_no_panic|done]. Qed.

Lemma PeekJWSHeaders_no_panic c : is_panic (PeekJWSHeaders c) = false.
Proof. unfold PeekJWSHeaders. destruct (ParseSigned _ _); [simpl; by case_match|done]. Qed.

Lemma VerifyJWS_Ok c k p :
  VerifyJWS c k = Ok p <->
  exists jws, ParseSigned c accepted_algorithms = Some jws /\ JWS_Verify jws k = Some p.
Proof.
  unfold VerifyJWS. rewrite obind_Ok. setoid_rewrite of_option_Ok. done.
Qed.
End Jws.

(** What JOSE documents of a signature it made: it parses under the
    algorithms of the family and verifies, to the same payload, with the
    signer's public key. *)
Definition jose_ok `{Jose} : Prop :=
  forall draw alg key sopts payload compact,
    JWS_Sign draw alg key sopts payload = Some compact ->
    exists jws, ParseSigned compact accepted_algorithms = Some jws /\
      JWS_Verify jws (priv_PublicKey key) = Some payload.

Lemma SignJWS_VerifyJWS `{Jose} draw p k kid typ c :
  jose_ok -> SignJWS draw p k kid typ = Ok c -> VerifyJWS c (priv_PublicKey k) = Ok p.
Proof.
  intros Hj. unfold SignJWS, sign_with. intros Hs. inv_ok Hs.
  destruct (NewSigner _ _ _); simpl in Hs; [|done]. autorewrite with go_ok in Hs.
  apply VerifyJWS_Ok, (Hj _ _ _ _ _ _ Hs).
Qed.
