(* ===== verification/Jwe.v ===== *)
(** * [internal/crypto/jwe.go]: encrypted messages

    The hash that binds a request to an encrypted message, the key derivation
    of the second-factor mode, and the encryptions of both modes and of the
    older ones, over the JOSE library and HKDF. *)

From S2P Require Import Prelude GoStrings Sha256 Ecc External Jws.
Local Open Scope Z_scope.

Definition hkdf_err : error := PkgError "hkdf".

(** ** The hash of the protected header *)

Definition JWEHash (compact : string) : outcome error string :=
  match SplitN2 compact x2e with
  | None => Err (Errorf "invalid JWE compact serialization")
  | Some (protectedHeader, _) => Ok (RawURLEncodeToString (Sum256 (go_bytes protectedHeader)))
  end.

(** ** The key-encryption key *)

(** The length as a [uint32], big-endian, and the data. *)
Definition appendLenPrefixed (buf data : bytes) : bytes :=
  buf ++ put_be 4 (Z.of_nat (length data) mod 2^32) ++ data.

Definition hkdfInfo (dst direction sessionID : string) : bytes :=
  appendLenPrefixed (appendLenPrefixed (appendLenPrefixed [] (go_bytes dst)) (go_bytes direction))
    (go_bytes sessionID).

Definition kek_dst : string := "R2PS-2FA-KEK-1.0".

Section Jwe.
Context `{JoseEncryption, HkdfLib}.

Definition Derive2FAKEK (sessionKey : bytes) (direction sessionID : string) : outcome error bytes :=
  of_option (Wrapf "HKDF derive KEK" hkdf_err)
    (Hkdf sessionKey [] (hkdfInfo kek_dst direction sessionID) 32).

(** ** Encrypting and decrypting *)

(** [draw] is the randomness of the encryption. *)
Definition encrypt_with (draw : nat) (create encrypt : string) (alg : KeyAlgorithm) (key : RecipientKey)
    (opts : EncrypterOptions) (plaintext : bytes) : outcome error string :=
  if negb (NewEncrypter A256GCM alg key opts) then Err (Wrapf create jose_err)
  else
    let? jwe := of_option (Wrapf encrypt jose_err) (JWE_Encrypt draw A256GCM alg key opts plaintext) in
    of_option jose_err (JWE_CompactSerialize jwe).

Definition decrypt_with (parse decrypt : string) (algs : list KeyAlgorithm) (encs : list ContentEncryption)
    (compact : string) (key : DecryptionKey) : outcome error bytes :=
  let? jwe := of_option (Wrapf parse jose_err) (ParseEncrypted compact algs encs) in
  of_option (Wrapf decrypt jose_err) (JWE_Decrypt jwe key).

Definition opts_1FA (kid apu apv : string) : EncrypterOptions :=
  mkEncrypterOptions "JWT" (Some "r2ps-1fa") [("kid", kid); ("apu", apu); ("apv", apv)].

Definition EncryptJWE1FA (draw : nat) (plaintext : bytes) (recipientKey : PublicKey) (kid apu apv : string) :
    outcome error string :=
  encrypt_with draw "create 1FA encrypter" "encrypt 1FA" ECDH_ES (RPublic recipientKey)
    (opts_1FA kid apu apv) plaintext.

Definition DecryptJWE1FA (compact : string) (key : PrivateKey) : outcome error bytes :=
  decrypt_with "parse 1FA JWE" "decrypt 1FA JWE" [ECDH_ES] [A256GCM] compact (DPrivate key).

Definition opts_2FA (sessionID : string) : EncrypterOptions :=
  mkEncrypterOptions "JWT" (Some "r2ps-2fa") [("kid", sessionID)].

Definition EncryptJWE2FA (draw : nat) (plaintext sessionKey : bytes) (sessionID direction : string) :
    outcome error string :=
  let? kek := Derive2FAKEK sessionKey direction sessionID in
  encrypt_with draw "create 2FA encrypter" "encrypt 2FA" A256KW (RSymmetric kek) (opts_2FA sessionID) plaintext.

Definition DecryptJWE2FA (compact : string) (sessionKey : bytes) (sessionID direction : string) :
    outcome error bytes :=
  let? kek := Derive2FAKEK sessionKey direction sessionID in
  decrypt_with "parse 2FA JWE" "decrypt 2FA JWE" [A256KW] [A256GCM] compact (DSymmetric kek).

(** *** The older modes *)

Definition opts_legacy : EncrypterOptions := mkEncrypterOptions "application/octet-stream" None [].

Definition EncryptJWE (draw : nat) (plaintext : bytes) (recipientKey : PublicKey) : outcome error string :=
  encrypt_with draw "create encrypter" "encrypt" ECDH_ES_A256KW (RPublic recipientKey) opts_legacy plaintext.

Definition DecryptJWE (compact : string) (key : PrivateKey) : outcome error bytes :=
  decrypt_with "parse JWE" "decrypt JWE" [ECDH_ES_A256KW; ECDH_ES_A128KW; ECDH_ES] [A256GCM; A128GCM]
    compact (DPrivate key).

Definition EncryptJWESymmetric (draw : nat) (plaintext key : bytes) : outcome error string :=
  encrypt_with draw "create symmetric encrypter" "encrypt" DIRECT (RSymmetric key) opts_legacy plaintext.

Definition DecryptJWESymmetric (compact : string) (key : bytes) : outcome error bytes :=
  decrypt_with "parse JWE" "decrypt JWE" [DIRECT; A256KW] [A256GCM] compact (DSymmetric key).
End Jwe.

(** ** Properties *)

Lemma be_uint_len n : 0 <= n < 2^32 -> be_uint (put_be 4 (n mod 2^32)) = n.
Proof. intros Hn. rewrite be_uint_put_be, Z.mod_mod, Z.mod_small; lia. Qed.

(** A length-prefixed part is told from what follows it. *)
Lemma len_prefixed_inj (a a' r r' : bytes) :
  Z.of_nat (length a) < 2^32 -> Z.of_nat (length a') < 2^32 ->
  put_be 4 (Z.of_nat (length a) mod 2^32) ++ a ++ r = put_be 4 (Z.of_nat (length a') mod 2^32) ++ a' ++ r' ->
  a = a' /\ r = r'.
Proof.
  intros Ha Ha' He. apply app_inj_1 in He as [Hl He]; [|by rewrite !length_put_be].
  apply (f_equal be_uint) in Hl. rewrite !be_uint_len in Hl by lia.
  apply app_inj_1 in He; [done|lia].
Qed.

(** The parts of the info fit their 32-bit length. *)
Definition short (s : string) : Prop := Z.of_nat (length (go_bytes s)) < 2^32.

Lemma hkdfInfo_parts dst direction sid :
  hkdfInfo dst direction sid =
    put_be 4 (Z.of_nat (length (go_bytes dst)) mod 2^32) ++ go_bytes dst ++
    put_be 4 (Z.of_nat (length (go_bytes direction)) mod 2^32) ++ go_bytes direction ++
    put_be 4 (Z.of_nat (length (go_bytes sid)) mod 2^32) ++ go_bytes sid ++ [].
Proof. unfold hkdfInfo, appendLenPrefixed. by rewrite !app_nil_l, app_nil_r, <- !app_assoc. Qed.

(** No two key derivations have the same info. *)
Lemma hkdfInfo_inj dst direction sid dst' direction' sid' :
  short dst -> short direction -> short sid -> short dst' -> short direction' -> short sid' ->
  hkdfInfo dst direction sid = hkdfInfo dst' direction' sid' ->
  dst = dst' /\ direction = direction' /\ sid = sid'.
Proof.
  intros. rewrite !hkdfInfo_parts in *.
  match goal with Hq : _ ++ _ = _ |- _ =>
    apply len_prefixed_inj in Hq as [Ha%(inj go_bytes) Hq]; [|done..];
    apply len_prefixed_inj in Hq as [Hb%(inj go_bytes) Hq]; [|done..];
    apply len_prefixed_inj in Hq as [Hc%(inj go_bytes) _]; [|done..] end.
  done.
Qed.

(** What JOSE documents of an encryption it made: it is accepted where its
    algorithms are, and the recipient's key, and with key wrapping no other
    key, opens it. *)
Record jwe_ok `{JoseEncryption} : Prop := {
  jwe_open draw enc alg key opts p jwe c algs encs :
    JWE_Encrypt draw enc alg (recipient_of key) opts p = Some jwe -> JWE_CompactSerialize jwe = Some c ->
    alg ∈ algs -> enc ∈ encs ->
    exists jwe', ParseEncrypted c algs encs = Some jwe' /\ JWE_Decrypt jwe' key = Some p;
  jwe_other draw enc opts p jwe c algs encs jwe' k k' :
    JWE_Encrypt draw enc A256KW (RSymmetric k) opts p = Some jwe -> JWE_CompactSerialize jwe = Some c ->
    ParseEncrypted c algs encs = Some jwe' -> k' <> k -> JWE_Decrypt jwe' (DSymmetric k') = None
}.

Section JweLaws.
Context `{JoseEncryption, HkdfLib}.
Context (Hjwe : jwe_ok).

Lemma encrypt_with_Ok draw create encrypt alg key opts p c :
  encrypt_with draw create encrypt alg key opts p = Ok c <->
  NewEncrypter A256GCM alg key opts = true /\
  exists jwe, JWE_Encrypt draw A256GCM alg key opts p = Some jwe /\ JWE_CompactSerialize jwe = Some c.
Proof.
  unfold encrypt_with. destruct (NewEncrypter _ _ _ _); cbn [negb]; [|naive_solver].
  rewrite obind_Ok. setoid_rewrite of_option_Ok. naive_solver.
Qed.

(** Decrypting what was encrypted, where the algorithm is among the accepted. *)
Lemma decrypt_encrypt draw create encrypt alg key opts p c parse decrypt algs encs :
  alg ∈ algs -> A256GCM ∈ encs ->
  encrypt_with draw create encrypt alg (recipient_of key) opts p = Ok c ->
  decrypt_with parse decrypt algs encs c key = Ok p.
Proof.
  intros Halg Henc (_ & jwe & He & Hc)%encrypt_with_Ok.
  destruct (jwe_open Hjwe _ _ _ _ _ _ _ _ algs encs He Hc Halg Henc) as (jwe' & Hp & Hd).
  unfold decrypt_with. rewrite Hp. cbn [of_option obind]. by rewrite Hd.
Qed.

(** Every pair of functions of the file is a round trip. *)
Lemma JWE1FA_roundtrip draw p k kid apu apv c :
  EncryptJWE1FA draw p (priv_PublicKey k) kid apu apv = Ok c -> DecryptJWE1FA c k = Ok p.
Proof. apply (decrypt_encrypt _ _ _ _ (DPrivate k)); set_solver. Qed.

Lemma JWE_roundtrip draw p k c : EncryptJWE draw p (priv_PublicKey k) = Ok c -> DecryptJWE c k = Ok p.
Proof. apply (decrypt_encrypt _ _ _ _ (DPrivate k)); set_solver. Qed.

Lemma JWESymmetric_roundtrip draw p k c : EncryptJWESymmetric draw p k = Ok c -> DecryptJWESymmetric c k = Ok p.
Proof. apply (decrypt_encrypt _ _ _ _ (DSymmetric k)); set_solver. Qed.

(** HKDF does not give the same key for these two infos. *)
Definition hkdf_separates (ikm i i' : bytes) : Prop := forall k,
  Hkdf ikm [] i 32 = Some k -> Hkdf ikm [] i' 32 = Some k -> i = i'.

(** C20: a message of the second-factor mode is opened with the session key
    exactly in its own session and direction, and then to what was
    encrypted: one side's messages cannot be passed off as the other's. *)
Theorem JWE2FA_bound draw p key sid dir sid' dir' c p' :
  hkdf_separates key (hkdfInfo kek_dst dir sid) (hkdfInfo kek_dst dir' sid') -> short sid -> short dir -> short sid' -> short dir' ->
  (exists kek, Derive2FAKEK key dir' sid' = Ok kek) ->
  EncryptJWE2FA draw p key sid dir = Ok c ->
  DecryptJWE2FA c key sid' dir' = Ok p' <-> sid' = sid /\ dir' = dir /\ p' = p.
Proof.
  intros Hh Hs Hd Hs' Hd' [kek' Hk'] He. unfold EncryptJWE2FA in He. rewrite obind_Ok in He.
  destruct He as (kek & Hk & He). unfold DecryptJWE2FA. rewrite Hk'. cbn [obind].
  destruct (decide (kek' = kek)) as [->|Hn].
  - assert (sid' = sid /\ dir' = dir) as [-> ->].
    { unfold Derive2FAKEK in Hk, Hk'. rewrite of_option_Ok in Hk, Hk'.
      destruct (hkdfInfo_inj kek_dst dir sid kek_dst dir' sid') as (_ & -> & ->); try done.
      exact (Hh _ Hk Hk'). }
    rewrite (decrypt_encrypt draw "create 2FA encrypter" "encrypt 2FA" A256KW (DSymmetric kek) (opts_2FA sid) p c)
      by (exact He || by constructor). naive_solver.
  - destruct (proj1 (encrypt_with_Ok _ _ _ _ _ _ _ _) He) as (_ & jwe & He' & Hc).
    destruct (ParseEncrypted c [A256KW] [A256GCM]) as [jwe'|] eqn:Hp.
    + unfold decrypt_with. rewrite Hp. cbn [of_option obind].
      rewrite (jwe_other Hjwe _ _ _ _ _ _ _ _ _ _ _ He' Hc Hp Hn). split; [done|].
      intros (-> & -> & _). congruence.
    + unfold decrypt_with. rewrite Hp. split; [done|]. intros (-> & -> & _). congruence.
Qed.
End JweLaws.

(** An encryption that carries its key, for the example. *)
Definition toy_jwe_text (j : option bytes * bytes) : bytes :=
  match j.1 with
  | Some k => x01 :: put_be 4 (Z.of_nat (length k)) ++ k ++ j.2
  | None => x00 :: j.2
  end.

Definition toy_jwe_parse (c : string) : option (option bytes * bytes) :=
  match go_bytes c with
  | b :: l =>
      if Byte.eqb b x00 then Some (None, l)
      else let n := Z.to_nat (be_uint (take 4 l)) in Some (Some (take n (drop 4 l)), drop n (drop 4 l))
  | [] => None
  end.

Definition toy_jwe : JoseEncryption := {|
  JWE := option bytes * bytes;
  NewEncrypter := fun _ _ _ _ => true;
  JWE_Encrypt := fun _ _ _ k _ p => Some (match k with RSymmetric k => Some k | RPublic _ => None end, p);
  JWE_CompactSerialize := fun j =>
    let c := go_string (toy_jwe_text j) in if decide (toy_jwe_parse c = Some j) then Some c else None;
  ParseEncrypted := fun c _ _ => toy_jwe_parse c;
  JWE_Decrypt := fun j k =>
    match j.1, k with
    | Some k, DSymmetric k' => if decide (k = k') then Some j.2 else None
    | None, DPrivate _ => Some j.2
    | _, _ => None
    end
|}.

Lemma toy_jwe_ok : jwe_ok (H := toy_jwe).
Proof.
  split; cbn.
  - intros _ _ _ key _ p jwe c _ _ [= <-] Hc _ _. case_decide; [|done]. injection Hc as <-.
    eexists. split; [done|]. destruct key; cbn; [done|]. by rewrite decide_True.
  - intros _ _ _ p jwe c _ _ jwe' k k' [= <-] Hc Hp Hn. case_decide as Hd; [|done]. injection Hc as <-.
    rewrite Hd in Hp. injection Hp as <-. cbn. by rewrite decide_False.
Qed.

(** A key derivation that keeps the start of the info. *)
Definition toy_hkdf_prefix : HkdfLib := {| Hkdf := fun _ _ info n => Some (take n (info ++ replicate n x00)) |}.

Lemma JWE2FA_bound_witness :
  let c := match EncryptJWE2FA (H := toy_jwe) (H0 := toy_hkdf_prefix) 0 [x2a] [x07] "s1" "c2s" with
           | Ok c => c | _ => "" end in
  DecryptJWE2FA (H := toy_jwe) (H0 := toy_hkdf_prefix) c [x07] "s1" "s2c" = Ok [x2a] <->
    "s1" = "s1" /\ "s2c" = "c2s" /\ [x2a] = [x2a].
Proof.
  cbv zeta.
  apply (JWE2FA_bound (H := toy_jwe) (H0 := toy_hkdf_prefix) toy_jwe_ok 0 [x2a] [x07] "s1" "c2s" "s1" "s2c").
  - intros k [= <-] Hq. vm_compute in Hq. discriminate Hq.
  - reflexivity.
  - reflexivity.
  - reflexivity.
  - reflexivity.
  - eexists. reflexivity.
  - vm_compute. reflexivity.
Defined.
