(* ===== verification/Attest.v ===== *)
(** * [internal/service/eudiw_handlers.go]: wallet attestations

    The Wallet Key and Wallet Instance Attestation handlers, the conversion of
    a stored key to a JWK, and the revocation and suspension of a wallet
    instance. *)

From S2P Require Import Prelude GoTime GoStrings GoJson Protocol Counter Sessions Store Ecc External World Handlers Jws.
Local Open Scope Z_scope.

(** [Store] and [Audit] are pointers: the handlers use the shared store, and
    [wp_Audit] tells whether there is a logger. *)
Record WalletProviderConfig := mkWalletProviderConfig {
  wp_SigningKey : PrivateKey;
  wp_X5CChain : list bytes;
  wp_WalletLink : string;
  wp_WalletName : string;
  wp_WalletVersion : string;
  wp_WalletSolutionCertificationInfo : string;
  wp_KeyStorageLevel : option (list string);
  wp_UserAuthLevel : option (list string);
  wp_Certification : string;
  wp_StatusListBaseURI : string;
  wp_WKATTL : Z;
  wp_WIATTL : Z;
  wp_StatusMaintenancePeriod : Z;
  wp_Audit : bool
}.

(** ** [pubKeyToJWK] *)

Definition jwk_curve (curve : string) : option Curve :=
  if bool_decide (curve = "P-256") then Some P256
  else if bool_decide (curve = "P-384") then Some P384
  else if bool_decide (curve = "P-521") then Some P521
  else None.

Definition jwk_member (name value : string) : bytes :=
  x22 :: go_bytes name ++ [x22; x3a; x22] ++ go_bytes value ++ [x22].

Definition jwk_json (crv : string) (xBytes yBytes : bytes) : bytes :=
  x7b :: sep_by [x2c]
    [ jwk_member "kty" "EC"; jwk_member "crv" crv;
      jwk_member "x" (RawURLEncodeToString xBytes); jwk_member "y" (RawURLEncodeToString yBytes) ]
  ++ [x7d].

(** [for len(b) < n { b = append([]byte{0}, b...) }] *)
Definition pad_left (n : nat) (b : bytes) : bytes := replicate (n - length b) x00 ++ b.

Definition pubKeyToJWK (ecPoint : bytes) (curve : string) : outcome error bytes :=
  match jwk_curve curve with
  | None => Err (Errorf ("unsupported curve: " +:+ curve))
  | Some ecCurve =>
      let n := byteLen ecCurve in
      match ecPoint with
      | [] => Panic "runtime error: index out of range [0] with length 0"
      | b :: rest =>
          if Byte.eqb b x04 then
            if negb (length ecPoint =? 1 + 2 * n)%nat
            then Err (Errorf ("invalid uncompressed EC point: length " +:+ fmt_d (Z.of_nat (length ecPoint))))
            else Ok (jwk_json curve (take n rest) (drop n rest))
          else if Byte.eqb b x02 || Byte.eqb b x03 then
            match UnmarshalCompressed ecCurve ecPoint with
            | None => Err (Errorf "invalid compressed EC point")
            | Some (x, y) => Ok (jwk_json curve (pad_left n (IntBytes x)) (pad_left n (IntBytes y)))
            end
          else Err (Errorf ("invalid EC point prefix: 0x" +:+ hex2 b +:+ " (length "
                            +:+ fmt_d (Z.of_nat (length ecPoint)) +:+ ")"))
      end
  end.

(** ** The handlers *)

Definition draft_version : string := "draft-008".

(** [if ttl == 0 { ttl = d }] *)
Definition ttl_or (ttl d : Z) : Z := if ttl =? 0 then d else ttl.

Section Attest.
Context {St H : Type} `{Env, Store St, Jose}.
Local Abbreviation W := (World St H).
Local Abbreviation m := (M W error).
Context (cfg : WalletProviderConfig).

Definition resolveKeyJWK (kid : string) : m bytes :=
  let! key := on_store (GetPublicKey kid) in
  lift (pubKeyToJWK (pk_PubKey key) (pk_Curve key)).

(** The request, its version, and at least one key. *)
Definition attestation_request (what : string) (reqData : option bytes) : m EUDIWAttestationRequest :=
  let! req := lift (of_option (Wrapf ("parse " +:+ what +:+ " request") json_err)
                      (Unmarshal_EUDIWAttestationRequest (default [] reqData))) in
  if negb (bool_decide (ear_Ver req = draft_version))
  then fail (Errorf ("unsupported ETSI version: " +:+ ear_Ver req))
  else match ear_KeysToAttest req with
       | [] => fail (Errorf "keys_to_attest must not be empty")
       | _ => ret req
       end.

Definition check_kid (kid : string) : m unit :=
  lift (map_err (Wrapf ("invalid kid " +:+ fmt_q kid)) (validateKid kid)).

(** The JWKs of the keys that resolve, in order; a malformed key ID fails. *)
Fixpoint attested_keys (kids : list string) : m (list bytes) :=
  match kids with
  | [] => ret []
  | kid :: kids' =>
      check_kid kid ;;!
      let! r := attempt (resolveKeyJWK kid) in
      let! rest := attested_keys kids' in
      ret (match r with inl jwk => jwk :: rest | inr _ => rest end)
  end.

Definition allocate (clientID category : string) : m Z :=
  let! idx := with_err (Wrapf "allocate status index") (on_store (E := error) (AllocateIndex category)) in
  with_err (Wrapf "record WUA") (on_store (E := error) (RecordWUA clientID category idx)) ;;!
  ret idx.

Definition status_object (category : string) (idx : Z) (now : Time) : StatusObject :=
  mkStatusObject
    (mkStatusListRef idx
       (wp_StatusListBaseURI cfg +:+ "/" +:+ category +:+ "/" +:+ fmt_d (Z.quot idx 1000)))
    (Unix (TimeAdd now (ttl_or (wp_StatusMaintenancePeriod cfg) (31 * 24 * Hour)))).

Definition wka_payload (now : Time) (keys : list bytes) (idx : Z) : WKAPayload :=
  mkWKAPayload (Unix now) (Unix (TimeAdd now (ttl_or (wp_WKATTL cfg) (24 * Hour)))) keys
    (wp_KeyStorageLevel cfg) (wp_UserAuthLevel cfg) (wp_Certification cfg) (wp_WalletLink cfg)
    (status_object "ka" idx now).

Definition wia_payload (now : Time) (clientID : string) (jwk : bytes) (idx : Z) : WIAPayload :=
  mkWIAPayload (Unix now) (Unix (TimeAdd now (ttl_or (wp_WIATTL cfg) (12 * Hour)))) clientID
    (wp_WalletName cfg) (wp_WalletVersion cfg) (wp_WalletSolutionCertificationInfo cfg)
    (wp_WalletLink cfg) (status_object "wia" idx now) jwk.

Definition audit (event clientID : string) (attrs : list (string * string)) : m unit :=
  if wp_Audit cfg then AuditLog (mkAudit event clientID "wua" attrs) else ret tt.

(** Marshal and sign a payload under the wallet provider's key. *)
Definition sign_attestation (what typ : string) (payload : option bytes) : m string :=
  let! payloadJSON := lift (of_option (Wrapf ("marshal " +:+ what +:+ " payload") json_err) payload) in
  let! draw := Draw in
  with_err (Wrapf ("sign " +:+ what +:+ " JWT"))
    (lift (SignJWT draw payloadJSON (wp_SigningKey cfg) typ (wp_X5CChain cfg))).

Definition WKAHandle (clientID : string) (reqData : option bytes) : m bytes :=
  let! req := attestation_request "WKA" reqData in
  let! keys := attested_keys (ear_KeysToAttest req) in
  match keys with
  | [] => fail (Errorf "no valid keys to attest")
  | _ =>
      let! now := Now in
      let! idx := allocate clientID "ka" in
      let! jwt := sign_attestation "WKA" "keyattestation+jwt" (Marshal_WKAPayload (wka_payload now keys idx)) in
      audit "wka_issued" clientID
        [("status_idx", fmt_d idx); ("attested_keys", fmt_d (Z.of_nat (length keys)))] ;;!
      ret (Marshal_WKAResponse jwt)
  end.

Definition WIAHandle (clientID : string) (reqData : option bytes) : m bytes :=
  let! req := attestation_request "WIA" reqData in
  let cnfKid := hd "" (ear_KeysToAttest req) in
  check_kid cnfKid ;;!
  let! cnfJWK := with_err (Wrapf "resolve cnf key") (resolveKeyJWK cnfKid) in
  let! now := Now in
  let! idx := allocate clientID "wia" in
  let! jwt := sign_attestation "WIA" "oauth-client-attestation+jwt"
                (Marshal_WIAPayload (wia_payload now clientID cnfJWK idx)) in
  audit "wia_issued" clientID [("status_idx", fmt_d idx)] ;;!
  ret (Marshal_WIAResponse jwt).

(** ** Revocation and suspension *)

(** The inner loop: a status that cannot be set is skipped; the count of
    those that were. *)
Fixpoint set_each (category : string) (status : Z) (indices : list Z) (count : Z) : m Z :=
  match indices with
  | [] => ret count
  | idx :: rest =>
      let! r := attempt (on_store (E := error) (SetStatus category idx status)) in
      set_each category status rest (match r with inl _ => count + 1 | inr _ => count end)
  end.

Fixpoint set_categories (clientID : string) (status : Z) (categories : list string) (count : Z) : m Z :=
  match categories with
  | [] => ret count
  | cat :: rest =>
      let! indices := with_err (Wrapf ("get indices for " +:+ cat))
                        (on_store (E := error) (GetClientIndices clientID cat)) in
      let! count := set_each cat status indices count in
      set_categories clientID status rest count
  end.

Definition revokeAll (clientID : string) (status : Z) : m Z :=
  set_categories clientID status ["ka"; "wia"] 0.

Definition WIRevokeHandle (clientID : string) (reqData : option bytes) : m bytes :=
  let! reason := lift (of_option (Wrapf "parse revoke request" json_err)
                         (Unmarshal_reason (default [] reqData))) in
  let! count := with_err (Wrapf "revoke wallet instance") (revokeAll clientID StatusInvalid) in
  audit "wi_revoked" clientID [("reason", reason); ("revoked_indices", fmt_d count)] ;;!
  ret (Marshal_WIRevokeResponse count "wallet instance revoked").

Definition WISuspendHandle (clientID : string) (reqData : option bytes) : m bytes :=
  let! reason := lift (of_option (Wrapf "parse suspend request" json_err)
                         (Unmarshal_reason (default [] reqData))) in
  let! count := set_categories clientID StatusSuspended ["ka"; "wia"] 0 in
  audit "wi_suspended" clientID [("reason", reason); ("suspended_indices", fmt_d count)] ;;!
  ret (Marshal_WISuspendResponse count "wallet instance suspended").

Definition WKAHandler : Handler St H := mkHandler TypeEUDIWWKAETSI Mode1FA WKAHandle.
Definition WIAHandler : Handler St H := mkHandler TypeEUDIWWIAETSI Mode1FA WIAHandle.
Definition WIRevokeHandler : Handler St H := mkHandler TypeEUDIWWIRevoke Mode1FA WIRevokeHandle.
Definition WISuspendHandler : Handler St H := mkHandler TypeEUDIWWISuspend Mode1FA WISuspendHandle.
End Attest.

(** ** The shape of a JWK *)

(** The coordinates an encoded point names: as they are when uncompressed,
    decompressed otherwise. *)
Definition point_coords (c : Curve) (pt : bytes) : option (Z * Z) :=
  match pt with
  | x04 :: l =>
      if (length l =? 2 * byteLen c)%nat
      then Some (SetBytes (take (byteLen c) l), SetBytes (drop (byteLen c) l)) else None
  | _ => UnmarshalCompressed c pt
  end.

Definition jwk_of (curve : string) (c : Curve) (x y : Z) : bytes :=
  jwk_json curve (FillBytes (byteLen c) x) (FillBytes (byteLen c) y).

Lemma UnmarshalCompressed_range c pt x y :
  UnmarshalCompressed c pt = Some (x, y) -> 0 <= x < curve_p c /\ 0 <= y < curve_p c.
Proof.
  unfold UnmarshalCompressed. destruct pt as [|b l]; [done|].
  destruct (_ && _); [|done]. destruct (Z.ltb_spec (SetBytes l) (curve_p c)); [|done].
  destruct (ModSqrt _ _) as [r|] eqn:Hr; [|done]. intros [= <- <-].
  pose proof (curve_p_bound c). pose proof (be_uint_range l).
  apply ModSqrt_range in Hr; [|lia]. unfold SetBytes in *. split; [lia|].
  destruct (Bool.eqb _ _); [done|]. apply Z.mod_pos_bound. lia.
Qed.

Lemma pad_left_Fill c z : 0 <= z < curve_p c -> pad_left (byteLen c) (IntBytes z) = FillBytes (byteLen c) z.
Proof.
  intros Hz. apply IntBytes_pad; [lia|]. apply length_IntBytes.
  pose proof (curve_p_bound c). lia.
Qed.

Lemma pubKeyToJWK_Ok pt curve j :
  pubKeyToJWK pt curve = Ok j <->
  exists c x y, jwk_curve curve = Some c /\ point_coords c pt = Some (x, y) /\ j = jwk_of curve c x y.
Proof.
  unfold pubKeyToJWK. destruct (jwk_curve curve) as [c|]; [|naive_solver].
  trans (exists x y, point_coords c pt = Some (x, y) /\ j = jwk_of curve c x y); [|naive_solver].
  destruct pt as [|b l]; [unfold point_coords; simpl; naive_solver|].
  destruct (decide (b = x04)) as [->|Hb].
  - unfold point_coords. simpl (Byte.eqb x04 x04). cbn [length].
    destruct (Nat.eqb_spec (length l) (2 * byteLen c)) as [Hl|Hl].
    + rewrite (proj2 (Nat.eqb_eq _ _)) by lia. cbn [negb].
      assert (jwk_of curve c (SetBytes (take (byteLen c) l)) (SetBytes (drop (byteLen c) l))
              = jwk_json curve (take (byteLen c) l) (drop (byteLen c) l)) as He.
      { unfold jwk_of. rewrite !FillBytes_SetBytes; rewrite ?length_take, ?length_drop; [done|lia..]. }
      rewrite <-He. naive_solver.
    + rewrite (proj2 (Nat.eqb_neq _ _)) by lia. naive_solver.
  - rewrite (proj2 (byte_eqb_neq _ _) Hb).
    assert (point_coords c (b :: l) = UnmarshalCompressed c (b :: l)) as -> by (by destruct b).
    destruct (UnmarshalCompressed c (b :: l)) as [[x y]|] eqn:Hu.
    + pose proof (UnmarshalCompressed_range _ _ _ _ Hu) as [Hx Hy].
      unfold UnmarshalCompressed in Hu. destruct (_ || _); [|done].
      unfold jwk_of. rewrite !pad_left_Fill by done. naive_solver.
    + destruct (_ || _); naive_solver.
Qed.

Lemma pubKeyToJWK_panic pt curve :
  is_panic (pubKeyToJWK pt curve) = true <-> is_Some (jwk_curve curve) /\ pt = [].
Proof.
  unfold pubKeyToJWK. destruct (jwk_curve curve) as [c|]; simpl; [|by split; [|intros [[] _]]].
  destruct pt as [|b l]; simpl; [naive_solver|]. split; [|by intros [_ ?]].
  repeat case_match; done.
Qed.

(** The JWK of a stored key does not depend on how its point was encoded:
    a compressed point that decodes and the uncompressed encoding of the same
    point give the same JWK, with coordinates of the curve's full width. *)
Theorem pubKeyToJWK_encoding curve c pt x y :
  jwk_curve curve = Some c -> UnmarshalCompressed c pt = Some (x, y) ->
  pubKeyToJWK pt curve = Ok (jwk_of curve c x y) /\
  pubKeyToJWK (x04 :: FillBytes (byteLen c) x ++ FillBytes (byteLen c) y) curve
    = Ok (jwk_of curve c x y).
Proof.
  intros Hc Hu. pose proof (UnmarshalCompressed_range _ _ _ _ Hu) as [Hx Hy].
  pose proof (curve_p_bound c). split; apply pubKeyToJWK_Ok; exists c, x, y; split_and!; try done.
  - destruct pt as [|b l]; [done|]. unfold point_coords. by destruct b.
  - unfold point_coords.
    unfold FillBytes. rewrite length_app, !length_put_be.
    rewrite (proj2 (Nat.eqb_eq _ _)) by lia.
    rewrite take_app_length', drop_app_length' by (symmetry; apply length_put_be) || rewrite take_app_length', drop_app_length' by apply length_put_be.
    unfold SetBytes. by rewrite !be_uint_put_be, !Z.mod_small by lia.
Qed.

Lemma pubKeyToJWK_encoding_witness :
  pubKeyToJWK P256_G_compressed_bytes "P-256" =
  pubKeyToJWK (x04 :: FillBytes 32 (pub_X P256_G) ++ FillBytes 32 (pub_Y P256_G)) "P-256".
Proof.
  destruct (pubKeyToJWK_encoding "P-256" P256 P256_G_compressed_bytes (pub_X P256_G) (pub_Y P256_G))
    as [H1 H2]; [done| |by rewrite H1].
  apply (UnmarshalCompressed_Decompress P256 _ P256_G P256_G_decodes); vm_compute; (discriminate || by split).
Defined.

(** ** What the handlers do to the store *)

Section AttestSpecs.
Context {St H : Type} `{Env, StoreLaws St, Jose}.
Local Abbreviation W := (World St H).
Context (cfg : WalletProviderConfig).

(** The store's state is the only one the lookups read. *)
Lemma resolveKeyJWK_run kid (w : W) :
  exists w', (resolveKeyJWK kid w).1 = w' /\ w_store w' = w_store w /\ quiet w w' /\
    forall jwk, (resolveKeyJWK kid w).2 = Ok jwk ->
      exists k, key_of (w_store w) kid = Some k /\ pubKeyToJWK (pk_PubKey k) (pk_Curve k) = Ok jwk.
Proof.
  unfold resolveKeyJWK, on_store, zoom, bind, lift.
  pose proof (GetPublicKey_law (w_store w) kid) as HL.
  destruct (GetPublicKey kid (w_store w)) as [s [k|e|p]]; [destruct HL as [-> HL]|subst s|done];
    (eexists; split; [reflexivity|]); cbn; (split; [done|]); (split; [unfold quiet, later; cbn; repeat split; lia|]).
  - intros jwk Hj. by exists k.
  - done.
Qed.

(** The attested keys are JWKs of keys of the request that the store knows,
    in the order of the request. *)
Lemma attested_keys_Ok kids (w w' : W) keys :
  attested_keys kids w = (w', Ok keys) ->
  w_store w' = w_store w /\ quiet w w' /\ Forall (fun kid => validKid kid = true) kids /\
  exists ks, ks `sublist_of` kids /\
    Forall2 (fun kid jwk => exists k, key_of (w_store w) kid = Some k /\
               pubKeyToJWK (pk_PubKey k) (pk_Curve k) = Ok jwk) ks keys.
Proof.
  revert w w' keys. induction kids as [|kid kids IH]; intros w w' keys; simpl.
  { rewrite ret_Ok. intros [-> ->]. do 3 (split; [done|]). exists []. by split; constructor. }
  intros Ho. apply bind_Ok in Ho as (w1 & [] & Hk & Ho).
  apply lift_Ok in Hk as [-> Hk]. apply map_err_Ok in Hk.
  assert (validKid kid = true) as Hv.
  { unfold validateKid in Hk. by destruct (validKid kid). }
  destruct (resolveKeyJWK_run kid w) as (w1 & Hw1 & Hs & Hq & Hj).
  unfold bind at 1, attempt in Ho. destruct (resolveKeyJWK kid w) as [w1' o].
  cbn [fst snd] in Hw1, Hj. subst w1'.
  assert (exists r : bytes + error, (forall jwk, r = inl jwk -> o = Ok jwk) /\
    (let! rest := attested_keys kids in
     ret (match r with inl jwk => jwk :: rest | inr _ => rest end)) w1 = (w', Ok keys)) as (r & Hr & Hb).
  { destruct o as [a|e|p]; [exists (inl a)|exists (inr e)|done]; (split; [|exact Ho]); [|done].
    by intros jwk [= ->]. }
  apply bind_Ok in Hb as (w2 & rest & Hrest & Hret). apply ret_Ok in Hret as [-> ->].
  apply IH in Hrest as (Hs2 & Hq2 & Hv2 & ks & Hsub & HF).
  rewrite Hs in HF, Hs2. split; [done|]. split; [by etrans|]. split; [by constructor|].
  destruct r as [jwk|e].
  - exists (kid :: ks). split; [by constructor|]. constructor; [|done]. apply Hj. by apply Hr.
  - exists ks. split; [by constructor|done].
Qed.

(** The effect of an allocation: a fresh, valid index on record for the client. *)
Definition allocated (cl c : string) (i : Z) (s s' : St) : Prop :=
  store_ok s' /\ status_of s c i = None /\
  (forall c' i', status_of s' c' i' =
     if decide (c' = c /\ i' = i) then Some StatusValid else status_of s c' i') /\
  (forall cl' c', plain c' -> indices_of s' cl' c' =
     if decide (cl' = cl /\ c' = c) then indices_of s cl c ++ [i] else indices_of s cl' c') /\
  (forall k, key_of s' k = key_of s k).

Lemma allocate_Ok cl c (w w' : W) i :
  store_ok (w_store w) -> plain c -> allocate cl c w = (w', Ok i) ->
  0 <= i /\ allocated cl c i (w_store w) (w_store w').
Proof.
  intros Hok Hc Ha. unfold allocate in Ha. apply bind_Ok in Ha as (w1 & i1 & Ha1 & Ha).
  apply with_err_Ok, on_store_Ok in Ha1 as (s1 & Ha1 & ->).
  apply bind_Ok in Ha as (w2 & [] & Ha2 & Ha). apply with_err_Ok, on_store_Ok in Ha2 as (s2 & Ha2 & ->).
  apply ret_Ok in Ha as [-> ->]. simpl in *.
  pose proof (AllocateIndex_law (w_store w) c Hok) as L1. rewrite Ha1 in L1.
  destruct L1 as ([Hk1 Hf1] & Hi & Hn & Hs1).
  pose proof (RecordWUA_law s1 cl c i1 Hc) as L2. rewrite Ha2 in L2.
  destruct L2 as ([Hk2 Hf2] & Hi2). split; [done|]. unfold allocated. split_and!.
  - auto.
  - done.
  - intros c' i'. rewrite (Hf2 PStatus ltac:(done)). apply Hs1.
  - intros cl' c' Hp. rewrite Hi2 by done. rewrite !(Hf1 PIndices ltac:(done)) by done. done.
  - intros k. rewrite (Hf2 PKeys ltac:(done)). apply (Hf1 PKeys ltac:(done)).
Qed.

Lemma sign_attestation_Ok what typ payload (w w' : W) jwt :
  sign_attestation cfg what typ payload w = (w', Ok jwt) ->
  w_store w' = w_store w /\
  exists json draw, payload = Some json /\
    SignJWT draw json (wp_SigningKey cfg) typ (wp_X5CChain cfg) = Ok jwt.
Proof.
  unfold sign_attestation. intros Hs.
  apply bind_Ok in Hs as (w1 & json & Hp & Hs). apply lift_Ok in Hp as [-> Hp].
  apply of_option_Ok in Hp. apply bind_Ok in Hs as (w2 & draw & Hd & Hs).
  apply with_err_Ok, lift_Ok in Hs as [-> Hs]. injection Hd as <- <-.
  split; [done|]. by exists json, (w_draw w).
Qed.

Lemma audit_store event cl attrs (w w' : W) u :
  audit cfg event cl attrs w = (w', Ok u) -> w_store w' = w_store w.
Proof. unfold audit. destruct (wp_Audit cfg); intros Ha; by inversion Ha. Qed.

(** The request of both attestations. *)
Lemma attestation_request_Ok what d (w w' : W) req :
  attestation_request what d w = (w', Ok req) ->
  w' = w /\ Unmarshal_EUDIWAttestationRequest (default [] d) = Some req /\
  ear_Ver req = draft_version /\ ear_KeysToAttest req <> [].
Proof.
  unfold attestation_request. intros Ha. apply bind_Ok in Ha as (w1 & r & Hr & Ha).
  apply lift_Ok in Hr as [-> Hr]. apply of_option_Ok in Hr.
  case_bool_decide as Hv; simpl in Ha; [|done].
  destruct (ear_KeysToAttest r) eqn:Hk; [done|]. apply ret_Ok in Ha as [-> ->].
  by rewrite Hk.
Qed.

(** C36: a key attestation is issued for a request of the supported version,
    over the JWKs of keys of the request that are in the store (never none),
    with the configured lifetime; it carries a status index that no
    attestation had before, which is valid and on record for the client, and
    is a JWT under the wallet provider's key. *)
Theorem WKAHandle_issues cl d (w w' : W) resp :
  store_ok (w_store w) -> plain "ka" -> WKAHandle cfg cl d w = (w', Ok resp) ->
  exists req ks keys idx now json draw jwt,
    Unmarshal_EUDIWAttestationRequest (default [] d) = Some req /\ ear_Ver req = draft_version /\
    keys <> [] /\ ks `sublist_of` ear_KeysToAttest req /\
    Forall2 (fun kid jwk => exists k, key_of (w_store w) kid = Some k /\
               pubKeyToJWK (pk_PubKey k) (pk_Curve k) = Ok jwk) ks keys /\
    0 <= idx /\ allocated cl "ka" idx (w_store w) (w_store w') /\
    Marshal_WKAPayload (wka_payload cfg now keys idx) = Some json /\
    SignJWT draw json (wp_SigningKey cfg) "keyattestation+jwt" (wp_X5CChain cfg) = Ok jwt /\
    resp = Marshal_WKAResponse jwt.
Proof.
  intros Hok Hka Hh. unfold WKAHandle in Hh.
  apply bind_Ok in Hh as (w1 & req & Hr & Hh).
  apply attestation_request_Ok in Hr as (-> & Hu & Hv & _).
  apply bind_Ok in Hh as (w2 & keys & Hk & Hh).
  apply attested_keys_Ok in Hk as (Hs2 & _ & _ & ks & Hsub & HF).
  destruct keys as [|jwk keys']; [done|]. set (keys := jwk :: keys') in *.
  apply bind_Ok in Hh as (w3 & now & Hn & Hh). apply Now_Ok in Hn as [-> _].
  apply bind_Ok in Hh as (w4 & idx & Ha & Hh). apply allocate_Ok in Ha as [Hi Ha]; [|by simpl; rewrite Hs2|done].
  simpl in Ha. rewrite Hs2 in Ha.
  apply bind_Ok in Hh as (w5 & jwt & Hj & Hh). apply sign_attestation_Ok in Hj as (Hs5 & json & draw & Hj & Hjwt).
  apply bind_Ok in Hh as (w6 & u & Hau & Hh). apply audit_store in Hau. apply ret_Ok in Hh as [-> ->].
  exists req, ks, keys, idx, now, json, draw, jwt. rewrite Hau, Hs5. by do 9 (split; [done|]).
Qed.

(** An instance attestation binds the first key of the request, which
    must be in the store, to the client, with a fresh status index as above. *)
Theorem WIAHandle_issues cl d (w w' : W) resp :
  store_ok (w_store w) -> plain "wia" -> WIAHandle cfg cl d w = (w', Ok resp) ->
  exists req kid k jwk idx now json draw jwt,
    Unmarshal_EUDIWAttestationRequest (default [] d) = Some req /\ ear_Ver req = draft_version /\
    head (ear_KeysToAttest req) = Some kid /\ validKid kid = true /\
    key_of (w_store w) kid = Some k /\ pubKeyToJWK (pk_PubKey k) (pk_Curve k) = Ok jwk /\
    0 <= idx /\ allocated cl "wia" idx (w_store w) (w_store w') /\
    Marshal_WIAPayload (wia_payload cfg now cl jwk idx) = Some json /\
    SignJWT draw json (wp_SigningKey cfg) "oauth-client-attestation+jwt" (wp_X5CChain cfg) = Ok jwt /\
    resp = Marshal_WIAResponse jwt.
Proof.
  intros Hok Hka Hh. unfold WIAHandle in Hh.
  apply bind_Ok in Hh as (w1 & req & Hr & Hh).
  apply attestation_request_Ok in Hr as (-> & Hu & Hv & Hne).
  destruct (ear_KeysToAttest req) as [|kid kids] eqn:Hks; [done|]. simpl in Hh.
  apply bind_Ok in Hh as (w2 & [] & Hk & Hh). apply lift_Ok in Hk as [-> Hk]. apply map_err_Ok in Hk.
  assert (validKid kid = true) as Hvk by (unfold validateKid in Hk; by destruct (validKid kid)).
  apply bind_Ok in Hh as (w3 & jwk & Hj & Hh). apply with_err_Ok in Hj.
  destruct (resolveKeyJWK_run kid w) as (w3' & Hw3 & Hs3 & _ & Hkey). rewrite Hj in Hw3, Hkey.
  simpl in Hw3. subst w3'. destruct (Hkey jwk eq_refl) as (k & Hk1 & Hk2).
  apply bind_Ok in Hh as (w4 & now & Hn & Hh). apply Now_Ok in Hn as [-> _].
  apply bind_Ok in Hh as (w5 & idx & Ha & Hh). apply allocate_Ok in Ha as [Hi Ha]; [|by simpl; rewrite Hs3|done].
  simpl in Ha. rewrite Hs3 in Ha.
  apply bind_Ok in Hh as (w6 & jwt & Hjw & Hh). apply sign_attestation_Ok in Hjw as (Hs5 & json & draw & Hjw & Hjwt).
  apply bind_Ok in Hh as (w7 & u & Hau & Hh). apply audit_store in Hau. apply ret_Ok in Hh as [-> ->].
  exists req, kid, k, jwk, idx, now, json, draw, jwt. rewrite Hks, Hau, Hs5. by do 10 (split; [done|]).
Qed.
(** ** Revocation and suspension *)

Context `{!StoreLive St}.

(** The entries among [l] that exist. *)
Definition known (s : St) (c : string) (l : list Z) : Z :=
  Z.of_nat (length (filter (fun i => is_Some (status_of s c i)) l)).

Lemma SetStatus_run s c i v :
  (is_Some (status_of s c i) /\ exists s', SetStatus c i v s = (s', Ok tt) /\ frame PStatus s s' /\
     forall c' i', status_of s' c' i' = if decide (c' = c /\ i' = i) then Some v else status_of s c' i') \/
  (status_of s c i = None /\ exists s' e, SetStatus c i v s = (s', Err e) /\ unchanged s s').
Proof.
  pose proof (SetStatus_law s c i v) as HL. pose proof (SetStatus_live s c i v) as Hlive.
  destruct (SetStatus c i v s) as [s' [[]|e|p]]; [left|right|done].
  - destruct HL as (? & ? & ?). split; [done|]. by exists s'.
  - destruct (status_of s c i) as [x|]; [|split; [done|by exists s', e]].
    by specialize (Hlive (ltac:(by eexists))).
Qed.

(** The effect of setting the entries of [l] in a category. *)
Definition set_in (c : string) (l : list Z) (v : Z) (s s' : St) : Prop :=
  frame PStatus s s' /\
  forall c' i, status_of s' c' i =
    if decide (c' = c /\ i ∈ l /\ is_Some (status_of s c i)) then Some v else status_of s c' i.

Lemma unchanged_frame (p : part) (s s' : St) : unchanged s s' -> frame p s s'.
Proof. intros [Hk Ha]. by split; [|intros q _]. Qed.

Lemma frame_refl p (s : St) : frame p s s.
Proof. split; [done|]. by intros [] _. Qed.

Lemma frame_trans p (s s' s'' : St) : frame p s s' -> frame p s' s'' -> frame p s s''.
Proof.
  intros [Ha Hb] [Hc Hd]. split; [auto|]. intros q Hq. specialize (Hb q Hq). specialize (Hd q Hq).
  destruct q; simpl in *; intros; by rewrite Hd, Hb.
Qed.

Lemma set_in_cons c i l v (s s' s'' : St) :
  frame PStatus s s' ->
  (forall c' i', status_of s' c' i' =
     if decide (c' = c /\ i' = i /\ is_Some (status_of s c i)) then Some v else status_of s c' i') ->
  set_in c l v s' s'' ->
  set_in c (i :: l) v s s'' /\ known s' c l = known s c l.
Proof.
  intros Hf Hs [Hf' Hs'].
  assert (forall j, is_Some (status_of s' c j) <-> is_Some (status_of s c j)) as Hsome.
  { intros j. rewrite Hs. case_decide as Hd; [|done]. destruct Hd as (_ & -> & ?). naive_solver. }
  split; [split|].
  - by eapply frame_trans.
  - intros c' j. rewrite Hs'. pose proof (Hsome j) as Hj. pose proof (elem_of_cons l j i) as Hl.
    destruct (decide (c' = c /\ j ∈ l /\ is_Some (status_of s' c j))) as [D1|D1];
      [|rewrite Hs; destruct (decide (c' = c /\ j = i /\ is_Some (status_of s c i))) as [D2|D2]];
      case_decide as D3; try done; exfalso; intuition (subst; eauto).
  - unfold known. do 2 f_equal. apply list_filter_iff. done.
Qed.

Lemma set_each_run c v l n (w : W) :
  exists w', set_each c v l n w = (w', Ok (n + known (w_store w) c l)) /\
    set_in c l v (w_store w) (w_store w').
Proof.
  revert n w. induction l as [|i l IH]; intros n w; cbn [set_each].
  { exists w. unfold known. simpl. rewrite Z.add_0_r. split; [done|]. split; [apply frame_refl|].
    intros c' i. rewrite decide_False; [done|]. set_solver. }
  unfold bind, attempt, on_store, zoom.
  destruct (SetStatus_run (w_store w) c i v)
    as [(Hi & s' & -> & Hf & Hs)|(Hi & s' & e & -> & Hu)]; cbn.
  - destruct (IH (n + 1) (set_store s' w)) as (w' & -> & Hw'). cbn [w_store set_store] in *.
    destruct (set_in_cons c i l v (w_store w) s' (w_store w') Hf) as [Hset ->]; [|done|].
    { intros c' i'. rewrite Hs. repeat case_decide; naive_solver. }
    exists w'. split; [|done]. do 2 f_equal. unfold known. rewrite filter_cons_True by done.
    cbn [length]. lia.
  - destruct (IH n (set_store s' w)) as (w' & -> & Hw'). cbn [w_store set_store] in *.
    destruct (set_in_cons c i l v (w_store w) s' (w_store w')) as [Hset ->]; [|..|done|].
    { by apply unchanged_frame. }
    { intros c' i'. destruct Hu as [_ Hu]. rewrite (Hu PStatus).
      rewrite decide_False; [done|]. intros (_ & _ & Hx). rewrite Hi in Hx. by destruct Hx. }
    exists w'. split; [|done]. do 2 f_equal. unfold known. rewrite filter_cons_False; [done|].
    rewrite Hi. by intros [].
Qed.

(** The effect of revoking or suspending [cl]. *)
Definition set_client (cl : string) (v : Z) (s s' : St) : Prop :=
  frame PStatus s s' /\
  forall c i, status_of s' c i =
    if decide ((c = "ka" \/ c = "wia") /\ i ∈ indices_of s cl c /\ is_Some (status_of s c i))
    then Some v else status_of s c i.

Definition known_of (cl : string) (s : St) : Z :=
  known s "ka" (indices_of s cl "ka") + known s "wia" (indices_of s cl "wia").

Lemma GetClientIndices_run cl c s : GetClientIndices cl c s = (s, Ok (indices_of s cl c)).
Proof.
  pose proof (GetClientIndices_law s cl c) as HL. pose proof (GetClientIndices_live s cl c) as Hlive.
  destruct (GetClientIndices cl c s) as [s' [l|e|p]]; [|done..]. by destruct HL as [-> ->].
Qed.

Lemma set_client_run cl v (w : W) :
  plain "wia" ->
  exists w', set_categories cl v ["ka"; "wia"] 0 w = (w', Ok (known_of cl (w_store w))) /\
    set_client cl v (w_store w) (w_store w').
Proof.
  intros Hwia. cbn [set_categories]. unfold bind at 1, with_err at 1, on_store, zoom.
  rewrite GetClientIndices_run. cbn [map_err]. unfold bind at 1.
  destruct (set_each_run "ka" v (indices_of (w_store w) cl "ka") 0 (set_store (w_store w) w))
    as (w1 & -> & Hf1 & Hs1). cbn [w_store set_store] in *.
  unfold bind at 1, with_err at 1. rewrite GetClientIndices_run. cbn [map_err]. unfold bind at 1.
  destruct (set_each_run "wia" v (indices_of (w_store w1) cl "wia")
              (0 + known (w_store w) "ka" (indices_of (w_store w) cl "ka")) (set_store (w_store w1) w1))
    as (w2 & -> & Hf2 & Hs2). cbn [w_store set_store] in *.
  rewrite (proj2 Hf1 PIndices ltac:(done)) in * by done.
  assert (forall i, status_of (w_store w1) "wia" i = status_of (w_store w) "wia" i) as Hw.
  { intros i. rewrite Hs1. by rewrite decide_False by (by intros [? _]). }
  exists w2. split.
  - unfold ret, known_of. do 2 f_equal. rewrite Z.add_0_l. f_equal. unfold known. do 2 f_equal.
    apply list_filter_iff. intros i. by rewrite Hw.
  - split; [by eapply frame_trans|]. intros c i. rewrite Hs2, Hw.
    destruct (decide (c = "wia")) as [->|Hc].
    + rewrite Hw. repeat case_decide; try done; exfalso; intuition congruence.
    + rewrite decide_False by tauto. rewrite Hs1.
      destruct (decide (c = "ka")) as [->|Hc']; repeat case_decide; try done; exfalso; intuition congruence.
Qed.

Lemma set_client_store cl v (s : St) (w w' : W) :
  w_store w' = w_store w -> set_client cl v s (w_store w) -> set_client cl v s (w_store w').
Proof. by intros ->. Qed.

Lemma audit_run event cl attrs (w : W) :
  exists w', audit cfg event cl attrs w = (w', Ok tt) /\ w_store w' = w_store w.
Proof. unfold audit. destruct (wp_Audit cfg); eexists; by split. Qed.


End AttestSpecs.
