(* ===== verification/Http.v ===== *)
(** * HTTP requests and responses

    What the handlers read of [http.Request] and what they write to the
    [http.ResponseWriter]: [net/http] itself is not modelled. *)

From S2P Require Import Prelude GoStrings.
Local Open Scope Z_scope.

(** [rq_Path] is [r.URL.Path]; [rq_Authorization] the header's value, [""]
    when it is missing; [rq_Body] the bytes [io.ReadAll] gives, [None] when
    reading fails. *)
Record HttpRequest := mkRequest {
  rq_Method : string;
  rq_Path : string;
  rq_Query : string -> string;
  rq_Authorization : string;
  rq_Body : option bytes
}.

Record HttpResponse := mkResponse {
  rs_Status : Z;
  rs_Headers : list (string * string);
  rs_Body : bytes
}.

Definition StatusOK : Z := 200.
Definition StatusCreated : Z := 201.
Definition StatusBadRequest : Z := 400.
Definition StatusUnauthorized : Z := 401.
Definition StatusForbidden : Z := 403.
Definition StatusNotFound : Z := 404.
Definition StatusMethodNotAllowed : Z := 405.
Definition StatusConflict : Z := 409.
Definition StatusUnsupportedMediaType : Z := 415.
Definition StatusInternalServerError : Z := 500.
Definition StatusServiceUnavailable : Z := 503.

Definition newline : bytes := [x0a].

(** [http.Error(w, msg, status)] *)
Definition http_Error (msg : string) (status : Z) : HttpResponse :=
  mkResponse status
    [("Content-Type", "text/plain; charset=utf-8"); ("X-Content-Type-Options", "nosniff")]
    (go_bytes msg ++ newline).

(** [json.NewEncoder(w).Encode(v)], of the encoding of [v] *)
Definition json_response (status : Z) (json : bytes) : HttpResponse :=
  mkResponse status [("Content-Type", "application/json")] (json ++ newline).
