(* ===== verification/StatusList.v ===== *)
(** * [internal/statuslist/statuslist.go]: publishing the status list

    The two-bit-per-entry bitstring of a category, and the token that carries
    it.  The DEFLATE compressor is a parameter. *)

From S2P Require Import Prelude GoTime GoStrings GoJson Protocol Store Ecc External World Handlers Jws Attest Http.
Local Open Scope Z_scope.

Record Config := mkConfig {
  cf_SigningKey : PrivateKey;
  cf_X5CChain : list bytes;
  cf_BaseURI : string;
  cf_TTL : Z
}.

Record statusListPayload := mkPayload {
  slp_Sub : string;
  slp_Iat : Z;
  slp_Exp : Z;
  slp_Bits : Z;
  slp_Lst : string
}.

Definition Marshal_statusListPayload (p : statusListPayload) : bytes :=
  enc_struct [ ("sub", enc_string (slp_Sub p)); ("iat", enc_int (slp_Iat p)); ("exp", enc_int (slp_Exp p));
    ("status_list", enc_struct [("bits", enc_int (slp_Bits p)); ("lst", enc_string (slp_Lst p))]) ].

(** ** The bitstring *)

(** [int] arithmetic is 64-bit. *)
Definition max_index (entries : gmap Z Z) : Z := map_fold (fun idx _ m => if m <? idx then idx else m) 0 entries.

Definition bitstring_len (maxIdx : Z) : Z :=
  let numEntries := wrap64 (maxIdx + 1) in
  let numEntries := if numEntries =? 0 then 1 else numEntries in
  Z.quot (wrap64 (wrap64 (numEntries * 2) + 7)) 8.

(** [bitstring[byteIdx] |= (status & 0x03) << bitOffset]; a shift of eight or
    more clears the byte. *)
Definition or_byte (i : nat) (v : Z) (bs : bytes) : bytes :=
  alter (fun b => z2b (Z.lor (b2z b) v)) i bs.

Definition put_entry (idx status : Z) (acc : outcome error bytes) : outcome error bytes :=
  let? bitstring := acc in
  let bitPos := wrap64 (idx * 2) in
  let byteIdx := Z.quot bitPos 8 in
  let bitOffset := Z.rem bitPos 8 mod 2 ^ 64 in
  if (0 <=? byteIdx) && (byteIdx <? Z.of_nat (length bitstring))
  then Ok (or_byte (Z.to_nat byteIdx) (Z.land (Z.shiftl (Z.land status 3) (Z.min bitOffset 8)) 255) bitstring)
  else Panic "runtime error: index out of range".

Definition bitstring (entries : gmap Z Z) : outcome error bytes :=
  let n := bitstring_len (max_index entries) in
  if n <? 0 then Panic "runtime error: makeslice: len out of range"
  else map_fold put_entry (Ok (replicate (Z.to_nat n) x00)) entries.

(** ** The endpoint *)

Section Handler.
Context {St H : Type} `{Env, Store St, Jose}.
Local Abbreviation W := (World St H).
Local Abbreviation m := (M W error).
(** [flate.NewWriter(&buf, flate.DefaultCompression)], [Write] and [Close]: a
    buffer never fails. *)
Context (deflate : bytes -> bytes).

(** [int(ttl.Seconds())]: whole seconds, towards zero. *)
Definition max_age (ttl : Z) : Z := Z.quot ttl Second.

Definition ServeHTTP (cfg : Config) (r : HttpRequest) : m HttpResponse :=
  match SplitN2 (TrimPrefix (rq_Path r) "/statuslists/") x2f with
  | None => ret (http_Error "invalid path" StatusBadRequest)
  | Some (category, listID) =>
      let! entries := attempt (on_store (E := error) (GetAllStatuses category)) in
      match entries with
      | inr _ => ret (http_Error "internal error" StatusInternalServerError)
      | inl entries =>
          let! bs := lift (bitstring entries) in
          let ttl := ttl_or (cf_TTL cfg) Hour in
          let! now := Now in
          let sub := cf_BaseURI cfg +:+ "/" +:+ category +:+ "/" +:+ listID in
          let payload := mkPayload sub (Unix now) (Unix (TimeAdd now ttl)) 2
                           (RawURLEncodeToString (deflate bs)) in
          let! draw := Draw in
          match SignJWT draw (Marshal_statusListPayload payload) (cf_SigningKey cfg) "statuslist+jwt"
                  (cf_X5CChain cfg) with
          | Panic p => lift (Panic p)
          | Err _ => ret (http_Error "sign error" StatusInternalServerError)
          | Ok jwt =>
              ret (mkResponse StatusOK
                     [("Content-Type", "application/statuslist+jwt");
                      ("Cache-Control", "max-age=" +:+ fmt_d (max_age ttl))]
                     (go_bytes jwt))
          end
      end
  end.
End Handler.

(** ** What a reader of the list sees *)

(** Entry [idx] of a list of two-bit entries. *)
Definition list_entry (bs : bytes) (idx : Z) : option Z :=
  (fun b => Z.land (Z.shiftr (b2z b) (2 * (idx mod 4))) 3) <$> bs !! Z.to_nat (idx / 4).

(** Entry [i] of [or_byte]: the two bits of [v] at [i]'s position are set. *)
Lemma entry_bits b v t :
  0 <= t < 4 ->
  Z.land (Z.shiftr (b2z (z2b (Z.lor b v))) (2 * t)) 3 =
  Z.lor (Z.land (Z.shiftr b (2 * t)) 3) (Z.land (Z.shiftr v (2 * t)) 3).
Proof.
  intros Ht. rewrite b2z_z2b. change 256 with (2 ^ 8). rewrite <-Z.land_ones by lia.
  rewrite Z.shiftr_land, <-Z.land_assoc.
  replace (Z.land (Z.shiftr (Z.ones 8) (2 * t)) 3) with 3.
  - by rewrite Z.shiftr_lor, Z.land_lor_distr_l.
  - assert (t = 0 \/ t = 1 \/ t = 2 \/ t = 3) as [->|[->|[->| ->]]] by lia; reflexivity.
Qed.

Lemma shifted_bits status s t :
  0 <= s < 4 -> 0 <= t < 4 ->
  Z.land (Z.shiftr (Z.land (Z.shiftl (Z.land status 3) (2 * s)) 255) (2 * t)) 3 =
  if decide (s = t) then Z.land status 3 else 0.
Proof.
  intros Hs Ht. change 3 with (Z.ones 2) at 1. rewrite (Z.land_ones status) by lia.
  change (Z.land status 3) with (Z.land status (Z.ones 2)). rewrite Z.land_ones by lia.
  pose proof (Z.mod_pos_bound status (2 ^ 2) ltac:(lia)) as Hv.
  set (v := status mod 2 ^ 2) in *. clearbody v. change (2 ^ 2) with 4 in Hv.
  assert (s = 0 \/ s = 1 \/ s = 2 \/ s = 3) as [->|[->|[->| ->]]] by lia;
    assert (t = 0 \/ t = 1 \/ t = 2 \/ t = 3) as [->|[->|[->| ->]]] by lia;
    assert (v = 0 \/ v = 1 \/ v = 2 \/ v = 3) as [->|[->|[->| ->]]] by lia; reflexivity.
Qed.

(** The state of the loop after the entries [m]. *)
Definition shows (n : nat) (m : gmap Z Z) (bs : bytes) : Prop :=
  length bs = n /\
  forall j, 0 <= j < 4 * Z.of_nat n -> list_entry bs j = Some (Z.land (default 0 (m !! j)) 3).

Definition index_ok (i : Z) : Prop := 0 <= i < 2 ^ 60.

Lemma put_entry_shows n m bs idx status :
  m !! idx = None -> index_ok idx -> idx < 4 * Z.of_nat n -> shows n m bs ->
  exists bs', put_entry idx status (Ok bs) = Ok bs' /\ shows n (<[idx := status]> m) bs'.
Proof.
  intros Hm [Hi Hi'] Hn [Hl Hs]. unfold put_entry. cbn [obind].
  rewrite wrap64_id by (unfold is_int64, min_int64, max_int64; lia).
  assert (Z.quot (idx * 2) 8 = idx / 4) as ->.
  { rewrite Z.quot_div_nonneg by lia. change 8 with (4 * 2). by rewrite Z.div_mul_cancel_r. }
  assert (Z.rem (idx * 2) 8 mod 2 ^ 64 = 2 * (idx mod 4)) as ->.
  { rewrite Z.rem_mod_nonneg by lia. change 8 with (4 * 2). rewrite Z.mul_mod_distr_r by lia.
    rewrite Z.mod_small by zlia. lia. }
  rewrite Hl. rewrite (proj2 (andb_true_iff _ _)) by zlia.
  eexists. split; [reflexivity|]. rewrite Z.min_l by zlia. unfold or_byte. split; [by rewrite length_alter|].
  intros j Hj. unfold list_entry in *.
  destruct (decide (idx / 4 = j / 4)) as [Hq|Hq].
  - rewrite <-Hq, list_lookup_alter_eq. specialize (Hs j Hj). rewrite <-Hq in Hs.
    destruct (bs !! Z.to_nat (idx / 4)) as [b|]; [|done]. simpl in *. injection Hs as Hs. f_equal.
    rewrite entry_bits, shifted_bits, Hs by zlia. rewrite lookup_insert.
    destruct (decide (idx mod 4 = j mod 4)) as [He|He].
    + assert (idx = j) as <- by zlia. rewrite decide_True, Hm by done. done.
    + rewrite (decide_False (P := idx = j)) by congruence. apply Z.lor_0_r.
  - rewrite list_lookup_alter_ne by zlia. rewrite Hs by done. rewrite lookup_insert_ne by congruence. done.
Qed.

Lemma max_index_spec (entries : gmap Z Z) :
  (forall i, is_Some (entries !! i) -> index_ok i) ->
  0 <= max_index entries < 2 ^ 60 /\ forall i, is_Some (entries !! i) -> i <= max_index entries.
Proof.
  unfold max_index. apply (map_fold_weak_ind (fun r m =>
    (forall i, is_Some (m !! i) -> index_ok i) ->
    0 <= r < 2 ^ 60 /\ forall i, is_Some (m !! i) -> i <= r)).
  - intros _. split; [done|]. intros i [x Hx]. by rewrite lookup_empty in Hx.
  - intros i x m r Hn IH Hok.
    destruct IH as [Hr Hle].
    { intros j Hj. apply Hok. rewrite lookup_insert_is_Some'. by right. }
    assert (index_ok i) as [Hi Hi'] by (apply Hok; rewrite lookup_insert_eq; by eexists).
    split; [case_match; lia|]. intros j. rewrite lookup_insert_is_Some'. intros [<-|Hj]; [case_match; lia|].
    specialize (Hle j Hj). case_match; lia.
Qed.

Lemma bitstring_len_nonneg mx : 0 <= mx < 2 ^ 60 -> bitstring_len mx = (2 * mx + 9) / 8.
Proof.
  intros Hm. unfold bitstring_len.
  assert (forall z, 0 <= z < 2 ^ 62 -> wrap64 z = z) as Hw.
  { intros z Hz. apply wrap64_id. unfold is_int64, min_int64, max_int64. lia. }
  rewrite (Hw (mx + 1)) by lia. destruct (Z.eqb_spec (mx + 1) 0); [lia|].
  rewrite (Hw (_ * 2)), Hw by lia. rewrite Z.quot_div_nonneg by lia. f_equal. lia.
Qed.

Lemma bitstring_shows (entries : gmap Z Z) :
  (forall i, is_Some (entries !! i) -> index_ok i) ->
  exists bs, bitstring entries = Ok bs /\
    shows (Z.to_nat ((2 * max_index entries + 9) / 8)) entries bs.
Proof.
  intros Hok. destruct (max_index_spec entries Hok) as [Hm Hle]. unfold bitstring.
  rewrite bitstring_len_nonneg by done. rewrite (proj2 (Z.ltb_ge _ _)) by zlia.
  set (n := Z.to_nat _).
  assert (forall i, is_Some (entries !! i) -> index_ok i /\ i < 4 * Z.of_nat n) as Hok'.
  { intros i Hi. split; [by apply Hok|]. specialize (Hle i Hi). unfold n. zlia. }
  clearbody n. clear Hok Hm Hle. revert Hok'.
  apply (map_fold_weak_ind (fun r m => (forall i, is_Some (m !! i) -> index_ok i /\ i < 4 * Z.of_nat n) ->
    exists bs, r = Ok bs /\ shows n m bs)).
  - intros _. eexists. split; [reflexivity|]. split; [apply length_replicate|].
    intros j Hj. unfold list_entry. rewrite lookup_replicate_2 by zlia. simpl.
    rewrite lookup_empty. simpl. change (b2z x00) with 0. by rewrite Z.shiftr_0_l.
  - intros i x m r Hn IH Hok. destruct IH as (bs & -> & Hbs).
    { intros j Hj. apply Hok. rewrite lookup_insert_is_Some'. by right. }
    destruct (Hok i) as [Hi Hi']; [rewrite lookup_insert_eq; by eexists|].
    by apply put_entry_shows.
Qed.



Example bitstring_ex : bitstring {[ 0 := 1; 5 := 2 ]} = Ok [x01; x08].
Proof. vm_compute. reflexivity. Qed.

Section Publish.
Context {St H : Type} `{Env, StoreLaws St, Jose}.
Local Abbreviation W := (World St H).

(** C40: a token the endpoint serves for a category is signed with the
    configured key and lifetime, and carries the compression of a bitstring
    that shows the current status of every entry of that category; serving it
    leaves the store alone. *)
Theorem ServeHTTP_publishes deflate cfg r cat listID (w w' : W) resp :
  SplitN2 (TrimPrefix (rq_Path r) "/statuslists/") x2f = Some (cat, listID) ->
  store_ok (w_store w) -> (forall i, is_Some (status_of (w_store w) cat i) -> index_ok i) ->
  ServeHTTP deflate cfg r w = (w', Ok resp) -> rs_Status resp = StatusOK ->
  w_store w' = w_store w /\
  exists bs now draw jwt,
    (forall i v, status_of (w_store w) cat i = Some v -> list_entry bs i = Some (Z.land v 3)) /\
    SignJWT draw
      (Marshal_statusListPayload
         (mkPayload (cf_BaseURI cfg +:+ "/" +:+ cat +:+ "/" +:+ listID) (Unix now)
            (Unix (TimeAdd now (ttl_or (cf_TTL cfg) Hour))) 2 (RawURLEncodeToString (deflate bs))))
      (cf_SigningKey cfg) "statuslist+jwt" (cf_X5CChain cfg) = Ok jwt /\
    rs_Body resp = go_bytes jwt.
Proof.
  intros Hp Hsok Hok. unfold ServeHTTP. rewrite Hp. unfold bind at 1, attempt, on_store, zoom.
  pose proof (GetAllStatuses_law (w_store w) cat) as HL.
  destruct (GetAllStatuses cat (w_store w)) as [s [entries|e|p]]; [|by intros [= <- <-]|done].
  destruct HL as [-> HL]. specialize (HL Hsok).
  assert (forall i, is_Some (entries !! i) -> index_ok i) as Hi by (intros i; rewrite HL; apply Hok).
  destruct (bitstring_shows entries Hi) as (bs & Hbs & _ & Hs).
  destruct (max_index_spec entries Hi) as [Hm Hle].
  unfold bind at 1, lift. rewrite Hbs. unfold bind at 1. cbn [Now]. unfold bind at 1, Draw.
  cbn [w_tick w_draw set_store].
  match goal with |- context [SignJWT ?d ?p ?k ?t ?x] => destruct (SignJWT d p k t x) as [jwt|e|pn] eqn:Hj end;
    [|by intros [= <- <-]|done].
  intros [= <- <-] _. split; [done|]. eexists bs, _, _, jwt. split; [|split; [exact Hj|done]].
  intros i v Hv. rewrite <-HL in Hv.
  assert (index_ok i) as [Hi0 _] by (apply Hi; by eexists).
  rewrite Hs, Hv; [done|]. specialize (Hle i (ltac:(by eexists))). zlia.
Qed.
End Publish.
