(* ===== verification/Modes.v ===== *)
(** * [internal/modes/modes.go]: the operating roles of an instance *)

From S2P Require Import Prelude GoStrings.
From Stdlib Require Import Sorted.

Definition RoleWSCD : string := "wscd".
Definition RoleWSCA : string := "wsca".
Definition RoleAdmin : string := "admin".
Definition ValidRoles : list string := [RoleWSCD; RoleWSCA; RoleAdmin].

Definition IsValid (r : string) : bool := existsb (fun valid => bool_decide (valid = r)) ValidRoles.

(** [map[Role]bool], whose values are all [true] *)
Definition RoleSet : Type := gset string.

Definition NewRoleSet (roles : list string) : RoleSet := fold_left (fun rs r => {[ r ]} ∪ rs) roles ∅.

Definition Has (rs : RoleSet) (role : string) : bool := bool_decide (role ∈ rs).

Fixpoint insert_role (r : string) (l : list string) : list string :=
  match l with
  | [] => [r]
  | x :: l' => if String.ltb x r then x :: insert_role r l' else r :: l
  end.

(** [sort.Slice] by the byte order of strings *)
Definition List (rs : RoleSet) : list string := foldr insert_role [] (elements rs).

(** A [Role] is a string here. *)
Definition Strings (rs : RoleSet) : list string := List rs.

(** [if !seen[r] { roles = append(roles, r); seen[r] = true }] *)
Definition add_role (acc : list string * gset string) (r : string) : list string * gset string :=
  let '(roles, seen) := acc in
  if bool_decide (r ∈ seen) then acc else (roles ++ [r], {[ r ]} ∪ seen).

Definition invalid_role (p : string) : error :=
  Errorf ("invalid role " +:+ fmt_q p +:+ ", valid roles: [wscd wsca admin]").

Fixpoint parse_parts (parts : list string) (acc : list string * gset string) :
    outcome error (list string * gset string) :=
  match parts with
  | [] => Ok acc
  | p :: rest =>
      let p := TrimSpace p in
      if bool_decide (p = "") then parse_parts rest acc
      else if bool_decide (p = "all") then parse_parts rest (fold_left add_role ValidRoles acc)
      else if negb (IsValid p) then Err (invalid_role p)
      else parse_parts rest (add_role acc p)
  end.

Definition ParseRoles (s : string) : outcome error RoleSet :=
  let s := TrimSpace s in
  if bool_decide (s = "") then Err (Errorf "mode cannot be empty")
  else if bool_decide (s = "all") then Ok (NewRoleSet ValidRoles)
  else
    match parse_parts (Split s x2c) ([], ∅) with
    | Ok ([], _) => Err (Errorf "no valid roles specified")
    | Ok (roles, _) => Ok (NewRoleSet roles)
    | Err e => Err e
    | Panic p => Panic p
    end.

Example ParseRoles_ex :
  (fun rs => Strings rs) <$> match ParseRoles " wscd, admin,wscd " with Ok rs => Some rs | _ => None end
  = Some ["admin"; "wscd"].
Proof. vm_compute. reflexivity. Qed.

(** ** What a mode string means *)

(** The names in a mode string. *)
Definition names (s : string) : list string :=
  filter (fun p => p <> "") (TrimSpace <$> Split (TrimSpace s) x2c).

Definition named_ok (p : string) : Prop := p = "all" \/ p ∈ ValidRoles.

Definition named_role (r p : string) : Prop := r = p /\ p ∈ ValidRoles \/ p = "all" /\ r ∈ ValidRoles.

Lemma elem_NewRoleSet r roles : r ∈ NewRoleSet roles <-> r ∈ roles.
Proof.
  unfold NewRoleSet. enough (forall acc, r ∈ fold_left (fun rs r => {[ r ]} ∪ rs) roles acc
    <-> r ∈ roles \/ r ∈ acc) as Hg by (rewrite Hg; set_solver).
  induction roles as [|x roles IH]; intros acc; simpl; [set_solver|]. rewrite IH. set_solver.
Qed.

Lemma IsValid_iff r : IsValid r = true <-> r ∈ ValidRoles.
Proof. apply existsb_eqb_elem. Qed.

(** The list and the set of the loop hold the same roles. *)
Definition same_roles (acc : list string * gset string) : Prop := forall r, r ∈ acc.1 <-> r ∈ acc.2.

Lemma add_role_spec acc r :
  same_roles acc -> same_roles (add_role acc r) /\
  forall x, x ∈ (add_role acc r).1 <-> x = r \/ x ∈ acc.1.
Proof.
  destruct acc as [l seen]. unfold same_roles, add_role. simpl. intros Hs.
  case_bool_decide as Hr; simpl.
  - split; [done|]. intros x. rewrite Hs. set_solver.
  - split; intros x; set_unfold; rewrite ?Hs; naive_solver.
Qed.

Lemma add_roles_spec rs acc :
  same_roles acc -> same_roles (fold_left add_role rs acc) /\
  forall x, x ∈ (fold_left add_role rs acc).1 <-> x ∈ rs \/ x ∈ acc.1.
Proof.
  revert acc. induction rs as [|r rs IH]; intros acc Hs; simpl; [set_solver|].
  destruct (add_role_spec acc r Hs) as [Hs' Hx]. destruct (IH _ Hs') as [Hs'' Hy].
  split; [done|]. intros x. rewrite Hy, Hx. set_solver.
Qed.

Lemma all_invalid : IsValid "all" = false.
Proof. done. Qed.

Lemma exists_cons (P : string -> Prop) q ns :
  (exists p, p ∈ q :: ns /\ P p) <-> P q \/ exists p, p ∈ ns /\ P p.
Proof. setoid_rewrite elem_of_cons. naive_solver. Qed.

Lemma named_all r : named_role r "all" <-> r ∈ ValidRoles.
Proof.
  split; [|by right]. intros [[_ Hv]|[_ Hr]]; [|done]. by apply IsValid_iff in Hv.
Qed.

Lemma named_one r q : q <> "all" -> q ∈ ValidRoles -> named_role r q <-> r = q.
Proof. unfold named_role. naive_solver. Qed.

Lemma parse_parts_spec parts acc :
  same_roles acc ->
  let ns := filter (fun p => p <> "") (TrimSpace <$> parts) in
  match parse_parts parts acc with
  | Ok acc' => Forall named_ok ns /\ same_roles acc' /\
      forall r, r ∈ acc'.1 <-> r ∈ acc.1 \/ exists p, p ∈ ns /\ named_role r p
  | Err e => exists p, p ∈ ns /\ ~ named_ok p /\ e = invalid_role p
  | Panic _ => False
  end.
Proof.
  revert acc. induction parts as [|p parts IH]; intros acc Hs; simpl.
  { split; [constructor|]. split; [done|]. set_solver. }
  rewrite filter_cons. set (q := TrimSpace p) in *. clearbody q.
  destruct (decide (q = "")) as [->|Hq].
  { rewrite bool_decide_true by done. rewrite decide_False by naive_solver. apply IH, Hs. }
  rewrite bool_decide_false by done. rewrite decide_True by done.
  destruct (decide (q = "all")) as [->|Ha].
  - rewrite bool_decide_true by done. destruct (add_roles_spec ValidRoles acc Hs) as [Hs' Hx].
    specialize (IH _ Hs'). destruct (parse_parts _ _) as [acc'|e|s]; [|set_solver|done].
    destruct IH as (HF & Hs'' & Hr). split; [by constructor; [left|]|]. split; [done|].
    intros r. rewrite Hr, Hx, exists_cons, named_all. tauto.
  - rewrite bool_decide_false by done. destruct (IsValid q) eqn:Hv; simpl.
    + apply IsValid_iff in Hv. destruct (add_role_spec acc q Hs) as [Hs' Hx].
      specialize (IH _ Hs'). destruct (parse_parts _ _) as [acc'|e|s]; [|set_solver|done].
      destruct IH as (HF & Hs'' & Hr). split; [by constructor; [right|]|]. split; [done|].
      intros r. rewrite Hr, Hx, exists_cons, (named_one _ _ Ha Hv). tauto.
    + exists q. split; [set_solver|]. split; [|done]. intros [?|Hin]; [done|].
      apply IsValid_iff in Hin. congruence.
Qed.

Lemma names_empty s : TrimSpace s = "" -> names s = [].
Proof. intros Ht. unfold names. rewrite Ht. reflexivity. Qed.

Lemma names_all s : TrimSpace s = "all" -> names s = ["all"].
Proof. intros Ht. unfold names. rewrite Ht. reflexivity. Qed.

Lemma all_roles r : r ∈ ValidRoles <-> exists p, p ∈ ["all"] /\ named_role r p.
Proof.
  split; [intros Hr; exists "all"; split; [by left|by right]|].
  intros (p & Hp & [[_ Hv]|[_ Hv]]); [|done]. apply list_elem_of_singleton in Hp as ->.
  by apply IsValid_iff in Hv.
Qed.

Lemma same_roles_nil : same_roles ([], ∅).
Proof. intros r. simpl. by rewrite elem_of_nil, elem_of_empty. Qed.

(** A mode string is accepted exactly when it names at least one role and
    nothing else than valid roles and "all" (up to spaces, empty items and
    repetitions); the active roles are then exactly those it names, "all"
    standing for every valid role. *)
Theorem ParseRoles_spec s rs :
  ParseRoles s = Ok rs <->
  names s <> [] /\ Forall named_ok (names s) /\
  forall r, r ∈ rs <-> exists p, p ∈ names s /\ named_role r p.
Proof.
  unfold ParseRoles. destruct (decide (TrimSpace s = "")) as [Ht|Ht].
  { rewrite bool_decide_true by done. rewrite names_empty by done. naive_solver. }
  rewrite bool_decide_false by done.
  assert (forall l, Ok (E := error) (NewRoleSet l) = Ok rs <-> forall r, r ∈ rs <-> r ∈ l) as Hset.
  { intros l. trans (NewRoleSet l = rs); [naive_solver|]. rewrite set_eq.
    setoid_rewrite elem_NewRoleSet. naive_solver. }
  destruct (decide (TrimSpace s = "all")) as [Ha|Ha].
  { rewrite bool_decide_true by done. rewrite names_all, Hset by done.
    split; [intros Hr; split; [done|]; split; [apply Forall_singleton; by left|]; intros r; rewrite Hr|
            intros (_ & _ & Hr) r; rewrite Hr; symmetry]; apply all_roles. }
  rewrite bool_decide_false by done.
  pose proof (parse_parts_spec (Split (TrimSpace s) x2c) ([], ∅)) as Hp.
  specialize (Hp same_roles_nil). cbn zeta in Hp. fold (names s) in Hp.
  destruct (parse_parts _ _) as [[l seen]|e|p]; [| |done].
  2: { split; [done|]. intros (_ & HF & _). destruct Hp as (q & Hq & Hn & _).
       by apply (Forall_forall _ _) with (x := q) in HF. }
  destruct Hp as (HF & _ & Hl). simpl in Hl.
  destruct l as [|x l].
  - split; [done|]. intros (Hne & _ & Hr). destruct (names s) as [|p ps] eqn:Hn; [done|].
    apply Forall_cons_1 in HF as [Hp _]. exfalso.
    destruct Hp as [->|Hp].
    + apply (not_elem_of_nil RoleWSCD), Hl. right. exists "all". split; [set_solver|].
      right. split; [done|]. by left.
    + apply (not_elem_of_nil p), Hl. right. exists p. split; [set_solver|by left].
  - rewrite Hset. split.
    + intros Hr. split; [|split; [done|]].
      * destruct (Hl x) as [[Hx|(p & Hp & _)] _]; [by left|by apply elem_of_nil in Hx|].
        intros Hn. rewrite Hn in Hp. by apply elem_of_nil in Hp.
      * intros r. rewrite Hr, Hl. split; [|by right]. intros [Hx|?]; [by apply elem_of_nil in Hx|done].
    + intros (_ & _ & Hr) r. rewrite Hr, Hl. split; [by right|].
      intros [Hx|?]; [by apply elem_of_nil in Hx|done].
Qed.

Lemma ParseRoles_spec_witness :
  exists rs, ParseRoles " wscd, admin,wscd " = Ok rs /\
  names " wscd, admin,wscd " <> [] /\ Forall named_ok (names " wscd, admin,wscd ") /\
  forall r, r ∈ rs <-> exists p, p ∈ names " wscd, admin,wscd " /\ named_role r p.
Proof.
  exists (NewRoleSet ["wscd"; "admin"]). split; [vm_compute; reflexivity|].
  apply (ParseRoles_spec " wscd, admin,wscd "). vm_compute. reflexivity.
Defined.

(** ** The sorted list *)

Definition role_le (a b : string) : Prop := String.leb a b = true.

Lemma elem_insert_role r x l : r ∈ insert_role x l <-> r = x \/ r ∈ l.
Proof.
  induction l as [|y l IH]; simpl; [set_solver|]. case_match; set_unfold; rewrite ?IH; naive_solver.
Qed.

(** The listing has exactly the roles of the set. *)
Lemma elem_List r rs : r ∈ List rs <-> r ∈ rs.
Proof.
  unfold List. rewrite <-elem_of_elements. induction (elements rs) as [|x l IH]; simpl; [done|].
  rewrite elem_insert_role, IH. set_solver.
Qed.
