(* ===== verification/AuthMw.v ===== *)
(** * [internal/authmw/middleware.go]: authorising the admin API

    A handler takes the validated token of the request's context and the
    request.  The token library ([go-tokenauth]) is a class: validating a
    token, and the permission letters of a TAC string. *)

From S2P Require Import Prelude GoStrings GoJson Counter Sessions Store World Http.
Local Open Scope Z_scope.

(** [claims.Result], with the fields the code uses. *)
Record Result := mkResult { re_UserID : string; re_TAC : string }.

Class TokenLib := {
  Validate : string -> option Result;
  TAC_Has : string -> string -> bool;
  TAC_HasAll : string -> string -> bool;
  TACAdmin : string
}.

Section AuthMw.
Context {St H : Type} `{Env, TokenLib}.
Local Abbreviation m := (M (World St H) error).

(** [http.Handler]: the context's [Result], and the request. *)
Definition HttpHandler : Type := option Result -> HttpRequest -> m HttpResponse.
Definition Middleware : Type := HttpHandler -> HttpHandler.

Definition writeError (status : Z) (msg : string) : HttpResponse :=
  mkResponse status [("Content-Type", "application/json")]
    (x7b :: x22 :: go_bytes "error" ++ [x22; x3a; x22] ++ go_bytes msg ++ [x22; x7d]).

Definition bearer : string := "Bearer ".

Definition TokenAuth : Middleware := fun next ctx r =>
  let auth := rq_Authorization r in
  if negb (HasPrefix auth bearer)
  then ret (writeError StatusUnauthorized "missing or malformed authorization header")
  else match Validate (TrimPrefix auth bearer) with
       | None => ret (writeError StatusUnauthorized "invalid token")
       | Some result => next (Some result) r
       end.

(** [subtle.ConstantTimeCompare] is 1 exactly on equal slices. *)
Definition DevTokenAuth (token : string) : Middleware := fun next ctx r =>
  let auth := rq_Authorization r in
  if negb (HasPrefix auth bearer)
  then ret (writeError StatusUnauthorized "missing or malformed authorization header")
  else if negb (bool_decide (TrimPrefix auth bearer = token))
  then ret (writeError StatusUnauthorized "invalid token")
  else next (Some (mkResult "dev-admin" "a")) r.

Definition RequireTAC (required : string) : Middleware := fun next ctx r =>
  match ctx with
  | None => ret (writeError StatusUnauthorized "no auth context")
  | Some result =>
      if negb (TAC_Has (re_TAC result) TACAdmin) && negb (TAC_HasAll (re_TAC result) required)
      then ret (writeError StatusForbidden "insufficient permissions")
      else next ctx r
  end.

Definition Chain (middlewares : list Middleware) : Middleware := fun final =>
  fold_right (fun mw next => mw next) final middlewares.

(** 32 random bytes in hex *)
Definition GenerateDevToken : m string :=
  let! b := RandomBytes 32 in ret (HexEncodeToString b).

(** ** Who gets through *)

(** The token a request carries, and what it grants. *)
Definition credential (dev : option string) (r : HttpRequest) : option Result :=
  if HasPrefix (rq_Authorization r) bearer then
    let t := TrimPrefix (rq_Authorization r) bearer in
    match dev with
    | None => Validate t
    | Some token => if bool_decide (t = token) then Some (mkResult "dev-admin" "a") else None
    end
  else None.

Definition grants (required : string) (c : Result) : Prop :=
  TAC_Has (re_TAC c) TACAdmin = true \/ TAC_HasAll (re_TAC c) required = true.

Definition auth_of (dev : option string) : Middleware :=
  match dev with None => TokenAuth | Some token => DevTokenAuth token end.

Lemma guarded_run dev required next ctx r :
  Chain [auth_of dev; RequireTAC required] next ctx r =
  match credential dev r with
  | None => ret (writeError StatusUnauthorized
      (if HasPrefix (rq_Authorization r) bearer then "invalid token"
       else "missing or malformed authorization header"))
  | Some c =>
      if TAC_Has (re_TAC c) TACAdmin || TAC_HasAll (re_TAC c) required then next (Some c) r
      else ret (writeError StatusForbidden "insufficient permissions")
  end.
Proof.
  unfold credential, auth_of, Chain. cbn [fold_right].
  destruct dev as [token|]; unfold TokenAuth, DevTokenAuth, RequireTAC;
    (destruct (HasPrefix (rq_Authorization r) bearer); cbn [negb]; [|done]).
  - case_bool_decide; cbn [negb re_TAC]; [|done].
    by destruct (TAC_Has _ TACAdmin), (TAC_HasAll _ required).
  - destruct (Validate _) as [c|]; [|done].
    by destruct (TAC_Has _ TACAdmin), (TAC_HasAll _ required).
Qed.
End AuthMw.
