(* ===== verification/Admin.v ===== *)
(** * [internal/admin/admin.go]: the admin API over the store *)

From S2P Require Import Prelude GoTime GoStrings GoJson Protocol Counter Sessions Store World Handlers Http AuthMw.
Local Open Scope Z_scope.

(** The order in which a [range] visits a map is not specified. *)
Class MapOrder := {
  range : gmap Z Z -> list (Z * Z);
  range_perm m : range m ≡ₚ map_to_list m
}.

(** ** JSON *)

Definition statusLabel (s : Z) : string :=
  if s =? StatusValid then "valid"
  else if s =? StatusInvalid then "revoked"
  else if s =? StatusSuspended then "suspended"
  else "unknown".

(** [entry] and [indexInfo] *)
Definition enc_entry (idx s : Z) : bytes :=
  enc_struct [("idx", enc_int idx); ("status", enc_int s); ("label", enc_string (statusLabel s))].

Definition std_char (b : Byte.byte) : Byte.byte :=
  if Byte.eqb b x2d then x2b else if Byte.eqb b x5f then x2f else b.

(** A [[]byte] is its standard base64 encoding. *)
Definition enc_bytes (b : bytes) : bytes := x22 :: map std_char (b64_encode true b) ++ [x22].

Definition enc_PublicKeyInfo (k : PublicKeyInfo) : bytes :=
  enc_struct [("kid", enc_string (pk_Kid k)); ("curve", enc_string (pk_Curve k));
    ("pub_key", enc_bytes (pk_PubKey k)); ("creation_time", enc_int (pk_CreationTime k));
    ("client_id", enc_string (pk_ClientID k))].

(** A store returns the [nil] slice when there is no key. *)
Definition enc_keys (ks : list PublicKeyInfo) : bytes :=
  match ks with [] => lit_null | _ => enc_array (enc_PublicKeyInfo <$> ks) end.

(** [uint8]: a plain decimal literal in range *)
Definition dec_uint8 : decoder Z := fun old v =>
  match v.2 with
  | JNum (b :: l) =>
      match parse_digits 0 (b :: l) with
      | Some z => if z <? 256 then Some z else None
      | None => None
      end
  | JNull => Some old
  | _ => None
  end.

Definition dec_status : decoder Z := dec_struct [("status", fun old v => dec_uint8 old v)].

(** [json.NewDecoder(http.MaxBytesReader(w, body, 256)).Decode(&x)]: the first
    value of the stream, which must end (and, for a value that is neither an
    object nor an array, be seen to end) within the first 256 bytes. *)
Definition stream_limit : nat := 256.

Definition is_closed (j : json) : bool := match j with JObj _ | JArr _ => true | _ => false end.

Definition decode_stream {T} (d : decoder T) (old : T) (body : bytes) : option T :=
  let l := take stream_limit body in
  match parse_value (S (2 * length l)) 0 (skip_ws l) with
  | Some (v, rest) =>
      if is_closed v.2 || (length body <=? stream_limit)%nat || negb (length rest =? 0)%nat
      then d old v else None
  | None => None
  end.

Definition writeAdminError (status : Z) (msg : string) : HttpResponse :=
  json_response status (enc_struct [("error", enc_string msg)]).

(** A store error: "not found" is 404. *)
Definition store_error (e : error) : HttpResponse :=
  writeAdminError (if Contains (Error e) "not found" then StatusNotFound else StatusInternalServerError) (Error e).

Definition bad_index : HttpResponse := writeAdminError StatusBadRequest "invalid index".

(** ** The handlers, on the values of the path *)

Section Admin.
Context {St H : Type} `{Env, Store St, MapOrder, TokenLib}.
Local Abbreviation W := (World St H).
Local Abbreviation m := (M W error).

Definition store_call {A} (c : M St error A) : m (A + error) := attempt (on_store (E := error) c).

Definition handleListStatuses (category : string) : m HttpResponse :=
  let! r := store_call (GetAllStatuses category) in
  match r with
  | inr e => ret (writeAdminError StatusInternalServerError (Error e))
  | inl statuses =>
      let entries := range statuses in
      ret (json_response StatusOK (enc_struct
        [("category", enc_string category); ("count", enc_int (Z.of_nat (length entries)));
         ("entries", enc_array ((fun '(idx, s) => enc_entry idx s) <$> entries))]))
  end.

Definition handleGetStatus (category idxStr : string) : m HttpResponse :=
  match ParseInt64 (go_bytes idxStr) with
  | None => ret bad_index
  | Some idx =>
      let! r := store_call (GetStatus category idx) in
      match r with
      | inr e => ret (store_error e)
      | inl status =>
          let! u := store_call (IsUsed category idx) in
          ret (json_response StatusOK (enc_struct
            [("category", enc_string category); ("idx", enc_int idx);
             ("label", enc_string (statusLabel status)); ("status", enc_int status);
             ("used", enc_bool (match u with inl b => b | inr _ => false end))]))
      end
  end.

Definition handleSetStatus (category idxStr : string) (body : bytes) : m HttpResponse :=
  match ParseInt64 (go_bytes idxStr) with
  | None => ret bad_index
  | Some idx =>
      match decode_stream dec_status 0 body with
      | None => ret (writeAdminError StatusBadRequest "invalid request body")
      | Some status =>
          if StatusSuspended <? status
          then ret (writeAdminError StatusBadRequest "status must be 0 (valid), 1 (revoked), or 2 (suspended)")
          else
            let! r := store_call (SetStatus category idx status) in
            match r with
            | inr e => ret (store_error e)
            | inl _ =>
                ret (json_response StatusOK (enc_struct
                  [("category", enc_string category); ("idx", enc_int idx);
                   ("label", enc_string (statusLabel status)); ("status", enc_int status)]))
            end
      end
  end.

(** The status of each index; 0 when it cannot be read. *)
Fixpoint index_infos (category : string) (indices : list Z) : m (list bytes) :=
  match indices with
  | [] => ret []
  | idx :: rest =>
      let! r := store_call (GetStatus category idx) in
      let! infos := index_infos category rest in
      ret (enc_entry idx (match r with inl s => s | inr _ => 0 end) :: infos)
  end.

Definition handleGetClientIndices (clientID category : string) : m HttpResponse :=
  let! r := store_call (GetClientIndices clientID category) in
  match r with
  | inr e => ret (writeAdminError StatusInternalServerError (Error e))
  | inl indices =>
      let! infos := index_infos category indices in
      ret (json_response StatusOK (enc_struct
        [("category", enc_string category); ("client_id", enc_string clientID);
         ("indices", enc_array infos)]))
  end.

Definition handleGetUsage (category idxStr : string) : m HttpResponse :=
  match ParseInt64 (go_bytes idxStr) with
  | None => ret bad_index
  | Some idx =>
      let! r := store_call (IsUsed category idx) in
      match r with
      | inr e => ret (writeAdminError StatusInternalServerError (Error e))
      | inl used =>
          ret (json_response StatusOK (enc_struct
            [("category", enc_string category); ("idx", enc_int idx); ("used", enc_bool used)]))
      end
  end.

Definition handleAllocateIndex (category : string) : m HttpResponse :=
  let! r := store_call (AllocateIndex category) in
  match r with
  | inr e => ret (writeAdminError StatusInternalServerError (Error e))
  | inl idx =>
      ret (json_response StatusCreated (enc_struct
        [("category", enc_string category); ("idx", enc_int idx)]))
  end.

(** With or without a client ID, the store is asked with it. *)
Definition handleListKeys (clientID : string) : m HttpResponse :=
  let! r := store_call (ListPublicKeys clientID) in
  match r with
  | inr e => ret (writeAdminError StatusInternalServerError (Error e))
  | inl keys =>
      ret (json_response StatusOK (enc_struct
        [("count", enc_int (Z.of_nat (length keys))); ("keys", enc_keys keys)]))
  end.

Definition handleGetKey (kid : string) : m HttpResponse :=
  let! r := store_call (GetPublicKey kid) in
  match r with
  | inr e => ret (store_error e)
  | inl key => ret (json_response StatusOK (enc_PublicKeyInfo key))
  end.
End Admin.

(** ** [New] and the mux *)

Inductive route :=
| RListStatuses (category : string)
| RGetStatus (category idx : string)
| RSetStatus (category idx : string)
| RGetClientIndices (clientID category : string)
| RGetUsage (category idx : string)
| RAllocateIndex (category : string)
| RListKeys
| RGetKey (kid : string).

Definition is_get (method : string) : bool := bool_decide (method = "GET" \/ method = "HEAD").

(** The route of a clean path without escapes, and whether the method is one
    of its own; a wildcard matches one non-empty segment. *)
Definition route_of (method : string) (segments : list string) : option (route * bool) :=
  if existsb (fun s => bool_decide (s = "")) segments then None
  else match segments with
  | "admin" :: "store" :: rest =>
      match rest with
      | ["statuses"; category] => Some (RListStatuses category, is_get method)
      | ["status"; category; idx] =>
          if bool_decide (method = "PUT") then Some (RSetStatus category idx, true)
          else Some (RGetStatus category idx, is_get method)
      | ["clients"; clientID; category] => Some (RGetClientIndices clientID category, is_get method)
      | ["usage"; category; idx] => Some (RGetUsage category idx, is_get method)
      | ["allocate"; category] => Some (RAllocateIndex category, bool_decide (method = "POST"))
      | ["keys"] => Some (RListKeys, is_get method)
      | ["keys"; kid] => Some (RGetKey kid, is_get method)
      | _ => None
      end
  | _ => None
  end.

(** The permission of a route. *)
Definition permission (r : route) : string :=
  match r with
  | RListStatuses _ | RGetClientIndices _ _ | RListKeys => "l"
  | RGetStatus _ _ | RGetUsage _ _ | RGetKey _ => "r"
  | RSetStatus _ _ => "w"
  | RAllocateIndex _ => "i"
  end.

(** [None]: no authorisation; [Some None]: the validator; [Some (Some t)]: the
    development token [t]. *)
Definition admin_auth (has_validator : bool) (devToken : string) : option (option string) :=
  if has_validator then Some None
  else if bool_decide (devToken = "") then None else Some (Some devToken).

Definition segments (path : string) : list string :=
  match Split path x2f with _ :: segs => segs | [] => [] end.

Section Serve.
Context {St H : Type} `{Env, Store St, MapOrder, TokenLib}.
Local Abbreviation W := (World St H).
Local Abbreviation m := (M W error).

Definition run_route (rt : route) (r : HttpRequest) : m HttpResponse :=
  match rt with
  | RListStatuses c => handleListStatuses c
  | RGetStatus c i => handleGetStatus c i
  | RSetStatus c i => handleSetStatus c i (default [] (rq_Body r))
  | RGetClientIndices cl c => handleGetClientIndices cl c
  | RGetUsage c i => handleGetUsage c i
  | RAllocateIndex c => handleAllocateIndex c
  | RListKeys => handleListKeys (rq_Query r "client_id")
  | RGetKey kid => handleGetKey kid
  end.

Definition admin_handler (auth : option (option string)) (rt : route) : HttpHandler :=
  match auth with
  | None => fun _ r => run_route rt r
  | Some dev => Chain [auth_of dev; RequireTAC (permission rt)] (fun _ r => run_route rt r)
  end.

Definition ServeHTTP (auth : option (option string)) (r : HttpRequest) : m HttpResponse :=
  match route_of (rq_Method r) (segments (rq_Path r)) with
  | None => ret (http_Error "404 page not found" StatusNotFound)
  | Some (_, false) => ret (http_Error "Method Not Allowed" StatusMethodNotAllowed)
  | Some (rt, true) => admin_handler auth rt None r
  end.
End Serve.

(** ** Properties *)

Section AdminSpecs.
Context {St H : Type} `{Env, StoreLaws St, MapOrder, TokenLib}.
Local Abbreviation W := (World St H).

(** The routes that write. *)
Definition writes (rt : route) : bool :=
  match rt with RSetStatus _ _ | RAllocateIndex _ => true | _ => false end.

Local Abbreviation unmoved := (same (W := W) w_store).

Lemma steps_read {A} (c : M St error A) :
  (forall s, match c s with (s', Panic _) => False | (s', _) => s' = s end) ->
  steps unmoved (store_call (H := H) c).
Proof.
  intros Hc. apply steps_attempt, steps_zoom. intros w. unfold same. simpl.
  specialize (Hc (w_store w)). by destruct (c (w_store w)) as [s []]; subst.
Qed.

Lemma read_laws :
  (forall c, steps unmoved (store_call (GetAllStatuses c))) /\
  (forall c i, steps unmoved (store_call (GetStatus c i))) /\
  (forall cl c, steps unmoved (store_call (GetClientIndices cl c))) /\
  (forall c i, steps unmoved (store_call (IsUsed c i))) /\
  (forall kid, steps unmoved (store_call (GetPublicKey kid))).
Proof.
  split_and!; intros; apply steps_read; intros s;
    [pose proof (GetAllStatuses_law s c) as HL|pose proof (GetStatus_law s c i) as HL|
     pose proof (GetClientIndices_law s cl c) as HL|pose proof (IsUsed_law s c i) as HL|
     pose proof (GetPublicKey_law s kid) as HL];
    case_match; case_match; naive_solver.
Qed.

Lemma steps_ListPublicKeys cl : steps unmoved (store_call (ListPublicKeys cl)).
Proof.
  apply steps_read. intros s. pose proof (ListPublicKeys_law s cl) as HL.
  case_match; case_match; naive_solver.
Qed.

Lemma steps_index_infos c l : steps unmoved (index_infos c l).
Proof.
  induction l as [|i l IH]; cbn [index_infos]; [eauto with steps typeclass_instances|].
  apply steps_bind; [typeclasses eauto|apply read_laws|intros ?]. steps_auto.
Qed.

(** A route that does not write leaves the store alone. *)
Lemma read_routes rt r : writes rt = false -> steps unmoved (run_route rt r).
Proof.
  destruct rt; intros Hw; try done; cbn [run_route];
    unfold handleListStatuses, handleGetStatus, handleGetClientIndices, handleGetUsage,
      handleListKeys, handleGetKey;
    repeat first
      [ apply read_laws | apply steps_ListPublicKeys
      | apply steps_index_infos | steps_branch | solve [eauto with steps typeclass_instances] ].
Qed.

(** C35: with authorisation configured, no request reaches a handler without a
    credential (a token the validator accepts, or the development token) that
    grants the route's permission; what the handler does is then what the
    route does without authorisation; and the store changes only through the
    two writing routes, under their own permissions. *)
Theorem admin_guard dev rt r (w : W) :
  (exists c, credential dev r = Some c /\ grants (permission rt) c /\
     admin_handler (Some dev) rt None r w = run_route rt r w /\
     (writes rt = false -> w_store (run_route rt r w).1 = w_store w)) \/
  (~ (exists c, credential dev r = Some c /\ grants (permission rt) c) /\
     exists resp, admin_handler (Some dev) rt None r w = (w, Ok resp) /\
       (rs_Status resp = StatusUnauthorized \/ rs_Status resp = StatusForbidden)).
Proof.
  cbn [admin_handler]. rewrite guarded_run.
  destruct (credential dev r) as [c|] eqn:Hc.
  - destruct (TAC_Has _ TACAdmin || TAC_HasAll _ _) eqn:Hg.
    + left. exists c. split; [done|]. split; [by apply orb_true_iff|]. split; [done|].
      intros Hw. apply (read_routes rt r Hw w).
    + right. split; [|eexists; split; [reflexivity|by right]].
      intros (c' & [= <-] & Hgr). apply orb_true_iff in Hgr. congruence.
  - right. split; [by intros (c & ? & _)|]. eexists. split; [reflexivity|by left].
Qed.

(** Setting a status: a malformed index or body, or a status above 2, is
    a bad request and changes nothing; otherwise the entry is set exactly when
    it exists, and a missing entry or a failing store changes nothing. *)
Theorem handleSetStatus_functional category idxStr body (w : W) :
  let r := handleSetStatus category idxStr body w in
  match ParseInt64 (go_bytes idxStr), decode_stream dec_status 0 body with
  | Some idx, Some status =>
      if status <=? StatusSuspended then
        (exists resp, r.2 = Ok resp /\
           if rs_Status resp =? StatusOK
           then is_Some (status_of (w_store w) category idx) /\ frame PStatus (w_store w) (w_store r.1) /\
             forall c i, status_of (w_store r.1) c i =
               if decide (c = category /\ i = idx) then Some status else status_of (w_store w) c i
           else unchanged (w_store w) (w_store r.1))
      else r.1 = w /\ exists resp, r.2 = Ok resp /\ rs_Status resp = StatusBadRequest
  | _, _ => r.1 = w /\ exists resp, r.2 = Ok resp /\ rs_Status resp = StatusBadRequest
  end.
Proof.
  cbn zeta. unfold handleSetStatus.
  destruct (ParseInt64 _) as [idx|]; [|split; [done|by eexists]].
  destruct (decode_stream _ _ _) as [status|]; [|split; [done|by eexists]].
  rewrite Z.leb_antisym. destruct (StatusSuspended <? status); cbn [negb]; [split; [done|by eexists]|].
  unfold store_call, bind, attempt, on_store, zoom.
  pose proof (SetStatus_law (w_store w) category idx status) as HL.
  destruct (SetStatus category idx status (w_store w)) as [s [u|e|p]]; [| |done]; cbn [fst snd];
    eexists; (split; [reflexivity|]).
  - cbn. destruct HL as (Hf & Hs & Ha). by split.
  - unfold store_error, writeAdminError, json_response. cbn [rs_Status].
    destruct (Contains _ _); cbn; exact HL.
Qed.
End AdminSpecs.
