(* ===== verification/Durations.v ===== *)
(** * [time.ParseDuration], and the configuration helpers of [cmd/server/main.go]

    A duration is a sign and a sequence of decimal numbers with units.  The
    fraction of a number goes through [float64] in Go; [f64_div] and
    [f64_mul] round to the nearest 53-bit mantissa as it does. *)

From S2P Require Import Prelude GoTime GoStrings.
Local Open Scope Z_scope.

(** ** Rounding to [float64]: positive rationals in the normal range *)

(** Nearest integer, ties to even. *)
Definition round_even (n d : Z) : Z :=
  let q := n / d in
  match (2 * (n mod d) ?= d) with
  | Lt => q
  | Gt => q + 1
  | Eq => if Z.even q then q else q + 1
  end.

(** The binary exponent that gives [n / d] a 53-bit mantissa. *)
Definition f64_exp (n d : Z) : Z :=
  let k := Z.log2 n - Z.log2 d in
  if (if 0 <=? k then d * 2 ^ k <=? n else d <=? n * 2 ^ (- k)) then k - 52 else k - 53.

(** [n / d] rounded, as a fraction. *)
Definition f64 (n d : Z) : Z * Z :=
  if n =? 0 then (0, 1)
  else
    let e := f64_exp n d in
    if 0 <=? e then (round_even n (d * 2 ^ e) * 2 ^ e, 1)
    else (round_even (n * 2 ^ (- e)) d, 2 ^ (- e)).

Definition f64_div (a b : Z * Z) : Z * Z := f64 (a.1 * b.2) (a.2 * b.1).
Definition f64_mul (a b : Z * Z) : Z * Z := f64 (a.1 * b.1) (a.2 * b.2).

(** ** [ParseDuration] *)

Definition unit_of (u : bytes) : option Z :=
  if bool_decide (u = go_bytes "ns") then Some Nanosecond
  else if bool_decide (u = go_bytes "us") then Some 1000
  else if bool_decide (u = [xc2; xb5; x73]) then Some 1000
  else if bool_decide (u = [xce; xbc; x73]) then Some 1000
  else if bool_decide (u = go_bytes "ms") then Some 1000000
  else if bool_decide (u = go_bytes "s") then Some Second
  else if bool_decide (u = go_bytes "m") then Some Minute
  else if bool_decide (u = go_bytes "h") then Some Hour
  else None.

(** [leadingInt]: the value of the leading digits, which must stay within 2^63. *)
Fixpoint leadingInt (x : Z) (l : bytes) : option (Z * bytes) :=
  match l with
  | b :: l' =>
      match digit b with
      | None => Some (x, l)
      | Some d =>
          if 2 ^ 63 / 10 <? x then None
          else let x' := x * 10 + d in if 2 ^ 63 <? x' then None else leadingInt x' l'
      end
  | [] => Some (x, [])
  end.

(** [leadingFraction]: digits that would overflow are dropped. *)
Fixpoint leadingFraction (x scale : Z) (overflow : bool) (l : bytes) : Z * Z * bytes :=
  match l with
  | b :: l' =>
      match digit b with
      | None => (x, scale, l)
      | Some d =>
          if overflow then leadingFraction x scale true l'
          else if (2 ^ 63 - 1) / 10 <? x then leadingFraction x scale true l'
          else let y := x * 10 + d in
               if 2 ^ 63 <? y then leadingFraction x scale true l'
               else leadingFraction y (scale * 10) false l'
      end
  | [] => (x, scale, [])
  end.

(** The unit: up to a dot or a digit. *)
Fixpoint span_unit (l : bytes) : bytes * bytes :=
  match l with
  | b :: l' =>
      if Byte.eqb b x2e || byte_in 48 57 b then ([], l)
      else let '(u, r) := span_unit l' in (b :: u, r)
  | [] => ([], [])
  end.

(** One number and its unit. *)
Definition parse_term (l : bytes) : option (Z * bytes) :=
  match l with
  | [] => None
  | b :: _ =>
      if negb (Byte.eqb b x2e || byte_in 48 57 b) then None
      else
        match leadingInt 0 l with
        | None => None
        | Some (v, l1) =>
            let pre := negb (length l1 =? length l)%nat in
            let '(f, scale, l2, post) :=
              match l1 with
              | b1 :: l1' =>
                  if Byte.eqb b1 x2e then
                    let '(f, scale, r) := leadingFraction 0 1 false l1' in
                    (f, scale, r, negb (length r =? length l1')%nat)
                  else (0, 1, l1, false)
              | [] => (0, 1, l1, false)
              end in
            if negb pre && negb post then None
            else
              let '(u, l3) := span_unit l2 in
              match unit_of u with
              | None => None
              | Some unit =>
                  if 2 ^ 63 / unit <? v then None
                  else
                    let v := v * unit in
                    let v :=
                      if 0 <? f then
                        let '(n, d) := f64_mul (f64 f 1) (f64_div (unit, 1) (f64 scale 1)) in v + n / d
                      else v in
                    if 2 ^ 63 <? v then None else Some (v, l3)
              end
        end
  end.

Fixpoint parse_terms (fuel : nat) (d : Z) (l : bytes) : option Z :=
  match fuel, l with
  | _, [] => Some d
  | O, _ => None
  | S fuel', _ =>
      match parse_term l with
      | None => None
      | Some (v, l') => if 2 ^ 63 <? d + v then None else parse_terms fuel' (d + v) l'
      end
  end.

Definition ParseDuration (s : string) : option Z :=
  let l := go_bytes s in
  let '(neg, l) :=
    match l with
    | b :: l' => if Byte.eqb b x2d then (true, l') else if Byte.eqb b x2b then (false, l') else (false, l)
    | [] => (false, l)
    end in
  if bool_decide (l = [x30]) then Some 0
  else match l with
  | [] => None
  | _ =>
      match parse_terms (length l) 0 l with
      | None => None
      | Some d => if neg then Some (- d) else if 2 ^ 63 - 1 <? d then None else Some d
      end
  end.

Example duration_ex :
  map ParseDuration ["15m"; "1.5h"; "-2h45m"; "1.1s"; "744h"; "0"; "5"; ".s"; "9223372036854775808ns"; "300ms"]
  = [Some (15 * Minute); Some (90 * Minute); Some (- (165 * Minute)); Some 1100000000;
     Some (744 * Hour); Some 0; None; None; None; Some 300000000].
Proof. vm_compute. reflexivity. Qed.

(** Each term consumes input: the fuel is enough. *)
Lemma leadingInt_length x l v r : leadingInt x l = Some (v, r) -> (length r <= length l)%nat.
Proof.
  revert x. induction l as [|b l IH]; intros x; simpl; [by intros [= <- <-]|].
  destruct (digit b); [|by intros [= <- <-]]. repeat (case_match; [done|]). intros Hr.
  apply IH in Hr. lia.
Qed.

Lemma leadingFraction_length x sc o l y sc' r :
  leadingFraction x sc o l = (y, sc', r) -> (length r <= length l)%nat.
Proof.
  revert x sc o. induction l as [|b l IH]; intros x sc o; simpl; [by intros [= <- <- <-]|].
  destruct (digit b); [|by intros [= <- <- <-]].
  repeat case_match; intros Hr; apply IH in Hr; lia.
Qed.

Lemma span_unit_length l u r : span_unit l = (u, r) -> (length u + length r = length l)%nat.
Proof.
  revert u r. induction l as [|b l IH]; intros u r; simpl; [by intros [= <- <-]|].
  case_match; [by intros [= <- <-]|]. destruct (span_unit l) as [u' r'].
  intros [= <- <-]. specialize (IH _ _ eq_refl). simpl. lia.
Qed.

Lemma parse_term_length l v r : parse_term l = Some (v, r) -> (length r < length l)%nat.
Proof.
  unfold parse_term. destruct l as [|b l0]; [done|]. set (l := b :: l0).
  destruct (negb _); [done|]. destruct (leadingInt 0 l) as [[v0 l1]|] eqn:E1; [|done].
  apply leadingInt_length in E1.
  assert (exists f sc l2 post, match l1 with
    | b1 :: l1' => if Byte.eqb b1 x2e then
        let '(f, scale, r) := leadingFraction 0 1 false l1' in
        (f, scale, r, negb (length r =? length l1')%nat) else (0, 1, l1, false)
    | [] => (0, 1, l1, false) end = (f, sc, l2, post) /\ (length l2 <= length l1)%nat)
    as (f & sc & l2 & post & -> & Hl2).
  { destruct l1 as [|b1 l1']; [by do 4 eexists|]. destruct (Byte.eqb b1 x2e); [|by do 4 eexists].
    destruct (leadingFraction 0 1 false l1') as [[f sc] r'] eqn:Ef.
    apply leadingFraction_length in Ef. do 4 eexists. split; [done|]. simpl. lia. }
  destruct (_ && _); [done|]. destruct (span_unit l2) as [u l3] eqn:Eu.
  apply span_unit_length in Eu. destruct (unit_of u) as [un|] eqn:Hu; [|done].
  destruct u as [|b' u]; [done|]. simpl in Eu.
  destruct (_ <? v0); [done|].
  match goal with |- context [if 2 ^ 63 <? ?x then _ else _] => destruct (2 ^ 63 <? x); [done|] end.
  intros [= <- <-]. lia.
Qed.

Lemma parse_terms_fuel n n' d l :
  (length l <= n)%nat -> (length l <= n')%nat -> parse_terms n d l = parse_terms n' d l.
Proof.
  revert n' d l. induction n as [|n IH]; intros n' d l Hn Hn'.
  - destruct l; [by destruct n'|simpl in Hn; lia].
  - destruct l as [|b l]; [by destruct n'|]. destruct n' as [|n']; [simpl in Hn'; lia|].
    cbn [parse_terms]. destruct (parse_term (b :: l)) as [[v r]|] eqn:E; [|done].
    apply parse_term_length in E. case_match; [done|]. apply IH; lia.
Qed.

(** ** The environment *)

Section Environment.
Context (getenv : string -> string).

Definition envOr (key fallback : string) : string :=
  let v := getenv key in if negb (bool_decide (v = "")) then v else fallback.

Definition envInt (key : string) (fallback : Z) : Z :=
  let v := getenv key in
  if negb (bool_decide (v = "")) then default fallback (ParseInt64 (go_bytes v)) else fallback.

Definition envDuration (key : string) (fallback : Z) : Z :=
  let v := getenv key in
  if negb (bool_decide (v = "")) then default fallback (ParseDuration v) else fallback.
End Environment.
