(* ===== verification/Startup.v ===== *)
(** * [cmd/server/main.go]: what [main] reads from the environment

    The operating mode, the HSM, the store, TLS and the admin API. *)

From S2P Require Import Prelude GoTime GoStrings Ecc World Handlers Modes AuthMw Admin Durations.
Local Open Scope Z_scope.

Record PKCS11Config := mkPKCS11Config {
  p11_ModulePath : string;
  p11_SlotID : Z;
  p11_PIN : string;
  p11_TokenLabel : string;
  p11_PoolSize : Z
}.

Record MongoDBConfig := mkMongoDBConfig {
  mg_URI : string;
  mg_Database : string;
  mg_Timeout : Z;
  mg_PasswordPath : string;
  mg_TLSEnabled : bool;
  mg_CAPath : string;
  mg_CertPath : string;
  mg_KeyPath : string
}.

(** [strconv.ParseUint(s, 10, 32)] *)
Definition ParseUint32 (s : string) : option Z :=
  match go_bytes s with
  | [] => None
  | l => match parse_digits 0 l with
         | Some n => if n <? 2 ^ 32 then Some n else None
         | None => None
         end
  end.

Section Startup.
Context (getenv : string -> string).

Definition isset (key : string) : bool := negb (bool_decide (getenv key = "")).

(** The HSM of the wscd role; [Err] is an exit. *)
Definition hsm_config : outcome error PKCS11Config :=
  let? _ := guard_ok (isset "R2PS_HSM_MODULE")
              (Errorf "R2PS_HSM_MODULE must be set when wscd role is active") in
  let? _ := guard_ok (isset "R2PS_HSM_PIN")
              (Errorf "R2PS_HSM_PIN must be set when wscd role is active") in
  let? slot :=
    if isset "R2PS_HSM_SLOT"
    then of_option (Errorf "invalid R2PS_HSM_SLOT") (ParseUint32 (getenv "R2PS_HSM_SLOT"))
    else Ok 0 in
  Ok (mkPKCS11Config (getenv "R2PS_HSM_MODULE") slot (getenv "R2PS_HSM_PIN")
        (getenv "R2PS_HSM_TOKEN_LABEL") (envInt getenv "R2PS_HSM_POOL_SIZE" 4)).

(** [None]: the in-memory store. *)
Definition store_config : option MongoDBConfig :=
  if isset "R2PS_STORE_URI" then
    Some (mkMongoDBConfig (getenv "R2PS_STORE_URI") (envOr getenv "R2PS_STORE_DATABASE" "r2ps")
            (envInt getenv "R2PS_STORE_TIMEOUT" 10) (getenv "R2PS_STORE_PASSWORD_PATH")
            (bool_decide (getenv "R2PS_STORE_TLS_ENABLED" = "true")) (getenv "R2PS_STORE_TLS_CA")
            (getenv "R2PS_STORE_TLS_CERT") (getenv "R2PS_STORE_TLS_KEY"))
  else None.

(** The certificate and key of TLS, when both are configured. *)
Definition tls_config : option (string * string) :=
  if isset "R2PS_TLS_CERT" && isset "R2PS_TLS_KEY"
  then Some (getenv "R2PS_TLS_CERT", getenv "R2PS_TLS_KEY") else None.

(** The admin API: [None] when it is not started, otherwise its address and
    authorisation. *)
Definition admin_setup {St H} `{Env} (roles : RoleSet) :
    M (World St H) error (option (string * option (option string))) :=
  if Has roles RoleAdmin && isset "R2PS_ADMIN_LISTEN" then
    let! auth :=
      if isset "R2PS_ADMIN_JWKS_URL" then ret (admin_auth true "")
      else
        let! devToken :=
          if isset "R2PS_ADMIN_DEV_TOKEN" then ret (getenv "R2PS_ADMIN_DEV_TOKEN")
          else GenerateDevToken in
        ret (admin_auth false devToken) in
    ret (Some (getenv "R2PS_ADMIN_LISTEN", auth))
  else ret None.

(** The admin API of a server is never without authorisation. *)
Lemma admin_setup_guarded {St H} `{Env} roles (w : World St H) :
  exists r w', admin_setup roles w = (w', Ok r) /\
    match r with Some (_, auth) => is_Some auth | None => True end.
Proof.
  unfold admin_setup. destruct (_ && _); [|by do 2 eexists].
  destruct (isset "R2PS_ADMIN_JWKS_URL"); [by do 2 eexists; split; [reflexivity|]; eexists|].
  destruct (isset "R2PS_ADMIN_DEV_TOKEN") eqn:Hd.
  - do 2 eexists. split; [reflexivity|]. unfold admin_auth. unfold isset in Hd.
    case_bool_decide; [done|]. by eexists.
  - do 2 eexists. split; [reflexivity|]. unfold admin_auth.
    rewrite bool_decide_false; [by eexists|]. intros Hn.
    pose proof (length_rand (w_draw w) 32) as Hl.
    destruct (rand (w_draw w) 32) as [|b l]; [done|]. discriminate Hn.
Qed.
End Startup.
