(* ===== verification/MongoDriver.v ===== *)
(** * MongoDB, as the store uses it

    BSON documents, the calls of the driver ([go.mongodb.org/mongo-driver])
    that [internal/store/mongodb.go] makes, and what MongoDB's documentation
    says of them ([MongoLaws]): single-document writes are atomic, a unique
    index is unique, a filter selects by equality.  A write that reports an
    error has not been applied. *)

From S2P Require Import Prelude.
Local Open Scope Z_scope.

(** ** Documents *)

(** A BSON value: the types the program writes, and any other. *)
Inductive bson :=
| BString (s : string)
| BInt (z : Z)
| BBinary (b : bytes)
| BDateTime (millis : Z)
| BOther (tag : Byte.byte) (payload : bytes).

#[export] Instance bson_eq_dec : EqDecision bson.
Proof. solve_decision. Defined.

Abbreviation document := (gmap string bson).

(** A filter: the fields a document must have, with their values.  The
    values are typed, so a string from a request is never an operator. *)
Abbreviation filter_doc := (list (string * bson)).

Definition matches (f : filter_doc) (d : document) : Prop :=
  Forall (fun kv => d !! kv.1 = Some kv.2) f.

#[export] Instance matches_dec f d : Decision (matches f d).
Proof. unfold matches. apply _. Defined.

(** The update operators [$inc] and [$set], each on one field. *)
Inductive update_op :=
| Inc (field : string) (amount : Z)
| Set_ (field : string) (value : bson).

(** [$inc] on a field that is missing sets it, on one that is not a number it
    is an error. *)
Definition apply_update (u : update_op) (d : document) : option document :=
  match u with
  | Inc f n =>
      match d !! f with
      | None => Some (<[f := BInt n]> d)
      | Some (BInt v) => Some (<[f := BInt (v + n)]> d)
      | Some _ => None
      end
  | Set_ f v => Some (<[f := v]> d)
  end.

(** A document without an [_id] is given one when it is inserted; the
    replacement of a document keeps its [_id]. *)
Definition with_id (id : bson) (d : document) : document :=
  match d !! "_id" with Some _ => d | None => <["_id" := id]> d end.
Definition replacement (old d : document) : document :=
  match old !! "_id" with Some id => <["_id" := id]> d | None => d end.

Lemma lookup_with_id id d k : k <> "_id" -> with_id id d !! k = d !! k.
Proof. intros Hk. unfold with_id. case_match; [done|]. by rewrite lookup_insert_ne. Qed.

Lemma lookup_replacement old d k : k <> "_id" -> replacement old d !! k = d !! k.
Proof. intros Hk. unfold replacement. case_match; [|done]. by rewrite lookup_insert_ne. Qed.

(** ** The driver *)

Inductive mongo_error :=
| ErrNoDocuments
| DuplicateKey
| MongoOther.

#[export] Instance mongo_error_eq_dec : EqDecision mongo_error.
Proof. solve_decision. Defined.

(** A collection of a database. *)
Abbreviation namespace := (string * string)%type.

(** A cursor, as its reader meets it: the documents it yields, and the error
    it stops with. *)
Record cursor := mkCursor { cur_docs : list document; cur_err : option mongo_error }.

(** [tls.Config], as far as it is set: the PEM of the pool of [RootCAs]. *)
Record TLSConfig := mkTLSConfig {
  tls_MinVersion : Z;
  tls_RootCAs : option bytes;
  tls_Certificates : list bytes
}.

Record ClientOptions := mkClientOptions {
  co_URI : string;
  co_ConnectTimeout : Z;
  co_TLSConfig : option TLSConfig
}.

(** [FindOneAndUpdate] and [ReplaceOne] are called with [SetUpsert(true)], the
    former with [SetReturnDocument(After)]; [UpdateOne] returns the number of
    documents matched.  [DB] is the server with its connections. *)
Class Mongo (DB : Type) := {
  Connect : ClientOptions -> M DB mongo_error unit;
  Ping : M DB mongo_error unit;
  Disconnect : M DB mongo_error unit;
  CreateOne : namespace -> list string -> bool -> M DB mongo_error unit;
  FindOneAndUpdate : namespace -> filter_doc -> update_op -> M DB mongo_error document;
  InsertOne : namespace -> document -> M DB mongo_error unit;
  FindOne : namespace -> filter_doc -> M DB mongo_error document;
  Find : namespace -> filter_doc -> M DB mongo_error cursor;
  UpdateOne : namespace -> filter_doc -> update_op -> M DB mongo_error Z;
  ReplaceOne : namespace -> filter_doc -> document -> M DB mongo_error unit
}.

(** ** What the documentation says of the calls *)

(** Two documents an index on [ks] cannot tell apart. *)
Definition same_key (ks : list string) (d d' : document) : Prop :=
  forall k, k ∈ ks -> d !! k = d' !! k.

Definition unique_by (ks : list string) (l : list document) : Prop :=
  forall i j d d', l !! i = Some d -> l !! j = Some d' -> same_key ks d d' -> i = j.

(** The first document that matches: its position and itself. *)
Definition find_first (f : filter_doc) (l : list document) : option (nat * document) :=
  list_find (matches f) l.
Definition first (f : filter_doc) (l : list document) : option document :=
  snd <$> find_first f l.

Class MongoLaws (DB : Type) `{Mongo DB} := {
  (** the documents of a collection, in natural order *)
  docs : DB -> namespace -> list document;
  (** the keys of its unique indexes *)
  indexed : DB -> namespace -> list string -> Prop;
  server_ok : DB -> Prop;

  index_unique s c ks : server_ok s -> indexed s c ks -> unique_by ks (docs s c);

  kept (s s' : DB) : Prop :=
    (forall c, docs s' c = docs s c) /\
    (forall c ks, indexed s' c ks <-> indexed s c ks) /\ (server_ok s -> server_ok s');
  wrote (c : namespace) (l : list document) (s s' : DB) : Prop :=
    docs s' c = l /\ (forall c', c' <> c -> docs s' c' = docs s c') /\
    (forall c' ks, indexed s' c' ks <-> indexed s c' ks) /\ (server_ok s -> server_ok s');

  Connect_law o s : let '(s', r) := Connect o s in kept s s' /\ is_panic r = false;
  Ping_law s : let '(s', r) := Ping s in kept s s' /\ is_panic r = false;
  CreateOne_law c ks (u : bool) s :
    match CreateOne c ks u s with
    | (s', Ok _) =>
        (forall c', docs s' c' = docs s c') /\
        (forall c' ks', indexed s' c' ks' <-> indexed s c' ks' \/ (u = true /\ c' = c /\ ks' = ks)) /\
        (server_ok s -> server_ok s')
    | (s', Err _) => kept s s'
    | (_, Panic _) => False
    end;
  FindOneAndUpdate_law c f u s :
    match FindOneAndUpdate c f u s with
    | (s', Ok d') =>
        match find_first f (docs s c) with
        | Some (i, d) => apply_update u d = Some d' /\ wrote c (<[i := d']> (docs s c)) s s'
        | None => exists id d, apply_update u (list_to_map f) = Some d /\ d' = with_id id d /\
                    wrote c (docs s c ++ [d']) s s'
        end
    | (s', Err _) => kept s s'
    | (_, Panic _) => False
    end;
  InsertOne_law c d s :
    match InsertOne c d s with
    | (s', Ok _) => exists id, wrote c (docs s c ++ [with_id id d]) s s'
    | (s', Err e) => kept s s' /\ (e = DuplicateKey -> d !! "_id" = None ->
                       exists ks d', indexed s c ks /\ d' ∈ docs s c /\ same_key ks d d')
    | (_, Panic _) => False
    end;
  FindOne_law c f s :
    match FindOne c f s with
    | (s', Ok d) => s' = s /\ first f (docs s c) = Some d
    | (s', Err e) => s' = s /\ (e = ErrNoDocuments -> first f (docs s c) = None)
    | (_, Panic _) => False
    end;
  Find_law c f s :
    match Find c f s with
    | (s', Ok cur) => s' = s /\ (cur_err cur = None -> cur_docs cur = filter (matches f) (docs s c))
    | (s', Err _) => s' = s
    | (_, Panic _) => False
    end;
  UpdateOne_law c f u s :
    match UpdateOne c f u s with
    | (s', Ok n) =>
        match find_first f (docs s c) with
        | Some (i, d) => n = 1 /\ exists d', apply_update u d = Some d' /\
                           wrote c (<[i := d']> (docs s c)) s s'
        | None => n = 0 /\ kept s s'
        end
    | (s', Err _) => kept s s'
    | (_, Panic _) => False
    end;
  ReplaceOne_law c f d s :
    match ReplaceOne c f d s with
    | (s', Ok _) =>
        match find_first f (docs s c) with
        | Some (i, old) => wrote c (<[i := replacement old d]> (docs s c)) s s'
        | None => exists id, wrote c (docs s c ++ [with_id id d]) s s'
        end
    | (s', Err _) => kept s s'
    | (_, Panic _) => False
    end
}.

(** ** Lemmas on filters *)

Lemma find_first_Some f l i d :
  find_first f l = Some (i, d) <->
  l !! i = Some d /\ matches f d /\ forall j y, l !! j = Some y -> (j < i)%nat -> ~ matches f y.
Proof. apply list_find_Some. Qed.

Lemma find_first_first f l i d : find_first f l = Some (i, d) -> first f l = Some d.
Proof. unfold first. by intros ->. Qed.

Lemma first_find f l d : first f l = Some d -> exists i, find_first f l = Some (i, d).
Proof. unfold first. destruct (find_first f l) as [[i d']|]; [|done]. intros [= <-]. eauto. Qed.

Lemma first_matches f l d : first f l = Some d -> d ∈ l /\ matches f d.
Proof.
  intros [i Hi]%first_find. apply find_first_Some in Hi as (Hi & Hm & _). split; [|done].
  by eapply list_elem_of_lookup_2.
Qed.

Lemma first_None f l : first f l = None <-> Forall (fun d => ~ matches f d) l.
Proof. unfold first. rewrite fmap_None. apply list_find_None. Qed.

Lemma first_is_Some f l : is_Some (first f l) <-> exists d, d ∈ l /\ matches f d.
Proof.
  split; [intros [d Hd]; exists d; by apply first_matches|].
  intros (d & Hd & Hm). destruct (first f l) eqn:E; [done|]. apply first_None in E.
  rewrite Forall_forall in E. by apply E in Hm.
Qed.

Lemma first_app f l d :
  first f (l ++ [d]) = match first f l with
                       | Some x => Some x
                       | None => if decide (matches f d) then Some d else None
                       end.
Proof.
  unfold first, find_first. destruct (list_find (matches f) l) as [[i x]|] eqn:E; simpl.
  - by rewrite (list_find_app_l _ _ _ _ _ E).
  - rewrite (list_find_app_r _ _ _ E). simpl. by destruct (decide (matches f d)).
Qed.

(** A document replaced in place, seen through a filter neither version
    matches, and through one that selected it and still does. *)
Lemma first_insert_ne f l i d d' :
  l !! i = Some d -> ~ matches f d -> ~ matches f d' -> first f (<[i := d']> l) = first f l.
Proof.
  intros Hl Hd Hd'. revert i Hl. induction l as [|x l IH]; intros [|i]; simpl; intros Hl; try done.
  - injection Hl as ->. unfold first, find_first. simpl. by rewrite !decide_False by done.
  - specialize (IH i Hl). unfold first, find_first in *. simpl.
    destruct (decide (matches f x)); [done|].
    destruct (list_find _ l) as [[]|], (list_find _ (<[i:=d']> l)) as [[]|]; simpl in *; congruence.
Qed.

Lemma first_insert_eq f l i d d' :
  find_first f l = Some (i, d) -> matches f d' -> first f (<[i := d']> l) = Some d'.
Proof.
  intros (Hi & _ & Hlt)%find_first_Some Hm. apply (find_first_first f _ i).
  apply find_first_Some. split; [|split; [done|]].
  - apply list_lookup_insert_eq. by eapply lookup_lt_Some.
  - intros j y Hj Hlt'. rewrite list_lookup_insert_ne in Hj by lia. by eapply Hlt.
Qed.

Lemma filter_insert_ne f (l : list document) i d d' :
  l !! i = Some d -> ~ matches f d -> ~ matches f d' ->
  filter (matches f) (<[i := d']> l) = filter (matches f) l.
Proof.
  intros Hl Hd Hd'. revert i Hl. induction l as [|x l IH]; intros [|i]; simpl; intros Hl; try done.
  - injection Hl as ->. by rewrite !filter_cons_False by done.
  - rewrite !filter_cons. by rewrite IH.
Qed.

(** Where an index is unique, a filter on its keys selects the only document
    that matches it. *)
Lemma first_unique f l d :
  unique_by f.*1 l -> d ∈ l -> matches f d -> first f l = Some d.
Proof.
  intros Hu Hd Hm. destruct (first f l) as [x|] eqn:E.
  - apply first_matches in E as [Hx Hmx].
    apply list_elem_of_lookup in Hd as [i Hi], Hx as [j Hj].
    assert (i = j) as ->; [|congruence]. apply (Hu i j d x Hi Hj).
    intros k ([k' v] & -> & Hk)%list_elem_of_fmap. unfold matches in *. rewrite Forall_forall in Hm, Hmx.
    by rewrite (Hm _ Hk), (Hmx _ Hk).
  - exfalso. assert (is_Some (first f l)) as [? ?]; [|congruence]. apply first_is_Some. eauto.
Qed.

Lemma matches_nil d : matches [] d <-> True.
Proof. split; [done|constructor]. Qed.
Lemma matches_cons k v f d : matches ((k, v) :: f) d <-> d !! k = Some v /\ matches f d.
Proof. unfold matches. by rewrite Forall_cons. Qed.

(** A filter sees the fields it names only. *)
Lemma matches_ext f (d d' : document) :
  (forall k, k ∈ f.*1 -> d !! k = d' !! k) -> matches f d <-> matches f d'.
Proof.
  intros Hk. unfold matches. induction f as [|[k v] f IH]; [done|]. rewrite !Forall_cons. simpl in *.
  rewrite IH by (intros k' Hk'; apply Hk; by apply list_elem_of_further).
  by rewrite (Hk k) by apply list_elem_of_here.
Qed.
