(* ===== verification/Mongo.v ===== *)
(** * [internal/store/mongodb.go]: the MongoDB store

    The BSON documents of each collection, [NewMongoDBStore], and the
    operations of the store over the driver's calls.  The deadline of an
    operation's context is an error of the call. *)

From S2P Require Import Prelude GoTime GoStrings Store Startup MongoDriver.
Local Open Scope Z_scope.

(** ** [net/url] and [strings] *)

(** [url.QueryEscape], on a byte. *)
Definition upper_hex (z : Z) : Byte.byte := z2b (if z <? 10 then z + 48 else z + 55).
Definition escape_byte (b : Byte.byte) : bytes :=
  if byte_in 97 122 b || byte_in 65 90 b || byte_in 48 57 b ||
     Byte.eqb b x2d || Byte.eqb b x5f || Byte.eqb b x2e || Byte.eqb b x7e then [b]
  else if Byte.eqb b x20 then [x2b]
  else [x25; upper_hex (b2z b / 16); upper_hex (b2z b mod 16)].
Definition QueryEscape (s : string) : string := go_string (go_bytes s ≫= escape_byte).

(** [strings.Replace(s, old, new, 1)] for an [old] that is not empty. *)
Fixpoint replace_bytes (old new l : bytes) : bytes :=
  match strip_prefix old l with
  | Some r => new ++ r
  | None => match l with [] => [] | b :: l' => b :: replace_bytes old new l' end
  end.
Definition ReplaceFirst (s old new : string) : string :=
  go_string (replace_bytes (go_bytes old) (go_bytes new) (go_bytes s)).

(** ** The documents

    A struct is encoded field by field under the names of its [bson] tags.
    Decoding takes a missing field for the zero value, and fails on a field
    of another type or out of the range of its Go type. *)

Definition decode_string (k : string) (d : document) : option string :=
  match d !! k with None => Some "" | Some (BString s) => Some s | Some _ => None end.
Definition decode_bytes (k : string) (d : document) : option bytes :=
  match d !! k with None => Some [] | Some (BBinary b) => Some b | Some _ => None end.
Definition decode_int (lo hi : Z) (k : string) (d : document) : option Z :=
  match d !! k with
  | None => Some 0
  | Some (BInt z) => if (lo <=? z) && (z <=? hi) then Some z else None
  | Some _ => None
  end.
Definition decode_int64 : string -> document -> option Z := decode_int min_int64 max_int64.

Record statusEntry := mkStatusEntry { se_Category : string; se_Idx : Z; se_Status : Z }.
Definition encode_statusEntry (e : statusEntry) : document :=
  list_to_map [("category", BString (se_Category e)); ("idx", BInt (se_Idx e));
               ("status", BInt (se_Status e))].
Definition decode_statusEntry (d : document) : option statusEntry :=
  c ← decode_string "category" d; i ← decode_int64 "idx" d; s ← decode_int 0 255 "status" d;
  Some (mkStatusEntry c i s).

Record clientIndexEntry := mkClientIndexEntry { ci_ClientID : string; ci_Category : string; ci_Idx : Z }.
Definition encode_clientIndexEntry (e : clientIndexEntry) : document :=
  list_to_map [("client_id", BString (ci_ClientID e)); ("category", BString (ci_Category e));
               ("idx", BInt (ci_Idx e))].
Definition decode_clientIndexEntry (d : document) : option clientIndexEntry :=
  cl ← decode_string "client_id" d; c ← decode_string "category" d; i ← decode_int64 "idx" d;
  Some (mkClientIndexEntry cl c i).

(** [UsedAt] is a date: milliseconds. *)
Record usageEntry := mkUsageEntry { ue_Category : string; ue_Idx : Z; ue_UsedAt : Z }.
Definition encode_usageEntry (e : usageEntry) : document :=
  list_to_map [("category", BString (ue_Category e)); ("idx", BInt (ue_Idx e));
               ("used_at", BDateTime (ue_UsedAt e))].

Definition encode_PublicKeyInfo (k : PublicKeyInfo) : document :=
  list_to_map [("kid", BString (pk_Kid k)); ("curve", BString (pk_Curve k));
               ("pub_key", BBinary (pk_PubKey k)); ("creation_time", BInt (pk_CreationTime k));
               ("client_id", BString (pk_ClientID k))].
Definition decode_PublicKeyInfo (d : document) : option PublicKeyInfo :=
  kid ← decode_string "kid" d; curve ← decode_string "curve" d; pub ← decode_bytes "pub_key" d;
  t ← decode_int64 "creation_time" d; cl ← decode_string "client_id" d;
  Some (mkPublicKeyInfo kid curve pub t cl).

Record opaqueRecordDoc := mkOpaqueRecordDoc { or_ClientID : string; or_Context : string; or_Record : bytes }.
Definition encode_opaqueRecordDoc (r : opaqueRecordDoc) : document :=
  list_to_map [("client_id", BString (or_ClientID r)); ("context", BString (or_Context r));
               ("record", BBinary (or_Record r))].
Definition decode_opaqueRecordDoc (d : document) : option opaqueRecordDoc :=
  cl ← decode_string "client_id" d; x ← decode_string "context" d; r ← decode_bytes "record" d;
  Some (mkOpaqueRecordDoc cl x r).

Record webauthnCredDoc := mkWebauthnCredDoc {
  wd_ClientID : string; wd_Context : string; wd_CredentialID : bytes; wd_PublicKey : bytes;
  wd_SignCount : Z; wd_AAGUID : bytes; wd_CreatedAt : Z
}.
Definition encode_webauthnCredDoc (w : webauthnCredDoc) : document :=
  list_to_map [("client_id", BString (wd_ClientID w)); ("context", BString (wd_Context w));
               ("credential_id", BBinary (wd_CredentialID w)); ("public_key", BBinary (wd_PublicKey w));
               ("sign_count", BInt (wd_SignCount w)); ("aaguid", BBinary (wd_AAGUID w));
               ("created_at", BInt (wd_CreatedAt w))].
Definition decode_webauthnCredDoc (d : document) : option webauthnCredDoc :=
  cl ← decode_string "client_id" d; x ← decode_string "context" d;
  id ← decode_bytes "credential_id" d; pub ← decode_bytes "public_key" d;
  n ← decode_int 0 (2 ^ 32 - 1) "sign_count" d; aaguid ← decode_bytes "aaguid" d;
  t ← decode_int64 "created_at" d;
  Some (mkWebauthnCredDoc cl x id pub n aaguid t).

(** ** The store

    [client] is the server as the client reaches it.  The collections are
    those of [database] under the names [NewMongoDBStore] gives them. *)

Record MongoDBStore (DB : Type) := mkMongoDBStore { client : DB; database : string }.
Arguments mkMongoDBStore {DB}.
Arguments client {DB}.
Arguments database {DB}.

(** The clock of the process: what [time.Now] reads during an operation. *)
Class WallClock (DB : Type) := { clock : DB -> Z }.

Module MongoDB.
Section Operations.
Context {DB : Type} `{!Mongo DB, !WallClock DB}.
Local Abbreviation S := (MongoDBStore DB).

Definition mongo_err (e : mongo_error) : error := PkgError "mongo".

(** A call on one of the store's collections, or on its client. *)
Definition call {A} (c : M DB mongo_error A) : M S mongo_error A :=
  zoom client (fun db s => mkMongoDBStore db (database s)) c.
Definition on {A} (name : string) (c : namespace -> M DB mongo_error A) : M S mongo_error A := fun s =>
  call (c (database s, name)) s.

(** [.Decode(&doc)] of a single result. *)
Definition decoded {A} (dec : document -> option A) (c : M S mongo_error document) : M S mongo_error A :=
  let! d := c in lift (of_option MongoOther (dec d)).

Definition counters : string := "counters".
Definition statuses : string := "statuses".
Definition clientIndices : string := "client_indices".
Definition usage : string := "usage".
Definition publicKeys : string := "public_keys".
Definition records : string := "opaque_records".
Definition webauthnCreds : string := "webauthn_credentials".

Definition create_index (name what : string) (keys : list string) (unique : bool) : M S error unit :=
  with_err (fun e => Wrapf ("failed to create " +:+ what +:+ " index") (mongo_err e))
    (on name (fun c => CreateOne c keys unique)).

Definition createIndexes : M S error unit :=
  create_index statuses "statuses" ["category"; "idx"] true ;;!
  create_index clientIndices "client_indices" ["client_id"; "category"] false ;;!
  create_index usage "usage" ["category"; "idx"] true ;;!
  create_index publicKeys "public_keys" ["kid"] true ;;!
  create_index records "records" ["client_id"; "context"] true ;;!
  create_index webauthnCreds "webauthn_credentials" ["client_id"; "context"] false.

Definition Close : M S error unit := with_err mongo_err (call Disconnect).
Definition PingStore : M S error unit := with_err mongo_err (call Ping).

Section New.
(** The files of the process and [crypto/x509]'s and [crypto/tls]'s readers of
    certificates: [AppendCertsFromPEM] tells whether it found one,
    [LoadX509KeyPair] reads the certificate and key files. *)
Context (ReadFile : string -> outcome error bytes) (AppendCertsFromPEM : bytes -> bool)
  (LoadX509KeyPair : string -> string -> outcome error bytes).

Definition mongo_uri (cfg : MongoDBConfig) : outcome error string :=
  if bool_decide (mg_PasswordPath cfg = "") then Ok (mg_URI cfg)
  else
    let? raw := map_err (Wrapf "failed to read MongoDB password file") (ReadFile (mg_PasswordPath cfg)) in
    let password := TrimSpace (go_string raw) in
    Ok (ReplaceFirst (mg_URI cfg) "${MONGODB_PASSWORD}" (QueryEscape password)).

Definition VersionTLS12 : Z := 771.

Definition mongo_tls (cfg : MongoDBConfig) : outcome error (option TLSConfig) :=
  if mg_TLSEnabled cfg then
    let? roots :=
      if bool_decide (mg_CAPath cfg = "") then Ok None
      else
        let? caCert := map_err (Wrapf "failed to read MongoDB CA certificate") (ReadFile (mg_CAPath cfg)) in
        let? _ := guard_ok (AppendCertsFromPEM caCert)
                    (Errorf "failed to parse MongoDB CA certificate") in
        Ok (Some caCert) in
    let? certs :=
      if bool_decide (mg_CertPath cfg = "") || bool_decide (mg_KeyPath cfg = "") then Ok []
      else
        let? cert := map_err (Wrapf "failed to load MongoDB client certificate")
                       (LoadX509KeyPair (mg_CertPath cfg) (mg_KeyPath cfg)) in
        Ok [cert] in
    Ok (Some (mkTLSConfig VersionTLS12 roots certs))
  else Ok None.

Definition db_name (cfg : MongoDBConfig) : string :=
  if bool_decide (mg_Database cfg = "") then "r2ps" else mg_Database cfg.

Definition NewMongoDBStore (cfg : MongoDBConfig) : M DB error S :=
  let timeout := if mg_Timeout cfg =? 0 then 10 else mg_Timeout cfg in
  let! uri := lift (mongo_uri cfg) in
  let! tlsCfg := lift (mongo_tls cfg) in
  let clientOptions := mkClientOptions uri (wrap64 (timeout * Second)) tlsCfg in
  with_err (fun e => Wrapf "failed to connect to MongoDB" (mongo_err e)) (Connect clientOptions) ;;!
  with_err (fun e => Wrapf "failed to ping MongoDB" (mongo_err e)) Ping ;;!
  fun db =>
    match createIndexes (mkMongoDBStore db (db_name cfg)) with
    | (s, Ok _) => (client s, Ok s)
    | (s, Err e) => (client s, Err (Wrapf "failed to create indexes" e))
    | (s, Panic p) => (client s, Panic p)
    end.
End New.

(** *** Status entries *)

Definition AllocateIndex (category : string) : M S error Z :=
  let! value :=
    with_err (fun e => Wrapf ("failed to allocate index for " +:+ fmt_q category) (mongo_err e))
      (decoded (decode_int64 "value")
         (on counters (fun c => FindOneAndUpdate c [("_id", BString category)] (Inc "value" 1)))) in
  let idx := wrap64 (value - 1) in
  with_err (fun e => Wrapf "failed to insert status entry" (mongo_err e))
    (on statuses (fun c => InsertOne c (encode_statusEntry (mkStatusEntry category idx StatusValid)))) ;;!
  ret idx.

Definition entry_filter (category : string) (idx : Z) : filter_doc :=
  [("category", BString category); ("idx", BInt idx)].

Definition err_index (category : string) (idx : Z) : error :=
  Errorf ("index " +:+ fmt_d idx +:+ " not found in category " +:+ fmt_q category).

Definition GetStatus (category : string) (idx : Z) : M S error Z :=
  let! entry :=
    with_err (fun e => match e with
                       | ErrNoDocuments => err_index category idx
                       | _ => Wrapf "failed to get status" (mongo_err e)
                       end)
      (decoded decode_statusEntry (on statuses (fun c => FindOne c (entry_filter category idx)))) in
  ret (se_Status entry).

Definition SetStatus (category : string) (idx status : Z) : M S error unit :=
  let! matched :=
    with_err (fun e => Wrapf "failed to set status" (mongo_err e))
      (on statuses (fun c => UpdateOne c (entry_filter category idx) (Set_ "status" (BInt status)))) in
  if matched =? 0 then fail (err_index category idx) else ret tt.

(** The documents of a cursor, one after the other. *)
Fixpoint each {A B} (dec : document -> option A) (what : string) (f : B -> A -> B) (acc : B)
    (l : list document) : outcome error B :=
  match l with
  | [] => Ok acc
  | d :: l' =>
      match dec d with
      | None => Err (Wrapf ("failed to decode " +:+ what) (mongo_err MongoOther))
      | Some e => each dec what f (f acc e) l'
      end
  end.

(** [for cursor.Next { Decode; ... }] and [cursor.Err] *)
Definition read_cursor {A B} (dec : document -> option A) (what : string) (f : B -> A -> B) (acc : B)
    (cur : cursor) : outcome error B :=
  let? b := each dec what f acc (cur_docs cur) in
  match cur_err cur with Some e => Err (Wrapf "cursor error" (mongo_err e)) | None => Ok b end.

(** [cursor.All]: every document, or an error. *)
Definition read_all {A} (dec : document -> option A) (cur : cursor) : outcome mongo_error (list A) :=
  match cur_err cur with Some e => Err e | None => of_option MongoOther (mapM dec (cur_docs cur)) end.

Definition GetAllStatuses (category : string) : M S error (gmap Z Z) :=
  let! cur := with_err (fun e => Wrapf "failed to find statuses" (mongo_err e))
                (on statuses (fun c => Find c [("category", BString category)])) in
  lift (read_cursor decode_statusEntry "status entry"
          (fun result entry => <[se_Idx entry := se_Status entry]> result) ∅ cur).

(** *** The indices of a client, and usage *)

Definition RecordWUA (clientID category : string) (idx : Z) : M S error unit :=
  with_err (fun e => Wrapf "failed to record WUA" (mongo_err e))
    (on clientIndices (fun c =>
       InsertOne c (encode_clientIndexEntry (mkClientIndexEntry clientID category idx)))).

Definition GetClientIndices (clientID category : string) : M S error (list Z) :=
  let! cur := with_err (fun e => Wrapf "failed to find client indices" (mongo_err e))
                (on clientIndices (fun c =>
                   Find c [("client_id", BString clientID); ("category", BString category)])) in
  lift (read_cursor decode_clientIndexEntry "client index"
          (fun indices entry => indices ++ [ci_Idx entry]) [] cur).

Definition RecordUsage (category : string) (idx : Z) : M S error unit :=
  let! r := attempt (on usage (fun c db =>
              InsertOne c (encode_usageEntry (mkUsageEntry category idx (clock db))) db)) in
  match r with
  | inl _ => ret tt
  | inr e =>
      if bool_decide (e = DuplicateKey) then ret tt
      else fail (Wrapf "failed to record usage" (mongo_err e))
  end.

Definition IsUsed (category : string) (idx : Z) : M S error bool :=
  let! r := attempt (on usage (fun c => FindOne c (entry_filter category idx))) in
  match r with
  | inl _ => ret true
  | inr ErrNoDocuments => ret false
  | inr e => fail (Wrapf "failed to check usage" (mongo_err e))
  end.

(** *** Public keys *)

Definition PutPublicKey (key : PublicKeyInfo) : M S error unit :=
  with_err (fun e => Wrapf "failed to put public key" (mongo_err e))
    (on publicKeys (fun c => ReplaceOne c [("kid", BString (pk_Kid key))] (encode_PublicKeyInfo key))).

Definition GetPublicKey (kid : string) : M S error PublicKeyInfo :=
  with_err (fun e => match e with
                     | ErrNoDocuments => Errorf ("key " +:+ fmt_q kid +:+ " not found")
                     | _ => Wrapf "failed to get public key" (mongo_err e)
                     end)
    (decoded decode_PublicKeyInfo (on publicKeys (fun c => FindOne c [("kid", BString kid)]))).

Definition ListPublicKeys (clientID : string) : M S error (list PublicKeyInfo) :=
  let filter := if bool_decide (clientID = "") then [] else [("client_id", BString clientID)] in
  let! cur := with_err (fun e => Wrapf "failed to find public keys" (mongo_err e))
                (on publicKeys (fun c => Find c filter)) in
  lift (map_err (fun e => Wrapf "failed to decode public keys" (mongo_err e))
          (read_all decode_PublicKeyInfo cur)).

(** *** OPAQUE records and WebAuthn credentials *)

Definition pair_filter (clientID ctxStr : string) : filter_doc :=
  [("client_id", BString clientID); ("context", BString ctxStr)].

Definition PutRecord (clientID ctxStr : string) (record : bytes) : M S error unit :=
  with_err (fun e => Wrapf "failed to put record" (mongo_err e))
    (on records (fun c => ReplaceOne c (pair_filter clientID ctxStr)
       (encode_opaqueRecordDoc (mkOpaqueRecordDoc clientID ctxStr record)))).

Definition GetRecord (clientID ctxStr : string) : M S error bytes :=
  let! doc :=
    with_err (fun e => match e with
                       | ErrNoDocuments => Errorf ("no record for " +:+ clientID +:+ "/" +:+ ctxStr)
                       | _ => Wrapf "failed to get record" (mongo_err e)
                       end)
      (decoded decode_opaqueRecordDoc (on records (fun c => FindOne c (pair_filter clientID ctxStr)))) in
  ret (or_Record doc).

Definition PutWebAuthnCredential (clientID ctxStr : string) (cred : WebAuthnCredential) : M S error unit :=
  let doc := mkWebauthnCredDoc clientID ctxStr (wc_CredentialID cred) (wc_PublicKey cred)
               (wc_SignCount cred) (wc_AAGUID cred) (wc_CreatedAt cred) in
  with_err (fun e => Wrapf "failed to put WebAuthn credential" (mongo_err e))
    (on webauthnCreds (fun c => InsertOne c (encode_webauthnCredDoc doc))).

Definition credential_of (d : webauthnCredDoc) : WebAuthnCredential :=
  mkWebAuthnCredential (wd_CredentialID d) (wd_PublicKey d) (wd_SignCount d) (wd_AAGUID d) (wd_CreatedAt d).

Definition GetWebAuthnCredential (clientID ctxStr : string) : M S error (list WebAuthnCredential) :=
  let! cur := with_err (fun e => Wrapf "failed to find WebAuthn credentials" (mongo_err e))
                (on webauthnCreds (fun c => Find c (pair_filter clientID ctxStr))) in
  let! ds := lift (map_err (fun e => Wrapf "failed to decode WebAuthn credentials" (mongo_err e))
                     (read_all decode_webauthnCredDoc cur)) in
  match ds with
  | [] => fail (Errorf ("no WebAuthn credentials for " +:+ clientID +:+ "/" +:+ ctxStr))
  | _ => ret (credential_of <$> ds)
  end.

Definition UpdateWebAuthnSignCount (clientID ctxStr : string) (credentialID : bytes) (signCount : Z) :
    M S error unit :=
  let! matched :=
    with_err (fun e => Wrapf "failed to update WebAuthn sign count" (mongo_err e))
      (on webauthnCreds (fun c =>
         UpdateOne c (pair_filter clientID ctxStr ++ [("credential_id", BBinary credentialID)])
           (Set_ "sign_count" (BInt signCount)))) in
  if matched =? 0 then fail (Errorf "credential not found") else ret tt.
End Operations.
End MongoDB.

#[export] Instance MongoDBStore_Store {DB} `{Mongo DB, WallClock DB} : Store (MongoDBStore DB) := {
  AllocateIndex := MongoDB.AllocateIndex;
  GetStatus := MongoDB.GetStatus;
  SetStatus := MongoDB.SetStatus;
  GetAllStatuses := MongoDB.GetAllStatuses;
  RecordWUA := MongoDB.RecordWUA;
  GetClientIndices := MongoDB.GetClientIndices;
  RecordUsage := MongoDB.RecordUsage;
  IsUsed := MongoDB.IsUsed;
  PutPublicKey := MongoDB.PutPublicKey;
  GetPublicKey := MongoDB.GetPublicKey;
  ListPublicKeys := MongoDB.ListPublicKeys;
  PutRecord := MongoDB.PutRecord;
  GetRecord := MongoDB.GetRecord;
  PutWebAuthnCredential := MongoDB.PutWebAuthnCredential;
  GetWebAuthnCredential := MongoDB.GetWebAuthnCredential;
  UpdateWebAuthnSignCount := MongoDB.UpdateWebAuthnSignCount
}.

Example QueryEscape_ex : QueryEscape "p@ss w~1" = "p%40ss+w~1".
Proof. vm_compute. reflexivity. Qed.
Example ReplaceFirst_ex :
  ReplaceFirst "mongodb://u:${MONGODB_PASSWORD}@db" "${MONGODB_PASSWORD}" "x" = "mongodb://u:x@db".
Proof. vm_compute. reflexivity. Qed.
