(* ===== verification/MongoStore.v ===== *)
(** * The MongoDB store keeps the laws of a store

    Whatever driver keeps MongoDB's documented behaviour, the store over it is
    a lawful [Store]: an index is never given twice, what is written is what
    is read, and each operation touches its own collection. *)

From S2P Require Import Prelude GoTime GoStrings Store StoreSpec Startup MongoDriver Mongo.
Import MongoDB.
Local Open Scope Z_scope.

(** ** Reading a field *)

Definition get_string (k : string) (d : document) : string :=
  match d !! k with Some (BString s) => s | _ => "" end.
Definition get_bytes (k : string) (d : document) : bytes :=
  match d !! k with Some (BBinary b) => b | _ => [] end.
Definition get_int (k : string) (d : document) : Z :=
  match d !! k with Some (BInt z) => z | _ => 0 end.

Lemma decode_string_get k d s : decode_string k d = Some s -> s = get_string k d.
Proof. unfold decode_string, get_string. destruct (d !! k) as [[]|]; naive_solver. Qed.
Lemma decode_bytes_get k d b : decode_bytes k d = Some b -> b = get_bytes k d.
Proof. unfold decode_bytes, get_bytes. destruct (d !! k) as [[]|]; naive_solver. Qed.
Lemma decode_int_get lo hi k d z : decode_int lo hi k d = Some z -> z = get_int k d.
Proof.
  unfold decode_int, get_int. destruct (d !! k) as [[]|]; try naive_solver.
  by destruct (_ && _); [intros [= <-]|].
Qed.

(** A decoder that succeeds reads the fields. *)
Ltac read_fields :=
  repeat match goal with
  | H : mbind _ _ = Some _ |- _ => apply bind_Some in H as (? & ? & H)
  | H : Some _ = Some _ |- _ => injection H as <-
  | H : decode_string _ _ = Some _ |- _ => apply decode_string_get in H as ->
  | H : decode_bytes _ _ = Some _ |- _ => apply decode_bytes_get in H as ->
  | H : decode_int _ _ _ _ = Some _ |- _ => apply decode_int_get in H as ->
  end.

Lemma decode_statusEntry_get d e :
  decode_statusEntry d = Some e ->
  e = mkStatusEntry (get_string "category" d) (get_int "idx" d) (get_int "status" d).
Proof. unfold decode_statusEntry, decode_int64. intros. by read_fields. Qed.

Definition get_key (d : document) : PublicKeyInfo :=
  mkPublicKeyInfo (get_string "kid" d) (get_string "curve" d) (get_bytes "pub_key" d)
    (get_int "creation_time" d) (get_string "client_id" d).
Lemma decode_PublicKeyInfo_get d k : decode_PublicKeyInfo d = Some k -> k = get_key d.
Proof. unfold decode_PublicKeyInfo, decode_int64. intros. by read_fields. Qed.

Definition get_cred (d : document) : WebAuthnCredential :=
  mkWebAuthnCredential (get_bytes "credential_id" d) (get_bytes "public_key" d)
    (get_int "sign_count" d) (get_bytes "aaguid" d) (get_int "created_at" d).
Lemma decode_webauthnCredDoc_get d w :
  decode_webauthnCredDoc d = Some w -> credential_of w = get_cred d.
Proof. unfold decode_webauthnCredDoc, decode_int64. intros. by read_fields. Qed.

(** What was encoded is read back, under an [_id] or in place of a document. *)
Lemma get_key_encode d k :
  (forall f, f <> "_id" -> d !! f = encode_PublicKeyInfo k !! f) -> get_key d = k.
Proof.
  intros Hd. unfold get_key, get_string, get_int, get_bytes. rewrite !Hd by done.
  destruct k. reflexivity.
Qed.
Lemma get_cred_encode d cl x c :
  (forall f, f <> "_id" -> d !! f =
     encode_webauthnCredDoc (mkWebauthnCredDoc cl x (wc_CredentialID c) (wc_PublicKey c)
       (wc_SignCount c) (wc_AAGUID c) (wc_CreatedAt c)) !! f) -> get_cred d = c.
Proof.
  intros Hd. unfold get_cred, get_int, get_bytes. rewrite !Hd by done. destruct c. reflexivity.
Qed.

(** ** Reading a cursor *)

Lemma each_Ok {A B} (dec : document -> option A) what (f : B -> A -> B) acc l b :
  each dec what f acc l = Ok b <-> exists es, mapM dec l = Some es /\ b = fold_left f es acc.
Proof.
  revert acc. induction l as [|d l IH]; intros acc; simpl.
  { split; [intros [= <-]; by exists []|]. by intros (es & [= <-] & ->). }
  destruct (dec d) as [e|]; simpl; [|by split; [|intros (es & Hes & _)]]. rewrite IH.
  destruct (mapM dec l) as [es'|]; simpl; [|by split; intros (es & Hes & _)].
  split; [intros (es & [= <-] & ->); by exists (e :: es')|].
  intros (es & [= <-] & ->). by exists es'.
Qed.

Lemma read_cursor_Ok {A B} (dec : document -> option A) what (f : B -> A -> B) acc cur b :
  read_cursor dec what f acc cur = Ok b <->
  cur_err cur = None /\ exists es, mapM dec (cur_docs cur) = Some es /\ b = fold_left f es acc.
Proof.
  unfold read_cursor. rewrite obind_Ok. destruct (cur_err cur) as [e|].
  { split; [by intros (? & _ & ?)|by intros [? _]]. }
  split.
  - intros (b' & Hb & [= <-]). split; [done|]. by apply each_Ok in Hb.
  - intros [_ Hb]. exists b. split; [|done]. by apply each_Ok.
Qed.

Lemma read_all_Ok {A} (dec : document -> option A) cur l :
  read_all dec cur = Ok l <-> cur_err cur = None /\ mapM dec (cur_docs cur) = Some l.
Proof.
  unfold read_all. destruct (cur_err cur); [by split; [|intros [? _]]|].
  rewrite of_option_Ok. by split; [|intros [_ ?]].
Qed.

Lemma each_no_panic {A B} (dec : document -> option A) what (f : B -> A -> B) acc l :
  is_panic (each dec what f acc l) = false.
Proof. revert acc. induction l as [|d l IH]; intros acc; simpl; [done|]. by destruct (dec d). Qed.

Lemma read_cursor_no_panic {A B} (dec : document -> option A) what (f : B -> A -> B) acc cur :
  is_panic (read_cursor dec what f acc cur) = false.
Proof.
  apply obind_no_panic; [apply each_no_panic|]. intros b _. by destruct (cur_err cur).
Qed.

Lemma mapM_get {A B} (dec : document -> option A) (g : A -> B) (get : document -> B) l es :
  (forall d e, dec d = Some e -> g e = get d) -> mapM dec l = Some es -> g <$> es = get <$> l.
Proof.
  intros Hg. revert es. induction l as [|d l IH]; intros es; simpl; [by intros [= <-]|].
  intros (e & He & (es' & Hes & [= <-])%bind_Some)%bind_Some. simpl.
  f_equal; [by apply Hg|by apply IH].
Qed.
(** ** What a written document shows *)

Lemma matches_with_id f id d : "_id" ∉ f.*1 -> matches f (with_id id d) <-> matches f d.
Proof. intros Hf. apply matches_ext. intros k Hk. apply lookup_with_id. by intros ->. Qed.

Lemma matches_replacement f old d : "_id" ∉ f.*1 -> matches f (replacement old d) <-> matches f d.
Proof. intros Hf. apply matches_ext. intros k Hk. apply lookup_replacement. by intros ->. Qed.

Lemma matches_set f k v d : k ∉ f.*1 -> matches f (<[k := v]> d) <-> matches f d.
Proof. intros Hf. apply matches_ext. intros k' Hk. apply lookup_insert_ne. by intros ->. Qed.

Lemma matches_two k1 v1 k2 v2 d :
  matches [(k1, v1); (k2, v2)] d <-> d !! k1 = Some v1 /\ d !! k2 = Some v2.
Proof. rewrite !matches_cons, matches_nil. naive_solver. Qed.
Lemma matches_one k v d : matches [(k, v)] d <-> d !! k = Some v.
Proof. rewrite matches_cons, matches_nil. naive_solver. Qed.

Definition client_filter (cl c : string) : filter_doc :=
  [("client_id", BString cl); ("category", BString c)].

(** The filters of the store do not name [_id]. *)
Ltac no_id := cbn; rewrite ?not_elem_of_cons; repeat split; try done; apply not_elem_of_nil.

(** Filters on the same two fields select the same document only if they are
    the same. *)
Lemma matches_two_inj k1 v1 k2 v2 w1 w2 d :
  matches [(k1, v1); (k2, v2)] d -> matches [(k1, w1); (k2, w2)] d <-> w1 = v1 /\ w2 = v2.
Proof. rewrite !matches_two. intros [-> ->]. naive_solver. Qed.

Lemma entry_filter_inj c i c' i' d :
  matches (entry_filter c i) d -> matches (entry_filter c' i') d <-> c' = c /\ i' = i.
Proof. intros Hm. unfold entry_filter in *. rewrite (matches_two_inj _ _ _ _ _ _ _ Hm). naive_solver. Qed.
Lemma pair_filter_inj cl x cl' x' d :
  matches (pair_filter cl x) d -> matches (pair_filter cl' x') d <-> cl' = cl /\ x' = x.
Proof. intros Hm. unfold pair_filter in *. rewrite (matches_two_inj _ _ _ _ _ _ _ Hm). naive_solver. Qed.
Lemma client_filter_inj cl c cl' c' d :
  matches (client_filter cl c) d -> matches (client_filter cl' c') d <-> cl' = cl /\ c' = c.
Proof. intros Hm. unfold client_filter in *. rewrite (matches_two_inj _ _ _ _ _ _ _ Hm). naive_solver. Qed.

Lemma matches_encode_status c' i' c i v :
  matches (entry_filter c' i') (encode_statusEntry (mkStatusEntry c i v)) <-> c' = c /\ i' = i.
Proof. apply entry_filter_inj. by apply matches_two. Qed.
Lemma matches_encode_usage c' i' c i t :
  matches (entry_filter c' i') (encode_usageEntry (mkUsageEntry c i t)) <-> c' = c /\ i' = i.
Proof. apply entry_filter_inj. by apply matches_two. Qed.
Lemma matches_encode_index cl' c' cl c i :
  matches (client_filter cl' c') (encode_clientIndexEntry (mkClientIndexEntry cl c i)) <-> cl' = cl /\ c' = c.
Proof. apply client_filter_inj. by apply matches_two. Qed.
Lemma matches_encode_record cl' x' cl x r :
  matches (pair_filter cl' x') (encode_opaqueRecordDoc (mkOpaqueRecordDoc cl x r)) <-> cl' = cl /\ x' = x.
Proof. apply pair_filter_inj. by apply matches_two. Qed.
Lemma matches_encode_cred cl' x' cl x a b n g t :
  matches (pair_filter cl' x') (encode_webauthnCredDoc (mkWebauthnCredDoc cl x a b n g t)) <->
  cl' = cl /\ x' = x.
Proof. apply pair_filter_inj. by apply matches_two. Qed.
Lemma matches_encode_key kid k : matches [("kid", BString kid)] (encode_PublicKeyInfo k) <-> kid = pk_Kid k.
Proof.
  rewrite matches_one. change (encode_PublicKeyInfo k !! "kid") with (Some (BString (pk_Kid k))).
  naive_solver.
Qed.

(** The credential a filter with its ID selects is the first of its client
    and context with that ID. *)
Lemma bytesEqual_spec a b : Memory.bytesEqual a b = true <-> a = b.
Proof.
  revert b. induction a as [|x a IH]; intros [|y b]; simpl; try done.
  rewrite andb_true_iff, byte_eqb_eq, IH. naive_solver.
Qed.

Lemma update_first_docs f id n l i d :
  Forall (fun d => exists b, d !! "credential_id" = Some (BBinary b)) l ->
  "sign_count" ∉ f.*1 ->
  find_first (f ++ [("credential_id", BBinary id)]) l = Some (i, d) ->
  Memory.update_first id n (get_cred <$> filter (matches f) l) =
    Some (get_cred <$> filter (matches f) (<[i := <["sign_count" := BInt n]> d]> l)).
Proof.
  intros Hl Hf. revert i. induction Hl as [|x l [b Hb] Hl IH]; intros i; [done|].
  unfold find_first. cbn [list_find].
  destruct (decide (matches (f ++ [("credential_id", BBinary id)]) x)) as [Hm|Hm].
  - intros [= <- <-]. assert (matches f x /\ x !! "credential_id" = Some (BBinary id)) as [Hmf Hid].
    { revert Hm. unfold matches. by rewrite Forall_app, Forall_singleton. }
    simpl insert. rewrite !filter_cons_True by (try apply matches_set; done). simpl.
    rewrite (proj2 (bytesEqual_spec _ _)) by (unfold get_bytes; by rewrite Hid).
    do 2 f_equal. unfold get_cred, Memory.set_SignCount, get_bytes, get_int. simpl.
    by rewrite lookup_insert_eq, !lookup_insert_ne by done.
  - destruct (list_find _ l) as [[j y]|] eqn:E; [|done]. intros [= <- <-].
    specialize (IH j E). simpl insert. rewrite !filter_cons.
    destruct (decide (matches f x)) as [Hmx|Hmx]; [|done]. rewrite !fmap_cons.
    cbn [Memory.update_first]. change (wc_CredentialID (get_cred x)) with (get_bytes "credential_id" x).
    destruct (Memory.bytesEqual _ _) eqn:Eb; [|by rewrite IH].
    apply bytesEqual_spec in Eb. exfalso. apply Hm. unfold matches.
    rewrite Forall_app, Forall_singleton. split; [done|]. simpl. rewrite Hb. do 2 f_equal.
    revert Eb. simpl. unfold get_bytes. by rewrite Hb.
Qed.

(** ** What the store shows *)

Section Laws.
Context {DB : Type} `{MongoLaws DB, WallClock DB}.
Local Abbreviation S := (MongoDBStore DB).

(** The documents of one of the store's collections. *)
Definition col (s : S) (name : string) : list document := docs (client s) (database s, name).

Definition mongo_status (s : S) (c : string) (i : Z) : option Z :=
  get_int "status" <$> first (entry_filter c i) (col s statuses).
Definition mongo_indices (s : S) (cl c : string) : list Z :=
  get_int "idx" <$> filter (matches (client_filter cl c)) (col s clientIndices).
Definition mongo_record (s : S) (cl x : string) : option bytes :=
  get_bytes "record" <$> first (pair_filter cl x) (col s records).
Definition mongo_creds (s : S) (cl x : string) : list WebAuthnCredential :=
  get_cred <$> filter (matches (pair_filter cl x)) (col s webauthnCreds).
Definition mongo_key (s : S) (kid : string) : option PublicKeyInfo :=
  get_key <$> first [("kid", BString kid)] (col s publicKeys).
Definition mongo_used (s : S) (c : string) (i : Z) : bool :=
  bool_decide (is_Some (first (entry_filter c i) (col s usage))).

(** ** When the database is the store's

    Each collection holds documents as the store writes them, the counters
    never went below zero, and the unique indexes are those of
    [createIndexes]. *)

Definition doc_ok (name : string) (d : document) : Prop :=
  (name = statuses -> exists c i, matches (entry_filter c i) d) /\
  (name = publicKeys -> exists kid, d !! "kid" = Some (BString kid)) /\
  (name = webauthnCreds -> exists id, d !! "credential_id" = Some (BBinary id)) /\
  (name = counters -> forall v, d !! "value" = Some (BInt v) -> 0 <= v).

Record mongo_ok (s : S) : Prop := {
  ok_server : server_ok (client s);
  ok_statuses : indexed (client s) (database s, statuses) ["category"; "idx"];
  ok_keys : indexed (client s) (database s, publicKeys) ["kid"];
  ok_usage ks : indexed (client s) (database s, usage) ks -> ks = ["category"; "idx"];
  ok_docs name : Forall (doc_ok name) (col s name)
}.

(** What a call does to the store: nothing, or one collection changed. *)
Definition intact (s s' : S) : Prop := database s' = database s /\ kept (client s) (client s').
Definition changed (name : string) (l : list document) (s s' : S) : Prop :=
  database s' = database s /\ wrote (database s, name) l (client s) (client s').

Lemma intact_refl s : intact s s.
Proof. by repeat split. Qed.

Lemma intact_col s s' name : intact s s' -> col s' name = col s name.
Proof. intros [Hd (Hk & _)]. unfold col. by rewrite Hd, Hk. Qed.

Lemma changed_col s s' name l name' :
  changed name l s s' -> col s' name' = if decide (name' = name) then l else col s name'.
Proof.
  intros [Hd (Hl & Hne & _)]. unfold col. rewrite Hd. case_decide as Hn; [by rewrite Hn|].
  apply Hne. congruence.
Qed.

Lemma intact_ok s s' : intact s s' -> mongo_ok s -> mongo_ok s'.
Proof.
  intros Hi [Hser Hst Hky Hus Hdc]. pose proof Hi as [Hd (_ & Hx & Hok)]. split; rewrite ?Hd.
  - by apply Hok.
  - by apply Hx.
  - by apply Hx.
  - intros ks Hks. apply Hus. by apply Hx.
  - intros name. by rewrite (intact_col _ _ _ Hi).
Qed.

Lemma changed_ok name l s s' :
  changed name l s s' -> mongo_ok s -> Forall (doc_ok name) l -> mongo_ok s'.
Proof.
  intros Hc [Hser Hst Hky Hus Hdc] Hl. pose proof Hc as [Hd (_ & _ & Hx & Hok)]. split; rewrite ?Hd.
  - by apply Hok.
  - by apply Hx.
  - by apply Hx.
  - intros ks Hks. apply Hus. by apply Hx.
  - intros name'. rewrite (changed_col _ _ _ _ _ Hc). by case_decide; subst.
Qed.

(** ** Parts and collections *)

Definition part_col (p : part) : string :=
  match p with
  | PStatus => statuses | PIndices => clientIndices | PRecords => records
  | PCreds => webauthnCreds | PKeys => publicKeys | PUsed => usage
  end.

Definition agrees (p : part) (s s' : S) : Prop :=
  match p with
  | PStatus => forall c i, mongo_status s' c i = mongo_status s c i
  | PIndices => forall cl c, True -> mongo_indices s' cl c = mongo_indices s cl c
  | PRecords => forall cl x, True -> mongo_record s' cl x = mongo_record s cl x
  | PCreds => forall cl x, True -> mongo_creds s' cl x = mongo_creds s cl x
  | PKeys => forall k, mongo_key s' k = mongo_key s k
  | PUsed => forall c i, mongo_used s' c i = mongo_used s c i
  end.

Lemma agrees_col p s s' : col s' (part_col p) = col s (part_col p) -> agrees p s s'.
Proof.
  unfold agrees, mongo_status, mongo_indices, mongo_record, mongo_creds, mongo_key, mongo_used.
  destruct p; cbn [part_col]; intros ->; done.
Qed.

Lemma part_col_inj p q : part_col p = part_col q -> p = q.
Proof. by destruct p, q. Qed.

Definition frames (p : part) (s s' : S) : Prop :=
  (mongo_ok s -> mongo_ok s') /\ forall q, q <> p -> agrees q s s'.

Lemma intact_frames p s s' : intact s s' -> frames p s s'.
Proof.
  intros Hi. split; [by apply intact_ok|]. intros q _. by apply agrees_col, intact_col.
Qed.

Lemma intact_unchanged s s' :
  intact s s' -> (mongo_ok s -> mongo_ok s') /\ forall q, agrees q s s'.
Proof.
  intros Hi. split; [by apply intact_ok|]. intros q. by apply agrees_col, intact_col.
Qed.

Lemma changed_frames p l s s' :
  changed (part_col p) l s s' -> (mongo_ok s -> Forall (doc_ok (part_col p)) l) -> frames p s s'.
Proof.
  intros Hc Hl. split; [intros Hok; by eapply changed_ok; [done|done|apply Hl]|].
  intros q Hq. apply agrees_col. rewrite (changed_col _ _ _ _ _ Hc), decide_False; [done|].
  intros Heq. by apply Hq, part_col_inj.
Qed.

(** ** The calls, on a collection of the store *)

Lemma on_InsertOne name (d : DB -> document) s :
  match on name (fun c db => InsertOne c (d db) db) s with
  | (s', Ok _) => exists id, changed name (col s name ++ [with_id id (d (client s))]) s s'
  | (s', Err e) => intact s s' /\ (e = DuplicateKey -> d (client s) !! "_id" = None ->
      exists ks d', indexed (client s) (database s, name) ks /\ d' ∈ col s name /\
        same_key ks (d (client s)) d')
  | (_, Panic _) => False
  end.
Proof.
  unfold on, call, zoom. pose proof (InsertOne_law (database s, name) (d (client s)) (client s)) as HL.
  destruct (InsertOne _ _ _) as [db' [u|e|m]]; [|by destruct HL|done].
  destruct HL as [id HL]. by exists id.
Qed.

Lemma on_FindOne name f s :
  match on name (fun c => FindOne c f) s with
  | (s', Ok d) => s' = s /\ first f (col s name) = Some d
  | (s', Err e) => s' = s /\ (e = ErrNoDocuments -> first f (col s name) = None)
  | (_, Panic _) => False
  end.
Proof.
  unfold on, call, zoom. pose proof (FindOne_law (database s, name) f (client s)) as HL.
  destruct s, (FindOne _ _ _) as [db' [u|e|m]]; [| |done]; by destruct HL as [-> HL].
Qed.

Lemma on_Find name f s :
  match on name (fun c => Find c f) s with
  | (s', Ok cur) => s' = s /\ (cur_err cur = None -> cur_docs cur = filter (matches f) (col s name))
  | (s', Err _) => s' = s
  | (_, Panic _) => False
  end.
Proof.
  unfold on, call, zoom. pose proof (Find_law (database s, name) f (client s)) as HL.
  destruct s, (Find _ _ _) as [db' [u|e|m]]; [|by subst|done]; by destruct HL as [-> HL].
Qed.

Lemma on_UpdateOne name f u s :
  match on name (fun c => UpdateOne c f u) s with
  | (s', Ok n) =>
      match find_first f (col s name) with
      | Some (i, d) => n = 1 /\ exists d', apply_update u d = Some d' /\
                         changed name (<[i := d']> (col s name)) s s'
      | None => n = 0 /\ intact s s'
      end
  | (s', Err _) => intact s s'
  | (_, Panic _) => False
  end.
Proof.
  unfold on, call, zoom, col. pose proof (UpdateOne_law (database s, name) f u (client s)) as HL.
  destruct (UpdateOne _ _ _ _) as [db' [n|e|m]]; [|done|done].
  destruct (find_first _ _) as [[i d]|]; [|by destruct HL as [-> HL]]. destruct HL as (-> & d' & Hd & Hw). split; [done|]. by exists d'.
Qed.

Lemma on_ReplaceOne name f d s :
  match on name (fun c => ReplaceOne c f d) s with
  | (s', Ok _) =>
      match find_first f (col s name) with
      | Some (i, old) => changed name (<[i := replacement old d]> (col s name)) s s'
      | None => exists id, changed name (col s name ++ [with_id id d]) s s'
      end
  | (s', Err _) => intact s s'
  | (_, Panic _) => False
  end.
Proof.
  unfold on, call, zoom, col. pose proof (ReplaceOne_law (database s, name) f d (client s)) as HL.
  destruct (ReplaceOne _ _ _ _) as [db' [n|e|m]]; [|done|done].
  destruct (find_first _ _) as [[i old]|]; [done|]. destruct HL as [id HL]. by exists id.
Qed.

Lemma on_FindOneAndUpdate name f u s :
  match on name (fun c => FindOneAndUpdate c f u) s with
  | (s', Ok d') =>
      match find_first f (col s name) with
      | Some (i, d) => apply_update u d = Some d' /\ changed name (<[i := d']> (col s name)) s s'
      | None => exists id d, apply_update u (list_to_map f) = Some d /\ d' = with_id id d /\
                  changed name (col s name ++ [d']) s s'
      end
  | (s', Err _) => intact s s'
  | (_, Panic _) => False
  end.
Proof.
  unfold on, call, zoom, col.
  pose proof (FindOneAndUpdate_law (database s, name) f u (client s)) as HL.
  destruct (FindOneAndUpdate _ _ _ _) as [db' [n|e|m]]; [|done|done].
  destruct (find_first _ _) as [[i d]|]; [by destruct HL|]. destruct HL as (id & d & Hd & -> & Hw). by exists id, d.
Qed.



(** ** Status entries *)

(** The counter of a category: above zero after an increment. *)
Lemma Inc_value d d' :
  apply_update (Inc "value" 1) d = Some d' -> doc_ok counters d ->
  exists v, d' !! "value" = Some (BInt v) /\ 1 <= v.
Proof.
  intros Hu (_ & _ & _ & Hx). specialize (Hx eq_refl). revert Hu. simpl.
  destruct (d !! "value") as [[]|] eqn:E; try done; intros [= <-]; rewrite lookup_insert_eq.
  - eexists. split; [done|]. specialize (Hx _ eq_refl). lia.
  - by eexists.
Qed.

Lemma counter_doc_ok d v : d !! "value" = Some (BInt v) -> 0 <= v -> doc_ok counters d.
Proof. intros Hd Hv. split_and!; try done. intros _ v'. rewrite Hd. by intros [= <-]. Qed.

Lemma counter_step c s :
  mongo_ok s ->
  match decoded (decode_int64 "value")
          (on counters (fun k => FindOneAndUpdate k [("_id", BString c)] (Inc "value" 1))) s with
  | (s', Ok v) => (mongo_ok s' /\ (forall q, col s' (part_col q) = col s (part_col q))) /\ 1 <= v <= max_int64
  | (s', Err _) => mongo_ok s' /\ forall q, col s' (part_col q) = col s (part_col q)
  | (_, Panic _) => False
  end.
Proof.
  intros Hok. unfold decoded, bind.
  pose proof (on_FindOneAndUpdate counters [("_id", BString c)] (Inc "value" 1) s) as HL.
  destruct (on counters _ s) as [s' [d|e|m]]; [| |done].
  2:{ split; [by eapply intact_ok|]. intros q. by apply intact_col. }
  pose proof (ok_docs _ Hok counters) as Hd.
  assert (exists l v, changed counters l s s' /\ Forall (doc_ok counters) l /\
            d !! "value" = Some (BInt v) /\ 1 <= v) as (l & v & Hc & Hl & Hv & Hv1).
  { destruct (find_first _ _) as [[i x]|] eqn:E.
    - destruct HL as [Hu Hc]. apply find_first_Some in E as (Hi & _ & _).
      destruct (Inc_value _ _ Hu) as (v & Hv & Hv1); [by eapply Forall_lookup_1|].
      eexists _, v. split; [exact Hc|]. split; [|done]. apply Forall_insert; [done|].
      eapply counter_doc_ok; [done|lia].
    - destruct HL as (id & x & Hx & -> & Hc).
      destruct (Inc_value _ _ Hx) as (v & Hv & Hv1).
      { split_and!; try done. }
      rewrite <-(lookup_with_id id) in Hv by done.
      eexists _, v. split; [exact Hc|]. split; [|done].
      apply Forall_app_2; [done|]. apply Forall_singleton. eapply counter_doc_ok; [done|lia]. }
  assert (mongo_ok s' /\ forall q, col s' (part_col q) = col s (part_col q)) as Hs'.
  { split; [by eapply changed_ok|]. intros q. rewrite (changed_col _ _ _ _ _ Hc), decide_False; [done|].
    by destruct q. }
  unfold lift, decode_int64, decode_int. rewrite Hv.
  destruct (_ && _) eqn:Eb; simpl; [|done]. split; [done|]. lia.
Qed.

(** A new entry is the only one under its index. *)
Lemma status_fresh s s' c i v id :
  mongo_ok s -> mongo_ok s' ->
  changed statuses (col s statuses ++ [with_id id (encode_statusEntry (mkStatusEntry c i v))]) s s' ->
  mongo_status s c i = None /\
  forall c' i', mongo_status s' c' i' = if decide (c' = c /\ i' = i) then Some v else mongo_status s c' i'.
Proof.
  intros Hok Hok' Hc. set (e := encode_statusEntry (mkStatusEntry c i v)).
  assert (first (entry_filter c i) (col s statuses) = None) as Hn.
  { destruct (first _ _) as [d|] eqn:E; [|done]. exfalso.
    apply first_matches in E as [[j Hj]%list_elem_of_lookup Hm].
    pose proof (index_unique _ _ _ (ok_server _ Hok') (ok_statuses _ Hok')) as Hu.
    fold (col s' statuses) in Hu. rewrite (changed_col _ _ _ _ _ Hc), decide_True in Hu by done.
    pose proof (lookup_lt_Some _ _ _ Hj) as Hlt.
    assert (j = length (col s statuses)) as ->; [|lia].
    eapply (Hu _ _ d (with_id id e)).
    - by rewrite lookup_app_l.
    - by rewrite list_lookup_middle.
    - apply matches_two in Hm as [Hm1 Hm2]. intros k Hk.
      rewrite !elem_of_cons in Hk. destruct Hk as [->|[->|Hk]]; [..|by apply elem_of_nil in Hk];
        by rewrite lookup_with_id, ?Hm1, ?Hm2. }
  split; [unfold mongo_status; by rewrite Hn|]. intros c' i'. unfold mongo_status.
  rewrite (changed_col _ _ _ _ _ Hc), decide_True by done. rewrite first_app.
  assert (matches (entry_filter c' i') (with_id id e) <-> c' = c /\ i' = i) as Hm.
  { rewrite matches_with_id by no_id. apply matches_encode_status. }
  destruct (decide (c' = c /\ i' = i)) as [[-> ->]|Hne].
  - rewrite Hn, decide_True by by apply Hm. simpl. unfold get_int. by rewrite lookup_with_id.
  - destruct (first (entry_filter c' i') _); [done|]. rewrite decide_False; [done|]. by intros ?%Hm.
Qed.

Lemma AllocateIndex_mongo s c : mongo_ok s ->
  match AllocateIndex c s with
  | (s', Ok i) => frames PStatus s s' /\ 0 <= i /\ mongo_status s c i = None /\
      forall c' i', mongo_status s' c' i' =
        if decide (c' = c /\ i' = i) then Some StatusValid else mongo_status s c' i'
  | (s', Err _) => (mongo_ok s -> mongo_ok s') /\ forall q, agrees q s s'
  | (_, Panic _) => False
  end.
Proof.
  intros Hok. unfold AllocateIndex, bind at 1, with_err at 1.
  pose proof (counter_step c s Hok) as HL.
  destruct (decoded _ _ s) as [s1 [v|e|m]]; [|by destruct HL as [? HL]; split; [|intros q; apply agrees_col, HL]|done].
  destruct HL as [[Hok1 Hcol] Hv]. cbn [map_err].
  assert (wrap64 (v - 1) = v - 1) as ->.
  { apply wrap64_id. unfold is_int64, min_int64, max_int64 in *. lia. }
  unfold bind, with_err, ret.
  pose proof (on_InsertOne statuses (fun _ => encode_statusEntry (mkStatusEntry c (v - 1) StatusValid)) s1) as HI.
  cbv beta in HI. destruct (on statuses _ s1) as [s' [u|e|m]]; cbn [map_err]; [| |done].
  - destruct HI as [id Hc].
    assert (mongo_ok s') as Hok'.
    { eapply changed_ok; [done|done|]. apply Forall_app_2; [apply (ok_docs _ Hok1)|].
      apply Forall_singleton. split_and!; try done. intros _. exists c, (v - 1).
      rewrite matches_with_id by no_id. by apply matches_encode_status. }
    destruct (status_fresh _ _ _ _ _ _ Hok1 Hok' Hc) as [Hn Hs].
    assert (forall c' i', mongo_status s1 c' i' = mongo_status s c' i') as Hsame.
    { intros c' i'. apply (agrees_col PStatus s s1). apply Hcol. }
    split_and!; [split; [done|]|lia| |].
    + intros q Hq. apply agrees_col. rewrite (changed_col _ _ _ _ _ Hc), decide_False; [apply Hcol|].
      intros Heq. by apply Hq, part_col_inj.
    + by rewrite <-Hsame.
    + intros c' i'. by rewrite Hs, Hsame.
  - destruct HI as [Hi _]. split; [intros _; by eapply intact_ok|].
    intros q. apply agrees_col. by rewrite (intact_col _ _ _ Hi).
Qed.

Lemma GetStatus_mongo s c i :
  match GetStatus c i s with
  | (s', Ok v) => s' = s /\ mongo_status s c i = Some v
  | (s', Err _) => s' = s
  | (_, Panic _) => False
  end.
Proof.
  unfold GetStatus, bind, with_err, decoded, bind, lift, ret.
  pose proof (on_FindOne statuses (entry_filter c i) s) as HL.
  destruct (on statuses _ s) as [s' [d|e|m]]; [|by destruct HL|done].
  destruct HL as [-> Hf]. destruct (decode_statusEntry d) as [e|] eqn:E; [|done]. simpl.
  split; [done|]. apply decode_statusEntry_get in E as ->. unfold mongo_status. by rewrite Hf.
Qed.

Lemma SetStatus_mongo s c i v :
  match SetStatus c i v s with
  | (s', Ok _) => frames PStatus s s' /\ is_Some (mongo_status s c i) /\
      forall c' i', mongo_status s' c' i' =
        if decide (c' = c /\ i' = i) then Some v else mongo_status s c' i'
  | (s', Err _) => (mongo_ok s -> mongo_ok s') /\ forall q, agrees q s s'
  | (_, Panic _) => False
  end.
Proof.
  unfold SetStatus, bind, with_err.
  pose proof (on_UpdateOne statuses (entry_filter c i) (Set_ "status" (BInt v)) s) as HL.
  destruct (on statuses _ s) as [s' [n|e|m]]; [|by apply intact_unchanged|done]. cbn [map_err].
  destruct (find_first _ _) as [[j d]|] eqn:E;
    [|destruct HL as [-> HL]; by apply intact_unchanged].
  destruct HL as (-> & d' & [= <-] & Hc). simpl.
  pose proof (proj1 (find_first_Some _ _ _ _) E) as (Hj & Hm & _).
  assert (forall c' i', matches (entry_filter c' i') (<["status" := BInt v]> d) <-> c' = c /\ i' = i) as Hm'.
  { intros c' i'. rewrite matches_set by no_id. by apply entry_filter_inj. }
  split_and!.
  - apply (changed_frames PStatus _ _ _ Hc). intros Hok. apply Forall_insert; [apply (ok_docs _ Hok)|].
    split_and!; try done. intros _. exists c, i. by apply Hm'.
  - unfold mongo_status. by rewrite (find_first_first _ _ _ _ E).
  - intros c' i'. unfold mongo_status. rewrite (changed_col _ _ _ _ _ Hc), decide_True by done.
    destruct (decide (c' = c /\ i' = i)) as [[-> ->]|Hne].
    + rewrite (first_insert_eq _ _ _ d) by (done || by apply Hm'). simpl.
      unfold get_int. by rewrite lookup_insert_eq.
    + rewrite (first_insert_ne _ _ _ d); [done|done| |by rewrite Hm'].
      by rewrite (entry_filter_inj c i).
Qed.

(** The map [GetAllStatuses] fills. *)
Definition status_pair (e : statusEntry) : Z * Z := (se_Idx e, se_Status e).

Lemma fold_statuses es i v :
  NoDup (se_Idx <$> es) ->
  fold_left (fun (m : gmap Z Z) e => <[se_Idx e := se_Status e]> m) es ∅ !! i = Some v <->
  (i, v) ∈ status_pair <$> es.
Proof.
  intros Hn. rewrite <-fold_left_rev_right.
  assert (forall l, foldr (fun e (m : gmap Z Z) => <[se_Idx e := se_Status e]> m) ∅ l =
            list_to_map (status_pair <$> l)) as ->.
  { intros l. induction l as [|e l IH]; [done|]. simpl. by rewrite IH. }
  rewrite <-elem_of_list_to_map; [by rewrite <-Permutation_rev|].
  rewrite <-list_fmap_compose, <-Permutation_rev. exact Hn.
Qed.

Lemma entries_NoDup c (l : list document) :
  unique_by ["category"; "idx"] l ->
  Forall (fun d => exists c i, matches (entry_filter c i) d) l ->
  NoDup (get_int "idx" <$> filter (matches [("category", BString c)]) l).
Proof.
  intros Hu Hl. induction l as [|d l IH]; [constructor|].
  apply Forall_cons in Hl as [(c0 & i0 & Hd) Hl].
  assert (unique_by ["category"; "idx"] l) as Hul.
  { intros i j x y Hi Hj Hk. specialize (Hu (Datatypes.S i) (Datatypes.S j) x y Hi Hj Hk). lia. }
  specialize (IH Hul Hl). rewrite filter_cons. destruct (decide _) as [Hm|]; [|done].
  rewrite fmap_cons. apply NoDup_cons. split; [|done].
  intros (d' & Hi & [Hm' Hin]%list_elem_of_filter)%list_elem_of_fmap.
  rewrite Forall_forall in Hl. destruct (Hl _ Hin) as (c1 & i1 & Hd').
  apply list_elem_of_lookup in Hin as [j Hj].
  apply matches_one in Hm, Hm'. apply matches_two in Hd as [_ Hd], Hd' as [_ Hd'].
  unfold get_int in Hi. rewrite Hd, Hd' in Hi. subst i1.
  assert (0%nat = Datatypes.S j); [|lia]. apply (Hu _ _ d d'); [done|done|].
  intros k Hk. rewrite !elem_of_cons in Hk. destruct Hk as [->|[->|Hk]]; [congruence|congruence|].
  by apply elem_of_nil in Hk.
Qed.

Lemma GetAllStatuses_mongo s c :
  match GetAllStatuses c s with
  | (s', Ok m) => s' = s /\ (mongo_ok s -> forall i, m !! i = mongo_status s c i)
  | (s', Err _) => s' = s
  | (_, Panic _) => False
  end.
Proof.
  unfold GetAllStatuses, bind, with_err, lift.
  pose proof (on_Find statuses [("category", BString c)] s) as HL.
  destruct (on statuses _ s) as [s' [cur|e|m]]; [|done|done]. cbn [map_err]. destruct HL as [-> HL].
  pose proof (read_cursor_no_panic decode_statusEntry "status entry"
    (fun (m : gmap Z Z) e => <[se_Idx e := se_Status e]> m) ∅ cur) as Hp.
  destruct (read_cursor _ _ _ _ _) as [m|e|p] eqn:E; [|done|done].
  apply read_cursor_Ok in E as (Hce & es & Hes & ->). rewrite (HL Hce) in Hes.
  split; [done|]. intros Hok i. apply option_eq. intros v.
  pose proof (index_unique _ _ _ (ok_server _ Hok) (ok_statuses _ Hok)) as Hu. fold (col s statuses) in Hu.
  assert (Forall (fun d => exists c i, matches (entry_filter c i) d) (col s statuses)) as Hdoc.
  { eapply Forall_impl; [apply (ok_docs _ Hok)|]. intros d (Hd & _). by apply Hd. }
  assert (status_pair <$> es =
    (fun d => (get_int "idx" d, get_int "status" d)) <$> filter (matches [("category", BString c)]) (col s statuses)) as Hpairs.
  { eapply mapM_get; [|done]. by intros d e ->%decode_statusEntry_get. }
  rewrite fold_statuses.
  2:{ erewrite (mapM_get _ se_Idx (get_int "idx")); [by apply entries_NoDup| |done].
      by intros d e ->%decode_statusEntry_get. }
  rewrite Hpairs, list_elem_of_fmap. setoid_rewrite list_elem_of_filter. unfold mongo_status. split.
  - intros (d & [= -> ->] & Hm%matches_one & Hin).
    rewrite (first_unique _ _ d); [done|done|done|]. rewrite Forall_forall in Hdoc.
    destruct (Hdoc _ Hin) as (c1 & i1 & [_ Hd]%matches_two). apply matches_two. split; [done|].
    unfold get_int. by rewrite Hd.
  - intros (d & Hf & ->)%fmap_Some. apply first_matches in Hf as [Hin [Hc Hi]%matches_two].
    exists d. split; [unfold get_int; by rewrite Hi|]. split; [by apply matches_one|done].
Qed.

(** ** The indices of a client, and usage *)

Lemma doc_ok_other name d :
  name ∉ [statuses; publicKeys; webauthnCreds; counters] -> doc_ok name d.
Proof. rewrite !not_elem_of_cons. intros (?&?&?&?&_). by split_and!. Qed.

Ltac other_collection := apply doc_ok_other; rewrite !not_elem_of_cons; repeat split; try done; apply not_elem_of_nil.

(** A document added to a part of the store. *)
Lemma added_frames p d s s' :
  changed (part_col p) (col s (part_col p) ++ [d]) s s' ->
  (mongo_ok s -> doc_ok (part_col p) d) -> frames p s s'.
Proof.
  intros Hc Hd. eapply changed_frames; [done|]. intros Hok.
  apply Forall_app_2; [apply (ok_docs _ Hok)|]. apply Forall_singleton. by apply Hd.
Qed.

Lemma RecordWUA_mongo s cl c i :
  match RecordWUA cl c i s with
  | (s', Ok _) => frames PIndices s s' /\
      forall cl' c', True -> mongo_indices s' cl' c' =
        if decide (cl' = cl /\ c' = c) then mongo_indices s cl c ++ [i] else mongo_indices s cl' c'
  | (s', Err _) => (mongo_ok s -> mongo_ok s') /\ forall q, agrees q s s'
  | (_, Panic _) => False
  end.
Proof.
  unfold RecordWUA, with_err.
  pose proof (on_InsertOne clientIndices (fun _ => encode_clientIndexEntry (mkClientIndexEntry cl c i)) s) as HL.
  cbv beta in HL. destruct (on clientIndices _ s) as [s' [u|e|m]]; [|by apply intact_unchanged, HL|done].
  destruct HL as [id Hc]. cbn [map_err]. split.
  { eapply (added_frames PIndices); [exact Hc|]. intros _. other_collection. }
  intros cl' c' _. unfold mongo_indices. rewrite (changed_col _ _ _ _ _ Hc), decide_True by done.
  assert (matches (client_filter cl' c') (with_id id (encode_clientIndexEntry (mkClientIndexEntry cl c i)))
    <-> cl' = cl /\ c' = c) as Hm by (rewrite matches_with_id by no_id; apply matches_encode_index).
  rewrite filter_app, fmap_app. destruct (decide (cl' = cl /\ c' = c)) as [[-> ->]|Hne].
  - rewrite filter_cons_True by by apply Hm. by f_equal.
  - rewrite filter_cons_False by by rewrite Hm. apply app_nil_r.
Qed.

Lemma decode_clientIndexEntry_get d e : decode_clientIndexEntry d = Some e -> ci_Idx e = get_int "idx" d.
Proof. unfold decode_clientIndexEntry, decode_int64. intros. by read_fields. Qed.

Lemma fold_append {A B} (f : A -> B) es acc :
  fold_left (fun l e => l ++ [f e]) es acc = acc ++ (f <$> es).
Proof.
  revert acc. induction es as [|e es IH]; intros acc; simpl; [by rewrite app_nil_r|].
  by rewrite IH, <-app_assoc.
Qed.

Lemma GetClientIndices_mongo s cl c :
  match GetClientIndices cl c s with
  | (s', Ok l) => s' = s /\ l = mongo_indices s cl c
  | (s', Err _) => s' = s
  | (_, Panic _) => False
  end.
Proof.
  unfold GetClientIndices, bind, with_err, lift. fold (client_filter cl c).
  pose proof (on_Find clientIndices (client_filter cl c) s) as HL.
  destruct (on clientIndices _ s) as [s' [cur|e|m]]; [|done|done]. cbn [map_err]. destruct HL as [-> HL].
  pose proof (read_cursor_no_panic decode_clientIndexEntry "client index"
    (fun l e => l ++ [ci_Idx e]) [] cur) as Hp.
  destruct (read_cursor _ _ _ _ _) as [l|e|p] eqn:E; [|done|done].
  apply read_cursor_Ok in E as (Hce & es & Hes & ->). rewrite (HL Hce) in Hes.
  split; [done|]. rewrite fold_append. simpl. unfold mongo_indices.
  eapply mapM_get; [|done]. apply decode_clientIndexEntry_get.
Qed.

Lemma RecordUsage_mongo s c i :
  match RecordUsage c i s with
  | (s', Ok _) => frames PUsed s s' /\ (mongo_ok s ->
      forall c' i', mongo_used s' c' i' = if decide (c' = c /\ i' = i) then true else mongo_used s c' i')
  | (s', Err _) => (mongo_ok s -> mongo_ok s') /\ forall q, agrees q s s'
  | (_, Panic _) => False
  end.
Proof.
  unfold RecordUsage, bind, attempt.
  pose proof (on_InsertOne usage (fun db => encode_usageEntry (mkUsageEntry c i (clock db))) s) as HL.
  destruct (on usage _ s) as [s' [u|e|m]]; [| |done]; cbv beta iota in HL |- *.
  - destruct HL as [id Hc]. split.
    { eapply (added_frames PUsed); [exact Hc|]. intros _. other_collection. }
    intros _ c' i'. unfold mongo_used. rewrite (changed_col _ _ _ _ _ Hc), decide_True, first_app by done.
    set (d := with_id id _).
    assert (matches (entry_filter c' i') d <-> c' = c /\ i' = i) as Hm
      by (unfold d; rewrite matches_with_id by no_id; apply matches_encode_usage).
    destruct (decide (c' = c /\ i' = i)) as [Heq|Hne].
    + apply bool_decide_eq_true_2. destruct (first _ _); [done|]. by rewrite decide_True by by apply Hm.
    + destruct (first _ _); [done|]. rewrite decide_False by by rewrite Hm. done.
  - destruct HL as [Hi Hdup]. case_bool_decide as He; [|by apply intact_unchanged].
    split; [by apply intact_frames|]. intros Hok c' i'.
    assert (forall c' i', mongo_used s' c' i' = mongo_used s c' i') as Hsame
      by apply (proj2 (intact_unchanged _ _ Hi) PUsed).
    rewrite Hsame. destruct (decide _) as [[-> ->]|]; [|done].
    destruct (Hdup He ltac:(done)) as (ks & d' & Hks & Hd' & Hk). apply (ok_usage _ Hok) in Hks as ->.
    apply bool_decide_eq_true_2, first_is_Some. exists d'. split; [done|]. apply matches_two.
    rewrite <-!Hk by set_solver. done.
Qed.

Lemma IsUsed_mongo s c i :
  match IsUsed c i s with
  | (s', Ok b) => s' = s /\ b = mongo_used s c i
  | (s', Err _) => s' = s
  | (_, Panic _) => False
  end.
Proof.
  unfold IsUsed, bind, attempt. pose proof (on_FindOne usage (entry_filter c i) s) as HL.
  destruct (on usage _ s) as [s' [d|e|m]]; [| |done].
  - destruct HL as [-> Hf]. split; [done|]. symmetry. apply bool_decide_eq_true_2. by rewrite Hf.
  - destruct HL as [-> Hn]. destruct e; try done. split; [done|]. symmetry.
    apply bool_decide_eq_false_2. rewrite (Hn eq_refl). by intros [? ?].
Qed.

(** ** Public keys *)

Lemma replaced_frames p f d s s' :
  "_id" ∉ f.*1 ->
  match find_first f (col s (part_col p)) with
  | Some (i, old) => changed (part_col p) (<[i := replacement old d]> (col s (part_col p))) s s'
  | None => exists id, changed (part_col p) (col s (part_col p) ++ [with_id id d]) s s'
  end ->
  (forall d', (forall k, k <> "_id" -> d' !! k = d !! k) -> doc_ok (part_col p) d') -> frames p s s'.
Proof.
  intros Hf HL Hd. destruct (find_first _ _) as [[i old]|] eqn:E.
  - eapply changed_frames; [done|]. intros Hok. apply Forall_insert; [apply (ok_docs _ Hok)|].
    apply Hd. intros k Hk. by apply lookup_replacement.
  - destruct HL as [id Hc]. eapply added_frames; [done|]. intros _. apply Hd. intros k Hk. by apply lookup_with_id.
Qed.

(** After an upsert the document is the one its filter selects, and no other
    selection changes. *)
Lemma upserted name f g d s s' :
  "_id" ∉ f.*1 -> "_id" ∉ g.*1 ->
  match find_first f (col s name) with
  | Some (i, old) => changed name (<[i := replacement old d]> (col s name)) s s'
  | None => exists id, changed name (col s name ++ [with_id id d]) s s'
  end -> matches f d ->
  (matches g d /\ g = f ->
     exists d', first g (col s' name) = Some d' /\ forall k, k <> "_id" -> d' !! k = d !! k) /\
  (~ matches g d -> (forall x, matches f x -> ~ matches g x) -> first g (col s' name) = first g (col s name)).
Proof.
  intros Hf Hg HL Hm. destruct (find_first _ _) as [[i old]|] eqn:E.
  - rewrite (changed_col _ _ _ _ _ HL), decide_True by done. split.
    + intros [_ ->]. exists (replacement old d). split; [|intros k Hk; by apply lookup_replacement].
      eapply first_insert_eq; [done|]. by apply matches_replacement.
    + intros Hgd Hfg. apply find_first_Some in E as (Hi & Ho & _).
      rewrite (first_insert_ne _ _ _ old); [done|done|by apply Hfg|by rewrite matches_replacement].
  - destruct HL as [id Hc]. rewrite (changed_col _ _ _ _ _ Hc), decide_True, first_app by done. split.
    + intros [_ ->]. unfold first. rewrite E. simpl. exists (with_id id d).
      rewrite decide_True by by apply matches_with_id. split; [done|]. intros k Hk. by apply lookup_with_id.
    + intros Hgd _. destruct (first g _); [done|]. rewrite decide_False; [done|].
      by rewrite matches_with_id.
Qed.

Lemma PutPublicKey_mongo s k :
  match PutPublicKey k s with
  | (s', Ok _) => frames PKeys s s' /\
      forall kid, mongo_key s' kid = if decide (kid = pk_Kid k) then Some k else mongo_key s kid
  | (s', Err _) => (mongo_ok s -> mongo_ok s') /\ forall q, agrees q s s'
  | (_, Panic _) => False
  end.
Proof.
  unfold PutPublicKey, with_err.
  pose proof (on_ReplaceOne publicKeys [("kid", BString (pk_Kid k))] (encode_PublicKeyInfo k) s) as HL.
  destruct (on publicKeys _ s) as [s' [u|e|m]]; [|by apply intact_unchanged|done]. cbn [map_err]. split.
  - eapply (replaced_frames PKeys); [|exact HL|]; [no_id|]. intros d Hd. split_and!; try done.
    intros _. exists (pk_Kid k). by rewrite Hd.
  - intros kid. unfold mongo_key.
    destruct (upserted publicKeys [("kid", BString (pk_Kid k))] [("kid", BString kid)] _ s s' ltac:(no_id) ltac:(no_id) HL)
      as [Hsame Hother]; [by apply matches_encode_key|].
    destruct (decide (kid = pk_Kid k)) as [->|Hne].
    + destruct Hsame as (d & -> & Hd); [split; [by apply matches_encode_key|done]|].
      simpl. f_equal. by apply get_key_encode.
    + rewrite Hother; [done|by rewrite matches_encode_key|].
      intros x Hx Hy. apply matches_one in Hx, Hy. congruence.
Qed.

Lemma GetPublicKey_mongo s kid :
  match GetPublicKey kid s with
  | (s', Ok k) => s' = s /\ mongo_key s kid = Some k
  | (s', Err _) => s' = s
  | (_, Panic _) => False
  end.
Proof.
  unfold GetPublicKey, bind, with_err, decoded, bind, lift.
  pose proof (on_FindOne publicKeys [("kid", BString kid)] s) as HL.
  destruct (on publicKeys _ s) as [s' [d|e|m]]; [|by destruct HL|done].
  destruct HL as [-> Hf]. destruct (decode_PublicKeyInfo d) as [k|] eqn:E; [|done]. simpl.
  split; [done|]. apply decode_PublicKeyInfo_get in E as ->. unfold mongo_key. by rewrite Hf.
Qed.

Lemma ListPublicKeys_mongo s cl :
  match ListPublicKeys cl s with
  | (s', Ok l) => s' = s /\ (mongo_ok s -> forall k, k ∈ l <->
      (exists kid, mongo_key s kid = Some k) /\ (cl = "" \/ pk_ClientID k = cl))
  | (s', Err _) => s' = s
  | (_, Panic _) => False
  end.
Proof.
  unfold ListPublicKeys, bind, with_err, lift.
  set (f := if bool_decide (cl = "") then [] else [("client_id", BString cl)]).
  pose proof (on_Find publicKeys f s) as HL.
  destruct (on publicKeys _ s) as [s' [cur|e|m]]; [|done|done]. cbn [map_err]. destruct HL as [-> HL].
  destruct (read_all _ _) as [l|e|p] eqn:E; [|done|]; cbn [map_err].
  2:{ unfold read_all in E. destruct (cur_err cur); [done|]. by destruct (mapM _ _). }
  apply read_all_Ok in E as [Hce Hl]. rewrite (HL Hce) in Hl.
  split; [done|]. intros Hok k.
  assert (l = get_key <$> filter (matches f) (col s publicKeys)) as ->.
  { rewrite <-(list_fmap_id l). eapply mapM_get; [|done]. by intros d e ->%decode_PublicKeyInfo_get. }
  pose proof (index_unique _ _ _ (ok_server _ Hok) (ok_keys _ Hok)) as Hu. fold (col s publicKeys) in Hu.
  assert (forall d, matches f d <-> cl = "" \/ pk_ClientID (get_key d) = cl) as Hf.
  { intros d. unfold f. case_bool_decide as Hc; [by rewrite matches_nil; split; [left|]|].
    rewrite matches_one. cbn. unfold get_string. split; [intros ->; by right|].
    intros [?|Hd]; [done|]. destruct (d !! "client_id") as [[]|]; congruence. }
  rewrite list_elem_of_fmap. setoid_rewrite list_elem_of_filter. unfold mongo_key. split.
  - intros (d & -> & Hm & Hin). split; [|by apply Hf].
    pose proof (ok_docs _ Hok publicKeys) as Hd. rewrite Forall_forall in Hd.
    destruct (Hd _ Hin) as (_ & Hkid & _). destruct (Hkid eq_refl) as [kid Hk]. exists kid.
    rewrite (first_unique _ _ d); [done|done|done|]. by apply matches_one.
  - intros [[kid (d & Hd & ->)%fmap_Some] Hc]. exists d. apply first_matches in Hd as [Hin _].
    split; [done|]. split; [by apply Hf|done].
Qed.

(** ** OPAQUE records and WebAuthn credentials *)

Lemma PutRecord_mongo s cl x r :
  match PutRecord cl x r s with
  | (s', Ok _) => frames PRecords s s' /\
      forall cl' x', True -> mongo_record s' cl' x' =
        if decide (cl' = cl /\ x' = x) then Some r else mongo_record s cl' x'
  | (s', Err _) => (mongo_ok s -> mongo_ok s') /\ forall q, agrees q s s'
  | (_, Panic _) => False
  end.
Proof.
  unfold PutRecord, with_err.
  pose proof (on_ReplaceOne records (pair_filter cl x) (encode_opaqueRecordDoc (mkOpaqueRecordDoc cl x r)) s) as HL.
  destruct (on records _ s) as [s' [u|e|m]]; [|by apply intact_unchanged|done]. cbn [map_err]. split.
  - eapply (replaced_frames PRecords); [|exact HL|]; [no_id|]. intros d _. other_collection.
  - intros cl' x' _. unfold mongo_record.
    destruct (upserted records (pair_filter cl x) (pair_filter cl' x') _ s s' ltac:(no_id) ltac:(no_id) HL)
      as [Hsame Hother]; [by apply matches_encode_record|].
    destruct (decide (cl' = cl /\ x' = x)) as [[-> ->]|Hne].
    + destruct Hsame as (d & -> & Hd); [split; [by apply matches_encode_record|done]|].
      simpl. unfold get_bytes. by rewrite Hd.
    + rewrite Hother; [done|by rewrite matches_encode_record|].
      intros y Hy. by rewrite (pair_filter_inj cl x).
Qed.

Lemma GetRecord_mongo s cl x :
  match GetRecord cl x s with
  | (s', Ok r) => s' = s /\ mongo_record s cl x = Some r
  | (s', Err _) => s' = s
  | (_, Panic _) => False
  end.
Proof.
  unfold GetRecord, bind, with_err, decoded, bind, lift, ret.
  pose proof (on_FindOne records (pair_filter cl x) s) as HL.
  destruct (on records _ s) as [s' [d|e|m]]; [|by destruct HL|done].
  destruct HL as [-> Hf]. destruct (decode_opaqueRecordDoc d) as [r|] eqn:E; [|done]. simpl.
  split; [done|]. unfold mongo_record. rewrite Hf. simpl. f_equal. revert E.
  unfold decode_opaqueRecordDoc. intros. by read_fields.
Qed.

Lemma PutWebAuthnCredential_mongo s cl x cred :
  match PutWebAuthnCredential cl x cred s with
  | (s', Ok _) => frames PCreds s s' /\
      forall cl' x', True -> mongo_creds s' cl' x' =
        if decide (cl' = cl /\ x' = x) then mongo_creds s cl x ++ [cred] else mongo_creds s cl' x'
  | (s', Err _) => (mongo_ok s -> mongo_ok s') /\ forall q, agrees q s s'
  | (_, Panic _) => False
  end.
Proof.
  unfold PutWebAuthnCredential, with_err.
  set (e := encode_webauthnCredDoc _).
  pose proof (on_InsertOne webauthnCreds (fun _ => e) s) as HL. cbv beta in HL.
  destruct (on webauthnCreds _ s) as [s' [u|er|m]]; [|by apply intact_unchanged, HL|done].
  destruct HL as [id Hc]. cbn [map_err]. split.
  { eapply (added_frames PCreds); [exact Hc|]. intros _. split_and!; try done.
    intros _. exists (wc_CredentialID cred). by rewrite lookup_with_id. }
  intros cl' x' _. unfold mongo_creds. rewrite (changed_col _ _ _ _ _ Hc), decide_True by done.
  assert (matches (pair_filter cl' x') (with_id id e) <-> cl' = cl /\ x' = x) as Hm
    by (rewrite matches_with_id by no_id; apply matches_encode_cred).
  rewrite filter_app, fmap_app. destruct (decide (cl' = cl /\ x' = x)) as [[-> ->]|Hne].
  - rewrite filter_cons_True by by apply Hm. f_equal. cbn [fmap list_fmap filter list_filter].
    f_equal. apply (get_cred_encode _ cl x). intros k Hk. by apply lookup_with_id.
  - rewrite filter_cons_False by by rewrite Hm. apply app_nil_r.
Qed.

Lemma GetWebAuthnCredential_mongo s cl x :
  match GetWebAuthnCredential cl x s with
  | (s', Ok l) => s' = s /\ l = mongo_creds s cl x
  | (s', Err _) => s' = s
  | (_, Panic _) => False
  end.
Proof.
  unfold GetWebAuthnCredential, bind, with_err, lift.
  pose proof (on_Find webauthnCreds (pair_filter cl x) s) as HL.
  destruct (on webauthnCreds _ s) as [s' [cur|e|m]]; [|done|done]. cbn [map_err]. destruct HL as [-> HL].
  destruct (read_all _ _) as [l|e|p] eqn:E; [|done|]; cbn [map_err].
  2:{ unfold read_all in E. destruct (cur_err cur); [done|]. by destruct (mapM _ _). }
  apply read_all_Ok in E as [Hce Hl]. rewrite (HL Hce) in Hl.
  assert (credential_of <$> l = mongo_creds s cl x) as Heq.
  { eapply mapM_get; [|done]. apply decode_webauthnCredDoc_get. }
  destruct l as [|w l]; [done|]. split; [done|]. exact Heq.
Qed.

Lemma UpdateWebAuthnSignCount_mongo s cl x id n :
  match UpdateWebAuthnSignCount cl x id n s with
  | (s', Ok _) => frames PCreds s s' /\
      (mongo_ok s -> exists l, Memory.update_first id n (mongo_creds s cl x) = Some l /\
       forall cl' x', True -> mongo_creds s' cl' x' =
         if decide (cl' = cl /\ x' = x) then l else mongo_creds s cl' x')
  | (s', Err _) => (mongo_ok s -> mongo_ok s') /\ forall q, agrees q s s'
  | (_, Panic _) => False
  end.
Proof.
  unfold UpdateWebAuthnSignCount, bind, with_err.
  set (f := pair_filter cl x ++ [("credential_id", BBinary id)]).
  pose proof (on_UpdateOne webauthnCreds f (Set_ "sign_count" (BInt n)) s) as HL.
  destruct (on webauthnCreds _ s) as [s' [k|e|m]]; [|by apply intact_unchanged|done]. cbn [map_err].
  destruct (find_first _ _) as [[j d]|] eqn:E; [|destruct HL as [-> HL]; by apply intact_unchanged].
  destruct HL as (-> & d' & [= <-] & Hc). simpl.
  pose proof (proj1 (find_first_Some _ _ _ _) E) as (Hj & Hm & _).
  assert (matches (pair_filter cl x) d /\ d !! "credential_id" = Some (BBinary id)) as [Hmp Hid].
  { revert Hm. unfold f, matches. by rewrite Forall_app, Forall_singleton. }
  split.
  { apply (changed_frames PCreds _ _ _ Hc). intros Hok. apply Forall_insert; [apply (ok_docs _ Hok)|].
    split_and!; try done. intros _. exists id. by rewrite lookup_insert_ne. }
  intros Hok. eexists. split.
  { apply update_first_docs; [|by no_id|exact E].
    eapply Forall_impl; [apply (ok_docs _ Hok)|]. intros y (_ & _ & Hy & _). by apply Hy. }
  intros cl' x' _. unfold mongo_creds. rewrite (changed_col _ _ _ _ _ Hc), decide_True by done.
  destruct (decide (cl' = cl /\ x' = x)) as [[-> ->]|Hne]; [done|]. f_equal.
  apply (filter_insert_ne _ _ _ d); [done| |].
  - by rewrite (pair_filter_inj cl x).
  - rewrite matches_set by no_id. by rewrite (pair_filter_inj cl x).
Qed.

(** ** The laws *)

#[export] Instance MongoDBStore_StoreLaws : StoreLaws S := {
  plain := fun _ => True;
  store_ok := mongo_ok;
  status_of := mongo_status;
  indices_of := mongo_indices;
  record_of := mongo_record;
  creds_of := mongo_creds;
  key_of := mongo_key;
  used_of := mongo_used;
  AllocateIndex_law := AllocateIndex_mongo;
  GetStatus_law := GetStatus_mongo;
  SetStatus_law := SetStatus_mongo;
  GetAllStatuses_law := GetAllStatuses_mongo;
  RecordWUA_law := fun s cl c i _ => RecordWUA_mongo s cl c i;
  GetClientIndices_law := GetClientIndices_mongo;
  PutPublicKey_law := PutPublicKey_mongo;
  GetPublicKey_law := GetPublicKey_mongo;
  PutRecord_law := fun s cl x r _ => PutRecord_mongo s cl x r;
  GetRecord_law := GetRecord_mongo;
  PutWebAuthnCredential_law := fun s cl x c _ => PutWebAuthnCredential_mongo s cl x c;
  GetWebAuthnCredential_law := GetWebAuthnCredential_mongo;
  UpdateWebAuthnSignCount_law := fun s cl x i n _ => UpdateWebAuthnSignCount_mongo s cl x i n;
  RecordUsage_law := RecordUsage_mongo;
  IsUsed_law := IsUsed_mongo;
  ListPublicKeys_law := ListPublicKeys_mongo
}.

(** No operation panics, and a write touches its own part whatever it returns. *)
Lemma outcome_safe {A} (m : M S error A) (P : S -> A -> Prop) (Q : S -> error -> Prop) s :
  match m s with (s', Ok a) => P s' a | (s', Err e) => Q s' e | (_, Panic _) => False end ->
  is_panic (m s).2 = false.
Proof. by destruct (m s) as [s' []]. Qed.

Lemma on_safe {A} name (c : namespace -> M DB mongo_error A) :
  (forall k db, is_panic (c k db).2 = false) -> safe (on name c).
Proof. intros Hc s. unfold on, call, zoom. specialize (Hc (database s, name) (client s)). by destruct (c _ _). Qed.

Lemma AllocateIndex_mongo_safe c : safe (AllocateIndex c).
Proof.
  unfold AllocateIndex, decoded. safe_auto.
  - apply safe_with_err, safe_bind; [|intros d; apply safe_lift, of_option_no_panic].
    apply on_safe. intros k db. pose proof (FindOneAndUpdate_law k [("_id", BString c)] (Inc "value" 1) db).
    by destruct (FindOneAndUpdate _ _ _ _) as [? []].
  - apply safe_with_err, on_safe. intros k db.
    match goal with |- context [InsertOne k ?d db] => pose proof (InsertOne_law k d db) end.
    by destruct (InsertOne _ _ _) as [? []].
Qed.

#[export] Instance MongoDBStore_safe : StoreSafe S.
Proof.
  split; [apply AllocateIndex_mongo_safe|..]; intros; intros s; eapply outcome_safe;
    first [apply GetStatus_mongo|apply SetStatus_mongo|apply GetAllStatuses_mongo|apply RecordWUA_mongo|
      apply GetClientIndices_mongo|apply RecordUsage_mongo|apply IsUsed_mongo|apply PutPublicKey_mongo|
      apply GetPublicKey_mongo|apply ListPublicKeys_mongo|apply PutRecord_mongo|apply GetRecord_mongo|
      apply PutWebAuthnCredential_mongo|apply GetWebAuthnCredential_mongo|apply UpdateWebAuthnSignCount_mongo].
Qed.

#[export] Instance MongoDBStore_frames : StoreFrames S.
Proof.
  split; intros s cl x.
  - intros r. pose proof (PutRecord_mongo s cl x r) as HL. cbn [Store.PutRecord MongoDBStore_Store].
    destruct (PutRecord cl x r s) as [s' []]; [apply HL| |done]. split; [apply HL|intros q _; apply HL].
  - intros c. pose proof (PutWebAuthnCredential_mongo s cl x c) as HL.
    cbn [Store.PutWebAuthnCredential MongoDBStore_Store].
    destruct (PutWebAuthnCredential cl x c s) as [s' []]; [apply HL| |done].
    split; [apply HL|intros q _; apply HL].
  - intros i n. pose proof (UpdateWebAuthnSignCount_mongo s cl x i n) as HL.
    cbn [Store.UpdateWebAuthnSignCount MongoDBStore_Store].
    destruct (UpdateWebAuthnSignCount cl x i n s) as [s' []]; [apply HL| |done].
    split; [apply HL|intros q _; apply HL].
Qed.

(** ** Opening the store *)

Section Open.
Context (ReadFile : string -> outcome error bytes) (AppendCertsFromPEM : bytes -> bool)
  (LoadX509KeyPair : string -> string -> outcome error bytes).
Local Abbreviation New := (NewMongoDBStore ReadFile AppendCertsFromPEM LoadX509KeyPair).

(** The unique indexes of [createIndexes]. *)
Definition declared (name : string) (ks : list string) : Prop :=
  (name, ks) ∈ [(statuses, ["category"; "idx"]); (usage, ["category"; "idx"]); (publicKeys, ["kid"]);
                (records, ["client_id"; "context"])].

Lemma create_index_Ok name what ks u s s' x :
  create_index name what ks u s = (s', Ok x) ->
  database s' = database s /\ (forall n, col s' n = col s n) /\
  (forall n ks', indexed (client s') (database s', n) ks' <->
     indexed (client s) (database s, n) ks' \/ (u = true /\ n = name /\ ks' = ks)) /\
  (server_ok (client s) -> server_ok (client s')).
Proof.
  unfold create_index, with_err, on, MongoDB.call, zoom.
  pose proof (CreateOne_law (database s, name) ks u (client s)) as HL.
  destruct (CreateOne _ _ _ _) as [db' [y|e|m]]; try done. intros [= <- <-].
  destruct HL as (Hd & Hx & Hok). split; [done|]. split; [intros n; apply Hd|]. split; [|done].
  intros n ks'. simpl. rewrite Hx. split; intros [?|(-> & Hn & ->)]; auto; right; naive_solver.
Qed.

Lemma createIndexes_Ok s s' x :
  createIndexes s = (s', Ok x) ->
  database s' = database s /\ (forall n, col s' n = col s n) /\
  (forall n ks, indexed (client s') (database s', n) ks <->
     indexed (client s) (database s, n) ks \/ declared n ks) /\
  (server_ok (client s) -> server_ok (client s')).
Proof.
  unfold createIndexes. intros (s1 & [] & (Hd1 & Hc1 & Hx1 & Ho1)%create_index_Ok & Hr)%bind_Ok.
  apply bind_Ok in Hr as (s2 & [] & (Hd2 & Hc2 & Hx2 & Ho2)%create_index_Ok & Hr).
  apply bind_Ok in Hr as (s3 & [] & (Hd3 & Hc3 & Hx3 & Ho3)%create_index_Ok & Hr).
  apply bind_Ok in Hr as (s4 & [] & (Hd4 & Hc4 & Hx4 & Ho4)%create_index_Ok & Hr).
  apply bind_Ok in Hr as (s5 & [] & (Hd5 & Hc5 & Hx5 & Ho5)%create_index_Ok & Hr).
  apply create_index_Ok in Hr as (Hd6 & Hc6 & Hx6 & Ho6).
  split; [congruence|]. split; [intros n; congruence|]. split; [|tauto].
  intros n ks. rewrite Hx6, Hx5, Hx4, Hx3, Hx2, Hx1. unfold declared.
  rewrite !elem_of_cons, elem_of_nil. naive_solver.
Qed.

Lemma NewMongoDBStore_Ok cfg db db' s :
  New cfg db = (db', Ok s) ->
  client s = db' /\ database s = db_name cfg /\
  (forall n, col s n = docs db (db_name cfg, n)) /\
  (forall n ks, indexed db' (db_name cfg, n) ks <-> indexed db (db_name cfg, n) ks \/ declared n ks) /\
  (server_ok db -> server_ok db').
Proof.
  unfold NewMongoDBStore. intros (db1 & uri & [-> _]%lift_Ok & Hr)%bind_Ok.
  apply bind_Ok in Hr as (db1 & tls & [-> _]%lift_Ok & Hr).
  apply bind_Ok in Hr as (db2 & [] & Hconn%with_err_Ok & Hr).
  apply bind_Ok in Hr as (db3 & [] & Hping%with_err_Ok & Hr).
  match type of Hconn with Connect ?o db = _ => pose proof (Connect_law o db) as Hk end.
  rewrite Hconn in Hk. destruct Hk as [(Hd2 & Hx2 & Ho2) _].
  pose proof (Ping_law db2) as Hk. rewrite Hping in Hk. destruct Hk as [(Hd3 & Hx3 & Ho3) _].
  destruct (createIndexes _) as [s1 [[]|e|m]] eqn:Hc; try done. injection Hr as <- <-.
  apply createIndexes_Ok in Hc as (Hd & Hcol & Hx & Hok). simpl in *.
  split; [done|]. split; [done|]. split; [intros n; rewrite Hcol; exact (eq_trans (Hd3 _) (Hd2 _))|].
  split; [|by auto]. intros n ks. by rewrite <-Hd, Hx, Hd, Hx3, Hx2.
Qed.

(** On a database whose documents are the store's, with no unique index of
    its own on the usage collection, the store is well formed. *)
Lemma NewMongoDBStore_ok cfg db db' s :
  server_ok db -> (forall n, Forall (doc_ok n) (docs db (db_name cfg, n))) ->
  (forall ks, indexed db (db_name cfg, usage) ks -> ks = ["category"; "idx"]) ->
  New cfg db = (db', Ok s) -> store_ok s.
Proof.
  intros Hs Hdocs Hus (Hcl & Hn & Hc & Hx & Ho)%NewMongoDBStore_Ok. split; rewrite ?Hcl, ?Hn.
  - by apply Ho.
  - apply Hx. right. apply list_elem_of_here.
  - apply Hx. right. do 2 apply list_elem_of_further. apply list_elem_of_here.
  - intros ks [Hk|Hk]%Hx; [by apply Hus|]. unfold declared in Hk.
    rewrite !elem_of_cons, elem_of_nil in Hk. by destruct Hk as [[=]|[[= ->]|[[=]|[[=]|[]]]]].
  - intros n. by rewrite Hc.
Qed.

End Open.
End Laws.
