(* ===== verification/MongoToy.v ===== *)
(** * A small MongoDB for the witnesses

    Collections are lists, unique indexes are checked on every write, and no
    call fails otherwise.  It keeps [MongoLaws], so the hypotheses of the
    theorems on the MongoDB store can hold. *)

From S2P Require Import Prelude GoTime GoStrings Store StoreSpec Startup MongoDriver Mongo MongoStore.
Local Open Scope Z_scope.

Record toy_db := mkToyDb {
  t_docs : gmap namespace (list document);
  t_unique : gmap namespace (list (list string))
}.

Definition toy_col (db : toy_db) (c : namespace) : list document := default [] (t_docs db !! c).
Definition toy_indexes (db : toy_db) (c : namespace) : list (list string) := default [] (t_unique db !! c).
Definition set_col (c : namespace) (l : list document) (db : toy_db) : toy_db :=
  mkToyDb (<[c := l]> (t_docs db)) (t_unique db).

Definition key_of_doc (ks : list string) (d : document) : list (option bson) := (d !!.) <$> ks.
Definition distinct (ks : list string) (l : list document) : Prop := NoDup (key_of_doc ks <$> l).

#[export] Instance distinct_dec ks l : Decision (distinct ks l).
Proof. unfold distinct. apply _. Defined.

(** A collection is replaced unless that breaks one of its indexes. *)
Definition put_col (c : namespace) (l : list document) (db : toy_db) : option toy_db :=
  if decide (Forall (fun ks => distinct ks l) (toy_indexes db c)) then Some (set_col c l db) else None.

Definition clashes (d : document) (l : list document) (ks : list string) : Prop :=
  key_of_doc ks d ∈ key_of_doc ks <$> l.

#[export] Instance clashes_dec d l ks : Decision (clashes d l ks).
Proof. unfold clashes. apply _. Defined.

Definition toy_id (l : list document) : bson := BInt (Z.of_nat (length l)).

Definition toy_CreateOne (c : namespace) (ks : list string) (u : bool) : M toy_db mongo_error unit := fun db =>
  if u then
    if decide (distinct ks (toy_col db c))
    then (mkToyDb (t_docs db) (<[c := ks :: toy_indexes db c]> (t_unique db)), Ok tt)
    else (db, Err MongoOther)
  else (db, Ok tt).

Definition toy_write {A} (a : A) (c : namespace) (l : list document) : M toy_db mongo_error A := fun db =>
  match put_col c l db with Some db' => (db', Ok a) | None => (db, Err MongoOther) end.

Definition toy_FindOneAndUpdate (c : namespace) (f : filter_doc) (u : update_op) :
    M toy_db mongo_error document := fun db =>
  let l := toy_col db c in
  match find_first f l with
  | Some (i, d) =>
      match apply_update u d with Some d' => toy_write d' c (<[i := d']> l) db | None => (db, Err MongoOther) end
  | None =>
      match apply_update u (list_to_map f) with
      | Some d => let d' := with_id (toy_id l) d in toy_write d' c (l ++ [d']) db
      | None => (db, Err MongoOther)
      end
  end.

Definition toy_InsertOne (c : namespace) (d : document) : M toy_db mongo_error unit := fun db =>
  let l := toy_col db c in
  if decide (Exists (clashes d l) (toy_indexes db c)) then (db, Err DuplicateKey)
  else toy_write tt c (l ++ [with_id (toy_id l) d]) db.

Definition toy_FindOne (c : namespace) (f : filter_doc) : M toy_db mongo_error document := fun db =>
  match first f (toy_col db c) with Some d => (db, Ok d) | None => (db, Err ErrNoDocuments) end.

Definition toy_UpdateOne (c : namespace) (f : filter_doc) (u : update_op) : M toy_db mongo_error Z := fun db =>
  let l := toy_col db c in
  match find_first f l with
  | Some (i, d) =>
      match apply_update u d with Some d' => toy_write 1 c (<[i := d']> l) db | None => (db, Err MongoOther) end
  | None => (db, Ok 0)
  end.

Definition toy_ReplaceOne (c : namespace) (f : filter_doc) (d : document) : M toy_db mongo_error unit := fun db =>
  let l := toy_col db c in
  match find_first f l with
  | Some (i, old) => toy_write tt c (<[i := replacement old d]> l) db
  | None => toy_write tt c (l ++ [with_id (toy_id l) d]) db
  end.

#[export] Instance toy_mongo : Mongo toy_db := {
  Connect _ := ret tt;
  Ping := ret tt;
  Disconnect := ret tt;
  CreateOne := toy_CreateOne;
  FindOneAndUpdate := toy_FindOneAndUpdate;
  InsertOne := toy_InsertOne;
  FindOne := toy_FindOne;
  Find c f := gets (fun db => mkCursor (filter (matches f) (toy_col db c)) None);
  UpdateOne := toy_UpdateOne;
  ReplaceOne := toy_ReplaceOne
}.

#[export] Instance toy_clock_ms : WallClock toy_db := { clock _ := 1700000000000 }.

(** ** It keeps the laws *)

Definition toy_indexed (db : toy_db) (c : namespace) (ks : list string) : Prop := ks ∈ toy_indexes db c.
Definition toy_ok (db : toy_db) : Prop := forall c ks, toy_indexed db c ks -> distinct ks (toy_col db c).

Lemma key_of_doc_same ks d d' : key_of_doc ks d = key_of_doc ks d' <-> same_key ks d d'.
Proof.
  unfold key_of_doc, same_key. induction ks as [|k ks IH]; simpl.
  - split; [intros _ k Hk; by apply elem_of_nil in Hk|done].
  - setoid_rewrite elem_of_cons. split.
    + intros [= Hk Hks] k' [->|Hk']; [done|]. by apply IH.
    + intros Hk. f_equal; [apply Hk; by left|]. apply IH. auto.
Qed.

Lemma distinct_unique ks l : distinct ks l -> unique_by ks l.
Proof.
  intros Hd i j d d' Hi Hj Hk%key_of_doc_same. apply (NoDup_lookup _ i j (key_of_doc ks d) Hd).
  - by rewrite list_lookup_fmap, Hi.
  - by rewrite list_lookup_fmap, Hj, Hk.
Qed.

Lemma toy_col_set c l db c' : toy_col (set_col c l db) c' = if decide (c' = c) then l else toy_col db c'.
Proof.
  unfold toy_col, set_col. cbn. rewrite lookup_insert. by repeat case_decide; subst.
Qed.

(** What [wrote] says of a write, for this server. *)
Lemma toy_write_law {A} (a : A) c l db :
  match toy_write a c l db with
  | (db', Ok a') => a' = a /\ toy_col db' c = l /\ (forall c', c' <> c -> toy_col db' c' = toy_col db c') /\
      (forall c' ks, toy_indexed db' c' ks <-> toy_indexed db c' ks) /\ (toy_ok db -> toy_ok db')
  | (db', Err e) => db' = db /\ e = MongoOther
  | (_, Panic _) => False
  end.
Proof.
  unfold toy_write, put_col. destruct (decide _) as [Hf|]; [|done]. cbn.
  split; [done|]. split; [by rewrite toy_col_set, decide_True|].
  split; [intros c' Hc; by rewrite toy_col_set, decide_False|]. split; [done|].
  intros Hok c' ks Hk. rewrite toy_col_set. case_decide as Hc; [subst|by apply Hok].
  rewrite Forall_forall in Hf. by apply Hf.
Qed.

#[export] Program Instance toy_mongo_laws : MongoLaws toy_db := {
  docs := toy_col;
  indexed := toy_indexed;
  server_ok := toy_ok
}.
Next Obligation. intros s c ks Hs Hk. apply distinct_unique. by apply Hs. Qed.
Next Obligation. by intros o s. Qed.
Next Obligation. by intros s. Qed.
Next Obligation.
  intros c ks u s. cbn. unfold toy_CreateOne. destruct u.
  2:{ cbn. split; [done|]. split; [|done]. intros c' ks'. split; [by left|]. by intros [|(? & _)]. }
  destruct (decide _) as [Hd|]; [|done].
  assert (forall c' ks', toy_indexed (mkToyDb (t_docs s) (<[c := ks :: toy_indexes s c]> (t_unique s))) c' ks'
    <-> toy_indexed s c' ks' \/ c' = c /\ ks' = ks) as Hx.
  { intros c' ks'. unfold toy_indexed at 1. unfold toy_indexes at 1. cbn. rewrite lookup_insert.
    case_decide as Hc; cbn; [subst; rewrite elem_of_cons; unfold toy_indexed; naive_solver|].
    unfold toy_indexed, toy_indexes. naive_solver. }
  split; [done|]. split; [intros c' ks'; rewrite Hx; naive_solver|].
  intros Hok c' ks' [Hk|[-> ->]]%Hx; [by apply Hok|done].
Qed.
Next Obligation.
  intros c f u s. cbn. unfold toy_FindOneAndUpdate.
  destruct (find_first f _) as [[i d]|].
  - destruct (apply_update u d) as [d'|] eqn:Hu; [|done].
    pose proof (toy_write_law d' c (<[i := d']> (toy_col s c)) s) as HL.
    destruct (toy_write _ _ _ _) as [s' [x|e|m]]; [|by destruct HL as [-> _]|done].
    destruct HL as [-> HL]. done.
  - destruct (apply_update u _) as [d'|] eqn:Hu; [|done]. cbn zeta.
    set (x := with_id _ d'). pose proof (toy_write_law x c (toy_col s c ++ [x]) s) as HL.
    destruct (toy_write _ _ _ _) as [s' [y|e|m]]; [|by destruct HL as [-> _]|done].
    destruct HL as [-> HL]. by exists (toy_id (toy_col s c)), d'.
Qed.
Next Obligation.
  intros c d s. cbn. unfold toy_InsertOne. destruct (decide _) as [He|Hn].
  - split; [done|]. intros _ _. apply Exists_exists in He as (ks & Hks & Hc).
    apply list_elem_of_fmap in Hc as (d' & Hk & Hd'). exists ks, d'.
    split; [done|]. split; [done|]. by apply key_of_doc_same.
  - set (x := with_id _ d). pose proof (toy_write_law tt c (toy_col s c ++ [x]) s) as HL.
    destruct (toy_write _ _ _ _) as [s' [y|e|m]]; [|by destruct HL as [-> ->]|done].
    destruct HL as [_ HL]. by eexists.
Qed.
Next Obligation. intros c f s. cbn. unfold toy_FindOne. by destruct (first _ _) eqn:E. Qed.
Next Obligation. by intros c f s. Qed.
Next Obligation.
  intros c f u s. cbn. unfold toy_UpdateOne. destruct (find_first f _) as [[i d]|]; [|done].
  destruct (apply_update u d) as [d'|] eqn:Hu; [|done].
  pose proof (toy_write_law 1 c (<[i := d']> (toy_col s c)) s) as HL.
  destruct (toy_write _ _ _ _) as [s' [x|e|m]]; [|by destruct HL as [-> _]|done].
  destruct HL as [-> HL]. split; [done|]. by exists d'.
Qed.
Next Obligation.
  intros c f d s. cbn. unfold toy_ReplaceOne. destruct (find_first f _) as [[i old]|].
  - pose proof (toy_write_law tt c (<[i := replacement old d]> (toy_col s c)) s) as HL.
    destruct (toy_write _ _ _ _) as [s' [x|e|m]]; [|by destruct HL as [-> _]|done]. by destruct HL as [_ HL].
  - set (x := with_id _ d). pose proof (toy_write_law tt c (toy_col s c ++ [x]) s) as HL.
    destruct (toy_write _ _ _ _) as [s' [y|e|m]]; [|by destruct HL as [-> _]|done].
    destruct HL as [_ HL]. by eexists.
Qed.

(** ** A run on an empty server *)

Definition toy_empty : toy_db := mkToyDb ∅ ∅.

(** The files of the process: a password, and nothing else. *)
Definition toy_file (path : string) : outcome error bytes :=
  if bool_decide (path = "/run/secret") then Ok (go_bytes "s3cret&") else Err (PkgError "os").

Definition toy_config : MongoDBConfig :=
  mkMongoDBConfig "mongodb://r2ps:${MONGODB_PASSWORD}@db" "" 0 "/run/secret" true "" "" "".

Definition toy_new : M toy_db error (MongoDBStore toy_db) :=
  MongoDB.NewMongoDBStore toy_file (fun _ => true) (fun _ _ => Err (PkgError "tls")) toy_config.

Definition toy_store : MongoDBStore toy_db :=
  match (toy_new toy_empty).2 with Ok s => s | _ => mkMongoDBStore toy_empty "" end.

Lemma toy_new_Ok : toy_new toy_empty = ((toy_new toy_empty).1, Ok toy_store).
Proof. reflexivity. Qed.

Lemma toy_empty_ok : server_ok toy_empty.
Proof. intros c ks Hk. by apply elem_of_nil in Hk. Qed.

Example toy_uri_ex : MongoDB.mongo_uri toy_file toy_config = Ok "mongodb://r2ps:s3cret%26@db".
Proof. vm_compute. reflexivity. Qed.

