(* ===== verification/Pkcs11.v ===== *)
(** * [internal/hsm/pkcs11.go]: the PKCS#11 backend

    The pool of sessions, the search for a key, key generation, signing and
    key agreement over a token, which is a class of operations (the
    [miekg/pkcs11] binding and the module behind it). *)

From S2P Require Import Prelude GoTime GoStrings Sha256 Ecc Asn1 Counter Sessions Store World Handlers Startup.
Local Open Scope Z_scope.

(** ** The binding *)

Inductive ObjectClass := CKO_PUBLIC_KEY | CKO_PRIVATE_KEY | CKO_SECRET_KEY.
Inductive KeyType := CKK_EC | CKK_GENERIC_SECRET.

Inductive Attribute :=
| CKA_CLASS (c : ObjectClass)
| CKA_KEY_TYPE (k : KeyType)
| CKA_ID (id : bytes)
| CKA_EC_PARAMS (der : bytes)
| CKA_TOKEN (b : bool)
| CKA_VERIFY (b : bool)
| CKA_SIGN (b : bool)
| CKA_SENSITIVE (b : bool)
| CKA_EXTRACTABLE (b : bool)
| CKA_DERIVE (b : bool)
| CKA_VALUE_LEN (n : Z).

(** The attributes the program reads. *)
Inductive AttributeName := ID | EC_PARAMS | EC_POINT | VALUE.

Inductive Mechanism :=
| CKM_EC_KEY_PAIR_GEN
| CKM_ECDSA
| CKM_ECDH1_DERIVE (point : bytes).

#[export] Instance ObjectClass_eq_dec : EqDecision ObjectClass.
Proof. solve_decision. Defined.
#[export] Instance KeyType_eq_dec : EqDecision KeyType.
Proof. solve_decision. Defined.
#[export] Instance Attribute_eq_dec : EqDecision Attribute.
Proof. solve_decision. Defined.

(** Sessions and objects are handles.  [GetAttributeValue] gives the values
    of the attribute it returns, [GetTokenInfo] the token's label. *)
Class Token (T : Type) := {
  Initialize : M T error unit;
  Finalize : M T error unit;
  GetSlotList : M T error (list Z);
  GetTokenInfo : Z -> M T error string;
  OpenSession : Z -> M T error Z;
  CloseSession : Z -> M T error unit;
  Login : Z -> string -> M T error unit;
  Logout : Z -> M T error unit;
  GenerateKeyPair : Z -> Mechanism -> list Attribute -> list Attribute -> M T error (Z * Z);
  SetAttributeValue : Z -> Z -> list Attribute -> M T error unit;
  GetAttributeValue : Z -> Z -> AttributeName -> M T error (list bytes);
  FindObjectsInit : Z -> list Attribute -> M T error unit;
  FindObjects : Z -> nat -> M T error (list Z);
  FindObjectsFinal : Z -> M T error unit;
  SignInit : Z -> Mechanism -> Z -> M T error unit;
  TokenSign : Z -> bytes -> M T error bytes;
  DeriveKey : Z -> Mechanism -> Z -> list Attribute -> M T error Z;
  DestroyObject : Z -> Z -> M T error unit
}.

(** ** Curves *)

Definition oidP256 : list Z := [1; 2; 840; 10045; 3; 1; 7].
Definition oidP384 : list Z := [1; 3; 132; 0; 34].
Definition oidP521 : list Z := [1; 3; 132; 0; 35].

Definition unsupported {A} (name : string) : outcome error A :=
  Err (Errorf ("unsupported curve: " +:+ name)).

Definition curveOID (name : string) : outcome error (list Z) :=
  if bool_decide (name = "P-256") then Ok oidP256
  else if bool_decide (name = "P-384") then Ok oidP384
  else if bool_decide (name = "P-521") then Ok oidP521
  else unsupported name.

Definition oidToCurveName (derParams : bytes) : outcome error string :=
  let? oid := of_option (Wrapf "unmarshal OID" (PkgError "encoding/asn1")) (asn1_oid derParams) in
  if bool_decide (oid = oidP256) then Ok "P-256"
  else if bool_decide (oid = oidP384) then Ok "P-384"
  else if bool_decide (oid = oidP521) then Ok "P-521"
  else Err (PkgError "unknown curve OID").

Definition parseCurve (name : string) : outcome error Curve :=
  if bool_decide (name = "P-256") then Ok P256
  else if bool_decide (name = "P-384") then Ok P384
  else if bool_decide (name = "P-521") then Ok P521
  else unsupported name.

(** ** Signatures and points *)

(** A raw [r || s], or DER already, told apart by the first byte. *)
Definition rawSigToASN1 (raw : bytes) : outcome error bytes :=
  if (2 <? length raw)%nat && Byte.eqb (hd x00 raw) x30 then Ok raw
  else if negb (length raw mod 2 =? 0)%nat
  then Err (Errorf ("invalid raw signature length: " +:+ fmt_d (zlen raw)))
  else
    let half := (length raw / 2)%nat in
    Ok (signature_der (SetBytes (take half raw)) (SetBytes (drop half raw))).

(** [asn1.Unmarshal(ecPoint, &rawPoint)] without trailing data, or the bytes
    themselves. *)
Definition unwrap_point (ecPoint : bytes) : bytes :=
  match asn1_element x04 ecPoint with
  | Some (rawPoint, []) => rawPoint
  | _ => ecPoint
  end.

(** [elliptic.MarshalCompressed] of a point on the curve *)
Definition compress_point (c : Curve) (x y : Z) : bytes :=
  (if Z.odd y then x03 else x02) :: FillBytes (byteLen c) x.

Definition compressed_point (curveName : string) (ecPoint : bytes) : outcome error bytes :=
  let ecPoint := unwrap_point ecPoint in
  let? curve := parseCurve curveName in
  let? (x, y) := of_option (Errorf ("invalid uncompressed EC point (len=" +:+ fmt_d (zlen ecPoint) +:+ ")"))
                   (EllipticUnmarshal curve ecPoint) in
  Ok (compress_point curve x y).

(** ** The backend *)

(** [p_pool] is the channel's buffer, oldest first, and [p_cap] its capacity;
    [p_draw] counts the draws of randomness. *)
Record PKCS11Backend (T : Type) := mkPKCS11Backend {
  p_token : T;
  p_pool : list Z;
  p_cap : nat;
  p_slotID : Z;
  p_draw : nat
}.
Arguments mkPKCS11Backend {T}.
Arguments p_token {T}.
Arguments p_pool {T}.
Arguments p_cap {T}.
Arguments p_slotID {T}.
Arguments p_draw {T}.

Section Backend.
Context {T : Type} `{Env, Token T}.
Local Abbreviation B := (PKCS11Backend T).
Local Abbreviation m := (M B error).

Definition on_token {A} (c : M T error A) : m A :=
  zoom p_token (fun t b => mkPKCS11Backend t (p_pool b) (p_cap b) (p_slotID b) (p_draw b)) c.

Definition set_pool (l : list Z) (b : B) : B :=
  mkPKCS11Backend (p_token b) l (p_cap b) (p_slotID b) (p_draw b).

(** [acquire]: with no session in the pool it waits for one until the
    context ends; in a step of its own it can only end so. *)
Definition acquire : m Z := fun b =>
  match p_pool b with
  | sess :: rest => (set_pool rest b, Ok sess)
  | [] => (b, Err (PkgError "context"))
  end.

Definition release (sess : Z) (b : B) : B := set_pool (p_pool b ++ [sess]) b.

(** An operation with a session, which is released however it ends. *)
Definition with_session {A} (body : Z -> m A) : m A := fun b =>
  match with_err (Wrapf "acquire session") acquire b with
  | (b1, Ok session) => let '(b2, r) := body session b1 in (release session b2, r)
  | (b1, Err e) => (b1, Err e)
  | (b1, Panic p) => (b1, Panic p)
  end.

Definition randomBytes (n : nat) : m bytes := fun b =>
  (mkPKCS11Backend (p_token b) (p_pool b) (p_cap b) (p_slotID b) (S (p_draw b)), Ok (rand (p_draw b) n)).

(** The search for one private key; it is closed on every path. *)
Definition findPrivateKeyByID (session : Z) (id : bytes) : m Z :=
  with_err (Wrapf "find init")
    (on_token (FindObjectsInit session [CKA_CLASS CKO_PRIVATE_KEY; CKA_ID id])) ;;!
  let! handles := attempt (on_token (FindObjects session 1)) in
  let! _ := attempt (F := error) (on_token (FindObjectsFinal session)) in
  match handles with
  | inr e => fail (Wrapf "find objects" e)
  | inl [] => fail (Errorf "key not found")
  | inl (h :: _) => ret h
  end.

(** The first value of an attribute, which must not be empty. *)
Definition attribute (what empty : string) (session handle : Z) (name : AttributeName) : m bytes :=
  let! attrs := with_err (Wrapf what) (on_token (GetAttributeValue session handle name)) in
  match attrs with
  | ((_ :: _) as v) :: _ => ret v
  | _ => fail (Errorf empty)
  end.

Definition readECPoint (session handle : Z) (curveName : string) : m bytes :=
  let! ecPoint := attribute "get EC point" "empty EC point" session handle EC_POINT in
  lift (compressed_point curveName ecPoint).

Definition getKeyCurve (session handle : Z) : m string :=
  let! params := attribute "get EC params" "empty EC params" session handle EC_PARAMS in
  lift (oidToCurveName params).

(** *** Key generation *)

Definition pub_template (derOID kidBytes : bytes) : list Attribute :=
  [CKA_TOKEN true; CKA_VERIFY true; CKA_EC_PARAMS derOID; CKA_ID kidBytes].
Definition priv_template (kidBytes : bytes) : list Attribute :=
  [CKA_TOKEN true; CKA_SIGN true; CKA_SENSITIVE true; CKA_EXTRACTABLE false; CKA_DERIVE true;
   CKA_ID kidBytes].

(** The key ID is the start of the hash of the public key. *)
Definition kid_of (pubBytes : bytes) : string := HexEncodeToString (take 16 (Sum256 pubBytes)).

Definition GenerateECKey_body (curveName : string) (session : Z) : m (string * bytes) :=
  let! oid := lift (curveOID curveName) in
  let! derOID := lift (of_option (Wrapf "marshal OID" (PkgError "encoding/asn1")) (oid_der oid)) in
  let! kidBytes := randomBytes 16 in
  let! (pubHandle, _) := with_err (Wrapf "generate key pair")
    (on_token (GenerateKeyPair session CKM_EC_KEY_PAIR_GEN (pub_template derOID kidBytes)
                 (priv_template kidBytes))) in
  let! pubBytes := with_err (Wrapf "read public key") (readECPoint session pubHandle curveName) in
  let kid := kid_of pubBytes in
  with_err (Wrapf "update pub CKA_ID")
    (on_token (SetAttributeValue session pubHandle [CKA_ID (go_bytes kid)])) ;;!
  let! privHandle := with_err (Wrapf "find private key") (findPrivateKeyByID session kidBytes) in
  with_err (Wrapf "update priv CKA_ID")
    (on_token (SetAttributeValue session privHandle [CKA_ID (go_bytes kid)])) ;;!
  ret (kid, pubBytes).

Definition GenerateECKey (curveName : string) : m (string * bytes) :=
  with_session (GenerateECKey_body curveName).

(** *** Signing *)

Definition Sign_body (kid : string) (hash : bytes) (session : Z) : m bytes :=
  let! privHandle := with_err (Wrapf "find key") (findPrivateKeyByID session (go_bytes kid)) in
  with_err (Wrapf "sign init") (on_token (SignInit session CKM_ECDSA privHandle)) ;;!
  let! rawSig := with_err (Wrapf "sign") (on_token (TokenSign session hash)) in
  lift (rawSigToASN1 rawSig).

Definition Sign (kid : string) (hash : bytes) : m bytes := with_session (Sign_body kid hash).

(** *** Key agreement *)

(** The peer's point, uncompressed. *)
Definition peer_point (c : Curve) (ecPoint : bytes) : outcome error bytes :=
  match ecPoint with
  | b :: _ =>
      if Byte.eqb b x02 || Byte.eqb b x03 then
        let? (x, y) := of_option (Errorf "decompress peer public key failed") (UnmarshalCompressed c ecPoint) in
        EllipticMarshal c x y
      else Ok ecPoint
  | [] => Ok ecPoint
  end.

Definition derive_template (deriveLen : Z) : list Attribute :=
  [CKA_CLASS CKO_SECRET_KEY; CKA_KEY_TYPE CKK_GENERIC_SECRET; CKA_EXTRACTABLE true; CKA_SENSITIVE false;
   CKA_VALUE_LEN deriveLen].

Definition ECDH_body (kid : string) (peerPubKey : bytes) (session : Z) : m bytes :=
  let! privHandle := with_err (Wrapf "find key") (findPrivateKeyByID session (go_bytes kid)) in
  let! curveName := with_err (Wrapf "get key curve") (getKeyCurve session privHandle) in
  let! curve := lift (parseCurve curveName) in
  let! ecPoint := lift (peer_point curve peerPubKey) in
  let! secretHandle := with_err (Wrapf "ECDH derive")
    (on_token (DeriveKey session (CKM_ECDH1_DERIVE ecPoint) privHandle
                 (derive_template ((BitSize curve + 7) / 8)))) in
  let! value := attribute "get derived secret" "empty derived secret" session secretHandle VALUE in
  let! _ := attempt (F := error) (on_token (DestroyObject session secretHandle)) in
  ret value.

Definition ECDH (kid : string) (peerPubKey : bytes) : m bytes := with_session (ECDH_body kid peerPubKey).

(** *** Listing *)

(** One object of the listing; one that cannot be read is left out. *)
Definition key_info (curves : list string) (session h : Z) : m (option KeyInfo) :=
  let! curveName := attempt (getKeyCurve session h) in
  match curveName with
  | inr _ => ret None
  | inl curveName =>
      if negb (bool_decide (curves = [])) && negb (existsb (fun c => bool_decide (c = curveName)) curves)
      then ret None
      else
        let! pubBytes := attempt (readECPoint session h curveName) in
        match pubBytes with
        | inr _ => ret None
        | inl pubBytes =>
            let! attrs := attempt (F := error) (on_token (GetAttributeValue session h ID)) in
            match attrs with
            | inr _ | inl [] => ret None
            | inl (v :: _) => ret (Some (mkKeyInfo (go_string v) curveName 0 pubBytes))
            end
        end
  end.

Fixpoint key_infos (curves : list string) (session : Z) (handles : list Z) : m (list KeyInfo) :=
  match handles with
  | [] => ret []
  | h :: rest =>
      let! k := key_info curves session h in
      let! ks := key_infos curves session rest in
      ret (match k with Some k => k :: ks | None => ks end)
  end.

(** The loop over the batches of a search; [fuel] bounds their number. *)
Fixpoint list_batches (fuel : nat) (curves : list string) (session : Z) : m (list KeyInfo) :=
  match fuel with
  | O => lift (Panic "out of fuel")
  | S fuel' =>
      let! handles := attempt (on_token (FindObjects session 32)) in
      match handles with
      | inr e =>
          let! _ := attempt (F := error) (on_token (FindObjectsFinal session)) in
          fail (Wrapf "find objects" e)
      | inl [] => ret []
      | inl handles =>
          let! ks := key_infos curves session handles in
          let! rest := list_batches fuel' curves session in
          ret (ks ++ rest)
      end
  end.

(** [bound] tells how many batches a search of the token may give. *)
Definition ListKeys_body (bound : T -> Z -> nat) (curves : list string) (session : Z) : m (list KeyInfo) :=
  with_err (Wrapf "find init")
    (on_token (FindObjectsInit session [CKA_CLASS CKO_PUBLIC_KEY; CKA_KEY_TYPE CKK_EC])) ;;!
  let! fuel := gets (fun b => bound (p_token b) session) in
  let! keys := list_batches fuel curves session in
  let! _ := attempt (F := error) (on_token (FindObjectsFinal session)) in
  ret keys.

Definition ListKeys (bound : T -> Z -> nat) (curves : list string) : m (list KeyInfo) :=
  with_session (ListKeys_body bound curves).

(** The [hsm.Backend] the service uses. *)
Definition pkcs11_backend (bound : T -> Z -> nat) : Backend B := {|
  Handlers.GenerateECKey := GenerateECKey;
  Handlers.Sign := Sign;
  Handlers.ECDH := ECDH;
  Handlers.ListKeys := ListKeys bound
|}.
End Backend.

(** ** Opening and closing *)

Section Open.
Context {T : Type} `{Token T}.
Local Abbreviation m := (M T error).

(** Ignore what a call returns. *)
Definition ignore {A} (c : m A) : m unit := let! _ := attempt (F := error) c in ret tt.

(** The first slot whose token has the label. *)
Fixpoint find_slot (label : string) (slots : list Z) : m (option Z) :=
  match slots with
  | [] => ret None
  | s :: rest =>
      let! ti := attempt (F := error) (GetTokenInfo s) in
      match ti with
      | inl l => if bool_decide (l = label) then ret (Some s) else find_slot label rest
      | inr _ => find_slot label rest
      end
  end.

Definition resolve_slot (cfg : PKCS11Config) : m Z :=
  if bool_decide (p11_TokenLabel cfg = "") then ret (p11_SlotID cfg)
  else
    let! slots := attempt (F := error) GetSlotList in
    match slots with
    | inr e => ignore Finalize ;;! fail (Wrapf "get slot list" e)
    | inl slots =>
        let! slot := find_slot (p11_TokenLabel cfg) slots in
        match slot with
        | Some s => ret s
        | None =>
            ignore Finalize ;;!
            fail (Errorf ("token with label " +:+ fmt_q (p11_TokenLabel cfg) +:+ " not found"))
        end
    end.

(** The other sessions of the pool; a failure closes those in the pool. *)
Fixpoint close_all (l : list Z) : m unit :=
  match l with [] => ret tt | s :: rest => ignore (CloseSession s) ;;! close_all rest end.

Fixpoint open_sessions (slotID : Z) (i : Z) (n : nat) (pool : list Z) : m (list Z) :=
  match n with
  | O => ret pool
  | S n' =>
      let! sess := attempt (F := error) (OpenSession slotID) in
      match sess with
      | inl sess => open_sessions slotID (i + 1) n' (pool ++ [sess])
      | inr e =>
          close_all pool ;;! ignore (Logout (hd 0 pool)) ;;! ignore Finalize ;;!
          fail (Wrapf ("open pool session " +:+ fmt_d i) e)
      end
  end.

Definition pool_size (cfg : PKCS11Config) : nat :=
  if p11_PoolSize cfg <=? 0 then 4%nat else Z.to_nat (p11_PoolSize cfg).

(** [NewPKCS11Backend], of a module that loads: the slot, the sessions. *)
Definition open_pool (cfg : PKCS11Config) : m (Z * list Z) :=
  with_err (Wrapf "PKCS#11 initialize") Initialize ;;!
  let! slotID := resolve_slot cfg in
  let! first := attempt (F := error) (OpenSession slotID) in
  match first with
  | inr e => ignore Finalize ;;! fail (Wrapf "open session" e)
  | inl first =>
      let! login := attempt (F := error) (Login first (p11_PIN cfg)) in
      match login with
      | inr e => ignore (CloseSession first) ;;! ignore Finalize ;;! fail (Wrapf "login" e)
      | inl _ =>
          let! pool := open_sessions slotID 1 (pool_size cfg - 1) [first] in
          ret (slotID, pool)
      end
  end.

Definition NewPKCS11Backend (cfg : PKCS11Config) (t : T) : outcome error (PKCS11Backend T) :=
  match open_pool cfg t with
  | (t', Ok (slotID, pool)) => Ok (mkPKCS11Backend t' pool (pool_size cfg) slotID 0)
  | (_, Err e) => Err e
  | (_, Panic p) => Panic p
  end.

(** [Close]: every session in the pool, then the login. *)
Definition Close (pool : list Z) : m unit :=
  close_all pool ;;!
  match pool with first :: _ => ignore (Logout first) | [] => ret tt end ;;!
  ignore Finalize.

Definition PoolSize {T'} (b : PKCS11Backend T') : nat := p_cap b.
End Open.
