(* ===== verification/Pool.v ===== *)
(** * The session pool of the HSM backend, shared by concurrent operations

    Operations run concurrently; each takes a session from the channel,
    works with it, and puts it back.  The steps of different operations
    interleave in any order. *)

From S2P Require Import Prelude GoTime GoStrings Ecc Asn1 Counter Sessions Store World Handlers Startup Pkcs11.
Local Open Scope Z_scope.

(** ** One operation *)

Section Operation.
Context {T : Type} `{Env, Token T}.
Local Abbreviation B := (PKCS11Backend T).

(** What an operation may do while it holds its session: anything to the
    token, nothing to the pool. *)
Definition token_only (b b' : B) : Prop := p_pool b' = p_pool b /\ p_cap b' = p_cap b.

#[export] Instance token_only_preorder : PreOrder token_only.
Proof. split; unfold token_only; repeat intro; intuition congruence. Qed.

Lemma steps_on_token {A} (c : M T error A) : steps token_only (on_token c).
Proof. by apply steps_zoom. Qed.

Lemma steps_randomBytes n : steps token_only (randomBytes (T := T) n).
Proof. by intros b. Qed.

#[local] Hint Resolve steps_on_token steps_randomBytes : steps.

Lemma steps_attribute what empty s h n : steps token_only (attribute what empty s h n).
Proof. unfold attribute. steps_auto. Qed.

#[local] Hint Resolve steps_attribute : steps.

Lemma steps_getKeyCurve s h : steps token_only (getKeyCurve s h).
Proof. unfold getKeyCurve. steps_auto. Qed.
Lemma steps_readECPoint s h c : steps token_only (readECPoint s h c).
Proof. unfold readECPoint. steps_auto. Qed.
Lemma steps_findPrivateKeyByID s id : steps token_only (findPrivateKeyByID s id).
Proof. unfold findPrivateKeyByID. steps_auto. Qed.

#[local] Hint Resolve steps_getKeyCurve steps_readECPoint steps_findPrivateKeyByID : steps.

Lemma steps_key_info curves s h : steps token_only (key_info curves s h).
Proof. unfold key_info. steps_auto. Qed.

#[local] Hint Resolve steps_key_info : steps.

Lemma steps_key_infos curves s hs : steps token_only (key_infos curves s hs).
Proof. induction hs as [|h hs IH]; cbn [key_infos]; steps_auto. Qed.

#[local] Hint Resolve steps_key_infos : steps.

Lemma steps_list_batches fuel curves s : steps token_only (list_batches fuel curves s).
Proof. induction fuel as [|n IH]; cbn [list_batches]; steps_auto. Qed.

#[local] Hint Resolve steps_list_batches : steps.

Lemma steps_bodies s :
  (forall c, steps token_only (GenerateECKey_body c s)) /\
  (forall k h, steps token_only (Sign_body k h s)) /\
  (forall k p, steps token_only (ECDH_body k p s)) /\
  (forall n cs, steps token_only (ListKeys_body n cs s)).
Proof.
  unfold GenerateECKey_body, Sign_body, ECDH_body, ListKeys_body. split_and!; intros; steps_auto.
Qed.

(** An operation on its own leaves the pool with the same sessions. *)
Definition same_sessions (b b' : B) : Prop := p_pool b' ≡ₚ p_pool b /\ p_cap b' = p_cap b.

Lemma with_session_pool {A} (body : Z -> M B error A) :
  (forall s, steps token_only (body s)) -> steps same_sessions (with_session body).
Proof.
  intros Hb b. unfold with_session, with_err, acquire.
  destruct (p_pool b) as [|s rest] eqn:Hp; simpl; [by split|].
  specialize (Hb s (set_pool rest b)). destruct (body s (set_pool rest b)) as [b2 r]. simpl in *.
  destruct Hb as [Hp2 Hc]. split; simpl; [|by rewrite Hc].
  rewrite Hp2, Hp. simpl. symmetry. apply Permutation_cons_append.
Qed.

Lemma operations_pool bound :
  (forall c, steps same_sessions (GenerateECKey c)) /\
  (forall k h, steps same_sessions (Sign k h)) /\
  (forall k p, steps same_sessions (ECDH k p)) /\
  (forall cs, steps same_sessions (ListKeys bound cs)).
Proof. split_and!; intros; apply with_session_pool; intros s; apply steps_bodies. Qed.
End Operation.

(** ** Concurrent operations *)

Section Concurrent.
Context {T : Type} `{Env, Token T}.
Local Abbreviation B := (PKCS11Backend T).

(** The backend, and the session each running operation holds. *)
Record state := mkState { st_backend : B; st_held : gmap nat Z }.

(** An operation takes a session, works on the token, and puts its session
    back; the send waits while the channel is full. *)
Inductive op_step : state -> state -> Prop :=
| step_acquire op b b' held sess :
    held !! op = None -> acquire b = (b', Ok sess) ->
    op_step (mkState b held) (mkState b' (<[op := sess]> held))
| step_work op b b' held sess :
    held !! op = Some sess -> token_only b b' ->
    op_step (mkState b held) (mkState b' held)
| step_release op b held sess :
    held !! op = Some sess -> (length (p_pool b) < p_cap b)%nat ->
    op_step (mkState b held) (mkState (release sess b) (delete op held)).

Definition sessions_of (st : state) : list Z :=
  p_pool (st_backend st) ++ (map_to_list (st_held st)).*2.

Definition pool_inv (all : list Z) (st : state) : Prop :=
  NoDup all /\ sessions_of st ≡ₚ all /\ length all = p_cap (st_backend st).

Lemma op_step_inv all st st' : op_step st st' -> pool_inv all st -> pool_inv all st'.
Proof.
  intros Hs (Hn & Hp & Hl). split; [done|]. unfold sessions_of in *.
  destruct Hs as [op b b' held sess Ho Ha|op b b' held sess _ [Hpool Hc]|op b held sess Ho _]; simpl in *.
  - unfold acquire in Ha. destruct (p_pool b) as [|s rest] eqn:Eb; [done|]. injection Ha as <- <-. simpl.
    split; [|done]. rewrite map_to_list_insert by done. simpl. etrans; [|exact Hp]. simpl.
    by rewrite Permutation_middle.
  - by rewrite Hpool, Hc.
  - split; [|done]. etrans; [|exact Hp]. rewrite <-app_assoc. f_equiv.
    rewrite <-(insert_delete_id held op sess Ho) at 2. rewrite map_to_list_insert by apply lookup_delete_eq.
    done.
Qed.

Lemma snd_inj_of_NoDup {A C} (l : list (A * C)) a a' c :
  NoDup l.*2 -> (a, c) ∈ l -> (a', c) ∈ l -> a = a'.
Proof.
  intros Hn Hi Hj. apply list_elem_of_lookup in Hi as [i Hi], Hj as [j Hj].
  assert (i = j) as ->; [|naive_solver].
  eapply NoDup_lookup; [exact Hn| |]; rewrite list_lookup_fmap; [by rewrite Hi|by rewrite Hj].
Qed.

(** C24: however operations interleave, two of them never work on the same
    session, no session is lost, an operation that finishes can always put
    its session back at once, and as long as fewer operations run than the
    pool has sessions, another one can start. *)
Theorem pool_safe b0 st :
  NoDup (p_pool b0) -> length (p_pool b0) = p_cap b0 -> rtc op_step (mkState b0 ∅) st ->
  (forall op op' sess, st_held st !! op = Some sess -> st_held st !! op' = Some sess -> op = op') /\
  sessions_of st ≡ₚ p_pool b0 /\
  (forall op sess, st_held st !! op = Some sess ->
     op_step st (mkState (release sess (st_backend st)) (delete op (st_held st)))) /\
  (forall op, st_held st !! op = None -> (size (st_held st) < p_cap b0)%nat -> exists st', op_step st st' /\
     is_Some (st_held st' !! op)).
Proof.
  intros Hn Hl Hr. assert (pool_inv (p_pool b0) st) as Hinv.
  { assert (pool_inv (p_pool b0) (mkState b0 ∅)) as H1'.
    { split; [done|]. split; [|done]. unfold sessions_of. simpl. by rewrite map_to_list_empty, app_nil_r. }
    clear Hn Hl. induction Hr as [st|s1 s2 s3 Hs _ IH]; [done|]. apply IH. by eapply op_step_inv. }
  destruct Hinv as (_ & Hp & Hc). destruct st as [b held]. unfold sessions_of in Hp. simpl in *.
  pose proof (Permutation_length Hp) as Hlen. rewrite length_app, length_fmap, length_map_to_list in Hlen.
  split; [|split; [done|split]].
  - intros op op' sess Ho Ho'. rewrite <-Hp in Hn. apply NoDup_app in Hn as (_ & _ & Hn).
    by apply (snd_inj_of_NoDup _ _ _ sess Hn); apply elem_of_map_to_list.
  - intros op sess Ho. apply step_release; [done|].
    assert (size held <> 0%nat); [|lia]. intros Hz. apply map_size_empty_inv in Hz as ->.
    by rewrite lookup_empty in Ho.
  - intros op Ho Hs. destruct b as [t pool cap slot draw]. simpl in *.
    destruct pool as [|sess pool]; simpl in Hlen; [lia|]. eexists. split; [by apply (step_acquire op)|].
    simpl. rewrite lookup_insert_eq. by eexists.
Qed.
End Concurrent.

(** ** A new backend *)

Section New.
Context {T : Type} `{Token T}.

Lemma open_sessions_length slot i n pool (t t' : T) l :
  open_sessions slot i n pool t = (t', Ok l) -> length l = (n + length pool)%nat.
Proof.
  revert i pool t. induction n as [|n IH]; intros i pool t; cbn [open_sessions].
  - by intros [= _ <-].
  - unfold bind at 1, attempt. destruct (OpenSession slot t) as [t1 [sess|e|p]]; [| |done].
    + intros Ho. apply IH in Ho. rewrite length_app in Ho. simpl in Ho. lia.
    + intros Ho. exfalso. assert (yields (fun _ : list Z => False)
        (close_all pool ;;! ignore (Logout (hd 0 pool)) ;;! ignore Finalize ;;!
         fail (Wrapf ("open pool session " +:+ fmt_d i) e))) as Hy
        by (apply yields_bind; intros _; apply yields_bind; intros _; apply yields_bind; intros _;
            apply yields_fail).
      exact (Hy _ _ _ Ho).
Qed.

(** It has as many sessions as its channel has room for, one at least. *)
Lemma NewPKCS11Backend_pool cfg t b :
  NewPKCS11Backend cfg t = Ok b ->
  length (p_pool b) = p_cap b /\ p_cap b = pool_size cfg /\ (1 <= pool_size cfg)%nat.
Proof.
  unfold NewPKCS11Backend. destruct (open_pool cfg t) as [t' [[slot pool]|e|p]] eqn:Ho; [|done..].
  intros [= <-]. simpl. assert (1 <= pool_size cfg)%nat as Hs by (unfold pool_size; destruct (Z.leb_spec (p11_PoolSize cfg) 0); lia).
  split; [|done]. revert Ho. unfold open_pool. intros Ho.
  apply bind_Ok in Ho as (t1 & u & _ & Ho). apply bind_Ok in Ho as (t2 & sl & _ & Ho).
  apply bind_Ok in Ho as (t3 & [first|e] & _ & Ho).
  2: { apply bind_Ok in Ho as (t4 & u' & _ & Ho). done. }
  apply bind_Ok in Ho as (t4 & [u'|e] & _ & Ho).
  2: { apply bind_Ok in Ho as (t5 & u' & _ & Ho). apply bind_Ok in Ho as (t6 & u2 & _ & Ho). done. }
  apply bind_Ok in Ho as (t5 & pool' & Ho & Hret). apply open_sessions_length in Ho.
  apply ret_Ok in Hret as [_ [= <- <-]]. simpl in Ho. lia.
Qed.
End New.

(** A token that hands out sessions in order and holds no keys. *)
#[export] Instance toy_token : Token nat := {|
  Initialize := ret tt; Finalize := ret tt;
  GetSlotList := ret [0]; GetTokenInfo := fun _ => ret "token";
  OpenSession := fun _ n => (S n, Ok (Z.of_nat n));
  CloseSession := fun _ => ret tt; Login := fun _ _ => ret tt; Logout := fun _ => ret tt;
  GenerateKeyPair := fun _ _ _ _ => fail (Errorf "full");
  SetAttributeValue := fun _ _ _ => ret tt;
  GetAttributeValue := fun _ _ _ => ret [];
  FindObjectsInit := fun _ _ => ret tt; FindObjects := fun _ _ => ret []; FindObjectsFinal := fun _ => ret tt;
  SignInit := fun _ _ _ => ret tt; TokenSign := fun _ h => ret h;
  DeriveKey := fun _ _ _ _ => fail (Errorf "none"); DestroyObject := fun _ _ => ret tt
|}.

Definition toy_backend : PKCS11Backend nat :=
  match NewPKCS11Backend (mkPKCS11Config "softhsm" 0 "1234" "token" 2) 0%nat with
  | Ok b => b
  | _ => mkPKCS11Backend 0%nat [] 0 0 0
  end.

Definition toy_held : state (T := nat) := mkState (set_pool [1] toy_backend) {[ 7%nat := 0 ]}.

Lemma toy_held_reachable : rtc op_step (mkState toy_backend ∅) toy_held.
Proof. eapply rtc_l; [|reflexivity]. by apply (step_acquire 7%nat). Qed.

Lemma pool_safe_witness :
  (forall op op' sess, st_held toy_held !! op = Some sess -> st_held toy_held !! op' = Some sess -> op = op') /\
  sessions_of toy_held ≡ₚ p_pool toy_backend /\
  (forall op sess, st_held toy_held !! op = Some sess ->
     op_step toy_held (mkState (release sess (st_backend toy_held)) (delete op (st_held toy_held)))) /\
  (forall op, st_held toy_held !! op = None -> (size (st_held toy_held) < p_cap toy_backend)%nat ->
     exists st', op_step toy_held st' /\ is_Some (st_held st' !! op)).
Proof.
  apply (pool_safe toy_backend toy_held); [|reflexivity|exact toy_held_reachable].
  apply (bool_decide_unpack _). vm_compute. exact I.
Defined.
