(* ===== verification/Keys.v ===== *)
(** * The keys of the HSM backend

    The signatures it returns, the key IDs it makes, and that a key it
    generated is the one it later finds and signs with.  [TokenLaws] states
    what PKCS#11 says of the object calls the backend makes. *)

From S2P Require Import Prelude GoTime GoStrings Sha256 Ecc Asn1 Counter Sessions Store World Handlers Startup Pkcs11 Pool.
Local Open Scope Z_scope.

(** ** Signatures *)

Lemma length_int_bytes n z : 0 <= z < 2 ^ (8 * Z.of_nat n) -> (length (int_bytes z) <= S n)%nat.
Proof.
  intros Hz. pose proof (length_IntBytes n z Hz) as Hl. unfold int_bytes.
  case_match; [simpl; lia|]. destruct (IntBytes z) as [|b l]; [simpl; lia|].
  case_match; simpl in *; lia.
Qed.

Lemma length_der tag body : (2 + length body <= length (der tag body))%nat.
Proof. unfold der, der_len. cbn [length]. rewrite length_app. case_match; simpl; lia. Qed.

(** C25: a raw signature, two integers of [n] bytes each, becomes the DER
    signature that reads back as the same integers, unless its first byte is
    0x30; a DER signature is returned as it is. *)
Theorem rawSigToASN1_roundtrip n r s :
  (0 < n)%nat -> Z.of_nat n < 2 ^ 20 ->
  0 <= r < 2 ^ (8 * Z.of_nat n) -> 0 <= s < 2 ^ (8 * Z.of_nat n) ->
  let raw := FillBytes n r ++ FillBytes n s in
  (hd x00 raw <> x30 -> rawSigToASN1 raw = Ok (signature_der r s)) /\
  (hd x00 raw = x30 -> (1 < n)%nat -> rawSigToASN1 raw = Ok raw) /\
  asn1_signature (signature_der r s) = Some (r, s) /\
  rawSigToASN1 (signature_der r s) = Ok (signature_der r s).
Proof.
  intros Hn Hn' Hr Hs raw.
  assert (length raw = (2 * n)%nat) as Hl by (unfold raw, FillBytes; rewrite length_app, !length_put_be; lia).
  unfold rawSigToASN1. split; [|split; [|split]].
  - intros Hh. rewrite (proj2 (byte_eqb_neq _ _) Hh), andb_false_r, Hl.
    replace ((2 * n) mod 2)%nat with 0%nat by (rewrite Nat.mul_comm, Nat.Div0.mod_mul; done).
    replace ((2 * n) / 2)%nat with n by (rewrite Nat.mul_comm, Nat.div_mul; done). cbn [negb Nat.eqb].
    unfold raw, FillBytes. rewrite take_app_length', drop_app_length' by (by rewrite length_put_be).
    unfold SetBytes. by rewrite !be_uint_put_be, !Z.mod_small by lia.
  - intros Hh H1'. rewrite Hh, Hl. rewrite (proj2 (Nat.ltb_lt _ _)) by lia. done.
  - pose proof (length_int_bytes n r Hr). pose proof (length_int_bytes n s Hs).
    apply asn1_signature_der; lia.
  - assert (2 < length (signature_der r s))%nat as H2'.
    { unfold signature_der. pose proof (length_der x02 (int_bytes r)).
      pose proof (length_der x30 (der x02 (int_bytes r) ++ der x02 (int_bytes s))) as Hd.
      rewrite length_app in Hd. lia. }
    by rewrite (proj2 (Nat.ltb_lt _ _) H2').
Qed.

Lemma rawSigToASN1_roundtrip_witness :
  rawSigToASN1 [x01; xff; x80; x00] = Ok (signature_der 511 32768) /\
  asn1_signature (signature_der 511 32768) = Some (511, 32768).
Proof.
  destruct (rawSigToASN1_roundtrip 2 511 32768) as (Ha & _ & Hb & _); [lia|lia|lia|lia|].
  split; [|exact Hb]. apply Ha. vm_compute. discriminate.
Defined.

(** ** Key IDs *)

Lemma hex_char_kid z : 0 <= z < 16 -> kid_char (hex_char z) = true.
Proof.
  intros Hz. unfold kid_char, byte_in, hex_char. rewrite b2z_z2b.
  destruct (z <? 10) eqn:E; rewrite Z.mod_small by lia;
    repeat (apply orb_true_iff; (right; apply andb_true_iff; lia) || left || idtac); try (apply andb_true_iff; lia).
Qed.

Lemma hex_encode_kid l : forallb kid_char (hex_encode l) = true.
Proof.
  induction l as [|b l IH]; [done|]. cbn [hex_encode forallb]. pose proof (b2z_range b).
  rewrite !hex_char_kid, IH by zlia. done.
Qed.

Lemma length_hex_encode l : length (hex_encode l) = (2 * length l)%nat.
Proof. induction l as [|b l IH]; [done|]. cbn [hex_encode length]. lia. Qed.

(** A key ID the backend makes is one the handlers accept. *)
Lemma kid_of_valid pub : validKid (kid_of pub) = true.
Proof.
  unfold validKid, kid_of, HexEncodeToString. rewrite go_bytes_string, hex_encode_kid, length_hex_encode.
  rewrite length_take, length_Sum256. done.
Qed.

(** ** The token's objects *)

(** What PKCS#11 says of the calls: [class_of] and [id_of] are the class and
    the CKA_ID of the objects there are, [found] the objects the active
    search of a session has still to return. *)
Class TokenLaws (T : Type) `{Token T} := {
  class_of : T -> Z -> option ObjectClass;
  id_of : T -> Z -> option bytes;
  found : T -> Z -> list Z;
  same_objects (t t' : T) : Prop := forall h, class_of t' h = class_of t h /\ id_of t' h = id_of t h;
  FindObjectsInit_law t s id :
    match FindObjectsInit s [CKA_CLASS CKO_PRIVATE_KEY; CKA_ID id] t with
    | (t', Ok _) => same_objects t t' /\
        (forall h, h ∈ found t' s <-> class_of t h = Some CKO_PRIVATE_KEY /\ id_of t h = Some id)
    | (t', Err _) => same_objects t t'
    | (_, Panic _) => False
    end;
  FindObjects_law t s n :
    match FindObjects s n t with
    | (t', Ok l) => same_objects t t' /\ l ++ found t' s = found t s /\
        (length l <= n)%nat /\ ((0 < n)%nat -> l = [] -> found t s = [])
    | (t', Err _) => same_objects t t'
    | (_, Panic _) => False
    end;
  FindObjectsFinal_law t s : same_objects t (FindObjectsFinal s t).1 /\ is_panic (FindObjectsFinal s t).2 = false;
  GetAttributeValue_law t s h a :
    let '(t', r) := GetAttributeValue s h a t in
    same_objects t t' /\ found t' s = found t s /\ is_panic r = false;
  GenerateKeyPair_law t s derOID id :
    match GenerateKeyPair s CKM_EC_KEY_PAIR_GEN (pub_template derOID id) (priv_template id) t with
    | (t', Ok (pub, priv)) =>
        pub <> priv /\ class_of t pub = None /\ class_of t priv = None /\
        class_of t' pub = Some CKO_PUBLIC_KEY /\ id_of t' pub = Some id /\
        class_of t' priv = Some CKO_PRIVATE_KEY /\ id_of t' priv = Some id /\
        (forall h, h <> pub -> h <> priv -> class_of t' h = class_of t h /\ id_of t' h = id_of t h)
    | (t', Err _) => True
    | (_, Panic _) => False
    end;
  SetAttributeValue_law t s h id :
    match SetAttributeValue s h [CKA_ID id] t with
    | (t', Ok _) => id_of t' h = Some id /\ (forall h', class_of t' h' = class_of t h') /\
        (forall h', h' <> h -> id_of t' h' = id_of t h')
    | (t', Err _) => True
    | (_, Panic _) => False
    end
}.

Section Found.
Context {T : Type} `{Env, TokenLaws T}.
Local Abbreviation B := (PKCS11Backend T).

(** A private key of the token with the given ID. *)
Definition private_key (t : T) (id : bytes) (h : Z) : Prop :=
  class_of t h = Some CKO_PRIVATE_KEY /\ id_of t h = Some id.

Lemma same_objects_private t t' id h : same_objects t t' -> private_key t' id h <-> private_key t id h.
Proof. intros Hs. unfold private_key. by destruct (Hs h) as [-> ->]. Qed.

Lemma same_objects_trans t1 t2 t3 : same_objects t1 t2 -> same_objects t2 t3 -> same_objects t1 t3.
Proof. intros Ha Hb h. destruct (Ha h) as [<- <-]. apply Hb. Qed.

(** The search finds a private key with the ID, and changes no object. *)
Lemma findPrivateKeyByID_spec s id (b b' : B) r :
  findPrivateKeyByID s id b = (b', r) ->
  same_objects (p_token b) (p_token b') /\
  match r with
  | Ok h => private_key (p_token b) id h
  | Err e => e = Errorf "key not found" -> forall h, ~ private_key (p_token b) id h
  | Panic _ => False
  end.
Proof.
  unfold findPrivateKeyByID, bind, with_err, attempt, on_token, zoom.
  pose proof (FindObjectsInit_law (p_token b) s id) as HI.
  destruct (FindObjectsInit _ _ _) as [t1 [u|e|p]]; simpl; [|by intros [= <- <-]|done].
  destruct HI as [H1' HF]. pose proof (FindObjects_law t1 s 1) as HO. simpl.
  destruct (FindObjects s 1 t1) as [t2 ho] eqn:Eo.
  assert (same_objects t1 t2) as H2' by (destruct ho; [apply HO|done|done]).
  pose proof (FindObjectsFinal_law t2 s) as [H3' Hp].
  destruct ho as [l|e|p]; [| |done]; simpl;
    destruct (FindObjectsFinal s t2) as [t3 [u3|e3|p3]]; simpl in *; try done;
    pose proof (same_objects_trans _ _ _ (same_objects_trans _ _ _ H1' H2') H3') as Hs.
  1, 2: destruct HO as (_ & Hl & _ & He); destruct l as [|h l]; simpl; intros [= <- <-]; (split; [done|]);
    [intros _ h Hk; apply HF in Hk; rewrite (He ltac:(lia) eq_refl) in Hk; by apply elem_of_nil in Hk
    |apply HF; rewrite <-Hl; left].
  all: by intros [= <- <-].
Qed.

Lemma on_token_Ok {A} (c : M T error A) (b b' : B) a :
  on_token c b = (b', Ok a) ->
  c (p_token b) = (p_token b', Ok a) /\ p_draw b' = p_draw b.
Proof. unfold on_token, zoom. destruct (c (p_token b)) as [t o]. by intros [= <- ->]. Qed.

Lemma with_session_Ok {A} (body : Z -> M B error A) (b b' : B) a :
  with_session body b = (b', Ok a) ->
  exists s rest b2, body s (set_pool rest b) = (b2, Ok a) /\ p_token b' = p_token b2.
Proof.
  unfold with_session, with_err, acquire. destruct (p_pool b) as [|s rest]; simpl; [done|].
  destruct (body s (set_pool rest b)) as [b2 r] eqn:Eb. intros [= <- ->]. by exists s, rest, b2.
Qed.

Lemma readECPoint_Ok s h curve (b b' : B) pub :
  readECPoint s h curve b = (b', Ok pub) -> same_objects (p_token b) (p_token b') /\ pub <> [].
Proof.
  unfold readECPoint, attribute. intros Hr. apply bind_Ok in Hr as (b1 & v & Ha & Hr).
  apply bind_Ok in Ha as (b2 & attrs & Hg & Ha). apply with_err_Ok, on_token_Ok in Hg as [Hg _].
  pose proof (GetAttributeValue_law (p_token b) s h EC_POINT) as Hs. rewrite Hg in Hs. destruct Hs as [Hs _].
  destruct attrs as [|[|v0 vs] l]; [done..|]. injection Ha as <- <-.
  apply lift_Ok in Hr as [-> Hr]. split; [exact Hs|]. unfold compressed_point in Hr.
  inv_ok Hr. destruct x0 as [px py]. injection Hr as <-. unfold compress_point. by destruct (Z.odd py).
Qed.

(** *** The listing ends *)

(** The search of the session is as it was. *)
Definition same_search (s : Z) (b b' : B) : Prop := found (p_token b') s = found (p_token b) s.

#[export] Instance same_search_preorder s : PreOrder (same_search s).
Proof. split; unfold same_search; repeat intro; congruence. Qed.

Lemma attribute_search what empty s h n :
  steps (same_search s) (attribute what empty s h n) /\ safe (attribute what empty s h n).
Proof.
  assert (steps (same_search s) (on_token (GetAttributeValue s h n))) as Hs.
  { apply steps_zoom. intros b. unfold same_search. simpl. pose proof (GetAttributeValue_law (p_token b) s h n) as HL.
    destruct (GetAttributeValue s h n (p_token b)). simpl. tauto. }
  assert (safe (on_token (GetAttributeValue s h n))) as Hp.
  { apply safe_zoom. intros t. pose proof (GetAttributeValue_law t s h n) as HL.
    destruct (GetAttributeValue s h n t). simpl. tauto. }
  unfold attribute. split; [steps_auto|safe_auto].
Qed.

Lemma compressed_point_no_panic c p : is_panic (compressed_point c p) = false.
Proof.
  unfold compressed_point, parseCurve, unsupported. repeat case_match; simpl; try done;
    apply obind_no_panic; [apply of_option_no_panic|by intros []|apply of_option_no_panic|by intros []|
                           apply of_option_no_panic|by intros []].
Qed.

Lemma oidToCurveName_no_panic p : is_panic (oidToCurveName p) = false.
Proof. unfold oidToCurveName. destruct (asn1_oid p); simpl; repeat case_match; done. Qed.

Lemma key_infos_search curves s hs :
  steps (same_search s) (key_infos curves s hs) /\ safe (key_infos curves s hs).
Proof.
  pose proof attribute_search as Ha. pose proof compressed_point_no_panic. pose proof oidToCurveName_no_panic.
  assert (forall h, steps (same_search s) (on_token (GetAttributeValue s h ID)) /\
    safe (on_token (GetAttributeValue s h ID))) as Hid.
  { intros h. split; [apply steps_zoom|apply safe_zoom]; intros b;
      [pose proof (GetAttributeValue_law (p_token b) s h ID) as HL; unfold same_search; simpl;
       destruct (GetAttributeValue s h ID (p_token b))
      |pose proof (GetAttributeValue_law b s h ID) as HL; destruct (GetAttributeValue s h ID b)]; simpl; tauto. }
  assert (forall h, steps (same_search s) (key_info curves s h) /\ safe (key_info curves s h)) as Hk.
  { intros h. pose proof (fun w e n => proj1 (Ha w e s h n)) as Ha1. pose proof (fun w e n => proj2 (Ha w e s h n)) as Ha2.
    destruct (Hid h) as [Hi1 Hi2]. unfold key_info, getKeyCurve, readECPoint. split; [steps_auto|safe_auto]. }
  induction hs as [|h hs [IH1 IH2]]; cbn [key_infos]; [split; [steps_auto|safe_auto]|].
  destruct (Hk h) as [Hk1 Hk2]. split; [steps_auto|safe_auto].
Qed.

(** With more fuel than objects found, the listing neither runs out of it
    nor panics: every batch is shorter than the one before. *)
Lemma list_batches_ends fuel curves s (b : B) :
  (length (found (p_token b) s) < fuel)%nat -> is_panic (list_batches fuel curves s b).2 = false.
Proof.
  revert b. induction fuel as [|n IH]; intros b Hf; [lia|]. cbn [list_batches].
  unfold bind at 1, attempt at 1, on_token at 1, zoom at 1.
  pose proof (FindObjects_law (p_token b) s 32) as HL.
  destruct (FindObjects s 32 (p_token b)) as [t1 [l|e|p]]; [| |done].
  - destruct HL as (_ & Hl & _ & _). destruct l as [|h l]; [done|].
    destruct (key_infos_search curves s (h :: l)) as [Hs Hp]. set (b1 := mkPKCS11Backend t1 _ _ _ _).
    unfold bind at 1. specialize (Hs b1). specialize (Hp b1). unfold same_search in Hs.
    destruct (key_infos curves s (h :: l) b1) as [b2 [ks|e|p]]; simpl in *; [|done..].
    assert (length (found (p_token b2) s) < n)%nat as Hn.
    { rewrite Hs. rewrite <-Hl in Hf. simpl in Hf. rewrite length_app in Hf. lia. }
    specialize (IH b2 Hn). unfold bind. by destruct (list_batches n curves s b2) as [b3 []].
  - unfold bind, attempt, on_token, zoom. pose proof (FindObjectsFinal_law t1 s) as [_ Hp]. simpl.
    by destruct (FindObjectsFinal s t1) as [t2 []].
Qed.

(** What the objects are after a key pair was generated and renamed. *)
Lemma generate_objects curve s (b b' : B) kid pub :
  (forall h, ~ private_key (p_token b) (rand (p_draw b) 16) h) ->
  GenerateECKey_body curve s b = (b', Ok (kid, pub)) ->
  kid = kid_of pub /\ pub <> [] /\
  exists priv, class_of (p_token b) priv = None /\
    forall h, private_key (p_token b') (go_bytes kid) h <->
      h = priv \/ private_key (p_token b) (go_bytes kid) h.
Proof.
  intros Hfresh. unfold GenerateECKey_body. intros Hg.
  apply bind_Ok in Hg as (b1 & oid & Ha & Hg). apply lift_Ok in Ha as [-> _].
  apply bind_Ok in Hg as (b1 & derOID & Ha & Hg). apply lift_Ok in Ha as [-> _].
  apply bind_Ok in Hg as (b1 & id & Ha & Hg). injection Ha as <- <-. set (id := rand (p_draw b) 16) in *.
  apply bind_Ok in Hg as (b2 & [ph priv] & Ha & Hg). apply with_err_Ok, on_token_Ok in Ha as [Hgen _].
  cbn [p_token] in Hgen. pose proof (GenerateKeyPair_law (p_token b) s derOID id) as HG. rewrite Hgen in HG.
  destruct HG as (Hne & Hp0 & Hpr0 & Hpc & Hpi & Hprc & Hpri & Hother).
  apply bind_Ok in Hg as (b3 & pubBytes & Ha & Hg). apply with_err_Ok, readECPoint_Ok in Ha as [Hs3 Hpub].
  apply bind_Ok in Hg as (b4 & u4 & Ha & Hg). apply with_err_Ok, on_token_Ok in Ha as [Hset _].
  pose proof (SetAttributeValue_law (p_token b3) s ph (go_bytes (kid_of pubBytes))) as HS4. rewrite Hset in HS4.
  destruct HS4 as (Hid4 & Hc4 & Ho4).
  apply bind_Ok in Hg as (b5 & h5 & Ha & Hg). apply with_err_Ok, findPrivateKeyByID_spec in Ha as [Hs5 Hk5].
  apply bind_Ok in Hg as (b6 & u6 & Ha & Hg). apply with_err_Ok, on_token_Ok in Ha as [Hset6 _].
  pose proof (SetAttributeValue_law (p_token b5) s h5 (go_bytes (kid_of pubBytes))) as HS6. rewrite Hset6 in HS6.
  destruct HS6 as (Hid6 & Hc6 & Ho6). apply ret_Ok in Hg as [-> [= -> ->]].
  split; [done|]. split; [done|]. exists priv. split; [done|].
  (* the objects of [b4], and the key the search found *)
  assert (forall h, h <> ph -> class_of (p_token b4) h = class_of (p_token b2) h /\
                             id_of (p_token b4) h = id_of (p_token b2) h) as H42.
  { intros h Hh. rewrite Hc4, (Ho4 h Hh). apply Hs3. }
  assert (class_of (p_token b4) ph = Some CKO_PUBLIC_KEY) as Hph.
  { rewrite Hc4. destruct (Hs3 ph) as [-> _]. done. }
  assert (h5 = priv) as ->.
  { destruct (decide (h5 = priv)) as [|Hn]; [done|]. exfalso. destruct Hk5 as [Hkc Hki].
    assert (h5 <> ph) as Hnp by congruence. destruct (H42 h5 Hnp) as [E1 E2].
    destruct (Hother h5 Hnp Hn) as [E3 E4]. apply (Hfresh h5). split; congruence. }
  intros h. unfold private_key. rewrite Hc6. destruct (Hs5 h) as [-> Hi5].
  destruct (decide (h = priv)) as [->|Hn].
  { rewrite Hid6. destruct (H42 priv (not_eq_sym Hne)) as [-> _]. rewrite Hprc. tauto. }
  rewrite (Ho6 h Hn), Hi5. destruct (decide (h = ph)) as [->|Hnp].
  { rewrite Hph, Hp0. naive_solver. }
  destruct (H42 h Hnp) as [-> ->], (Hother h Hnp Hn) as [-> ->]. naive_solver.
Qed.

End Found.

(** ** The backend keeps the promises of the [hsm.Backend] interface *)

Class TokenSafe (T : Type) `{Token T} : Prop := {
  GenerateKeyPair_safe s k pt rt : safe (GenerateKeyPair s k pt rt);
  SetAttributeValue_safe s h l : safe (SetAttributeValue s h l);
  GetAttributeValue_safe s h a : safe (GetAttributeValue s h a);
  FindObjectsInit_safe s l : safe (FindObjectsInit s l);
  FindObjects_safe s n : safe (FindObjects s n);
  FindObjectsFinal_safe s : safe (FindObjectsFinal s);
  SignInit_safe s k h : safe (SignInit s k h);
  TokenSign_safe s d : safe (TokenSign s d);
  DeriveKey_safe s k h l : safe (DeriveKey s k h l);
  DestroyObject_safe s h : safe (DestroyObject s h)
}.

#[export] Hint Resolve GenerateKeyPair_safe SetAttributeValue_safe GetAttributeValue_safe FindObjectsInit_safe
  FindObjects_safe FindObjectsFinal_safe SignInit_safe TokenSign_safe DeriveKey_safe DestroyObject_safe : safe.

(** More batches than the search has objects. *)
Definition search_bound {T} `{TokenLaws T} (t : T) (s : Z) : nat := S (length (found t s)).

Section Promises.
Context {T : Type} `{Env, TokenLaws T, !TokenSafe T}.
Local Abbreviation B := (PKCS11Backend T).

Lemma safe_on_token {A} (c : M T error A) : safe c -> safe (on_token c).
Proof. apply safe_zoom. Qed.

Lemma safe_with_session {A} (body : Z -> M B error A) :
  (forall s, safe (body s)) -> safe (with_session body).
Proof.
  intros Hb b. unfold with_session, with_err, acquire. destruct (p_pool b) as [|s rest]; simpl; [done|].
  specialize (Hb s (set_pool rest b)). by destruct (body s (set_pool rest b)) as [b2 []].
Qed.

Lemma peer_point_no_panic c p : is_panic (peer_point c p) = false.
Proof.
  unfold peer_point. destruct p as [|b l]; [done|]. destruct (_ || _); [|done].
  destruct (UnmarshalCompressed c (b :: l)) as [[x y]|] eqn:Hu; simpl; [|done].
  apply UnmarshalCompressed_on_curve in Hu. unfold EllipticMarshal. by rewrite Hu.
Qed.

Lemma rawSigToASN1_no_panic raw : is_panic (rawSigToASN1 raw) = false.
Proof. unfold rawSigToASN1. by repeat case_match. Qed.

Lemma curveOID_no_panic c : is_panic (curveOID c) = false.
Proof. unfold curveOID, unsupported. by repeat case_match. Qed.

Lemma parseCurve_no_panic c : is_panic (parseCurve c) = false.
Proof. unfold parseCurve, unsupported. by repeat case_match. Qed.

Lemma safe_randomBytes n : safe (randomBytes (T := T) n).
Proof. by intros b. Qed.

#[local] Hint Resolve safe_on_token peer_point_no_panic rawSigToASN1_no_panic curveOID_no_panic
  parseCurve_no_panic safe_randomBytes compressed_point_no_panic oidToCurveName_no_panic : safe.

Lemma safe_attribute what empty s h n : safe (attribute what empty s h n).
Proof. unfold attribute. safe_auto. Qed.

Lemma safe_findPrivateKeyByID s id : safe (findPrivateKeyByID s id).
Proof. unfold findPrivateKeyByID. safe_auto. Qed.

#[local] Hint Resolve safe_attribute safe_findPrivateKeyByID : safe.

Lemma safe_readECPoint s h c : safe (readECPoint s h c).
Proof. unfold readECPoint. safe_auto. Qed.
Lemma safe_getKeyCurve s h : safe (getKeyCurve s h).
Proof. unfold getKeyCurve. safe_auto. Qed.

#[local] Hint Resolve safe_readECPoint safe_getKeyCurve : safe.

Lemma safe_ListKeys_body curves s : safe (ListKeys_body search_bound curves s).
Proof.
  unfold ListKeys_body. safe_branch; [safe_auto|]. intros b. unfold bind at 1, gets at 1.
  unfold bind at 1. pose proof (list_batches_ends (search_bound (p_token b) s) curves s b) as Hp.
  unfold search_bound in Hp. specialize (Hp ltac:(lia)). fold (search_bound (p_token b) s) in Hp.
  destruct (list_batches _ curves s b) as [b1 [ks|e|p]]; simpl in *; [|done..].
  unfold bind, attempt, on_token, zoom. pose proof (FindObjectsFinal_safe s (p_token b1)) as Hf.
  by destruct (FindObjectsFinal s (p_token b1)) as [t1 []].
Qed.

(** No operation panics, the listing included, whatever is in the token. *)
Lemma pkcs11_safe : @BackendSafe B (pkcs11_backend search_bound).
Proof.
  split; intros; apply safe_with_session; intros s.
  - unfold GenerateECKey_body. safe_auto.
  - unfold Sign_body. safe_auto.
  - unfold ECDH_body. safe_auto.
  - apply safe_ListKeys_body.
Qed.

(** A key it generates has a point. *)
Lemma pkcs11_points : @BackendPoints B (pkcs11_backend search_bound).
Proof.
  intros c b b' kid pub Hg. apply with_session_Ok in Hg as (s & rest & b2 & Hg & _).
  unfold GenerateECKey_body in Hg. do 3 (apply bind_Ok in Hg as (? & ? & _ & Hg)).
  apply bind_Ok in Hg as (b3 & [ph priv] & _ & Hg).
  apply bind_Ok in Hg as (b4 & pubBytes & Ha & Hg). apply with_err_Ok, readECPoint_Ok in Ha as [_ Hp].
  do 3 (apply bind_Ok in Hg as (? & ? & _ & Hg)). by apply ret_Ok in Hg as [_ [= _ ->]].
Qed.
End Promises.

#[export] Existing Instances pkcs11_safe pkcs11_points.

(** ** A software token *)

Record SoftObject := mkSoftObject { so_class : ObjectClass; so_id : bytes; so_params : bytes; so_point : bytes }.

Record SoftToken := mkSoftToken {
  st_objects : gmap Z SoftObject;
  st_next : Z;
  st_found : gmap Z (list Z)
}.

Definition soft_match (o : SoftObject) (a : Attribute) : bool :=
  match a with
  | CKA_CLASS c => bool_decide (so_class o = c)
  | CKA_ID id => bool_decide (so_id o = id)
  | CKA_KEY_TYPE k => bool_decide (k = CKK_EC)
  | _ => true
  end.

Definition soft_search (tmpl : list Attribute) (t : SoftToken) : list Z :=
  (List.filter (fun p : Z * SoftObject => forallb (soft_match p.2) tmpl) (map_to_list (st_objects t))).*1.

(** Its one key pair is the base point's. *)
Definition soft_point : bytes :=
  der x04 (x04 :: FillBytes 32 (pub_X P256_G) ++ FillBytes 32 (pub_Y P256_G)).

Definition soft_id (tmpl : list Attribute) : bytes :=
  default [] (head (omap (fun a => match a with CKA_ID id => Some id | _ => None end) tmpl)).
Definition soft_params (tmpl : list Attribute) : bytes :=
  default [] (head (omap (fun a => match a with CKA_EC_PARAMS p => Some p | _ => None end) tmpl)).

Definition soft_generate (pubT privT : list Attribute) : M SoftToken error (Z * Z) := fun t =>
  match st_objects t !! st_next t, st_objects t !! (st_next t + 1) with
  | None, None =>
      (mkSoftToken
         (<[st_next t := mkSoftObject CKO_PUBLIC_KEY (soft_id pubT) (soft_params pubT) soft_point]>
          (<[st_next t + 1 := mkSoftObject CKO_PRIVATE_KEY (soft_id privT) (soft_params pubT) []]> (st_objects t)))
         (st_next t + 2) (st_found t), Ok (st_next t, st_next t + 1))
  | _, _ => (t, Err (Errorf "full"))
  end.

Definition soft_set (h : Z) (tmpl : list Attribute) : M SoftToken error unit := fun t =>
  match st_objects t !! h with
  | Some o => (mkSoftToken (<[h := mkSoftObject (so_class o) (soft_id tmpl) (so_params o) (so_point o)]> (st_objects t))
                 (st_next t) (st_found t), Ok tt)
  | None => (t, Err (Errorf "no object"))
  end.

Definition soft_get (h : Z) (a : AttributeName) : M SoftToken error (list bytes) := fun t =>
  (t, match st_objects t !! h with
      | None => Err (Errorf "no object")
      | Some o => Ok [match a with ID => so_id o | EC_PARAMS => so_params o | EC_POINT => so_point o | VALUE => [] end]
      end).

#[export] Instance soft_token : Token SoftToken := {|
  Initialize := ret tt; Finalize := ret tt;
  GetSlotList := ret [0]; GetTokenInfo := fun _ => ret "soft";
  OpenSession := fun _ => fail (Errorf "one session"); CloseSession := fun _ => ret tt;
  Login := fun _ _ => ret tt; Logout := fun _ => ret tt;
  GenerateKeyPair := fun _ _ => soft_generate;
  SetAttributeValue := fun _ => soft_set;
  GetAttributeValue := fun _ => soft_get;
  FindObjectsInit := fun s tmpl t =>
    (mkSoftToken (st_objects t) (st_next t) (<[s := soft_search tmpl t]> (st_found t)), Ok tt);
  FindObjects := fun s n t =>
    let l := default [] (st_found t !! s) in
    (mkSoftToken (st_objects t) (st_next t) (<[s := drop n l]> (st_found t)), Ok (take n l));
  FindObjectsFinal := fun _ => ret tt;
  SignInit := fun _ _ _ => ret tt; TokenSign := fun _ h => ret (h ++ h);
  DeriveKey := fun _ _ _ _ => fail (Errorf "none"); DestroyObject := fun _ _ => ret tt
|}.

#[export] Program Instance soft_laws : TokenLaws SoftToken := {
  class_of t h := so_class <$> st_objects t !! h;
  id_of t h := so_id <$> st_objects t !! h;
  found t s := default [] (st_found t !! s)
}.
Next Obligation.
  intros t s id. simpl. split; [by intros h|]. intros h. rewrite lookup_insert_eq. simpl.
  unfold soft_search. rewrite list_elem_of_fmap. split.
  - intros ([h' o] & -> & Hin). rewrite list_elem_of_In, filter_In, <-list_elem_of_In, elem_of_map_to_list in Hin.
    destruct Hin as [Hl Hm]. simpl in Hm |- *. rewrite Hl. simpl.
    rewrite !andb_true_iff, !bool_decide_eq_true in Hm. destruct Hm as (-> & -> & _). done.
  - intros [Hc Hi]. destruct (st_objects t !! h) as [o|] eqn:Ho; [|done]. exists (h, o). split; [done|].
    rewrite list_elem_of_In, filter_In, <-list_elem_of_In, elem_of_map_to_list. split; [done|]. simpl.
    simpl in Hc, Hi. injection Hc as ->. injection Hi as ->. by rewrite !bool_decide_true.
Qed.
Next Obligation.
  intros t s n. simpl. rewrite lookup_insert_eq. simpl. split; [by intros h|].
  split; [apply take_drop|]. split; [rewrite length_take; lia|].
  intros Hn. destruct (default [] _) as [|x l]; [done|]. destruct n; [lia|done].
Qed.
Next Obligation. done. Qed.
Next Obligation. intros t s h a. simpl. unfold soft_get. split; [by intros h'|]. split; [done|]. by case_match. Qed.
Next Obligation.
  intros t s derOID id. simpl. unfold soft_generate.
  destruct (st_objects t !! st_next t) eqn:E1; [done|]. destruct (st_objects t !! (st_next t + 1)) eqn:E2; [done|].
  simpl. rewrite E1, E2. rewrite lookup_insert_eq, (lookup_insert_ne _ (st_next t) (st_next t + 1)) by lia.
  rewrite lookup_insert_eq. split_and!; try done; [lia|].
  intros h H1' H2'. by rewrite !lookup_insert_ne by done.
Qed.
Next Obligation.
  intros t s h id. simpl. unfold soft_set. destruct (st_objects t !! h) as [o|] eqn:E; [|done]. simpl.
  rewrite lookup_insert_eq. split; [done|]. split.
  - intros h'. rewrite lookup_insert. case_decide as Hd; [by subst; rewrite E|done].
  - intros h' Hne. by rewrite lookup_insert_ne.
Qed.

#[export] Instance soft_safe : TokenSafe SoftToken.
Proof. split; intros; try (by intros t); intros t; simpl; unfold soft_generate, soft_set, soft_get; by repeat case_match. Qed.

Definition soft_backend : PKCS11Backend SoftToken := mkPKCS11Backend (mkSoftToken ∅ 1 ∅) [7] 1 0 0.

Section Witness.
#[local] Instance keys_env : Env := ticking 1700000000.
Definition soft_run : PKCS11Backend SoftToken * outcome error (string * bytes) := GenerateECKey "P-256" soft_backend.
Definition soft_kid : string := match soft_run.2 with Ok r => r.1 | _ => "" end.
Definition soft_pub : bytes := match soft_run.2 with Ok r => r.2 | _ => [] end.

Lemma soft_run_Ok : GenerateECKey "P-256" soft_backend = (soft_run.1, Ok (soft_kid, soft_pub)).
Proof.
  unfold soft_kid, soft_pub. assert (is_ok soft_run.2 = true) as Hok by (vm_compute; reflexivity).
  change (GenerateECKey "P-256" soft_backend) with soft_run. destruct soft_run as [b [[kid pub]|e|p]]; done.
Qed.

#[local] Opaque soft_run soft_kid soft_pub.

End Witness.
