(* ===== verification/Opaque.v ===== *)
(** * [internal/pake/opaque.go]: the OPAQUE server wrapper

    Deserialise, call the library, wrap the error. *)

From S2P Require Import Prelude GoStrings External.

Definition opaque_err : error := PkgError "opaque".

Section Opaque.
Context `{OpaqueLib}.

(** [opaque.ClientRecord]; the service always leaves [ClientIdentity] nil. *)
Record ClientRecord := mkClientRecord {
  cr_RegistrationRecord : RegistrationRecord;
  cr_CredentialIdentifier : bytes;
  cr_ClientIdentity : option bytes
}.

Record OPAQUEServer := mkOPAQUEServer { os_server : OServer }.

(** The private key is drawn at [draw], the OPRF seed at [draw']. *)
Definition GenerateServerKeyMaterial (draw draw' : nat) : outcome error ServerKeyMaterial :=
  let '(sk, pk) := OKeyGen draw in
  let oprfSeed := GenerateOPRFSeed draw' in
  Ok (KeyMaterial sk pk oprfSeed).

Definition NewOPAQUEServer (skm : option ServerKeyMaterial) : outcome error OPAQUEServer :=
  let? server := of_option (Wrapf "create OPAQUE server" opaque_err) NewServer in
  let? s := of_option (Wrapf "set key material" opaque_err) (SetKeyMaterial server skm) in
  let? _ := guard_ok NewDeserializerServer (Wrapf "create deserializer" opaque_err) in
  Ok (mkOPAQUEServer s).

Definition RegistrationResponse (s : OPAQUEServer) (reqBytes credentialID : bytes) :
    outcome error bytes :=
  let? req := of_option (Wrapf "deserialize registration request" opaque_err)
                (DeserRegistrationRequest reqBytes) in
  of_option (Wrapf "generate registration response" opaque_err)
    (OpRegistrationResponse (os_server s) req credentialID).

Definition DeserializeRegistrationRecord (s : OPAQUEServer) (recordBytes : bytes) :
    outcome error RegistrationRecord :=
  of_option opaque_err (DeserRegistrationRecord recordBytes).

(** KE2, the client MAC to expect and the session secret. *)
Definition AuthEvaluate (draw : nat) (s : OPAQUEServer) (ke1Bytes : bytes)
    (record : option ClientRecord) : outcome error (bytes * bytes * bytes) :=
  let? ke1 := of_option (Wrapf "deserialize KE1" opaque_err) (DeserKE1 ke1Bytes) in
  of_option (Wrapf "generate KE2" opaque_err)
    (GenerateKE2 draw (os_server s) ke1
       ((fun r => (cr_RegistrationRecord r, cr_CredentialIdentifier r)) <$> record)).

Definition AuthFinalize (s : OPAQUEServer) (ke3Bytes expectedClientMAC : bytes) : outcome error unit :=
  let? ke3 := of_option (Wrapf "deserialize KE3" opaque_err) (DeserKE3 ke3Bytes) in
  guard_ok (LoginFinish (os_server s) ke3 expectedClientMAC) opaque_err.

(** The library is asked a second time when it fails; then the record is
    [nil] when it fails again. *)
Definition FakeRecord (draw draw' : nat) (credentialID : bytes) : option ClientRecord :=
  (fun r => mkClientRecord r credentialID None) <$>
    match GetFakeRecord draw credentialID with
    | Some r => Some r
    | None => GetFakeRecord draw' credentialID
    end.

Lemma AuthFinalize_Ok s b mac u :
  AuthFinalize s b mac = Ok u <->
  exists ke3, DeserKE3 b = Some ke3 /\ LoginFinish (os_server s) ke3 mac = true.
Proof.
  unfold AuthFinalize. rewrite obind_Ok. setoid_rewrite of_option_Ok.
  setoid_rewrite guard_ok_Ok. done.
Qed.
End Opaque.
