(* ===== verification/Webauthn.v ===== *)
(** * [internal/webauthn/types.go] and [verify.go]: WebAuthn ceremonies

    The parsers of client data, authenticator data, COSE keys and attestation
    objects, and the two verifications built on them.  An index or a slice
    bound outside its buffer is a [Panic], as in Go. *)

From S2P Require Import Prelude GoStrings GoJson Protocol Sha256 Ecc Asn1.
Local Open Scope Z_scope.

(** ** Indexing and slicing *)

Definition index {E} (data : bytes) (i : Z) : outcome E Byte.byte :=
  match (if 0 <=? i then data !! Z.to_nat i else None) with
  | Some b => Ok b
  | None => Panic "runtime error: index out of range"
  end.

(** [data[lo:hi]]: [hi] may reach into the [spare] zero bytes the array has
    after the slice (its capacity). *)
Definition reslice {E} (spare : nat) (data : bytes) (lo hi : Z) : outcome E bytes :=
  if (0 <=? lo) && (lo <=? hi) && (hi <=? zlen data + Z.of_nat spare)
  then Ok (slice (data ++ replicate spare x00) (Z.to_nat lo) (Z.to_nat hi))
  else Panic "runtime error: slice bounds out of range".

Definition suffix {E} (data : bytes) (lo : Z) : outcome E bytes := reslice 0 data lo (zlen data).

(** The major type and the additional value of a CBOR head. *)
Definition cbor_major (b : Byte.byte) : Z := Z.shiftr (b2z b) 5.
Definition cbor_additional (b : Byte.byte) : Z := Z.land (b2z b) 31.

(** ** [types.go] *)

Record Credential := mkCredential {
  cred_CredentialID : bytes;
  cred_PublicKey : PublicKey;
  cred_SignCount : Z;
  cred_AAGUID : bytes;
  cred_CreatedAt : Z
}.

Record ClientDataJSON := mkClientDataJSON {
  cd_Type : string;
  cd_Challenge : string;
  cd_Origin : string;
  cd_CrossOrigin : bool
}.

Record AuthenticatorData := mkAuthenticatorData {
  ad_RPIDHash : bytes;
  ad_Flags : Z;
  ad_SignCount : Z;
  ad_AAGUID : bytes;
  ad_CredentialID : bytes;
  ad_PublicKey : option PublicKey
}.

Definition FlagUP : Z := 1.
Definition FlagUV : Z := 4.
Definition FlagAT : Z := 64.

Definition has_flag (ad : AuthenticatorData) (f : Z) : bool := negb (Z.land (ad_Flags ad) f =? 0).

Definition ParseClientDataJSON (raw : bytes) : outcome error ClientDataJSON :=
  of_option (Wrapf "parse clientDataJSON" (PkgError "encoding/json"))
    (Unmarshal (dec_struct
       [ fld "type" dec_string cd_Type (fun '(mkClientDataJSON _ c o x) t => mkClientDataJSON t c o x);
         fld "challenge" dec_string cd_Challenge (fun '(mkClientDataJSON t _ o x) c => mkClientDataJSON t c o x);
         fld "origin" dec_string cd_Origin (fun '(mkClientDataJSON t c _ x) o => mkClientDataJSON t c o x);
         fld "crossOrigin" dec_bool cd_CrossOrigin (fun '(mkClientDataJSON t c o _) x => mkClientDataJSON t c o x) ])
       (mkClientDataJSON "" "" "" false) raw).

(** The integer and the number of bytes it takes. *)
Definition decodeCBORInt (data : bytes) : outcome error (Z * Z) :=
  if zlen data =? 0 then Err (Errorf "empty data")
  else
    let? b := index data 0 in
    let major := cbor_major b in
    let additional := cbor_additional b in
    let? (value, consumed) :=
      (if additional <? 24 then Ok (additional, 1)
       else if additional =? 24 then
         if zlen data <? 2 then Err (Errorf "truncated")
         else let? b1 := index data 1 in Ok (b2z b1, 2)
       else if additional =? 25 then
         if zlen data <? 3 then Err (Errorf "truncated")
         else let? w := reslice 0 data 1 3 in Ok (be_uint w, 3)
       else Err (Errorf ("unsupported additional value: " +:+ fmt_d additional))) in
    Ok (if major =? 1 then -1 - value else value, consumed).

(** The length of a byte string whose head at [pos - 1] carries [additional],
    and the position after it. *)
Definition cbor_bytes_len (data : bytes) (pos additional : Z) : outcome error (Z * Z) :=
  if additional =? 24 then
    if zlen data <=? pos then Err (Errorf "truncated CBOR byte string length")
    else let? b := index data pos in Ok (b2z b, pos + 1)
  else if additional =? 25 then
    if zlen data <=? pos + 1 then Err (Errorf "truncated CBOR byte string length")
    else let? w := reslice 0 data pos (pos + 2) in Ok (be_uint w, pos + 2)
  else Ok (additional, pos).

(** The position after an integer with [additional], whose head was read. *)
Definition skip_int (pos additional : Z) : Z :=
  if additional <? 24 then pos
  else if additional =? 24 then pos + 1
  else if additional =? 25 then pos + 2
  else pos.

(** The loop over the [n] remaining pairs, [i] of them read. *)
Fixpoint cbor_pairs (n : nat) (i : Z) (data : bytes) (pos : Z) (result : gmap Z bytes) :
    outcome error (gmap Z bytes) :=
  match n with
  | O => Ok result
  | S n' =>
      if zlen data <=? pos then Ok result
      else
        let? rest := suffix data pos in
        let? (key, c) := map_err (Wrapf ("decode map key " +:+ fmt_d i)) (decodeCBORInt rest) in
        let pos := pos + c in
        if zlen data <=? pos then Err (Errorf ("truncated CBOR at value " +:+ fmt_d i))
        else
          let? b := index data pos in
          let valMajor := cbor_major b in
          let valAdditional := cbor_additional b in
          let pos := pos + 1 in
          if valMajor =? 2 then
            let? (len, pos) := cbor_bytes_len data pos valAdditional in
            if zlen data <? pos + len then Err (Errorf "truncated CBOR byte string data")
            else
              let? val := reslice 0 data pos (pos + len) in
              cbor_pairs n' (i + 1) data (pos + len) (<[key := val]> result)
          else if (valMajor =? 0) || (valMajor =? 1) then
            cbor_pairs n' (i + 1) data (skip_int pos valAdditional) result
          else Ok result
  end.

Definition decodeCBORMap (data : bytes) : outcome error (gmap Z bytes) :=
  if zlen data =? 0 then Err (Errorf "empty CBOR data")
  else
    let? b := index data 0 in
    let major := cbor_major b in
    let additional := cbor_additional b in
    if negb (major =? 5) then Err (Errorf ("expected CBOR map, got major type " +:+ fmt_d major))
    else
      let? (numPairs, pos) :=
        (if additional =? 24 then
           if zlen data <=? 1 then Err (Errorf "truncated CBOR")
           else let? b1 := index data 1 in Ok (b2z b1, 2)
         else Ok (additional, 1)) in
      cbor_pairs (Z.to_nat numPairs) 0 data pos ∅.

Definition parseCOSEKey (data : bytes) : outcome error PublicKey :=
  let? m := map_err (Wrapf "decode CBOR") (decodeCBORMap data) in
  let coord (k : Z) (e : error) : outcome error bytes :=
    match m !! k with
    | Some v => if negb (length v =? 32)%nat then Err e else Ok v
    | None => Err e
    end in
  let? xBytes := coord (-2) (Errorf "missing or invalid x-coordinate") in
  let? yBytes := coord (-3) (Errorf "missing or invalid y-coordinate") in
  let x := SetBytes xBytes in
  let y := SetBytes yBytes in
  if negb (IsOnCurve P256 x y) then Err (Errorf "public key point not on P-256 curve")
  else Ok (mkPublicKey P256 x y).

(** [55 + credIDLen] is computed in a [uint16]. *)
Definition cred_end (credIDLen : Z) : Z := (55 + credIDLen) mod 2^16.

Definition ParseAuthenticatorData (data : bytes) : outcome error AuthenticatorData :=
  if zlen data <? 37
  then Err (Errorf ("authenticator data too short: " +:+ fmt_d (zlen data) +:+ " bytes"))
  else
    let? hash := reslice 0 data 0 32 in
    let? flags := index data 32 in
    let? sc := reslice 0 data 33 37 in
    if negb (Z.land (b2z flags) FlagAT =? 0) then
      if zlen data <? 55
      then Err (Errorf "authenticator data too short for attested credential data")
      else
        let? aaguid := reslice 0 data 37 53 in
        let? l := reslice 0 data 53 55 in
        let credIDLen := be_uint l in
        if zlen data <? 55 + credIDLen
        then Err (Errorf "authenticator data too short for credential ID")
        else
          let? credID := reslice 0 data 55 (cred_end credIDLen) in
          let? coseKeyData := suffix data (cred_end credIDLen) in
          let? pubKey := map_err (Wrapf "parse COSE public key") (parseCOSEKey coseKeyData) in
          Ok (mkAuthenticatorData hash (b2z flags) (be_uint sc) aaguid credID (Some pubKey))
    else Ok (mkAuthenticatorData hash (b2z flags) (be_uint sc) [] [] None).

Definition VerifyRPIDHash (authData : AuthenticatorData) (rpID : string) : outcome error unit :=
  if bool_decide (ad_RPIDHash authData = Sum256 (go_bytes rpID)) then Ok tt
  else Err (Errorf "rpIdHash mismatch").

Definition EncodeBase64URL : bytes -> string := RawURLEncodeToString.

Definition DecodeBase64URL (s : string) : outcome error bytes :=
  match RawURLDecodeString s with
  | Some b => Ok b
  | None => of_option (PkgError "encoding/base64") (URLDecodeString s)
  end.

(** ** [verify.go] *)

Record AssertionData := mkAssertionData {
  as_CredentialID : bytes;
  as_AuthenticatorData : bytes;
  as_ClientDataJSON : bytes;
  as_Signature : bytes
}.

Definition origin_valid (origin : string) (allowedOrigins : list string) : bool :=
  existsb (fun o => bool_decide (o = origin)) allowedOrigins.

Section Verify.
Context `{GoCrypto}.

Definition verifyECDSASignature (pub : PublicKey) (hash sig : bytes) : bool :=
  match asn1_signature sig with
  | None => false
  | Some (r, s) => EcdsaVerify pub hash r s
  end.

(** What the authenticator signs. *)
Definition assertion_hash (a : AssertionData) : bytes :=
  Sum256 (as_AuthenticatorData a ++ Sum256 (as_ClientDataJSON a)).

Definition VerifyAssertion (assertion : AssertionData) (credential : Credential)
    (expectedChallenge rpID : string) (allowedOrigins : list string) :
    outcome error AuthenticatorData :=
  let? clientData := map_err (Wrapf "parse clientDataJSON")
                       (ParseClientDataJSON (as_ClientDataJSON assertion)) in
  let? _ := guard_ok (bool_decide (cd_Type clientData = "webauthn.get"))
              (Errorf ("unexpected clientData type: " +:+ fmt_q (cd_Type clientData))) in
  let? _ := guard_ok (bool_decide (cd_Challenge clientData = expectedChallenge))
              (Errorf "challenge mismatch") in
  let? _ := guard_ok (origin_valid (cd_Origin clientData) allowedOrigins)
              (Errorf ("origin " +:+ fmt_q (cd_Origin clientData) +:+ " not in allowed list")) in
  let? authData := map_err (Wrapf "parse authenticator data")
                     (ParseAuthenticatorData (as_AuthenticatorData assertion)) in
  let? _ := VerifyRPIDHash authData rpID in
  let? _ := guard_ok (has_flag authData FlagUP) (Errorf "user present (UP) flag not set") in
  let? _ := guard_ok (has_flag authData FlagUV) (Errorf "user verified (UV) flag not set") in
  let? _ := guard_ok (verifyECDSASignature (cred_PublicKey credential)
                        (assertion_hash assertion) (as_Signature assertion))
              (Errorf "signature verification failed") in
  let got := ad_SignCount authData in
  let stored := cred_SignCount credential in
  if (negb (got =? 0) || negb (stored =? 0)) && (got <=? stored)
  then Err (Errorf ("signCount not incremented (possible cloned authenticator): got "
                    +:+ fmt_d got +:+ ", stored " +:+ fmt_d stored))
  else Ok authData.
End Verify.

Section Attestation.
(** Spare capacity of the attestation object's slice. *)
Context (spare : nat).

(** The length a CBOR head at [pos - 1] announces, and the position after it. *)
Definition head_length {E} (data : bytes) (pos additional : Z) : outcome E (Z * Z) :=
  if additional <? 24 then Ok (additional, pos)
  else if additional =? 24 then let? b := index data pos in Ok (b2z b, pos + 1)
  else if additional =? 25 then let? w := reslice spare data pos (pos + 2) in Ok (be_uint w, pos + 2)
  else if additional =? 26 then let? w := reslice spare data pos (pos + 4) in Ok (be_uint w, pos + 4)
  else Ok (0, pos).

(** [for i := 0; i < n; i++ { pos = f(pos) }] *)
Definition repeat_pos {E} (n : Z) (f : Z -> outcome E Z) (pos : Z) : outcome E Z :=
  Z.iter n (fun r => obind r f) (Ok pos).

(** [fuel] bounds the nesting; every level reads a byte. *)
Fixpoint skip_value {E} (fuel : nat) (data : bytes) (pos : Z) : outcome E Z :=
  match fuel with
  | O => Panic "stack overflow"
  | S f =>
      if zlen data <=? pos then Ok pos
      else
        let? b := index data pos in
        let? (len, pos) := head_length data (pos + 1) (cbor_additional b) in
        let major := cbor_major b in
        if (major =? 0) || (major =? 1) then Ok pos
        else if (major =? 2) || (major =? 3) then Ok (pos + len)
        else if major =? 4 then repeat_pos len (skip_value f data) pos
        else if major =? 5 then
          repeat_pos len (fun p => let? q := skip_value f data p in skip_value f data q) pos
        else Ok pos
  end.

Definition skipCBORValue {E} (data : bytes) (pos : Z) : outcome E Z :=
  skip_value (S (length data)) data pos.

(** The byte string under the key [authData] at [pos]. *)
Definition authData_value (data : bytes) (pos : Z) : outcome error bytes :=
  let? b := index data pos in
  let valMajor := cbor_major b in
  let valAdditional := cbor_additional b in
  let pos := pos + 1 in
  if negb (valMajor =? 2)
  then Err (Errorf ("authData is not a byte string (major " +:+ fmt_d valMajor +:+ ")"))
  else
    let? (valLen, pos) :=
      (if 26 <? valAdditional then Ok (valAdditional, pos) else head_length data pos valAdditional) in
    if zlen data <? pos + valLen then Err (Errorf "truncated authData")
    else reslice spare data pos (pos + valLen).

Fixpoint attestation_pairs (n : nat) (data : bytes) (pos : Z) : outcome error bytes :=
  match n with
  | O => Err (Errorf "authData not found in attestation object")
  | S n' =>
      if zlen data <=? pos then Err (Errorf "authData not found in attestation object")
      else
        let? b := index data pos in
        let keyMajor := cbor_major b in
        let keyAdditional := cbor_additional b in
        if negb (keyMajor =? 3) then
          let? pos := skipCBORValue data pos in
          let? pos := skipCBORValue data pos in
          attestation_pairs n' data pos
        else
          let pos := pos + 1 in
          let? (keyLen, pos) :=
            (if keyAdditional =? 24 then let? k := index data pos in Ok (b2z k, pos + 1)
             else Ok (keyAdditional, pos)) in
          if zlen data <? pos + keyLen then Err (Errorf "truncated key string")
          else
            let? key := reslice spare data pos (pos + keyLen) in
            let pos := pos + keyLen in
            if bool_decide (go_string key = "authData") then authData_value data pos
            else
              let? pos := skipCBORValue data pos in
              attestation_pairs n' data pos
  end.

Definition extractAuthDataFromAttestation (data : bytes) : outcome error bytes :=
  if zlen data <? 3 then Err (Errorf "attestation object too short")
  else
    let? b := index data 0 in
    let major := cbor_major b in
    let additional := cbor_additional b in
    if negb (major =? 5)
    then Err (Errorf ("expected CBOR map, got major type " +:+ fmt_d major))
    else
      let? (numPairs, pos) :=
        (if additional =? 24 then let? n := index data 1 in Ok (b2z n, 2) else Ok (additional, 1)) in
      attestation_pairs (Z.to_nat numPairs) data pos.

Definition VerifyRegistration (attestationObject clientDataJSON : bytes)
    (expectedChallenge rpID : string) (allowedOrigins : list string) :
    outcome error AuthenticatorData :=
  let? clientData := map_err (Wrapf "parse clientDataJSON") (ParseClientDataJSON clientDataJSON) in
  let? _ := guard_ok (bool_decide (cd_Type clientData = "webauthn.create"))
              (Errorf ("unexpected clientData type: " +:+ fmt_q (cd_Type clientData))) in
  let? _ := guard_ok (bool_decide (cd_Challenge clientData = expectedChallenge))
              (Errorf "challenge mismatch") in
  let? _ := guard_ok (origin_valid (cd_Origin clientData) allowedOrigins)
              (Errorf ("origin " +:+ fmt_q (cd_Origin clientData) +:+ " not in allowed list")) in
  let? authDataBytes := map_err (Wrapf "extract authData from attestation")
                          (extractAuthDataFromAttestation attestationObject) in
  let? authData := map_err (Wrapf "parse authenticator data") (ParseAuthenticatorData authDataBytes) in
  let? _ := VerifyRPIDHash authData rpID in
  let? _ := guard_ok (has_flag authData FlagUP) (Errorf "user present (UP) flag not set") in
  let? _ := guard_ok (has_flag authData FlagUV) (Errorf "user verified (UV) flag not set") in
  let? _ := guard_ok (has_flag authData FlagAT) (Errorf "attested credential data (AT) flag not set") in
  match ad_PublicKey authData with
  | None => Err (Errorf "no public key in attested credential data")
  | Some _ => Ok authData
  end.
End Attestation.

(** ** Lemmas on the accesses *)

Lemma index_Ok {E} data i b : index (E := E) data i = Ok b <-> 0 <= i /\ data !! Z.to_nat i = Some b.
Proof.
  unfold index. destruct (Z.leb_spec 0 i); [|naive_solver lia].
  destruct (data !! Z.to_nat i); naive_solver.
Qed.

Lemma index_no_panic {E} data i : 0 <= i < zlen data -> is_panic (index (E := E) data i) = false.
Proof.
  intros Hi. unfold index, zlen in *. rewrite (proj2 (Z.leb_le 0 i)) by lia.
  destruct (data !! Z.to_nat i) eqn:E'; [done|]. apply lookup_ge_None in E'. lia.
Qed.

Lemma reslice_no_panic {E} sp data lo hi :
  0 <= lo <= hi -> hi <= zlen data + Z.of_nat sp -> is_panic (reslice (E := E) sp data lo hi) = false.
Proof.
  intros H1 H2. unfold reslice.
  rewrite (proj2 (Z.leb_le 0 lo)), (proj2 (Z.leb_le lo hi)), (proj2 (Z.leb_le hi _)) by lia. done.
Qed.

Lemma reslice_Ok {E} sp data lo hi l :
  reslice (E := E) sp data lo hi = Ok l ->
  0 <= lo <= hi /\ hi <= zlen data + Z.of_nat sp /\ zlen l = hi - lo.
Proof.
  unfold reslice. destruct (_ && _) eqn:Hb; [|done]. rewrite !andb_true_iff in Hb. intros [= <-].
  split_and!; try lia. unfold zlen in *.
  rewrite length_slice by (rewrite length_app, length_replicate; lia). lia.
Qed.

Lemma zlen_nonneg data : 0 <= zlen data.
Proof. unfold zlen. lia. Qed.

Lemma cbor_additional_range b : 0 <= cbor_additional b < 32.
Proof.
  unfold cbor_additional. change 31 with (Z.ones 5). rewrite Z.land_ones by lia.
  by apply Z.mod_pos_bound.
Qed.

Ltac no_panic := repeat first
  [ done
  | rewrite map_err_no_panic | rewrite guard_ok_no_panic | rewrite of_option_no_panic
  | apply obind_no_panic; [|intros ??]
  | apply index_no_panic; lia
  | apply reslice_no_panic; lia
  | match goal with
    | |- is_panic (if ?b then _ else _) = false => destruct b eqn:?
    | |- is_panic (let '(_, _) := ?x in _) = false => destruct x
    end ].

Lemma decodeCBORInt_no_panic data : is_panic (decodeCBORInt data) = false.
Proof. unfold decodeCBORInt. pose proof (zlen_nonneg data). no_panic. Qed.

Lemma decodeCBORInt_consumed data v c :
  decodeCBORInt data = Ok (v, c) -> 1 <= c <= 3 /\ c <= zlen data.
Proof.
  unfold decodeCBORInt. destruct (Z.eqb_spec (zlen data) 0) as [|Hl]; [done|].
  pose proof (zlen_nonneg data). intros Hd. inv_ok Hd. destruct x0 as [w n]. simpl in Hd.
  injection Hd as <- <-. repeat case_match; inv_ok Hok0; simplify_eq; lia.
Qed.

Lemma cbor_bytes_len_no_panic data pos a :
  0 <= pos -> is_panic (cbor_bytes_len data pos a) = false.
Proof. intros Hp. unfold cbor_bytes_len. no_panic. Qed.

Lemma cbor_bytes_len_Ok data pos a n p :
  0 <= a -> cbor_bytes_len data pos a = Ok (n, p) -> 0 <= n /\ pos <= p.
Proof.
  intros Ha. unfold cbor_bytes_len. repeat case_match; intros Hd; inv_ok Hd; simplify_eq;
    pose proof (be_uint_range); try (pose proof (b2z_range x)); try (pose proof (be_uint_range x)); lia.
Qed.

Lemma skip_int_ge pos a : pos <= skip_int pos a.
Proof. unfold skip_int. repeat case_match; lia. Qed.

Lemma cbor_pairs_no_panic n i data pos m :
  0 <= pos -> is_panic (cbor_pairs n i data pos m) = false.
Proof.
  revert i pos m. induction n as [|n IH]; intros i pos m Hp; [done|]. cbn [cbor_pairs].
  destruct (Z.leb_spec (zlen data) pos) as [|Hl]; [done|].
  unfold suffix. apply obind_no_panic; [apply reslice_no_panic; lia|]. intros rest Hrest.
  apply obind_no_panic; [rewrite map_err_no_panic; apply decodeCBORInt_no_panic|].
  intros [key c] Hc. rewrite map_err_Ok in Hc. apply decodeCBORInt_consumed in Hc.
  destruct (Z.leb_spec (zlen data) (pos + c)); [done|].
  apply obind_no_panic; [apply index_no_panic; lia|]. intros b _.
  pose proof (cbor_additional_range b) as Ha. destruct (cbor_major b =? 2).
  - apply obind_no_panic; [apply cbor_bytes_len_no_panic; lia|].
    intros [len p] Hlen. apply cbor_bytes_len_Ok in Hlen; [|lia].
    destruct (Z.ltb_spec (zlen data) (p + len)); [done|].
    apply obind_no_panic; [apply reslice_no_panic; lia|]. intros v _. apply IH. lia.
  - destruct (_ || _); [|done]. apply IH. pose proof (skip_int_ge (pos + c + 1) (cbor_additional b)). lia.
Qed.

Lemma decodeCBORMap_no_panic data : is_panic (decodeCBORMap data) = false.
Proof.
  unfold decodeCBORMap. pose proof (zlen_nonneg data).
  destruct (Z.eqb_spec (zlen data) 0); [done|].
  apply obind_no_panic; [apply index_no_panic; lia|]. intros b _. destruct (negb _); [done|].
  apply obind_no_panic; [no_panic|]. intros [np pos] Hpos. apply cbor_pairs_no_panic.
  repeat case_match; inv_ok Hpos; simplify_eq; lia.
Qed.

Lemma parseCOSEKey_no_panic data : is_panic (parseCOSEKey data) = false.
Proof.
  unfold parseCOSEKey. apply obind_no_panic; [rewrite map_err_no_panic; apply decodeCBORMap_no_panic|].
  intros m _. repeat (apply obind_no_panic; [repeat case_match; done|intros ? _]). by case_match.
Qed.

(** ** Authenticator data *)

Lemma reslice_slice {E} data lo hi :
  0 <= lo <= hi -> hi <= zlen data ->
  reslice (E := E) 0 data lo hi = Ok (slice data (Z.to_nat lo) (Z.to_nat hi)).
Proof.
  intros H1 H2. unfold reslice. rewrite app_nil_r.
  by rewrite (proj2 (Z.leb_le 0 lo)), (proj2 (Z.leb_le lo hi)), (proj2 (Z.leb_le hi _)) by (simpl; lia).
Qed.

Lemma length_2_range (l : bytes) : zlen l = 2 -> 0 <= be_uint l < 2^16.
Proof.
  intros Hl. pose proof (be_uint_range l) as H. unfold zlen in Hl.
  replace (8 * Z.of_nat (length l)) with 16 in H by lia. done.
Qed.

(** The flags byte and the credential-ID length, as the parser reads them. *)
Definition at_flag (data : bytes) : Prop :=
  exists b, data !! 32%nat = Some b /\ Z.land (b2z b) FlagAT <> 0.
Definition cred_len (data : bytes) : Z := be_uint (slice data 53 55).

(** The COSE encoding of an ES256 key, and authenticator data built from
    its parts, as an authenticator sends them. *)
Definition cose_key (xs ys : bytes) : bytes :=
  [xa5; x01; x02; x03; x26; x20; x01; x21; x58; x20] ++ xs ++ [x22; x58; x20] ++ ys.

Definition attested_data (hash : bytes) (flags : Byte.byte) (sc : Z) (aaguid credID : bytes)
    (pub : PublicKey) : bytes :=
  (hash ++ flags :: put_be 4 sc ++ aaguid ++ put_be 2 (Z.of_nat (length credID))) ++
  (credID ++ cose_key (FillBytes 32 (pub_X pub)) (FillBytes 32 (pub_Y pub))).

Ltac destruct_bytes32 l := do 32 (destruct l as [|? l]; [done|]); destruct l; [|done].

Lemma decodeCBORMap_cose xs ys :
  length xs = 32%nat -> length ys = 32%nat ->
  decodeCBORMap (cose_key xs ys) = Ok (<[-3 := ys]> (<[-2 := xs]> ∅)).
Proof. intros Hx Hy. destruct_bytes32 xs. destruct_bytes32 ys. vm_compute. reflexivity. Qed.

Lemma parseCOSEKey_xy xs ys :
  length xs = 32%nat -> length ys = 32%nat ->
  parseCOSEKey (cose_key xs ys) =
    if negb (IsOnCurve P256 (SetBytes xs) (SetBytes ys))
    then Err (Errorf "public key point not on P-256 curve")
    else Ok (mkPublicKey P256 (SetBytes xs) (SetBytes ys)).
Proof.
  intros Hx Hy. unfold parseCOSEKey. rewrite decodeCBORMap_cose by done. cbn [map_err obind].
  rewrite lookup_insert_ne, lookup_insert_eq by done. rewrite Hx. cbn [Nat.eqb negb obind].
  rewrite lookup_insert_eq, Hy. done.
Qed.

Lemma parseCOSEKey_cose pub :
  pub_Curve pub = P256 -> valid_pub pub ->
  parseCOSEKey (cose_key (FillBytes 32 (pub_X pub)) (FillBytes 32 (pub_Y pub))) = Ok pub.
Proof.
  destruct pub as [c x y]. unfold valid_pub, pub_Curve, pub_X, pub_Y. intros -> Hc.
  destruct (IsOnCurve_range _ _ _ Hc).
  rewrite parseCOSEKey_xy by apply length_put_be.
  change 32%nat with (byteLen P256). by rewrite !SetBytes_FillBytes, Hc.
Qed.

(** A part of a buffer, found between what precedes and follows it. *)
Lemma reslice_mid {E} data pre mid post lo hi :
  data = pre ++ mid ++ post -> zlen pre = lo -> zlen mid = hi - lo ->
  reslice (E := E) 0 data lo hi = Ok mid.
Proof.
  unfold zlen. intros -> <- Hm.
  rewrite reslice_slice by (unfold zlen; rewrite ?length_app; lia). f_equal.
  unfold slice. rewrite Nat2Z.id, drop_app_length. apply take_app_length'. lia.
Qed.

Ltac at_part data pre mid post :=
  rewrite (reslice_mid data pre mid post);
    [ cbn [obind]
    | unfold data; repeat (rewrite <-app_assoc || rewrite app_nil_r || cbn [app]); reflexivity
    | unfold zlen; repeat (rewrite length_app || cbn [length]); lia
    | unfold zlen in *; lia ].

(** ** Properties *)

(** C30: the only input that makes the parser of authenticator data panic is
    one whose credential-ID length wraps the [uint16] addition, in a buffer
    of at least 65536 bytes. *)
Theorem ParseAuthenticatorData_panics data :
  is_panic (ParseAuthenticatorData data) = true <->
  at_flag data /\ 2^16 <= 55 + cred_len data <= zlen data.
Proof.
  unfold ParseAuthenticatorData, at_flag, cred_len.
  destruct (Z.ltb_spec (zlen data) 37) as [Hs|Hs].
  { split; [done|]. intros [_ ?]. lia. }
  rewrite (reslice_slice data 0 32), (reslice_slice data 33 37) by lia. cbn [obind].
  assert (32 < length data)%nat as Hlt by (unfold zlen in Hs; lia).
  destruct (lookup_lt_is_Some_2 data 32 Hlt) as [fl Hfl].
  assert (index (E := error) data 32 = Ok fl) as -> by (apply index_Ok; done). cbn [obind].
  destruct (Z.eqb_spec (Z.land (b2z fl) FlagAT) 0) as [Hat|Hat]; cbn [obind].
  { split; [done|]. intros [(b & Hb & Hn) _]. congruence. }
  destruct (Z.ltb_spec (zlen data) 55) as [Hs2|Hs2].
  { split; [done|]. intros [_ ?]. lia. }
  rewrite (reslice_slice data 37 53), (reslice_slice data 53 55) by lia. cbn [obind].
  change (slice data (Z.to_nat 53) (Z.to_nat 55)) with (slice data 53 55).
  set (n := be_uint (slice data 53 55)).
  assert (0 <= n < 2^16) as Hn.
  { apply length_2_range. unfold zlen. rewrite length_slice by (unfold zlen in Hs2; lia). done. }
  destruct (Z.ltb_spec (zlen data) (55 + n)) as [Hs3|Hs3].
  { split; [done|]. intros [_ ?]. lia. }
  unfold cred_end. destruct (decide (2^16 <= 55 + n)) as [Ho|Ho].
  - split; [intros _; split; [by eexists|lia]|]. intros _.
    assert ((55 + n) mod 2^16 < 55) as Hm by zlia.
    unfold reslice at 1. by rewrite (proj2 (Z.leb_gt 55 _)), andb_false_r by done.
  - split; [|intros [_ ?]; lia]. intros Hp. exfalso. revert Hp. apply not_true_iff_false.
    rewrite Z.mod_small by lia. rewrite reslice_slice by lia. cbn [obind].
    unfold suffix. rewrite reslice_slice by lia. cbn [obind].
    apply obind_no_panic; [rewrite map_err_no_panic; apply parseCOSEKey_no_panic|done].
Qed.

(** C29: what an authenticator sends is what the parser reads: the fields of
    attested authenticator data come back unchanged. *)
Theorem ParseAuthenticatorData_attested hash fl sc aaguid credID pub :
  length hash = 32%nat -> length aaguid = 16%nat -> zlen credID < 65481 ->
  0 <= sc < 2^32 -> Z.land (b2z fl) FlagAT <> 0 -> pub_Curve pub = P256 -> valid_pub pub ->
  ParseAuthenticatorData (attested_data hash fl sc aaguid credID pub) =
    Ok (mkAuthenticatorData hash (b2z fl) sc aaguid credID (Some pub)).
Proof.
  intros Hh Ha Hc Hsc Hfl Hcurve Hpub. unfold attested_data.
  pose proof (be_uint_put_be 4 sc) as E4. pose proof (be_uint_put_be 2 (Z.of_nat (length credID))) as E2.
  change (2 ^ (8 * Z.of_nat 4)) with (2^32) in E4. change (2 ^ (8 * Z.of_nat 2)) with (2^16) in E2.
  unfold zlen in Hc. rewrite Z.mod_small in E4, E2 by lia.
  pose proof (length_put_be 4 sc) as L4. pose proof (length_put_be 2 (Z.of_nat (length credID))) as L2.
  set (sb := put_be 4 sc) in *. set (lb := put_be 2 (Z.of_nat (length credID))) in *.
  pose proof (parseCOSEKey_cose pub Hcurve Hpub) as Hk. set (key := cose_key _ _) in *.
  set (data := (hash ++ fl :: sb ++ aaguid ++ lb) ++ credID ++ key).
  assert (zlen data = 55 + Z.of_nat (length credID) + zlen key) as Hz.
  { unfold zlen, data. rewrite !length_app. simpl. rewrite !length_app. lia. }
  pose proof (zlen_nonneg key).
  assert (index (E := error) data 32 = Ok fl) as Hi.
  { apply index_Ok. split; [done|]. unfold data. rewrite <-app_assoc.
    rewrite lookup_app_r by (simpl; lia). by rewrite Hh. }
  unfold ParseAuthenticatorData. rewrite (proj2 (Z.ltb_ge _ 37)) by lia.
  at_part data (@nil Byte.byte) hash (fl :: sb ++ aaguid ++ lb ++ credID ++ key). rewrite Hi. cbn [obind].
  at_part data (hash ++ [fl]) sb (aaguid ++ lb ++ credID ++ key).
  rewrite (proj2 (Z.eqb_neq _ 0)) by done. cbn [negb].
  rewrite (proj2 (Z.ltb_ge _ 55)) by lia.
  at_part data (hash ++ fl :: sb) aaguid (lb ++ credID ++ key).
  at_part data (hash ++ fl :: sb ++ aaguid) lb (credID ++ key).
  rewrite E2, E4. rewrite (proj2 (Z.ltb_ge _ _)) by lia.
  unfold cred_end. rewrite Z.mod_small by lia.
  at_part data (hash ++ fl :: sb ++ aaguid ++ lb) credID key.
  unfold suffix. at_part data (hash ++ fl :: sb ++ aaguid ++ lb ++ credID) key (@nil Byte.byte).
  by rewrite Hk.
Qed.

(** A P-256 key, a client, and the authenticator data of a registration. *)
Definition wa_data : bytes :=
  attested_data (Sum256 (go_bytes "example.com")) x45 7 (replicate 16 x00) [x01; x02] P256_G.

Lemma ParseAuthenticatorData_attested_witness :
  ParseAuthenticatorData wa_data =
    Ok (mkAuthenticatorData (Sum256 (go_bytes "example.com")) 69 7 (replicate 16 x00) [x01; x02] (Some P256_G)).
Proof.
  apply (ParseAuthenticatorData_attested (Sum256 (go_bytes "example.com")) x45); try reflexivity.
  - split; [done|reflexivity].
  - vm_compute. discriminate.
Defined.

(** Clone detection: the counter goes up, or both sides do not count. *)
Definition count_fresh (got stored : Z) : Prop := stored < got \/ (got = 0 /\ stored = 0).

Lemma origin_valid_iff o l : origin_valid o l = true <-> o ∈ l.
Proof. apply existsb_eqb_elem. Qed.

Lemma VerifyRPIDHash_Ok ad rp u :
  VerifyRPIDHash ad rp = Ok u <-> ad_RPIDHash ad = Sum256 (go_bytes rp).
Proof. unfold VerifyRPIDHash. destruct u. case_bool_decide; naive_solver. Qed.

Lemma count_ok got stored :
  0 <= got -> 0 <= stored ->
  ((negb (got =? 0) || negb (stored =? 0)) && (got <=? stored)) = false <-> count_fresh got stored.
Proof. unfold count_fresh. intros. destruct (Z.eqb_spec got 0), (Z.eqb_spec stored 0), (Z.leb_spec got stored); simpl; split; intros; try done; lia. Qed.

Lemma ParseAuthenticatorData_SignCount data ad :
  ParseAuthenticatorData data = Ok ad -> 0 <= ad_SignCount ad < 2^32.
Proof.
  unfold ParseAuthenticatorData. case_match; [done|]. intros Hp. inv_ok Hp.
  apply reslice_Ok in Hok1 as (_ & _ & Hl).
  assert (0 <= be_uint x1 < 2^32) as Hr.
  { pose proof (be_uint_range x1) as Hr. unfold zlen in Hl.
    replace (8 * Z.of_nat (length x1)) with 32 in Hr by lia. done. }
  case_match; [|by injection Hp as <-]. case_match; [done|]. inv_ok Hp.
  case_match; [done|]. inv_ok Hp. by injection Hp as <-.
Qed.

Section VerifyProps.
Context `{GoCrypto}.

(** C21: an assertion is accepted exactly when the client data are those of
    this ceremony (type, challenge, an allowed origin), the authenticator
    data are those of this relying party with user presence and user
    verification, the signature over both verifies under the registered
    key, and the counter shows no clone. *)
Theorem VerifyAssertion_accepts a c challenge rpID origins ad :
  0 <= cred_SignCount c ->
  VerifyAssertion a c challenge rpID origins = Ok ad <->
  exists cd,
    ParseClientDataJSON (as_ClientDataJSON a) = Ok cd /\
    cd_Type cd = "webauthn.get" /\ cd_Challenge cd = challenge /\ cd_Origin cd ∈ origins /\
    ParseAuthenticatorData (as_AuthenticatorData a) = Ok ad /\
    ad_RPIDHash ad = Sum256 (go_bytes rpID) /\
    has_flag ad FlagUP = true /\ has_flag ad FlagUV = true /\
    verifyECDSASignature (cred_PublicKey c) (assertion_hash a) (as_Signature a) = true /\
    count_fresh (ad_SignCount ad) (cred_SignCount c).
Proof.
  intros Hs. unfold VerifyAssertion. split.
  - intros Hr. inv_ok Hr. rewrite VerifyRPIDHash_Ok in Hok4.
    rewrite bool_decide_eq_true in Hok0, Hok1. rewrite origin_valid_iff in Hok2.
    pose proof (ParseAuthenticatorData_SignCount _ _ Hok3).
    destruct (_ && _) eqn:Hc; [done|]. injection Hr as <-.
    apply count_ok in Hc; [|lia..]. eauto 12.
  - intros (cd & Hcd & Ht & Hch & Ho & Had & Hrp & Hup & Huv & Hsig & Hcnt).
    pose proof (ParseAuthenticatorData_SignCount _ _ Had).
    apply count_ok in Hcnt; [|lia..]. apply origin_valid_iff in Ho.
    rewrite Hcd, Had. cbn [map_err obind]. rewrite !bool_decide_true, Ho by done.
    cbn [guard_ok obind]. rewrite (proj2 (VerifyRPIDHash_Ok ad rpID tt)) by done.
    cbn [guard_ok obind]. by rewrite Hup, Huv, Hsig, Hcnt.
Qed.
End VerifyProps.

(** Go's cryptography with a verifier that accepts every signature. *)
Definition accepting : GoCrypto := {|
  ScalarMult := fun _ x y _ => (x, y);
  EcdsaVerify := fun _ _ _ _ => true;
  EcdsaGenerateKey := fun _ c => match c with P256 => Some (mkPrivateKey P256_G 1) | _ => None end
|}.

Definition wa_assertion : AssertionData :=
  mkAssertionData [x01; x02] (Sum256 (go_bytes "example.com") ++ x05 :: put_be 4 8)
    (jtext "{'type':'webauthn.get','challenge':'Y2g=','origin':'https://example.com'}")
    [x30; x06; x02; x01; x01; x02; x01; x02].

Definition wa_credential : Credential := mkCredential [x01; x02] P256_G 7 (replicate 16 x00) 0.

Lemma VerifyAssertion_accepts_witness :
  is_ok (VerifyAssertion (H := accepting) wa_assertion wa_credential "Y2g=" "example.com"
           ["https://example.com"]) = true /\
  exists ad, ad_SignCount ad = 8 /\ exists cd,
    ParseClientDataJSON (as_ClientDataJSON wa_assertion) = Ok cd /\
    cd_Type cd = "webauthn.get" /\ cd_Challenge cd = "Y2g=" /\ cd_Origin cd ∈ ["https://example.com"] /\
    ParseAuthenticatorData (as_AuthenticatorData wa_assertion) = Ok ad /\
    ad_RPIDHash ad = Sum256 (go_bytes "example.com") /\
    has_flag ad FlagUP = true /\ has_flag ad FlagUV = true /\
    verifyECDSASignature (H := accepting) (cred_PublicKey wa_credential)
      (assertion_hash wa_assertion) (as_Signature wa_assertion) = true /\
    count_fresh (ad_SignCount ad) (cred_SignCount wa_credential).
Proof.
  split; [vm_compute; reflexivity|].
  eexists (mkAuthenticatorData (Sum256 (go_bytes "example.com")) 5 8 [] [] None). split; [reflexivity|].
  apply (VerifyAssertion_accepts (H := accepting)); [done|]. vm_compute. reflexivity.
Defined.

(** *** Registration *)

Lemma parseCOSEKey_valid data pub :
  parseCOSEKey data = Ok pub -> pub_Curve pub = P256 /\ valid_pub pub.
Proof.
  unfold parseCOSEKey. intros Hp. inv_ok Hp. destruct (IsOnCurve _ _ _) eqn:E; [|done].
  by injection Hp as <-.
Qed.

Lemma ParseAuthenticatorData_key data ad :
  ParseAuthenticatorData data = Ok ad ->
  if has_flag ad FlagAT
  then exists pub, ad_PublicKey ad = Some pub /\ pub_Curve pub = P256 /\ valid_pub pub
  else ad_PublicKey ad = None.
Proof.
  unfold ParseAuthenticatorData. case_match; [done|]. intros Hp. inv_ok Hp.
  case_match eqn:Hf; [|injection Hp as <-; unfold has_flag; cbn [ad_Flags]; by rewrite Hf].
  case_match; [done|]. inv_ok Hp. case_match; [done|]. inv_ok Hp. injection Hp as <-.
  unfold has_flag. cbn [ad_Flags]. rewrite Hf. eexists. split; [done|].
  match goal with Hk : parseCOSEKey _ = Ok _ |- _ => exact (parseCOSEKey_valid _ _ Hk) end.
Qed.

(** C22: a registration is accepted exactly when the client data and the
    authenticator data inside the attestation object are those of this
    ceremony and relying party, with the UP, UV and AT flags; the credential
    key is then a point of P-256.  The attestation statement is not used. *)
Theorem VerifyRegistration_accepts sp att cdj challenge rpID origins ad :
  VerifyRegistration sp att cdj challenge rpID origins = Ok ad <->
  (exists cd data,
    ParseClientDataJSON cdj = Ok cd /\
    cd_Type cd = "webauthn.create" /\ cd_Challenge cd = challenge /\ cd_Origin cd ∈ origins /\
    extractAuthDataFromAttestation sp att = Ok data /\ ParseAuthenticatorData data = Ok ad) /\
  ad_RPIDHash ad = Sum256 (go_bytes rpID) /\
  has_flag ad FlagUP = true /\ has_flag ad FlagUV = true /\ has_flag ad FlagAT = true /\
  exists pub, ad_PublicKey ad = Some pub /\ pub_Curve pub = P256 /\ valid_pub pub.
Proof.
  unfold VerifyRegistration. split.
  - intros Hr. inv_ok Hr. rewrite VerifyRPIDHash_Ok in Hok5.
    rewrite bool_decide_eq_true in Hok0, Hok1. rewrite origin_valid_iff in Hok2.
    destruct (ad_PublicKey _) eqn:Hk; [|done]. injection Hr as <-.
    pose proof (ParseAuthenticatorData_key _ _ Hok4) as Hkey. rewrite Hok8 in Hkey. split_and!; [|done..]. eauto 10.
  - intros ((cd & data & Hcd & Ht & Hch & Ho & He & Had) & Hrp & Hup & Huv & Hat & pub & Hpub & _).
    apply origin_valid_iff in Ho. rewrite Hcd. cbn [map_err obind].
    rewrite !bool_decide_true, Ho by done. cbn [guard_ok obind]. rewrite He. cbn [map_err obind].
    rewrite Had. cbn [map_err obind]. rewrite (proj2 (VerifyRPIDHash_Ok ad rpID tt)) by done.
    cbn [guard_ok obind]. by rewrite Hup, Huv, Hat, Hpub.
Qed.

(** *** The attestation object *)

(** A malformed object makes the extraction panic: here the value of the
    only pair is cut off after its head. *)
Lemma extractAuthData_panics sp :
  is_panic (extractAuthDataFromAttestation sp [xa1; x00; x18]) = true.
Proof. reflexivity. Qed.

Lemma repeat_pos_ext {E} n lo (F G : Z -> outcome E Z) pos :
  (forall p, lo <= p -> F p = G p) -> (forall p q, lo <= p -> F p = Ok q -> p <= q) -> lo <= pos ->
  repeat_pos n F pos = repeat_pos n G pos /\ forall q, repeat_pos n F pos = Ok q -> pos <= q.
Proof.
  intros Hext Hge Hlo. unfold repeat_pos.
  destruct n as [|n|n]; simpl; try (split; [done|intros q [= <-]; lia]).
  rewrite !Pos2Nat.inj_iter. induction (Pos.to_nat n) as [|k [IH1 IH2]]; simpl.
  - split; [done|]. intros q [= <-]. lia.
  - rewrite <-IH1. destruct (nat_rect _ _ _ k) as [p|e|s]; simpl; try done.
    specialize (IH2 p eq_refl). split; [apply Hext; lia|].
    intros q Hq. apply Hge in Hq; lia.
Qed.

Lemma head_length_Ok {E} sp data pos a n p :
  0 <= a -> head_length (E := E) sp data pos a = Ok (n, p) -> 0 <= n /\ pos <= p.
Proof.
  intros Ha. unfold head_length. repeat case_match; intros Hd; inv_ok Hd; simplify_eq;
    try (pose proof (b2z_range x)); try (pose proof (be_uint_range x)); lia.
Qed.

(** The nesting bound of [skipCBORValue] is enough: any larger bound gives
    the same result, and the position never goes back. *)
Lemma skip_value_fuel {E} sp data f g pos :
  0 <= pos -> Z.max 0 (zlen data - pos) < Z.of_nat f -> Z.max 0 (zlen data - pos) < Z.of_nat g ->
  skip_value (E := E) sp f data pos = skip_value sp g data pos /\
  forall q, skip_value (E := E) sp f data pos = Ok q -> pos <= q.
Proof.
  revert g pos. induction f as [|f IH]; intros g pos Hp Hf Hg.
  { lia. }
  destruct g as [|g]; [lia|].
  cbn [skip_value]. destruct (Z.leb_spec (zlen data) pos); [split; [done|intros q [= <-]; lia]|].
  destruct (index data pos) as [b|e|s]; cbn [obind]; try done.
  destruct (head_length _ _ _ _) as [[n p]|e|s] eqn:Hh; cbn [obind]; try done.
  apply head_length_Ok in Hh as [Hn Hpp]; [|apply cbor_additional_range].
  assert (forall r, p <= r -> skip_value (E := E) sp f data r = skip_value sp g data r /\
            forall q, skip_value (E := E) sp f data r = Ok q -> r <= q) as Hrec
    by (intros r Hr; apply IH; lia).
  repeat case_match; try (split; [done|intros q [= <-]; lia]).
  - destruct (repeat_pos_ext n p (skip_value sp f data) (skip_value (E := E) sp g data) p) as [He1 He2];
      [apply Hrec|intros; by eapply Hrec|done|]. split; [done|]. intros q Hq. specialize (He2 q Hq). lia.
  - edestruct (repeat_pos_ext n p
      (fun r => let? q := skip_value sp f data r in skip_value sp f data q)
      (fun r => let? q := skip_value (E := E) sp g data r in skip_value sp g data q) p) as [He1 He2];
      [| |done|split; [exact He1|intros q Hq; specialize (He2 q Hq); lia]].
    + intros r Hr. destruct (Hrec r Hr) as [Heq Hge]. rewrite <-Heq.
      destruct (skip_value sp f data r) as [q|e|s]; simpl; try done.
      apply Hrec. specialize (Hge q eq_refl). lia.
    + intros r q Hr Hq. apply obind_Ok in Hq as (q' & Hq' & Hq).
      apply (proj2 (Hrec r Hr)) in Hq'. apply Hrec in Hq; lia.
Qed.

(** C31: the recursion of [skipCBORValue] is bounded by the buffer: the model's
    nesting bound is never reached, any larger one gives the same position
    (or the same panic), and the position never goes back. *)
Theorem skipCBORValue_terminates sp data pos fuel :
  0 <= pos -> (length data < fuel)%nat ->
  skip_value (E := error) sp fuel data pos = skipCBORValue sp data pos /\
  forall q, skipCBORValue (E := error) sp data pos = Ok q -> pos <= q.
Proof.
  intros Hp Hf. unfold skipCBORValue.
  split; [apply skip_value_fuel; unfold zlen; lia|].
  apply (skip_value_fuel sp data (S (length data)) (S (length data))); unfold zlen; lia.
Qed.

Lemma skipCBORValue_terminates_witness :
  skip_value (E := error) 0 9 [x82; x01; x81; x42; x00; x00] 0 =
    skipCBORValue 0 [x82; x01; x81; x42; x00; x00] 0 /\
  forall q, skipCBORValue (E := error) 0 [x82; x01; x81; x42; x00; x00] 0 = Ok q -> 0 <= q.
Proof. apply skipCBORValue_terminates; simpl; lia. Defined.

(** An attestation object with an empty statement, as the [none] format has
    it, and an authenticator-data string of any length. *)
Definition att_prefix : bytes :=
  xa3 :: x63 :: go_bytes "fmt" ++ x64 :: go_bytes "none" ++
  x67 :: go_bytes "attStmt" ++ xa0 :: x68 :: go_bytes "authData".

Definition cbor_bytes_head (n : Z) : bytes :=
  if n <? 24 then [z2b (64 + n)]
  else if n <? 256 then [x58; z2b n]
  else if n <? 65536 then x59 :: put_be 2 n
  else x5a :: put_be 4 n.

Definition none_attestation (data : bytes) : bytes := att_prefix ++ cbor_bytes_head (zlen data) ++ data.

Lemma index_pre {E} pre post i : 0 <= i < zlen pre -> index (E := E) (pre ++ post) i = index pre i.
Proof.
  intros Hi. unfold index, zlen in *. rewrite (proj2 (Z.leb_le 0 i)) by lia.
  by rewrite lookup_app_l by lia.
Qed.

Lemma reslice_pre {E} sp pre post lo hi :
  0 <= lo <= hi -> hi <= zlen pre ->
  reslice (E := E) sp (pre ++ post) lo hi = Ok (slice pre (Z.to_nat lo) (Z.to_nat hi)).
Proof.
  intros H1 H2. unfold reslice. assert (zlen (pre ++ post) = zlen pre + zlen post) as ->
    by (unfold zlen; rewrite length_app; lia).
  pose proof (zlen_nonneg post).
  rewrite (proj2 (Z.leb_le 0 lo)), (proj2 (Z.leb_le lo hi)), (proj2 (Z.leb_le hi _)) by lia.
  cbn [andb]. f_equal. unfold slice, zlen in *. rewrite <-app_assoc, drop_app_le by lia.
  by rewrite take_app_le by (rewrite length_drop; lia).
Qed.

Lemma reslice_post {E} sp pre mid post lo hi :
  zlen pre = lo -> zlen mid = hi - lo -> reslice (E := E) sp (pre ++ mid ++ post) lo hi = Ok mid.
Proof.
  intros <- Hm. rewrite app_assoc. pose proof (zlen_nonneg pre). pose proof (zlen_nonneg mid).
  rewrite reslice_pre by (unfold zlen in *; rewrite ?length_app; lia). f_equal.
  unfold slice, zlen in *. rewrite Nat2Z.id, drop_app_length, firstn_all2 by lia. done.
Qed.

Lemma zlen_app a b : zlen (a ++ b) = zlen a + zlen b.
Proof. unfold zlen. rewrite length_app. lia. Qed.

Lemma zlen_cons b l : zlen (b :: l) = 1 + zlen l.
Proof. unfold zlen. simpl. lia. Qed.

Lemma be_uint_put n z : 0 <= z < 2 ^ (8 * Z.of_nat n) -> be_uint (put_be n z) = z.
Proof. intros Hz. rewrite be_uint_put_be. by apply Z.mod_small. Qed.

(** The head read at the end of a prefix, and the bytes that follow it. *)
Lemma cbor_bytes_head_read {E} sp pre n data :
  0 <= n < 2^32 ->
  exists b ext, cbor_bytes_head n = b :: ext /\ cbor_major b = 2 /\ cbor_additional b <= 26 /\
    head_length (E := E) sp (pre ++ (b :: ext) ++ data) (zlen pre + 1) (cbor_additional b) =
      Ok (n, zlen pre + 1 + zlen ext).
Proof.
  intros Hn. unfold cbor_bytes_head.
  assert (forall x l, reslice (E := E) sp (pre ++ (x :: l) ++ data) (zlen pre + 1) (zlen pre + 1 + zlen l) = Ok l) as Hr.
  { intros x l. change ((x :: l) ++ data) with ([x] ++ l ++ data). rewrite app_assoc.
    apply reslice_post; rewrite ?zlen_app, ?zlen_cons; change (zlen []) with 0; lia. }
  destruct (Z.ltb_spec n 24) as [H1|H1]; [|destruct (Z.ltb_spec n 256) as [H2|H2];
    [|destruct (Z.ltb_spec n 65536) as [H3|H3]]].
  - exists (z2b (64 + n)), []. unfold cbor_major, cbor_additional. rewrite b2z_z2b, Z.mod_small by lia.
    assert (Z.land (64 + n) 31 = n) as ->.
    { change 31 with (Z.ones 5). rewrite Z.land_ones by lia. zlia. }
    split_and!; [done| |lia|].
    + rewrite Z.shiftr_div_pow2 by lia. zlia.
    + unfold head_length. rewrite (proj2 (Z.ltb_lt n 24)) by done. f_equal. f_equal. unfold zlen. simpl. lia.
  - exists x58, [z2b n]. split_and!; [done..|]. unfold head_length. simpl.
    assert (index (E := E) (pre ++ x58 :: z2b n :: data) (zlen pre + 1) = Ok (z2b n)) as ->.
    { apply index_Ok. pose proof (zlen_nonneg pre). split; [lia|]. unfold zlen.
      rewrite lookup_app_r by lia. replace (_ - _)%nat with 1%nat by lia. done. }
    simpl. by rewrite b2z_z2b, Z.mod_small by lia.
  - exists x59, (put_be 2 n). split_and!; [done..|]. unfold head_length.
    change (cbor_additional x59) with 25. cbn [Z.ltb Z.eqb Z.compare Pos.compare Pos.compare_cont Pos.eqb].
    specialize (Hr x59 (put_be 2 n)). change (zlen (put_be 2 n)) with 2 in *.
    rewrite Hr. cbn [obind]. rewrite be_uint_put by (simpl; lia). done.
  - exists x5a, (put_be 4 n). split_and!; [done..|]. unfold head_length.
    change (cbor_additional x5a) with 26. cbn [Z.ltb Z.eqb Z.compare Pos.compare Pos.compare_cont Pos.eqb].
    specialize (Hr x5a (put_be 4 n)). change (zlen (put_be 4 n)) with 4 in *.
    rewrite Hr. cbn [obind]. rewrite be_uint_put by (simpl; lia). done.
Qed.

Lemma authData_value_head sp pre data :
  zlen data < 2^32 ->
  authData_value sp (pre ++ cbor_bytes_head (zlen data) ++ data) (zlen pre) = Ok data.
Proof.
  intros Hl. pose proof (zlen_nonneg data).
  destruct (cbor_bytes_head_read (E := error) sp pre (zlen data) data) as (b & ext & -> & Hm & Ha & Hh); [lia|].
  unfold authData_value.
  assert (index (E := error) (pre ++ (b :: ext) ++ data) (zlen pre) = Ok b) as ->.
  { apply index_Ok. pose proof (zlen_nonneg pre). split; [lia|]. unfold zlen. rewrite Nat2Z.id.
    by apply list_lookup_middle. }
  cbn [obind]. rewrite Hm. cbn [Z.eqb Pos.eqb negb]. rewrite (proj2 (Z.ltb_ge 26 _)) by done.
  rewrite Hh. cbn [obind]. rewrite !zlen_app, zlen_cons. rewrite (proj2 (Z.ltb_ge _ _)) by lia.
  rewrite <-(app_nil_r data) at 1. rewrite app_assoc.
  apply reslice_post; rewrite ?zlen_app, ?zlen_cons; lia.
Qed.

(** A short string, or an empty map, is skipped. *)
Lemma skip_short {E} sp data pos b :
  index (E := E) data pos = Ok b -> cbor_additional b < 24 ->
  cbor_major b = 3 \/ (cbor_major b = 5 /\ cbor_additional b = 0) ->
  skipCBORValue (E := E) sp data pos = Ok (pos + 1 + cbor_additional b).
Proof.
  intros Hb Ha Hm. pose proof (cbor_additional_range b). unfold skipCBORValue. cbn [skip_value].
  assert (pos < zlen data) as Hp.
  { apply index_Ok in Hb as [Hp Hb]. apply lookup_lt_Some in Hb. unfold zlen. lia. }
  rewrite (proj2 (Z.leb_gt _ _)) by done. rewrite Hb. cbn [obind]. unfold head_length.
  rewrite (proj2 (Z.ltb_lt _ 24)) by done. cbn [obind].
  destruct Hm as [->|[-> Ha0]]; [done|]. rewrite Ha0. cbn. f_equal. lia.
Qed.

(** One pair of an object whose key has [klen] bytes and ends in the prefix,
    and is not [authData]; its value is skipped. *)
Lemma attestation_pair_skip sp n pre post pos kb vb klen :
  0 <= pos -> pos + 1 + klen < zlen pre ->
  index (E := error) pre pos = Ok kb -> cbor_major kb = 3 -> cbor_additional kb = klen -> klen < 24 ->
  go_string (slice pre (Z.to_nat (pos + 1)) (Z.to_nat (pos + 1 + klen))) <> "authData" ->
  index (E := error) pre (pos + 1 + klen) = Ok vb -> cbor_additional vb < 24 ->
  cbor_major vb = 3 \/ (cbor_major vb = 5 /\ cbor_additional vb = 0) ->
  attestation_pairs sp (S n) (pre ++ post) pos =
    attestation_pairs sp n (pre ++ post) (pos + 1 + klen + 1 + cbor_additional vb).
Proof.
  intros Hp Hlt Hk Hkm Hka Hkl Hname Hv Hva Hvm. pose proof (cbor_additional_range kb).
  pose proof (zlen_nonneg post). pose proof (zlen_app pre post) as Hz.
  cbn [attestation_pairs]. rewrite (proj2 (Z.leb_gt _ _)) by lia.
  rewrite index_pre, Hk by lia. cbn [obind]. rewrite Hkm, Hka. cbn [Z.eqb Pos.eqb negb].
  rewrite (proj2 (Z.eqb_neq klen 24)) by lia. cbn [obind].
  rewrite (proj2 (Z.ltb_ge _ _)) by lia. rewrite reslice_pre by lia. cbn [obind].
  rewrite bool_decide_false by done. rewrite (skip_short sp _ _ vb); [done| |done..].
  by rewrite index_pre by lia.
Qed.

(** The authenticator data of a well-formed attestation object are found. *)
Theorem extractAuthData_none_attestation sp data :
  zlen data < 2^32 -> extractAuthDataFromAttestation sp (none_attestation data) = Ok data.
Proof.
  intros Hl. unfold none_attestation.
  pose proof (authData_value_head sp att_prefix data Hl) as Hv.
  set (rest := cbor_bytes_head (zlen data) ++ data) in *. pose proof (zlen_nonneg rest).
  assert (zlen (att_prefix ++ rest) = 28 + zlen rest) as Hz by (rewrite zlen_app; done).
  unfold extractAuthDataFromAttestation. rewrite (proj2 (Z.ltb_ge _ 3)) by lia.
  rewrite index_pre by done. change (index att_prefix 0) with (Ok (E := error) xa3). cbn [obind].
  change (cbor_major xa3) with 5. change (cbor_additional xa3) with 3.
  cbn [Z.eqb Pos.eqb negb obind]. change (Z.to_nat 3) with 3%nat.
  rewrite (attestation_pair_skip sp 2 att_prefix rest 1 x63 x64 3) by (done || by left).
  change (1 + 1 + 3 + 1 + cbor_additional x64) with 10.
  rewrite (attestation_pair_skip sp 1 att_prefix rest 10 x67 xa0 7) by (done || by right).
  change (10 + 1 + 7 + 1 + cbor_additional xa0) with 19.
  cbn [attestation_pairs]. rewrite (proj2 (Z.leb_gt _ _)) by lia.
  rewrite index_pre by done. change (index att_prefix 19) with (Ok (E := error) x68). cbn [obind].
  change (cbor_major x68) with 3. change (cbor_additional x68) with 8. cbn [Z.eqb Pos.eqb negb obind].
  rewrite (proj2 (Z.ltb_ge _ _)) by lia. rewrite reslice_pre by done. cbn [obind].
  rewrite bool_decide_true by done. exact Hv.
Qed.

Lemma extractAuthData_none_attestation_witness :
  extractAuthDataFromAttestation 2 (none_attestation (replicate 300 x07)) = Ok (replicate 300 x07).
Proof. apply extractAuthData_none_attestation. done. Defined.
