(* ===== verification/Token.v ===== *)
(** * [internal/webauthn/token.go]: stateless challenge tokens

    A token is the AES-GCM encryption of its JSON text under the server's
    token key, behind its nonce; it is good for the encryptor's lifetime. *)

From S2P Require Import Prelude GoTime GoStrings GoJson Protocol External.
Local Open Scope Z_scope.

Record ChallengeToken := mkChallengeToken {
  ct_Iat : Z;
  ct_ClientID : string;
  ct_Context : string;
  ct_Challenge : string
}.

#[export] Instance ChallengeToken_eq_dec : EqDecision ChallengeToken.
Proof. solve_decision. Defined.

Definition Marshal_ChallengeToken (t : ChallengeToken) : bytes :=
  enc_struct [("iat", enc_int (ct_Iat t)); ("client_id", enc_string (ct_ClientID t));
              ("context", enc_string (ct_Context t)); ("challenge", enc_string (ct_Challenge t))].

Definition ChallengeToken_fields : list (field ChallengeToken) :=
  [ fld "iat" dec_int64 ct_Iat (fun '(mkChallengeToken _ c x h) i => mkChallengeToken i c x h);
    fld "client_id" dec_string ct_ClientID (fun '(mkChallengeToken i _ x h) c => mkChallengeToken i c x h);
    fld "context" dec_string ct_Context (fun '(mkChallengeToken i c _ h) x => mkChallengeToken i c x h);
    fld "challenge" dec_string ct_Challenge (fun '(mkChallengeToken i c x _) h => mkChallengeToken i c x h) ].

Definition Unmarshal_ChallengeToken : bytes -> option ChallengeToken :=
  Unmarshal (dec_struct ChallengeToken_fields) (mkChallengeToken 0 "" "" "").

Record TokenEncryptor := mkTokenEncryptor { te_gcm : AEAD; te_ttl : Z }.

(** [new_gcm] is [aes.NewCipher] and [cipher.NewGCM] on a 32-byte key. *)
Definition NewTokenEncryptor (new_gcm : bytes -> AEAD) (key : bytes) (ttl : Z) :
    outcome error TokenEncryptor :=
  if negb (length key =? 32)%nat
  then Err (Errorf ("token key must be 32 bytes, got " +:+ fmt_d (Z.of_nat (length key))))
  else Ok (mkTokenEncryptor (new_gcm key) (if ttl =? 0 then 60 * Second else ttl)).

(** [nonce] is the draw of [crypto/rand]. *)
Definition Encrypt (e : TokenEncryptor) (nonce : bytes) (token : ChallengeToken) : bytes :=
  nonce ++ Seal (te_gcm e) nonce (Marshal_ChallengeToken token).

(** [now] is the reading of [time.Since]; the error text prints durations. *)
Definition Decrypt (e : TokenEncryptor) (now : Time) (data : bytes) : outcome error ChallengeToken :=
  let nonceSize := NonceSize (te_gcm e) in
  if (length data <? nonceSize + 1)%nat then Err (Errorf "token too short")
  else
    let nonce := take nonceSize data in
    let ciphertext := drop nonceSize data in
    let? plaintext := of_option (Wrapf "decrypt token" (PkgError "crypto/cipher"))
                        (Open (te_gcm e) nonce ciphertext) in
    let? token := of_option (Wrapf "unmarshal token" (PkgError "encoding/json"))
                    (Unmarshal_ChallengeToken plaintext) in
    if te_ttl e <? TimeSub now (UnixTime (ct_Iat token)) then Err (Errorf "token expired")
    else Ok token.
