(* ===== verification/Service.v ===== *)
(** * [internal/service]: the dispatcher's state and its responses

    The errors of the protocol, the record stores, the [Dispatcher] and
    [NewDispatcher]'s defaults, the accesses to the session store and the
    attempt counter, and [signResponse]. *)

From S2P Require Import Prelude GoTime GoStrings GoJson Protocol Counter Sessions Store Ecc External World Handlers Jws Opaque Token.
Local Open Scope Z_scope.

Record R2PSError := mkR2PSError { Code : string; Msg : string }.

#[export] Instance R2PSError_eq_dec : EqDecision R2PSError.
Proof. solve_decision. Defined.

Definition R2PSError_Error (e : R2PSError) : string := Code e +:+ ": " +:+ Msg e.

Section Service.
Context {St H : Type} `{Env, Store St, Backend H, GoCrypto, Jose, OpaqueLib, HkdfLib}.
Local Abbreviation W := (World St H).
Local Abbreviation m := (M W R2PSError).

(** ** Record stores *)

Record RecordStore := mkRecordStore {
  rs_GetRecord : string -> string -> M W error ClientRecord;
  rs_PutRecord : string -> string -> ClientRecord -> M W error unit
}.

(** The credential identifier of a client in a context. *)
Definition credID (ctx clientID : string) : bytes := go_bytes (ctx +:+ "|" +:+ clientID).

(** [StoreRecordStore]: the records of a [store.Store], serialized. *)
Definition StoreGetRecord (clientID ctx : string) : M W error ClientRecord :=
  let! data := on_store (GetRecord clientID ctx) in
  let! record := lift (of_option (Wrapf "deserialize OPAQUE record" opaque_err)
                         (DeserRegistrationRecord data)) in
  ret (mkClientRecord record (credID ctx clientID) None).

Definition StorePutRecord (clientID ctx : string) (record : ClientRecord) : M W error unit :=
  on_store (PutRecord clientID ctx (SerRegistrationRecord (cr_RegistrationRecord record))).

Definition NewStoreRecordStore : RecordStore := mkRecordStore StoreGetRecord StorePutRecord.

(** [InMemoryRecordStore]: a map of its own, which the process does not use. *)
Definition NewInMemoryRecordStore : gmap string ClientRecord := ∅.

Definition InMemoryGetRecord (clientID ctx : string) : M (gmap string ClientRecord) error ClientRecord := fun s =>
  match s !! (clientID +:+ "|" +:+ ctx) with
  | None => (s, Err (Errorf ("no record for " +:+ clientID +:+ "/" +:+ ctx)))
  | Some r => (s, Ok r)
  end.

Definition InMemoryPutRecord (clientID ctx : string) (record : ClientRecord) :
    M (gmap string ClientRecord) error unit :=
  modify <[clientID +:+ "|" +:+ ctx := record]>.

Lemma InMemoryRecordStore_put_get clientID ctx clientID' ctx' r s :
  plain_name ctx -> plain_name ctx' ->
  (InMemoryGetRecord clientID' ctx' (InMemoryPutRecord clientID ctx r s).1).2 =
    if decide (clientID' = clientID /\ ctx' = ctx) then Ok r else (InMemoryGetRecord clientID' ctx' s).2.
Proof.
  intros Hc Hc'. unfold InMemoryGetRecord, InMemoryPutRecord, modify. cbn [fst].
  change (clientID +:+ "|" +:+ ctx) with (Memory.pair_key clientID ctx).
  change (clientID' +:+ "|" +:+ ctx') with (Memory.pair_key clientID' ctx').
  rewrite lookup_pair_insert by done. case_decide; [done|]. by destruct (s !! _).
Qed.

(** ** The dispatcher *)

Record fido2Handler := mkFido2Handler {
  f_tokenEncryptor : TokenEncryptor;
  f_rpID : string;
  f_allowedOrigins : list string
}.

(** [FIDO2Config]; its store is that of the process. *)
Record FIDO2Config := mkFIDO2Config {
  fc_TokenEncryptor : TokenEncryptor;
  fc_RPID : string;
  fc_AllowedOrigins : list string
}.

Definition newFIDO2Handler (cfg : option FIDO2Config) : option fido2Handler :=
  match cfg with
  | None => None
  | Some cfg => Some (mkFido2Handler (fc_TokenEncryptor cfg) (fc_RPID cfg) (fc_AllowedOrigins cfg))
  end.

Record Dispatcher := mkDispatcher {
  d_serverKey : PrivateKey;
  d_opaque : OPAQUEServer;
  d_records : RecordStore;
  d_clientKeys : option (string -> outcome error PublicKey);
  d_handlers : gmap string (Handler St H);
  d_sessionTTL : Z;
  d_iatMaxSkew : Z;
  d_fido2 : option fido2Handler
}.

Record DispatcherConfig := mkDispatcherConfig {
  cfg_ServerKey : PrivateKey;
  cfg_OPAQUEKey : option ServerKeyMaterial;
  cfg_OPAQUEServer : option OPAQUEServer;
  cfg_Records : RecordStore;
  cfg_ClientKeys : option (string -> outcome error PublicKey);
  cfg_Handlers : list (Handler St H);
  cfg_MaxAttempts : Z;
  cfg_LockoutDur : Z;
  cfg_SessionTTL : Z;
  cfg_IatMaxSkew : Z;
  cfg_FIDO2 : option FIDO2Config
}.

(** [if x == 0 { x = d }] *)
Definition or_default (x d : Z) : Z := if x =? 0 then d else x.

Definition handler_map (hs : list (Handler St H)) : gmap string (Handler St H) :=
  fold_left (fun acc h => <[h_Type h := h]> acc) hs ∅.

(** The dispatcher, with the counter it starts from; the session store
    starts empty. *)
Definition NewDispatcher (cfg : DispatcherConfig) : outcome error (Dispatcher * AttemptCounter) :=
  let? server :=
    match cfg_OPAQUEServer cfg with
    | Some s => Ok s
    | None => map_err (Wrapf "create OPAQUE server") (NewOPAQUEServer (cfg_OPAQUEKey cfg))
    end in
  Ok (mkDispatcher (cfg_ServerKey cfg) server (cfg_Records cfg) (cfg_ClientKeys cfg)
        (handler_map (cfg_Handlers cfg))
        (or_default (cfg_SessionTTL cfg) (5 * Minute))
        (or_default (cfg_IatMaxSkew cfg) (5 * Minute))
        (newFIDO2Handler (cfg_FIDO2 cfg)),
      NewAttemptCounter (or_default (cfg_MaxAttempts cfg) 5)
        (or_default (cfg_LockoutDur cfg) (15 * Minute))).

(** ** Sessions and the counter *)

Definition refuse {A} (code msg : string) : m A := fail (mkR2PSError code msg).

(** [if err != nil { return &R2PSError{...} }] *)
Definition or_refuse {A F} (code msg : string) (x : M W F A) : m A :=
  with_err (fun _ => mkR2PSError code msg) x.

Definition sessions_Get (id : string) : m (option Session) :=
  let! now := Now in gets (fun w => Get now id (w_sessions w)).

Definition sessions_Delete (id : string) : m unit :=
  modify (fun w => set_sessions (Delete id (w_sessions w)) w).

Definition sessions_Create (s : Session) : m unit :=
  or_refuse ErrServerError "session creation failed" (on_sessions (E := error) (Create s)).

Definition sessions_MarkVerified (id : string) : m unit :=
  or_refuse ErrServerError "session update failed" (on_sessions (E := error) (MarkVerified id)).

(** The key ID of an attempt is the context. *)
Definition counter_Check (req : ServiceRequest) : m unit :=
  let! now := Now in
  with_err (fun e => mkR2PSError ErrAccessDenied (Error e))
    (on_counter (E := error) (Check now (sr_ClientID req) (sr_Context req) (sr_Context req))).

Definition counter_RecordFailure (req : ServiceRequest) : m unit :=
  let! now := Now in
  let! _ := attempt (on_counter (E := error)
              (RecordFailure now (sr_ClientID req) (sr_Context req) (sr_Context req))) in
  ret tt.

Definition counter_RecordSuccess (req : ServiceRequest) : m unit :=
  let! _ := attempt (on_counter (E := error)
              (RecordSuccess (sr_ClientID req) (sr_Context req) (sr_Context req))) in
  ret tt.

Definition ActiveSessions_Inc : m unit := modify (fun w => set_gauge (w_gauge w + 1) w).

(** The tick of [StartSessionCleanup]. *)
Definition cleanup_tick : m unit :=
  let! now := Now in
  modify (fun w =>
    let '(s, count) := CleanExpired now (w_sessions w) in
    let w := set_sessions s w in
    if 0 <? count then set_gauge (w_gauge w - count) w else w).

(** ** Responses *)

(** [data] is the marshalled data, [None] when it does not marshal. *)
Definition respond (d : Dispatcher) (req : ServiceRequest) (data : option bytes) : m bytes :=
  let! now := Now in
  let! respJSON := lift (of_option (mkR2PSError ErrServerError "marshal response failed")
    (Marshal_ServiceResponse
       (mkServiceResponse ProtocolVersion (sr_Nonce req) (Unix now) data (Some true)))) in
  let! draw := Draw in
  let! signed := or_refuse ErrServerError "sign response failed"
                   (lift (SignJWS draw respJSON (d_serverKey d) "" TypResponse)) in
  ret (go_bytes signed).

Definition signResponse (d : Dispatcher) (req : ServiceRequest) (dataJSON : bytes) : m bytes :=
  respond d req (Some dataJSON).
End Service.

Arguments RecordStore : clear implicits.
Arguments RecordStore St H {_}.
Arguments Dispatcher : clear implicits.
Arguments Dispatcher St H {_}.
Arguments DispatcherConfig : clear implicits.
Arguments DispatcherConfig St H {_}.
