(* ===== verification/Fido2.v ===== *)
(** * [internal/service/fido2.go]: the FIDO2 second factor

    Registration and authentication with WebAuthn credentials, challenges
    carried in stateless tokens, and the session key of a finalised
    authentication. *)

From S2P Require Import Prelude GoTime GoStrings GoJson Protocol Counter Sessions Store Sha256 Ecc External World Handlers Jws Opaque Webauthn Token Service.
Local Open Scope Z_scope.

(** ** Messages *)

(** [fido2RegChallengeResponse] and [fido2AuthChallengeResponse]. *)
Definition Marshal_challengeResponse (challenge token userVerification : string) : bytes :=
  enc_struct [("challenge", enc_string challenge); ("token", enc_string token);
              ("user_verification", enc_string userVerification)].

Record fido2RegRegisterRequest := mkRegRegister {
  rr_CredentialID : string;
  rr_AttestationObject : string;
  rr_ClientData : string
}.

Definition Unmarshal_fido2RegRegisterRequest : bytes -> option fido2RegRegisterRequest :=
  Unmarshal (dec_struct
    [ fld "credential_id" dec_string rr_CredentialID (fun '(mkRegRegister _ a d) c => mkRegRegister c a d);
      fld "attestation_object" dec_string rr_AttestationObject (fun '(mkRegRegister c _ d) a => mkRegRegister c a d);
      fld "client_data" dec_string rr_ClientData (fun '(mkRegRegister c a _) d => mkRegRegister c a d) ])
    (mkRegRegister "" "" "").

Record fido2AssertionField := mkAssertionField {
  af_CredentialID : string;
  af_AuthenticatorData : string;
  af_ClientData : string;
  af_Signature : string
}.

Record fido2AuthFinalizeRequest := mkAuthFinalize {
  fr_ClientEpub : string;
  fr_Token : string;
  fr_Task : string;
  fr_Assertion : fido2AssertionField
}.

Definition dec_assertion : decoder fido2AssertionField := dec_struct
  [ fld "credential_id" dec_string af_CredentialID (fun '(mkAssertionField _ a d s) c => mkAssertionField c a d s);
    fld "authenticator_data" dec_string af_AuthenticatorData (fun '(mkAssertionField c _ d s) a => mkAssertionField c a d s);
    fld "client_data" dec_string af_ClientData (fun '(mkAssertionField c a _ s) d => mkAssertionField c a d s);
    fld "signature" dec_string af_Signature (fun '(mkAssertionField c a d _) s => mkAssertionField c a d s) ].

Definition Unmarshal_fido2AuthFinalizeRequest : bytes -> option fido2AuthFinalizeRequest :=
  Unmarshal (dec_struct
    [ fld "client_epub" dec_string fr_ClientEpub (fun '(mkAuthFinalize _ t k a) e => mkAuthFinalize e t k a);
      fld "token" dec_string fr_Token (fun '(mkAuthFinalize e _ k a) t => mkAuthFinalize e t k a);
      fld "task" dec_string fr_Task (fun '(mkAuthFinalize e t _ a) k => mkAuthFinalize e t k a);
      fld "assertion" dec_assertion fr_Assertion (fun '(mkAuthFinalize e t k _) a => mkAuthFinalize e t k a) ])
    (mkAuthFinalize "" "" "" (mkAssertionField "" "" "" "")).

Definition Marshal_fido2AuthFinalizeResponse (serverEpub tfaSessionID task : string) (exp : Z) : bytes :=
  enc_struct [("server_epub", enc_string serverEpub); ("2fa_session_id", enc_string tfaSessionID);
              ("task", enc_string task); ("session_expiration_time", enc_int exp)].

(** ** The handler *)

Section Fido2.
Context {St H : Type} `{Env, Store St, GoCrypto, Jose, OpaqueLib, HkdfLib}.
Local Abbreviation W := (World St H).
Local Abbreviation m := (M W R2PSError).

(** [decodeBase64], refused with [ILLEGAL_REQUEST_DATA]. *)
Definition decode_field (s msg : string) : m bytes :=
  lift (of_option (mkR2PSError ErrIllegalRequestData msg) (URLDecodeString s)).

(** A challenge and its token, answered to the client. *)
Definition issue_challenge (d : Dispatcher St H) (f : fido2Handler) (req : ServiceRequest) : m bytes :=
  let! challenge := RandomBytes 16 in
  let challengeB64 := encodeBase64 challenge in
  let! now := Now in
  let token := mkChallengeToken (Unix now) (sr_ClientID req) (sr_Context req) challengeB64 in
  let! nonce := RandomBytes (NonceSize (te_gcm (f_tokenEncryptor f))) in
  let tokenBytes := Encrypt (f_tokenEncryptor f) nonce token in
  signResponse d req (Marshal_challengeResponse challengeB64 (encodeBase64 tokenBytes) "required").

Definition fido2RegChallenge (d : Dispatcher St H) (f : fido2Handler) (req : ServiceRequest) : m bytes :=
  issue_challenge d f req.

Definition fido2AuthChallenge (d : Dispatcher St H) (f : fido2Handler) (req : ServiceRequest) : m bytes :=
  counter_Check req ;;! issue_challenge d f req.

(** The request field: base64 of a JSON object, or the object itself. *)
Definition parse_pdata {A} (un : bytes -> option A) (pData msg1 msg2 : string) : m A :=
  match URLDecodeString pData with
  | None => lift (of_option (mkR2PSError ErrIllegalRequestData msg1) (un (go_bytes pData)))
  | Some reqBytes => lift (of_option (mkR2PSError ErrIllegalRequestData msg2) (un reqBytes))
  end.

Definition is_change (t : string) : bool :=
  bool_decide (t = Type2FAChange) || bool_decide (t = Type2FAUpdate).

(** Decrypt a token and check that it was issued to this client and context. *)
Definition open_token (f : fido2Handler) (req : ServiceRequest) (tokenBytes : bytes) : m ChallengeToken :=
  let! now := Now in
  let! token := or_refuse ErrUnauthorized "invalid or expired token"
                  (lift (Decrypt (f_tokenEncryptor f) now tokenBytes)) in
  if negb (bool_decide (ct_ClientID token = sr_ClientID req))
     || negb (bool_decide (ct_Context token = sr_Context req))
  then refuse ErrAccessDenied "token binding mismatch"
  else ret token.

(** Zero bytes after the decoded bytes in the decoder's buffer. *)
Definition b64_spare (s : string) (decoded : bytes) : nat :=
  (length (go_bytes s) / 4 * 3 - length decoded)%nat.

Definition verification_failed (e : error) : R2PSError :=
  mkR2PSError ErrIllegalRequestData ("registration verification failed: " +:+ Error e).

Definition fido2RegRegister (d : Dispatcher St H) (f : fido2Handler) (req : ServiceRequest)
    (tfaReq : TFARequestData) : m bytes :=
  let! regReq := parse_pdata Unmarshal_fido2RegRegisterRequest (GetPData tfaReq)
                   "invalid fido2 registration request" "malformed registration data" in
  let! attestationObject := decode_field (rr_AttestationObject regReq) "invalid attestation_object encoding" in
  let! clientDataJSON := decode_field (rr_ClientData regReq) "invalid client_data encoding" in
  (if is_change (sr_Type req) then
     if bool_decide (tfa_Authorization tfaReq = "")
     then refuse ErrUnauthorized "authorization required for credential change"
     else
       let! sess := sessions_Get (tfa_Authorization tfaReq) in
       match sess with
       | Some s => if s_Verified s then ret tt else refuse ErrUnauthorized "invalid authorization session"
       | None => refuse ErrUnauthorized "invalid authorization session"
       end
   else ret tt) ;;!
  let! expectedChallenge :=
    (if negb (bool_decide (tfa_Authorization tfaReq = "")) && negb (is_change (sr_Type req)) then
       let! tokenBytes := decode_field (tfa_Authorization tfaReq) "invalid token encoding" in
       let! token := open_token f req tokenBytes in
       ret (ct_Challenge token)
     else ret "") in
  let spare := b64_spare (rr_AttestationObject regReq) attestationObject in
  let verify := VerifyRegistration spare attestationObject clientDataJSON expectedChallenge
                  (f_rpID f) (f_allowedOrigins f) in
  let! authData0 := attempt (lift verify) in
  (match authData0 with
   | inr e => if negb (bool_decide (expectedChallenge = "")) then fail (verification_failed e) else ret tt
   | inl _ => ret tt
   end) ;;!
  let! authData :=
    (if bool_decide (expectedChallenge = "")
     then with_err verification_failed (lift verify)
     else match authData0 with inl a => ret a | inr e => fail (verification_failed e) end) in
  let! pubKeyBytes :=
    match ad_PublicKey authData with
    | None => lift (Panic "runtime error: invalid memory address or nil pointer dereference")
    | Some pub => lift (MarshalUncompressedPublicKey pub)
    end in
  let! now := Now in
  let cred := mkWebAuthnCredential (ad_CredentialID authData) pubKeyBytes (ad_SignCount authData)
                (ad_AAGUID authData) (Unix now) in
  or_refuse ErrServerError "store credential failed"
    (on_store (E := error) (PutWebAuthnCredential (sr_ClientID req) (sr_Context req) cred)) ;;!
  Inc "fido2_auth_total" "registration" ;;!
  signResponse d req (Marshal_TFAResponseData (mkTFAResponseData "" "" "success")).

(** The first credential with the ID. *)
Fixpoint find_credential (credID : bytes) (l : list WebAuthnCredential) : option WebAuthnCredential :=
  match l with
  | [] => None
  | c :: l' => if Memory.bytesEqual (wc_CredentialID c) credID then Some c else find_credential credID l'
  end.

(** A failed attempt is recorded and refused. *)
Definition failed_attempt {A} (req : ServiceRequest) (msg : string) : m A :=
  counter_RecordFailure req ;;! refuse ErrUnauthorized msg.

Definition matched_credential (req : ServiceRequest) (credID : bytes) : m WebAuthnCredential :=
  let! creds := attempt (on_store (E := error) (GetWebAuthnCredential (sr_ClientID req) (sr_Context req))) in
  match creds with
  | inr _ | inl [] => failed_attempt req "no credentials registered"
  | inl l =>
      match find_credential credID l with
      | None => failed_attempt req "credential not found"
      | Some c => ret c
      end
  end.

(** The salt of the session key: the decoded nonce, or its bytes. *)
Definition session_salt (nonce : string) : bytes := default (go_bytes nonce) (URLDecodeString nonce).

Definition session_info (clientEpub serverEpub : bytes) (task : string) : bytes :=
  go_bytes "r2ps-2fa_authentication-fido2" ++
  Sum256 (go_bytes TFAModeFIDO2 ++ clientEpub ++ serverEpub ++ go_bytes task).

(** The server's ephemeral key, encoded, and the session key it agrees on. *)
Definition agree_session_key (req : ServiceRequest) (task clientEpub64 : string) : m (bytes * bytes) :=
  let! clientEpubBytes := decode_field clientEpub64 "invalid client_epub encoding" in
  let! clientEpub := or_refuse ErrIllegalRequestData "invalid client ephemeral key"
                       (lift (UnmarshalPublicKey P256 clientEpubBytes)) in
  let! draw := Draw in
  let! serverEprv := lift (of_option (mkR2PSError ErrServerError "generate ephemeral key failed")
                             (EcdsaGenerateKey draw P256)) in
  let! serverEpubBytes := lift (MarshalUncompressedPublicKey (priv_PublicKey serverEprv)) in
  let! ikm := or_refuse ErrServerError "ECDH failed" (lift (ECDHSharedSecret serverEprv clientEpub)) in
  let! sessionKey := lift (of_option (mkR2PSError ErrServerError "key derivation failed")
    (Hkdf ikm (session_salt (sr_Nonce req)) (session_info clientEpubBytes serverEpubBytes task) 32)) in
  ret (serverEpubBytes, sessionKey).

(** Verify the assertion of a finalize request under the stored credential,
    and move the stored counter on. *)
Definition check_assertion (f : fido2Handler) (req : ServiceRequest) (challenge : string)
    (a : AssertionData) : m unit :=
  let! c := matched_credential req (as_CredentialID a) in
  let! pubKey := or_refuse ErrServerError "invalid stored public key"
                   (lift (UnmarshalPublicKey P256 (wc_PublicKey c))) in
  let credential := mkCredential (wc_CredentialID c) pubKey (wc_SignCount c) (wc_AAGUID c) (wc_CreatedAt c) in
  let! r := attempt (lift (VerifyAssertion a credential challenge (f_rpID f) (f_allowedOrigins f))) in
  match r with
  | inr e =>
      counter_RecordFailure req ;;!
      Inc "fido2_auth_total" "failure" ;;!
      refuse ErrUnauthorized ("assertion verification failed: " +:+ Error e)
  | inl authData =>
      let! _ := attempt (on_store (E := error)
                  (UpdateWebAuthnSignCount (sr_ClientID req) (sr_Context req) (as_CredentialID a)
                     (ad_SignCount authData))) in
      ret tt
  end.

(** The session of an accepted assertion, verified from the start. *)
Definition open_fido2_session (d : Dispatcher St H) (req : ServiceRequest) (task : string)
    (serverEpubBytes sessionKey : bytes) : m bytes :=
  let! idBytes := RandomBytes 32 in
  let sessionID := encodeBase64 idBytes in
  let! now := Now in
  let expiresAt := TimeAdd now (d_sessionTTL d) in
  sessions_Create (mkSession sessionID (sr_ClientID req) (sr_Context req) sessionKey []
                     expiresAt true task) ;;!
  counter_RecordSuccess req ;;!
  Inc "fido2_auth_total" "success" ;;!
  ActiveSessions_Inc ;;!
  signResponse d req
    (Marshal_fido2AuthFinalizeResponse (encodeBase64 serverEpubBytes) sessionID task (Unix expiresAt)).

Definition fido2AuthFinalize (d : Dispatcher St H) (f : fido2Handler) (req : ServiceRequest)
    (tfaReq : TFARequestData) : m bytes :=
  let! finalReq := parse_pdata Unmarshal_fido2AuthFinalizeRequest (GetPData tfaReq)
                     "invalid finalize request" "malformed finalize data" in
  let! tokenBytes := decode_field (fr_Token finalReq) "invalid token encoding" in
  let! token := open_token f req tokenBytes in
  let assertion := fr_Assertion finalReq in
  let! credID := decode_field (af_CredentialID assertion) "invalid credential_id encoding" in
  let! authDataBytes := decode_field (af_AuthenticatorData assertion) "invalid authenticator_data encoding" in
  let! clientDataJSON := decode_field (af_ClientData assertion) "invalid client_data encoding" in
  let! signature := decode_field (af_Signature assertion) "invalid signature encoding" in
  check_assertion f req (ct_Challenge token)
    (mkAssertionData credID authDataBytes clientDataJSON signature) ;;!
  let! (serverEpubBytes, sessionKey) := agree_session_key req (fr_Task finalReq) (fr_ClientEpub finalReq) in
  open_fido2_session d req (fr_Task finalReq) serverEpubBytes sessionKey.

Definition handleFIDO2 (d : Dispatcher St H) (req : ServiceRequest) (tfaReq : TFARequestData) : m bytes :=
  match d_fido2 d with
  | None => refuse ErrIllegalRequestData "fido2 not configured"
  | Some f =>
      let t := sr_Type req in
      let st := tfa_State tfaReq in
      let is_auth := bool_decide (t = Type2FAAuthenticate) || bool_decide (t = TypeCreateSession) in
      if bool_decide (t = Type2FARegistration) && bool_decide (st = StateChallenge)
      then fido2RegChallenge d f req
      else if bool_decide (t = Type2FARegistration) && bool_decide (st = StateRegister)
      then fido2RegRegister d f req tfaReq
      else if is_auth && bool_decide (st = StateChallenge) then fido2AuthChallenge d f req
      else if is_auth && bool_decide (st = StateFinalize) then fido2AuthFinalize d f req tfaReq
      else refuse ErrIllegalState "invalid fido2 type/state combination"
  end.
End Fido2.
