(* ===== verification/Dispatcher.v ===== *)
(** * [internal/service/dispatcher.go]: processing a request

    [Process] and the flows it routes to: OPAQUE registration and
    authentication, credential change, and the service handlers. *)

From S2P Require Import Prelude GoTime GoStrings GoJson Protocol Counter Sessions Store Sad Ecc External World Handlers Jws Opaque Token Service Fido2.
Local Open Scope Z_scope.

Section Dispatcher.
Context {St H : Type} `{Env, Store St, GoCrypto, Jose, OpaqueLib, HkdfLib}.
Local Abbreviation W := (World St H).
Local Abbreviation m := (M W R2PSError).

(** ** OPAQUE *)

Definition regEvaluate (d : Dispatcher St H) (req : ServiceRequest) (reqData : bytes) : m bytes :=
  let! respBytes := or_refuse ErrServerError "registration evaluate failed"
    (lift (RegistrationResponse (d_opaque d) reqData (credID (sr_Context req) (sr_ClientID req)))) in
  let encoded := URLEncodeToString respBytes in
  signResponse d req (Marshal_TFAResponseData (mkTFAResponseData encoded encoded "")).

Definition regFinalize (d : Dispatcher St H) (req : ServiceRequest) (reqData : bytes) : m bytes :=
  let! record := or_refuse ErrIllegalRequestData "invalid registration record"
    (lift (DeserializeRegistrationRecord (d_opaque d) reqData)) in
  let clientRecord := mkClientRecord record (credID (sr_Context req) (sr_ClientID req)) None in
  or_refuse ErrServerError "store record failed"
    (rs_PutRecord (d_records d) (sr_ClientID req) (sr_Context req) clientRecord) ;;!
  signResponse d req (Marshal_TFAResponseData (mkTFAResponseData "" "" "success")).

(** The client's record, or a fake one for an unknown client. *)
Definition record_or_fake (d : Dispatcher St H) (req : ServiceRequest) : m (option ClientRecord) :=
  let! r := attempt (rs_GetRecord (d_records d) (sr_ClientID req) (sr_Context req)) in
  match r with
  | inl record => ret (Some record)
  | inr _ =>
      let! draw := Draw in
      let! draw' := Draw in
      ret (FakeRecord draw draw' (credID (sr_Context req) (sr_ClientID req)))
  end.

(** The lifetime of a session: the requested one when it is shorter. *)
Definition session_ttl (d : Dispatcher St H) (tfaReq : TFARequestData) : Z :=
  let ttl := d_sessionTTL d in
  if 0 <? tfa_SessionDuration tfaReq then
    let requested := wrap64 (tfa_SessionDuration tfaReq * Second) in
    if requested <? ttl then requested else ttl
  else ttl.

Definition authEvaluate (d : Dispatcher St H) (req : ServiceRequest) (tfaReq : TFARequestData)
    (reqData : bytes) : m bytes :=
  counter_Check req ;;!
  let! record := record_or_fake d req in
  let! draw := Draw in
  let! (ke2Bytes, clientMAC, sessionSecret) := or_refuse ErrServerError "auth evaluate failed"
    (lift (AuthEvaluate draw (d_opaque d) reqData record)) in
  let! idBytes := RandomBytes 32 in
  let sessionID := URLEncodeToString idBytes in
  let! now := Now in
  sessions_Create (mkSession sessionID (sr_ClientID req) (sr_Context req) sessionSecret clientMAC
                     (TimeAdd now (session_ttl d tfaReq)) false "") ;;!
  let ke2Encoded := URLEncodeToString ke2Bytes in
  signResponse d req
    (Marshal_TFAAuthResponseData (mkTFAAuthResponseData sessionID sessionID ke2Encoded ke2Encoded "" 0 "")).

Definition authFinalize (d : Dispatcher St H) (req : ServiceRequest) (reqData : bytes) : m bytes :=
  let! sess := sessions_Get (sr_TFASessionID req) in
  match sess with
  | None => refuse ErrIllegalState "session not found or expired"
  | Some sess =>
      match AuthFinalize (d_opaque d) reqData (s_ClientMAC sess) with
      | Panic p => lift (Panic p)
      | Err _ =>
          counter_RecordFailure req ;;!
          sessions_Delete (sr_TFASessionID req) ;;!
          Inc "pake_auth_total" "failure" ;;!
          refuse ErrUnauthorized "authentication failed"
      | Ok _ =>
          counter_RecordSuccess req ;;!
          sessions_MarkVerified (sr_TFASessionID req) ;;!
          Inc "pake_auth_total" "success" ;;!
          ActiveSessions_Inc ;;!
          signResponse d req
            (Marshal_TFAAuthResponseData
               (mkTFAAuthResponseData (sr_TFASessionID req) (sr_TFASessionID req) "" ""
                  "authenticated" (Unix (s_ExpiresAt sess)) ""))
      end
  end.

Definition handle2FA (d : Dispatcher St H) (req : ServiceRequest) : m bytes :=
  match Unmarshal_TFARequestData (sr_Data req) with
  | None => refuse ErrIllegalRequestData "malformed 2FA data"
  | Some tfaReq =>
      let protocol := GetProtocol tfaReq in
      if bool_decide (protocol = TFAModeFIDO2) then handleFIDO2 d req tfaReq
      else if negb (bool_decide (protocol = TFAModeOPAQUE))
      then refuse ErrIllegalRequestData ("unsupported protocol: " +:+ protocol)
      else
        let! reqData := decode_field (GetPData tfaReq) "invalid request encoding" in
        let t := sr_Type req in
        let evaluate := bool_decide (tfa_State tfaReq = StateEvaluate) in
        let finalize := bool_decide (tfa_State tfaReq = StateFinalize) in
        let is_auth := bool_decide (t = Type2FAAuthenticate) || bool_decide (t = TypeCreateSession) in
        if bool_decide (t = Type2FARegistration) && evaluate then regEvaluate d req reqData
        else if bool_decide (t = Type2FARegistration) && finalize then regFinalize d req reqData
        else if is_change t && evaluate then regEvaluate d req reqData
        else if is_change t && finalize then regFinalize d req reqData
        else if is_auth && evaluate then authEvaluate d req tfaReq reqData
        else if is_auth && finalize then authFinalize d req reqData
        else refuse ErrIllegalState "invalid type/state combination"
  end.

(** ** Requests that need a session *)

(** The verified session of the request's context. *)
Definition verified_session (req : ServiceRequest) : m Session :=
  let! sess := sessions_Get (sr_TFASessionID req) in
  match sess with
  | None => refuse ErrUnauthorized "session not found or expired"
  | Some sess =>
      if negb (s_Verified sess) then refuse ErrUnauthorized "session not verified"
      else if negb (bool_decide (s_Context sess = sr_Context req))
      then refuse ErrAccessDenied "session context mismatch"
      else ret sess
  end.

Definition handle2FAChange (d : Dispatcher St H) (req : ServiceRequest) : m bytes :=
  verified_session req ;;! handle2FA d req.

(** Signature activation: the hash must be one the session's task allows. *)
Definition check_sad (req : ServiceRequest) (sess : Session) : m unit :=
  if bool_decide (sr_Type req = TypeSignECDSA) && negb (bool_decide (s_Task sess = "")) then
    match Unmarshal_ECDSASignRequest (sr_Data req) with
    | None => ret tt
    | Some signReq =>
        match URLDecodeString (es_TbsHash signReq) with
        | None => ret tt
        | Some hashBytes =>
            with_err (fun e => mkR2PSError ErrAccessDenied (Error e))
              (lift (ValidateSAD (s_Task sess) hashBytes))
        end
    end
  else ret tt.

(** JSON data are answered as they are, other bytes as a base64 string. *)
Definition response_data (respData : bytes) : bytes :=
  if json_Valid respData then respData else enc_string (URLEncodeToString respData).

Definition handleService (d : Dispatcher St H) (req : ServiceRequest) : m bytes :=
  match d_handlers d !! sr_Type req with
  | None => refuse ErrUnsupportedType "unknown service type"
  | Some handler =>
      (if negb (bool_decide (h_Mode handler = Mode1FA)) then
         let! sess := verified_session req in check_sad req sess
       else ret tt) ;;!
      let! respData := or_refuse ErrServerError (sr_Type req +:+ " failed")
                         (h_Handle handler (sr_ClientID req) (sr_Data req)) in
      respond d req (Some (response_data respData))
  end.

(** ** [Process] *)

(** The key to verify the request with: the client's when its [kid] is
    known, else the server's own. *)
Definition verification_key (d : Dispatcher St H) (body : bytes) : m PublicKey :=
  let serverPub := priv_PublicKey (d_serverKey d) in
  match d_clientKeys d with
  | None => ret serverPub
  | Some lookup =>
      let! headers := or_refuse ErrIllegalRequestData "invalid JWS header"
                        (lift (PeekJWSHeaders (go_string body))) in
      match headers.1 with
      | Some kid =>
          if negb (bool_decide (kid = "")) then
            match lookup kid with
            | Ok pk => ret pk
            | Err _ => ret serverPub
            | Panic p => lift (Panic p)
            end
          else ret serverPub
      | None => ret serverPub
      end
  end.

(** The checks on the request's envelope. *)
Definition nonce_ok (nonce : string) : bool :=
  match URLDecodeString nonce with Some b => (16 <=? length b)%nat | None => false end.

Definition iat_ok (d : Dispatcher St H) (now : Time) (iat : Z) : bool :=
  negb (d_iatMaxSkew d <? Abs (TimeSub now (UnixTime iat))).

Definition accept_request (d : Dispatcher St H) (body : bytes) : m ServiceRequest :=
  let! pubKey := verification_key d body in
  let! payload := or_refuse ErrIllegalRequestData "invalid JWS" (lift (VerifyJWS (go_string body) pubKey)) in
  let! req := lift (of_option (mkR2PSError ErrIllegalRequestData "malformed request")
                      (Unmarshal_ServiceRequest payload)) in
  if negb (bool_decide (sr_Ver req = ProtocolVersion))
  then refuse ErrIllegalRequestData "unsupported version"
  else if negb (nonce_ok (sr_Nonce req))
  then refuse ErrIllegalRequestData "nonce must be at least 16 bytes"
  else
    let! now := Now in
    if negb (iat_ok d now (sr_Iat req))
    then refuse ErrIllegalRequestData "iat outside acceptable range"
    else ret req.

Definition route (d : Dispatcher St H) (req : ServiceRequest) : m bytes :=
  let t := sr_Type req in
  if bool_decide (t = Type2FARegistration) then handle2FA d req
  else if bool_decide (t = Type2FAAuthenticate) || bool_decide (t = TypeCreateSession)
  then handle2FA d req
  else if is_change t then handle2FAChange d req
  else handleService d req.

Definition Process (d : Dispatcher St H) (body : bytes) : m bytes :=
  let! req := accept_request d body in route d req.
End Dispatcher.
