(* ===== verification/X5C.v ===== *)
(** * The certificate chain of attestations ([LoadX5CChain] of
      [internal/service/eudiw_handlers.go])

    A PEM file is decoded block by block; its certificates, in order, are
    the chain.  Reading files and decoding one PEM block are operations of
    [Files]; the loop over the blocks is run on fuel, the length of the file,
    which is enough because decoding a block consumes input. *)

From S2P Require Import Prelude GoStrings.

(** [os.ReadFile], and [pem.Decode]: the type and the bytes of the first
    block with the rest of the input, [None] when there is no block. *)
Record Files := mkFiles {
  ReadFile : string -> option bytes;
  pem_Decode : bytes -> option (string * bytes * bytes)
}.

(** What [encoding/pem] documents of the rest: the input after the block. *)
Definition Files_ok (fs : Files) : Prop :=
  forall data typ der rest, pem_Decode fs data = Some (typ, der, rest) -> length rest < length data.

Definition file_err : error := PkgError "os".

Section Chain.
Context (fs : Files).

Fixpoint pem_loop (fuel : nat) (chain : list bytes) (rest : bytes) : list bytes :=
  match fuel with
  | O => chain
  | S n =>
      match pem_Decode fs rest with
      | None => chain
      | Some (typ, der, rest) =>
          pem_loop n (if bool_decide (typ = "CERTIFICATE") then chain ++ [der] else chain) rest
      end
  end.

Definition LoadX5CChain (path : string) : outcome error (list bytes) :=
  if bool_decide (path = "") then Ok []
  else
    let? data := of_option (Wrapf "read x5c file" file_err) (ReadFile fs path) in
    match pem_loop (S (length data)) [] data with
    | [] => Err (Errorf ("no certificates found in PEM file " +:+ path))
    | chain => Ok chain
    end.

(** ** The blocks of a file *)

Inductive blocks : bytes -> list (string * bytes) -> Prop :=
| blocks_end data : pem_Decode fs data = None -> blocks data []
| blocks_next data typ der rest bs :
    pem_Decode fs data = Some (typ, der, rest) -> blocks rest bs -> blocks data ((typ, der) :: bs).

Definition certificates (bs : list (string * bytes)) : list bytes :=
  (filter (fun b => b.1 = "CERTIFICATE") bs).*2.

Lemma blocks_det data bs bs' : blocks data bs -> blocks data bs' -> bs = bs'.
Proof.
  intros Hb. revert bs'. induction Hb as [data Hn|data typ der rest bs Hd _ IH]; intros bs' Hb';
    inversion Hb'; subst; [done|congruence|congruence|]. f_equal; [congruence|]. apply IH. congruence.
Qed.

Lemma blocks_total data : Files_ok fs -> exists bs, blocks data bs.
Proof.
  intros Hfs. induction data as [data IH] using (well_founded_induction (well_founded_ltof _ length)).
  destruct (pem_Decode fs data) as [[[typ der] rest]|] eqn:Hd; [|exists []; by constructor].
  destruct (IH rest) as [bs Hb]; [exact (Hfs _ _ _ _ Hd)|]. exists ((typ, der) :: bs). by econstructor.
Qed.

(** Fuel beyond the length of the input makes no difference. *)
Lemma pem_loop_blocks fuel chain data bs :
  Files_ok fs -> length data < fuel -> blocks data bs ->
  pem_loop fuel chain data = chain ++ certificates bs.
Proof.
  intros Hfs Hl Hb. revert fuel chain Hl.
  induction Hb as [data Hn|data typ der rest bs Hd Hb IH]; intros [|n] chain Hl; [lia| |lia|]; simpl.
  - by rewrite Hn, app_nil_r.
  - rewrite Hd. pose proof (Hfs _ _ _ _ Hd). rewrite IH by lia.
    unfold certificates. rewrite filter_cons. simpl. case_bool_decide; case_decide; try done.
    by rewrite <-app_assoc.
Qed.

(** The chain is the certificates of the file, in order; a file that cannot
    be read or has none is an error. *)
Lemma LoadX5CChain_spec path data bs :
  Files_ok fs -> path <> "" -> ReadFile fs path = Some data -> blocks data bs ->
  LoadX5CChain path =
    match certificates bs with
    | [] => Err (Errorf ("no certificates found in PEM file " +:+ path))
    | chain => Ok chain
    end.
Proof.
  intros Hfs Hp Hr Hb. unfold LoadX5CChain. rewrite bool_decide_false, Hr by done. cbn [of_option obind].
  by rewrite (pem_loop_blocks (S (length data)) [] data bs) by (done || lia).
Qed.

Lemma LoadX5CChain_no_panic path : is_panic (LoadX5CChain path) = false.
Proof.
  unfold LoadX5CChain. case_bool_decide; [done|]. destruct (ReadFile fs path); [|done].
  cbn [of_option obind]. by case_match.
Qed.
End Chain.

(** A file system without files. *)
Definition no_files : Files := mkFiles (fun _ => None) (fun _ => None).

(** Blocks of one byte each: 1 is a certificate, 2 a key. *)
Definition toy_files : Files := mkFiles
  (fun path => if bool_decide (path = "chain.pem") then Some [x01; x02; x01] else None)
  (fun data =>
     match data with
     | x01 :: rest => Some ("CERTIFICATE", [x30], rest)
     | x02 :: rest => Some ("EC PRIVATE KEY", [x31], rest)
     | _ => None
     end).

Lemma toy_files_ok : Files_ok toy_files.
Proof.
  intros data typ der rest. simpl. destruct data as [|b l]; [done|].
  destruct b; try done; intros [= _ _ ->]; simpl; lia.
Qed.

Example LoadX5CChain_ex :
  LoadX5CChain toy_files "chain.pem" = Ok [[x30]; [x30]] /\
  LoadX5CChain toy_files "other.pem" = Err (Wrapf "read x5c file" file_err) /\
  LoadX5CChain toy_files "" = Ok [].
Proof. split_and!; reflexivity. Qed.
