(* ===== verification/Server.v ===== *)
(** * [cmd/server/main.go]: the HTTP server

    The protocol endpoint, its error mapping and panic recovery, and how
    [main] wires the roles, the handlers and the dispatcher together. *)

From S2P Require Import Prelude GoTime GoStrings GoJson Protocol Counter Sessions Store Sad Ecc External World Handlers Jws Attest Http StatusList Modes Durations Startup X5C Opaque Token Service Fido2 Dispatcher.
Local Open Scope Z_scope.

Definition writeError (status : Z) (code msg : string) : HttpResponse :=
  json_response status (Marshal_ErrorResponse (mkErrorResponse code msg)).

Definition mapErrorStatus (code : string) : Z :=
  if bool_decide (code = ErrUnauthorized) then StatusUnauthorized
  else if bool_decide (code = ErrAccessDenied) then StatusForbidden
  else if bool_decide (code = ErrUnsupportedType) then StatusUnsupportedMediaType
  else if bool_decide (code = ErrIllegalRequestData) then StatusBadRequest
  else if bool_decide (code = ErrIllegalState) then StatusConflict
  else if bool_decide (code = ErrTryLater) then StatusServiceUnavailable
  else StatusInternalServerError.

Definition panic_markers : list string :=
  ["internal/hsm."; "internal/pake."; "sync.(*Pool)"; "runtime.fatal"].

Definition isInfrastructurePanic (stack : string) : bool := existsb (Contains stack) panic_markers.

(** [json_response] without the final newline: a literal body *)
Definition literal (status : Z) (body : bytes) : HttpResponse :=
  mkResponse status [("Content-Type", "application/json")] body.

Definition handleHealthz : HttpResponse := literal StatusOK (jtext "{'status':'ok'}").

Definition body_limit : nat := Z.to_nat (2 ^ 20).

(** ** Logging *)

Inductive Level := LevelDebug | LevelInfo | LevelWarn | LevelError.

(** [strings.ToUpper], on the runes whose upper case is an ASCII letter. *)
Fixpoint upper_runes (fuel : nat) (l : bytes) : bytes :=
  match fuel, l with
  | O, _ | _, [] => []
  | S f, b :: l' =>
      match strip_prefix [xc4; xb1] l with
      | Some r => x49 :: upper_runes f r
      | None =>
          match strip_prefix [xc5; xbf] l with
          | Some r => x53 :: upper_runes f r
          | None => (if byte_in 97 122 b then z2b (b2z b - 32) else b) :: upper_runes f l'
          end
      end
  end.
Definition ToUpper (s : string) : string := go_string (upper_runes (String.length s) (go_bytes s)).

(** [initLogging]: the level, and whether the output is JSON. *)
Definition initLogging (getenv : string -> string) : Level * bool :=
  let v := ToUpper (getenv "R2PS_LOG_LEVEL") in
  let level :=
    if bool_decide (v = "DEBUG") then LevelDebug
    else if bool_decide (v = "INFO") then LevelInfo
    else if bool_decide (v = "WARN") || bool_decide (v = "WARNING") then LevelWarn
    else if bool_decide (v = "ERROR") then LevelError
    else LevelWarn in
  (level, bool_decide (fold_name (go_bytes (getenv "R2PS_LOG_FORMAT")) = go_bytes "JSON")).

(** ** Handlers *)

Section Server.
Context {St H : Type} `{Env, Store St, Backend H, GoCrypto, Jose, OpaqueLib, HkdfLib}.
Local Abbreviation W := (World St H).
Local Abbreviation m := (M W error).

(** The HSM probe of the readiness endpoint. *)
Definition readyzHandler : m HttpResponse :=
  let! r := attempt (on_hsm (E := error) (ListKeys [])) in
  match r with
  | inr _ => ret (literal StatusServiceUnavailable (jtext "{'status':'not ready','reason':'hsm'}"))
  | inl _ => ret (literal StatusOK (jtext "{'status':'ready'}"))
  end.

(** The context's deadline is not modelled: an HSM call that misses it is one
    that fails.  Every error of [Process] is an [R2PSError]. *)
Definition r2psHandler (d : Dispatcher St H) (r : HttpRequest) : m HttpResponse :=
  Inc "requests_total" "received" ;;!
  let! _ := Now in
  match rq_Body r with
  | None =>
      Inc "requests_total" "error" ;;!
      ret (writeError StatusBadRequest ErrIllegalRequestData "read body failed")
  | Some body =>
      let! resp := attempt (Process d (take body_limit body)) in
      let! _ := Now in
      match resp with
      | inr e =>
          Inc "requests_total" "error" ;;!
          Inc "request_duration_seconds" "" ;;!
          ret (writeError (mapErrorStatus (Code e)) (Code e) (Msg e))
      | inl b =>
          Inc "requests_total" "success" ;;!
          Inc "request_duration_seconds" "" ;;!
          ret (mkResponse StatusOK [("Content-Type", "application/jose")] b)
      end
  end.

(** A recovered panic: [stack] is the goroutine's stack for that panic. *)
Definition recoverMiddleware (stack : string -> string) (next : m HttpResponse) : m HttpResponse := fun w =>
  match next w with
  | (w', Panic p) =>
      if isInfrastructurePanic (stack p) then (w', Panic p)
      else (w', Ok (http_Error (go_string (jtext "{'error_code':'server_error','error_message':'internal error'}"))
                      StatusInternalServerError))
  | r => r
  end.

(** ** What [main] builds *)

(** The chain at the configured path; none is configured, or it cannot be
    loaded: no chain. *)
Definition load_chain (getenv : string -> string) (fs : Files) : list bytes :=
  let x5cPath := getenv "R2PS_WP_X5C_PATH" in
  if negb (bool_decide (x5cPath = ""))
  then match LoadX5CChain fs x5cPath with Ok chain => chain | _ => [] end
  else [].

Definition walletProviderConfig (getenv : string -> string) (fs : Files) (serverKey : PrivateKey) :
    WalletProviderConfig :=
  mkWalletProviderConfig serverKey (load_chain getenv fs)
    (envOr getenv "R2PS_WP_WALLET_LINK" "")
    (envOr getenv "R2PS_WP_WALLET_NAME" "SIROS EUDI Wallet")
    (envOr getenv "R2PS_WP_WALLET_VERSION" "0.1.0")
    (envOr getenv "R2PS_WP_CERT_INFO" "")
    (Some [envOr getenv "R2PS_WP_KEY_STORAGE_LEVEL" "iso_18045_high"])
    (Some [envOr getenv "R2PS_WP_USER_AUTH_LEVEL" "iso_18045_high"])
    (envOr getenv "R2PS_WP_CERTIFICATION" "")
    (envOr getenv "R2PS_WP_STATUS_LIST_BASE" "https://wp.example.com/statuslists")
    (envDuration getenv "R2PS_WP_WKA_TTL" (24 * Hour))
    (envDuration getenv "R2PS_WP_WIA_TTL" (12 * Hour))
    (envDuration getenv "R2PS_WP_STATUS_MAINT" (31 * 24 * Hour))
    true.

(** The handlers of the active roles. *)
Definition role_handlers (roles : RoleSet) (wp : WalletProviderConfig) : list (Handler St H) :=
  (if Has roles RoleWSCD then [ECDSAHandler; ECKeygenHandler true; ECDHHandler; ListKeysHandler] else [])
  ++ (if Has roles RoleWSCA then [WKAHandler wp; WIAHandler wp; WIRevokeHandler wp; WISuspendHandler wp] else []).

Definition main_config (getenv : string -> string) (roles : RoleSet) (fs : Files)
    (serverKey : PrivateKey) (opaqueServer : OPAQUEServer) : DispatcherConfig St H :=
  mkDispatcherConfig serverKey None (Some opaqueServer) NewStoreRecordStore None
    (role_handlers roles (walletProviderConfig getenv fs serverKey))
    (envInt getenv "R2PS_MAX_ATTEMPTS" 5)
    (envDuration getenv "R2PS_LOCKOUT_DURATION" (15 * Minute))
    (envDuration getenv "R2PS_SESSION_TTL" (5 * Minute))
    0 None.

(** The server of a process: its dispatcher, roles and status list. *)
Record Server := mkServer {
  sv_dispatcher : Dispatcher St H;
  sv_roles : RoleSet;
  sv_statuslist : StatusList.Config
}.

(** [main] up to the mux; [Err] is an exit with status 1.  [connect] is
    [NewPKCS11Backend] and [open_store] [NewMongoDBStore] or the in-memory
    store; the server's key and the OPAQUE material are made of the three
    draws.  Besides the server: the HSM, the store and the counter its state
    starts from. *)
Definition main (getenv : string -> string) (connect : PKCS11Config -> outcome error H)
    (open_store : option MongoDBConfig -> outcome error St) (fs : Files)
    (keyDraw opaqueDraw seedDraw : nat) :
    outcome error (Server * option H * St * AttemptCounter) :=
  let? roles := ParseRoles (envOr getenv "R2PS_MODE" "all") in
  let? serverKey := icrypto.GenerateECKey keyDraw P256 in
  let? opaqueKey := GenerateServerKeyMaterial opaqueDraw seedDraw in
  let? hsm :=
    if Has roles RoleWSCD
    then let? cfg := hsm_config getenv in let? h := connect cfg in Ok (Some h)
    else Ok None in
  let? lifecycleStore := open_store (store_config getenv) in
  let? opaqueServer := NewOPAQUEServer (Some opaqueKey) in
  let? built := NewDispatcher (main_config getenv roles fs serverKey opaqueServer) in
  let wp := walletProviderConfig getenv fs serverKey in
  Ok (mkServer built.1 roles
        (StatusList.mkConfig serverKey (wp_X5CChain wp) (wp_StatusListBaseURI wp) 0),
      hsm, lifecycleStore, built.2).

(** The mux, on clean paths; [metrics] stands for the Prometheus handler. *)
Definition is_get (method : string) : bool := bool_decide (method = "GET" \/ method = "HEAD").

Definition mux (deflate : bytes -> bytes) (metrics : m HttpResponse) (s : Server) (r : HttpRequest) :
    m HttpResponse :=
  let p := rq_Path r in
  let get (h : m HttpResponse) :=
    if is_get (rq_Method r) then h else ret (http_Error "Method Not Allowed" StatusMethodNotAllowed) in
  if bool_decide (p = "/healthz") || bool_decide (p = "/health") then get (ret handleHealthz)
  else if bool_decide (p = "/readyz") then
    get (if Has (sv_roles s) RoleWSCD then readyzHandler else ret handleHealthz)
  else if bool_decide (p = "/metrics") then get metrics
  else if bool_decide (p = "/r2ps") then
    if bool_decide (rq_Method r = "POST") then r2psHandler (sv_dispatcher s) r
    else ret (http_Error "Method Not Allowed" StatusMethodNotAllowed)
  else if HasPrefix p "/statuslists/" && Has (sv_roles s) RoleWSCA then
    get (StatusList.ServeHTTP deflate (sv_statuslist s) r)
  else ret (http_Error "404 page not found" StatusNotFound).

Definition serve (deflate : bytes -> bytes) (metrics : m HttpResponse) (stack : string -> string)
    (s : Server) (r : HttpRequest) : m HttpResponse :=
  recoverMiddleware stack (mux deflate metrics s r).
End Server.
