(* ===== verification/Toy.v ===== *)
(** * A small deployment for the witnesses

    Concrete, executable instances of every class: a JOSE library whose
    tokens are their payloads, an OPAQUE library whose messages are byte
    strings and whose client proof is the record itself, a clock, an HSM and
    an in-memory store; and the dispatcher wired on them.  They show that the
    hypotheses of the theorems can hold and let whole flows be evaluated. *)

From S2P Require Import Prelude GoTime GoStrings GoJson Protocol Counter Sessions Store Ecc External World Handlers Jws Opaque Webauthn Token Service Fido2 Dispatcher.
Local Open Scope Z_scope.

#[export] Instance toy_env : Env := ticking 1700000000.
#[export] Existing Instance toy_hsm.
#[export] Existing Instance accepting.

#[export] Instance toy_jose : Jose := {|
  JWS := bytes;
  ParseSigned := fun s _ => Some (go_bytes s);
  JWS_Signatures := fun _ => [mkJWSHeader "" None];
  JWS_Verify := fun jws _ => Some jws;
  NewSigner := fun _ _ _ => true;
  JWS_Sign := fun _ _ _ _ payload => Some (go_string payload)
|}.

Lemma toy_jose_ok : jose_ok.
Proof.
  intros draw alg key sopts payload compact [= <-]. eexists. split; [reflexivity|].
  simpl. by rewrite go_bytes_string.
Qed.

#[export] Instance toy_opaque : OpaqueLib := {|
  RegistrationRequest := bytes;
  RegistrationRecord := bytes;
  KE1 := bytes;
  KE3 := bytes;
  ServerKeyMaterial := unit;
  OServer := unit;
  DeserRegistrationRequest := Some;
  DeserRegistrationRecord := Some;
  DeserKE1 := Some;
  DeserKE3 := Some;
  SerRegistrationRecord := id;
  OPrivateKey := unit;
  OKeyGen := fun _ => (tt, [x02]);
  GenerateOPRFSeed := fun _ => replicate 32 x00;
  KeyMaterial := fun _ _ _ => tt;
  OUnkeyed := unit;
  NewServer := Some tt;
  SetKeyMaterial := fun _ _ => Some tt;
  NewDeserializerServer := true;
  OpRegistrationResponse := fun _ r _ => Some r;
  GenerateKE2 := fun _ _ _ r => (fun r => (r.2, r.1, r.2)) <$> r;
  LoginFinish := fun _ ke3 mac => bool_decide (ke3 = mac);
  GetFakeRecord := fun _ _ => Some [xff; xfe]
|}.

#[export] Instance toy_hkdf : HkdfLib := {| Hkdf := fun ikm _ _ n => Some (replicate n x00) |}.

Definition toy_gcm : AEAD := {|
  NonceSize := 12;
  Seal := fun _ p => p ++ replicate 16 x00;
  Open := fun _ c => Some (take (length c - 16) c)
|}.

Lemma toy_gcm_ok : aead_ok toy_gcm.
Proof.
  intros nonce p _. cbn [Open Seal toy_gcm]. rewrite length_app, length_replicate. split; [|lia].
  rewrite Nat.add_sub. by rewrite take_app_length.
Qed.

Definition toy_key : PrivateKey := mkPrivateKey P256_G 1.

Definition toy_handlers : list (Handler MemoryStore nat) :=
  [ECDSAHandler; ECKeygenHandler true; ECDHHandler; ListKeysHandler].

Definition toy_fido2 : FIDO2Config :=
  mkFIDO2Config (mkTokenEncryptor toy_gcm (60 * Second)) "example.com" ["https://example.com"].

(** As [cmd/server/main.go] wires it; [f] adds the FIDO2 mode. *)
Definition toy_config (f : option FIDO2Config) : DispatcherConfig MemoryStore nat :=
  mkDispatcherConfig toy_key None (Some (mkOPAQUEServer tt)) NewStoreRecordStore None toy_handlers
    3 (15 * Minute) (5 * Minute) 0 f.

Definition toy_dispatcher (f : option FIDO2Config) : Dispatcher MemoryStore nat :=
  match NewDispatcher (toy_config f) with
  | Ok (d, _) => d
  | _ => mkDispatcher toy_key (mkOPAQUEServer tt) NewStoreRecordStore None ∅ 0 0 None
  end.

Definition toy_world : World MemoryStore nat :=
  mkWorld ∅ (NewAttemptCounter 3 (15 * Minute)) NewMemoryStore 0%nat 0 0 0 ∅ [].

(** A request of client [c] in context [x]. *)
Definition toy_request (c x t sid : string) (data : bytes) : ServiceRequest :=
  mkServiceRequest ProtocolVersion "AAAAAAAAAAAAAAAAAAAAAA==" 1700000000 (Some data) c x t sid "".

Definition body_of (r : ServiceRequest) : bytes := default [] (Marshal_ServiceRequest r).

Definition opaque_data (state : string) (pdata : bytes) : bytes :=
  Marshal_TFARequestData (mkTFARequestData "opaque" "" state (URLEncodeToString pdata) "" "" "" 0).

Definition toy_step (f : option FIDO2Config)
    (acc : World MemoryStore nat * list (outcome R2PSError bytes)) (r : ServiceRequest) :=
  let '(w, os) := acc in
  let '(w', o) := Process (toy_dispatcher f) (body_of r) w in (w', os ++ [o]).

(** The state after the requests [rs], and their answers. *)
Definition toy_run (f : option FIDO2Config) (rs : list ServiceRequest) (w : World MemoryStore nat) :
    World MemoryStore nat * list (outcome R2PSError bytes) :=
  fold_left (toy_step f) rs (w, []).

(** Register, open a session, finalise it, and sign with the HSM. *)
Definition toy_session_id : string := URLEncodeToString (rand 2 32).

Definition sign_data : bytes :=
  jtext ("{'kid':'key-1','tbs_hash':'" +:+ URLEncodeToString (replicate 32 x2a) +:+ "'}").

Definition toy_login : list ServiceRequest :=
  [ toy_request "alice" "wallet" Type2FARegistration "" (opaque_data StateFinalize [x01; x02]);
    toy_request "alice" "wallet" Type2FAAuthenticate "" (opaque_data StateEvaluate [x07]);
    toy_request "alice" "wallet" Type2FAAuthenticate toy_session_id (opaque_data StateFinalize [x01; x02]) ].

Definition toy_sign : ServiceRequest := toy_request "alice" "wallet" TypeSignECDSA toy_session_id sign_data.

Example toy_flow :
  map is_ok (toy_run None (toy_login ++ [toy_sign]) toy_world).2 = [true; true; true; true].
Proof. vm_compute. reflexivity. Qed.

(** Without the session the signing request is refused. *)
Example toy_no_session :
  (toy_run None [toy_sign] toy_world).2 =
    [Err (mkR2PSError ErrUnauthorized "session not found or expired")].
Proof. vm_compute. reflexivity. Qed.
