(* ===== verification/Responses.v ===== *)
(** * What [Process] accepts and what it answers

    The [iat] window, the envelope checks of an accepted request, the form of
    every successful response, and the absence of panics. *)

From S2P Require Import Prelude GoTime GoStrings GoJson Protocol Counter Sessions Store Sad Ecc External World Handlers Jws Opaque Webauthn Token Service Fido2 Dispatcher Toy.
Local Open Scope Z_scope.

(** ** The [iat] window *)

(** Nanoseconds since 1970, exactly. *)
Definition unix_ns (t : Time) : Z := t_ns t - unixToInternal * Second.

(** A present-day reading of the clock. *)
Definition sane_now (t : Time) : Prop := wf_time t /\ 0 <= unix_ns t < 2^62.

Lemma Abs_Sub_Unix now iat :
  sane_now now -> is_int64 iat ->
  Abs (TimeSub now (UnixTime iat)) = Z.min max_int64 (Z.abs (unix_ns now - iat * Second)).
Proof.
  intros [Hwf Hnow] Hi. unfold UnixTime.
  rewrite Sub_wall by (done || apply wrap64_range). rewrite Abs_clamp64.
  unfold unix_ns in *. unfold t_ns at 2. cbn [t_sec t_nsec].
  unfold is_int64, min_int64, max_int64 in *. unfold unixToInternal, Second in *.
  destruct (decide (iat + 62135596800 <= 2^63 - 1)) as [Hw|Hw].
  - rewrite wrap64_id by (unfold is_int64, min_int64, max_int64; lia). f_equal. lia.
  - assert (wrap64 (iat + 62135596800) = iat + 62135596800 - 2^64) as ->.
    { unfold wrap64. replace (iat + 62135596800 + 2^63) with
        ((iat + 62135596800 - 2^63) + 1 * 2^64) by lia.
      rewrite Z.mod_add by lia. rewrite Z.mod_small by lia. lia. }
    lia.
Qed.

Section Window.
Context {St H : Type} `{OpaqueLib}.

(** C26: the time check accepts a request exactly when its [iat] is within
    the allowed skew of the clock, for every 64-bit [iat], although the
    conversion of [iat] wraps and the subtraction saturates. *)
Theorem iat_ok_window (d : Dispatcher St H) now iat :
  sane_now now -> is_int64 iat -> 0 <= d_iatMaxSkew d < max_int64 ->
  iat_ok d now iat = true <-> Z.abs (unix_ns now - iat * Second) <= d_iatMaxSkew d.
Proof.
  intros Hn Hi Hs. unfold iat_ok. rewrite Abs_Sub_Unix by done.
  rewrite negb_true_iff, Z.ltb_ge. lia.
Qed.
End Window.

Lemma iat_ok_window_witness :
  iat_ok (toy_dispatcher None) (instant 1700000100 0) (2^63 - 1) = true <->
  Z.abs (unix_ns (instant 1700000100 0) - (2^63 - 1) * Second) <= d_iatMaxSkew (toy_dispatcher None).
Proof.
  apply iat_ok_window.
  - split; [split|]; vm_compute; repeat split; discriminate.
  - split; vm_compute; discriminate.
  - split; vm_compute; (discriminate || reflexivity).
Defined.

(** ** The envelope and the answer *)

Section Responses.
Context {St H : Type} `{Env, Store St, GoCrypto, Jose, OpaqueLib, HkdfLib}.
Local Abbreviation W := (World St H).
Context (d : Dispatcher St H).

(** A compact JWS of a successful response to [req], under the server's key. *)
Definition signed_response (req : ServiceRequest) (b : bytes) : Prop :=
  exists data now payload draw signed,
    Marshal_ServiceResponse
      (mkServiceResponse ProtocolVersion (sr_Nonce req) (Unix now) data (Some true)) = Some payload /\
    SignJWS draw payload (d_serverKey d) "" TypResponse = Ok signed /\
    b = go_bytes signed.

Lemma yields_respond req data : yields (signed_response req) (respond (St := St) (H := H) d req data).
Proof.
  intros w w' b Hb. unfold respond, or_refuse in Hb. inv_ok Hb. subst.
  destruct Hok0 as [_ Hm], Hok2 as [_ Hs]. unfold signed_response. eauto 10.
Qed.

Lemma yields_signResponse req data :
  yields (signed_response req) (signResponse (St := St) (H := H) d req data).
Proof. apply yields_respond. Qed.

Ltac answers := repeat lazymatch goal with
  | |- yields _ (signResponse _ _ _) => apply yields_signResponse
  | |- yields _ (respond _ _ _) => apply yields_respond
  | |- yields _ (refuse _ _) => apply yields_fail
  | |- yields _ (lift (Panic _)) => apply yields_lift; done
  | |- yields _ (failed_attempt _ _) => unfold failed_attempt
  | _ => yields_branch
  end.

Lemma yields_fido2 req tfa : yields (signed_response req) (handleFIDO2 d req tfa).
Proof.
  unfold handleFIDO2, fido2RegChallenge, fido2AuthChallenge, issue_challenge, fido2RegRegister,
    fido2AuthFinalize, open_fido2_session.
  answers.
Qed.

Lemma yields_handle2FA req : yields (signed_response req) (handle2FA d req).
Proof.
  unfold handle2FA, regEvaluate, regFinalize, authEvaluate, authFinalize. answers.
  all: apply yields_fido2.
Qed.

Lemma yields_route req : yields (signed_response req) (route d req).
Proof.
  unfold route, handle2FAChange, handleService. answers. all: apply yields_handle2FA.
Qed.

(** The key a request is verified with: the one its [kid] resolves to, or
    the server's own. *)
Definition selected_key (body : bytes) (pub : PublicKey) : Prop :=
  pub = priv_PublicKey (d_serverKey d) \/
  exists lookup kid typ, d_clientKeys d = Some lookup /\
    PeekJWSHeaders (go_string body) = Ok (Some kid, typ) /\ lookup kid = Ok pub.

Lemma verification_key_Ok body (w w' : W) pub :
  verification_key d body w = (w', Ok pub) ->
  w' = w /\ selected_key body pub /\
  (d_clientKeys d = None -> pub = priv_PublicKey (d_serverKey d)).
Proof.
  unfold verification_key, selected_key, or_refuse.
  destruct (d_clientKeys d) as [lookup|]; [|intros [= <- <-]; auto].
  intros Hr. inv_ok Hr. destruct Hok as [-> Hh]. destruct x0 as [k typ]. cbn [fst] in Hr.
  destruct k as [kid|]; [|injection Hr as <- <-; auto].
  destruct (negb _); [|injection Hr as <- <-; auto].
  destruct (lookup kid) as [pk|e|p] eqn:Hl; [| |done]; injection Hr as <- <-; [|auto].
  split; [done|]. split; [right; eauto 10|done].
Qed.

(** A request is accepted only when it verifies under the selected key, is
    of this version, carries a nonce of 16 bytes or more, and is timely. *)
Definition accepted (body : bytes) (now : Time) (req : ServiceRequest) : Prop :=
  exists pub payload n,
    selected_key body pub /\
    VerifyJWS (go_string body) pub = Ok payload /\
    Unmarshal_ServiceRequest payload = Some req /\
    sr_Ver req = ProtocolVersion /\
    URLDecodeString (sr_Nonce req) = Some n /\ (16 <= length n)%nat /\
    iat_ok d now (sr_Iat req) = true.

Lemma accept_request_Ok body (w w' : W) req :
  accept_request d body w = (w', Ok req) ->
  w' = (Now (E := R2PSError) w).1 /\ accepted body (clock (w_tick w)) req.
Proof.
  unfold accept_request, or_refuse. intros Hr. inv_ok Hr.
  apply verification_key_Ok in Hok as (-> & Hsel & _). destruct Hok0 as [-> Hv], Hok1 as [-> Hu].
  destruct (bool_decide (sr_Ver x4 = _)) eqn:Hver; [|done]. apply bool_decide_eq_true in Hver.
  cbn [negb] in Hr. destruct (nonce_ok (sr_Nonce x4)) eqn:Hn; [|done]. cbn [negb] in Hr.
  inv_ok Hr. injection Hok as <- <-. destruct (iat_ok _ _ _) eqn:Hi; [|done]. cbn [negb] in Hr.
  injection Hr as <- <-. split; [done|]. unfold nonce_ok in Hn.
  destruct (URLDecodeString _) as [n|] eqn:Hd; [|done]. apply Nat.leb_le in Hn.
  unfold accepted. eauto 12.
Qed.

(** C6: a request is answered only if it was accepted: its signature
    verifies under the server's key or the client key its [kid] names, the
    version is the protocol's, the nonce decodes to at least 16 bytes and
    [iat] is within the window; and the answer is a signed response that
    carries the request's nonce. *)
Theorem Process_answers body (w w' : W) b :
  Process d body w = (w', Ok b) ->
  exists req, accepted body (clock (w_tick w)) req /\ signed_response req b.
Proof.
  unfold Process. intros Hp. inv_ok Hp. apply accept_request_Ok in Hok as [_ Ha].
  exists x0. split; [done|]. by eapply yields_route.
Qed.
End Responses.

Definition toy_reg : ServiceRequest :=
  toy_request "alice" "wallet" Type2FARegistration "" (opaque_data StateEvaluate [x01; x02]).

Definition toy_reg_answer : World MemoryStore nat * outcome R2PSError bytes :=
  Process (toy_dispatcher None) (body_of toy_reg) toy_world.

Definition answer_bytes (r : outcome R2PSError bytes) : bytes := match r with Ok b => b | _ => [] end.

Lemma Process_answers_witness :
  exists req, accepted (toy_dispatcher None) (body_of toy_reg) (clock 0) req /\
    signed_response (toy_dispatcher None) req (answer_bytes toy_reg_answer.2).
Proof.
  apply (Process_answers (toy_dispatcher None) (body_of toy_reg) toy_world toy_reg_answer.1).
  vm_compute. reflexivity.
Defined.

(** ** No panics *)

(** What the libraries and the deployment must provide. *)
Section NoPanic.
Context {St H : Type} `{Env, StoreLaws St, GoCrypto, Jose, OpaqueLib, HkdfLib}.
Local Abbreviation W := (World St H).
Context (d : Dispatcher St H).

Definition records_safe : Prop :=
  (forall c x, safe (rs_GetRecord (d_records d) c x)) /\
  (forall c x r, safe (rs_PutRecord (d_records d) c x r)).
Definition handlers_safe : Prop :=
  forall t h, d_handlers d !! t = Some h -> forall c data, safe (h_Handle h c data).
Definition keys_safe : Prop :=
  forall lookup kid, d_clientKeys d = Some lookup -> is_panic (lookup kid) = false.

Lemma safe_lift_refuse {A} code msg (o : outcome error A) :
  is_panic o = false -> safe (or_refuse (St := St) (H := H) code msg (lift o)).
Proof. intros Ho. by apply safe_with_err, safe_lift. Qed.

Lemma safe_respond req data : safe (respond (St := St) (H := H) d req data).
Proof.
  unfold respond. safe_auto. apply safe_lift_refuse, SignJWS_no_panic.
Qed.

Lemma safe_sessions_Get id : safe (sessions_Get (St := St) (H := H) id).
Proof. unfold sessions_Get. by intros w. Qed.

Lemma safe_counter_Check req : safe (counter_Check (St := St) (H := H) req).
Proof.
  unfold counter_Check. apply safe_bind; [by intros w|]. intros now.
  apply safe_with_err, safe_zoom. intros c. unfold Check. by repeat case_match.
Qed.

Lemma safe_counter_RecordFailure req : safe (counter_RecordFailure (St := St) (H := H) req).
Proof.
  unfold counter_RecordFailure. apply safe_bind; [by intros w|]. intros now. apply safe_bind; [|by intros _ w].
  apply safe_attempt, safe_zoom. intros c. unfold RecordFailure. by case_match.
Qed.

Lemma safe_counter_RecordSuccess req : safe (counter_RecordSuccess (St := St) (H := H) req).
Proof. by intros w. Qed.

Lemma safe_sessions_Create s : safe (sessions_Create (St := St) (H := H) s).
Proof. apply safe_with_err, safe_zoom. intros x. unfold Create. by case_match. Qed.

Lemma safe_sessions_MarkVerified id : safe (sessions_MarkVerified (St := St) (H := H) id).
Proof. apply safe_with_err, safe_zoom. intros x. unfold MarkVerified. by case_match. Qed.

Hint Resolve safe_respond safe_sessions_Get safe_counter_Check safe_counter_RecordFailure
  safe_counter_RecordSuccess safe_sessions_Create safe_sessions_MarkVerified : safe.

Hint Extern 1 (safe (or_refuse _ _ _)) => apply safe_with_err : safe.
Hint Extern 1 (safe (lift (map_err _ _))) => apply safe_lift; rewrite map_err_no_panic : safe.
Hint Extern 1 (safe (refuse _ _)) => apply safe_fail : safe.
Hint Extern 1 (safe (decode_field _ _)) => apply safe_lift, of_option_no_panic : safe.

Lemma safe_verified_session req : safe (verified_session (St := St) (H := H) req).
Proof. unfold verified_session. safe_auto. Qed.

Lemma safe_check_sad req s : safe (check_sad (St := St) (H := H) req s).
Proof.
  unfold check_sad. safe_auto. apply safe_with_err, safe_lift. unfold ValidateSAD.
  by repeat case_match.
Qed.

Lemma RegistrationResponse_no_panic s b c : is_panic (RegistrationResponse s b c) = false.
Proof. unfold RegistrationResponse. destruct (DeserRegistrationRequest b); [apply of_option_no_panic|done]. Qed.

Lemma AuthEvaluate_no_panic n s b r : is_panic (AuthEvaluate n s b r) = false.
Proof. unfold AuthEvaluate. destruct (DeserKE1 b); [apply of_option_no_panic|done]. Qed.

Lemma AuthFinalize_no_panic s b mac : is_panic (AuthFinalize s b mac) = false.
Proof. unfold AuthFinalize. destruct (DeserKE3 b); [apply guard_ok_no_panic|done]. Qed.

Hint Resolve RegistrationResponse_no_panic AuthEvaluate_no_panic AuthFinalize_no_panic
  SignJWS_no_panic safe_verified_session safe_check_sad : safe.

Lemma safe_handle2FA req : d_fido2 d = None -> records_safe -> safe (handle2FA d req).
Proof.
  intros Hf [Hg Hp]. unfold handle2FA, handleFIDO2, regEvaluate, regFinalize, authEvaluate, authFinalize,
    record_or_fake, signResponse. rewrite Hf. safe_auto.
  match goal with Hx : AuthFinalize _ ?b ?mac = Panic _ |- _ =>
    pose proof (AuthFinalize_no_panic (d_opaque d) b mac) as Hn; by rewrite Hx in Hn end.
Qed.

Lemma safe_route req :
  d_fido2 d = None -> records_safe -> handlers_safe -> safe (route d req).
Proof.
  intros Hf Hr Hh. pose proof (safe_handle2FA req Hf Hr).
  unfold route, handle2FAChange, handleService. safe_auto.
Qed.

Lemma safe_accept_request body : keys_safe -> safe (accept_request d body).
Proof.
  intros Hk. pose proof VerifyJWS_no_panic. pose proof PeekJWSHeaders_no_panic.
  unfold accept_request, verification_key. safe_auto.
  match goal with Hx : d_clientKeys d = Some ?l, Hy : ?l ?kid = Panic _ |- _ =>
      pose proof (Hk l kid Hx) as Hn; by rewrite Hy in Hn end.
Qed.

(** C7: with the OPAQUE mode only (as the server configures it), the
    dispatcher never panics, whatever bytes a request holds, if its handlers,
    its record store and its key store do not. *)
Theorem Process_no_panic body w :
  d_fido2 d = None -> records_safe -> handlers_safe -> keys_safe ->
  is_panic (Process d body w).2 = false.
Proof.
  intros Hf Hr Hh Hk. apply safe_bind; [by apply safe_accept_request|].
  intros req. by apply safe_route.
Qed.
End NoPanic.

(** The record store of the server, on a store that does not panic. *)
Lemma store_records_safe {St H} `{StoreSafe St, OpaqueLib} :
  (forall c x, safe (StoreGetRecord (H := H) c x)) /\
  (forall c x r, safe (StorePutRecord (H := H) c x r)).
Proof.
  split; intros.
  - unfold StoreGetRecord. safe_auto.
  - apply safe_on_store, PutRecord_safe.
Qed.

Lemma toy_hsm_handlers_safe : handlers_safe (toy_dispatcher None).
Proof.
  intros t h Ht c data. unfold toy_dispatcher in Ht. simpl in Ht. unfold handler_map in Ht. simpl in Ht.
  rewrite !lookup_insert_Some, lookup_empty in Ht.
  destruct Ht as [[_ <-]|[_ [[_ <-]|[_ [[_ <-]|[_ [[_ <-]|[_ Ht]]]]]]]]; [..|done];
    [apply safe_ListKeysHandle | apply safe_ECDHHandle | apply safe_ECKeygenHandle | apply safe_ECDSAHandle].
Qed.

Lemma Process_no_panic_witness :
  is_panic (Process (toy_dispatcher None) (go_bytes "not a JWS") toy_world).2 = false.
Proof.
  apply Process_no_panic; [reflexivity| | |].
  - apply store_records_safe.
  - apply toy_hsm_handlers_safe.
  - intros lookup kid Hk. discriminate Hk.
Defined.
