(* ===== verification/Access.v ===== *)
(** * Who may use a session

    The invariant of the session store over everything the dispatcher and
    the cleanup goroutine do, and the guard of the services that need a
    second factor. *)

From S2P Require Import Prelude GoTime GoStrings GoJson Protocol Counter Sessions Store Sad Ecc External World Handlers Jws Opaque Webauthn Token Service Fido2 Dispatcher Toy.
Local Open Scope Z_scope.

Lemma steps_mono {W E A} (R R' : W -> W -> Prop) (m : M W E A) :
  (forall w w', R w w' -> R' w w') -> steps R m -> steps R' m.
Proof. intros Hs Hm w. apply Hs, Hm. Qed.

(** The state a sequence leaves, by the outcome of its first part. *)
Lemma bind_state {W E A B} (P : W -> Prop) (m : M W E A) (k : A -> M W E B) w :
  (forall w1 r, m w = (w1, r) -> is_ok r = false -> P w1) ->
  (forall w1 a, m w = (w1, Ok a) -> P (k a w1).1) -> P (bind m k w).1.
Proof.
  intros He Hk. unfold bind. destruct (m w) as [w1 [a|e|s]]; [by apply Hk|by eapply He..].
Qed.

Section Access.
Context {St H : Type} `{Env, Store St, GoCrypto, Jose, OpaqueLib, HkdfLib}.
Local Abbreviation W := (World St H).
Context (d : Dispatcher St H).

(** The handlers and the record store leave sessions and counters alone. *)
Definition wired : Prop :=
  (forall c x, steps backend_only (rs_GetRecord (d_records d) c x)) /\
  (forall c x r, steps backend_only (rs_PutRecord (d_records d) c x r)) /\
  (forall t h, d_handlers d !! t = Some h -> forall c data, steps backend_only (h_Handle h c data)).

(** A session's expiry is at most the configured lifetime after an instant
    the server has seen. *)
Definition session_bounded (w : W) (s : Session) : Prop :=
  exists i ttl, (i < w_tick w)%nat /\ ttl <= d_sessionTTL d /\ s_ExpiresAt s = TimeAdd (clock i) ttl.

(** A verified session's factor was proved: the OPAQUE server accepted a
    client proof for it, or it is one of the FIDO2 mode. *)
Definition session_proved (s : Session) : Prop :=
  (exists ke3, LoginFinish (os_server (d_opaque d)) ke3 (s_ClientMAC s) = true) \/
  (d_fido2 d <> None /\ s_ClientMAC s = []).

Definition session_inv (w : W) : Prop :=
  sessions_ok (w_sessions w) /\
  forall id s, w_sessions w !! id = Some s ->
    session_bounded w s /\ (s_Verified s = true -> session_proved s).

Local Abbreviation K := (keeps session_inv).

Lemma session_bounded_later w w' s : later w w' -> session_bounded w s -> session_bounded w' s.
Proof. intros [Hl _] (i & ttl & Hi & Ht & He). exists i, ttl. split; [lia|done]. Qed.

Lemma K_frame (w w' : W) : w_sessions w' = w_sessions w -> later w w' -> K w w'.
Proof.
  intros Hs Hl [Hok Hi]. unfold session_inv. rewrite Hs. split; [done|].
  intros id s Hid. destruct (Hi id s Hid). eauto using session_bounded_later.
Qed.

#[local] Instance Quiet_K : Quiet K.
Proof. intros w w' (Hs & _ & _ & _ & _ & Hl). by apply K_frame. Qed.

Lemma backend_K (w w' : W) : backend_only w w' -> K w w'.
Proof. intros (Hs & _ & _ & Hl). by apply K_frame. Qed.

Lemma steps_counter_K {A} (c : M AttemptCounter R2PSError A) : steps K (on_counter c).
Proof. apply steps_zoom. intros w. apply K_frame; [done|]. unfold later. simpl. lia. Qed.

Lemma steps_counter_K' {A} (c : M AttemptCounter error A) : steps K (on_counter (E := error) c).
Proof. apply steps_zoom. intros w. apply K_frame; [done|]. unfold later. simpl. lia. Qed.

Lemma steps_store_K {A} (c : M St error A) : steps K (on_store (E := error) c).
Proof. eapply steps_mono; [apply backend_K|]. apply steps_on_store. Qed.

Lemma steps_gauge_K (f : W -> Z) : steps K (modify (E := R2PSError) (fun w => set_gauge (f w) w)).
Proof. apply steps_modify. intros w. apply K_frame; [done|]. unfold later. simpl. lia. Qed.

Hint Resolve steps_counter_K' steps_store_K : steps.
Hint Extern 1 (steps _ (refuse _ _)) => apply steps_fail : steps.
Hint Extern 1 (steps _ (or_refuse _ _ _)) => apply steps_with_err : steps.
Hint Extern 1 (steps _ (decode_field _ _)) => apply steps_lift : steps.

Lemma steps_counter_Check req : steps K (counter_Check req).
Proof. unfold counter_Check. steps_auto. Qed.
Lemma steps_counter_RecordFailure req : steps K (counter_RecordFailure req).
Proof. unfold counter_RecordFailure. steps_auto. Qed.
Lemma steps_counter_RecordSuccess req : steps K (counter_RecordSuccess req).
Proof. unfold counter_RecordSuccess. steps_auto. Qed.
Lemma steps_sessions_Get id : steps K (sessions_Get id).
Proof. unfold sessions_Get. steps_auto. Qed.
Lemma steps_ActiveSessions_Inc : steps K ActiveSessions_Inc.
Proof. apply (steps_gauge_K (fun w => w_gauge w + 1)). Qed.
Lemma steps_respond req data : steps K (respond d req data).
Proof. unfold respond. steps_auto. Qed.
Lemma steps_signResponse req data : steps K (signResponse d req data).
Proof. apply steps_respond. Qed.

Hint Resolve steps_counter_Check steps_counter_RecordFailure steps_counter_RecordSuccess
  steps_sessions_Get steps_ActiveSessions_Inc steps_respond steps_signResponse : steps.

Lemma steps_sessions_Delete id : steps K (sessions_Delete id).
Proof.
  apply steps_modify. intros w [Hok Hi]. split; [by apply sessions_ok_Delete|].
  intros id' s. simpl. unfold Delete. rewrite lookup_delete_Some. intros [_ Hs].
  destruct (Hi id' s Hs) as [Hb Hv]. split; [|done].
  eapply session_bounded_later; [|done]. unfold later. simpl. lia.
Qed.

Hint Resolve steps_sessions_Delete : steps.

(** A session created right after its expiry was computed. *)
Lemma steps_create {A} (mk : Time -> Session) ttl (k : Time -> M W R2PSError A) :
  ttl <= d_sessionTTL d ->
  (forall now, s_ExpiresAt (mk now) = TimeAdd now ttl) ->
  (forall now, s_Verified (mk now) = true -> session_proved (mk now)) ->
  (forall now, steps K (k now)) ->
  steps K (let! now := Now in sessions_Create (mk now) ;;! k now).
Proof.
  intros Httl He Hv Hk w. unfold bind at 1. simpl. set (w1 := mkWorld _ _ _ _ _ _ _ _ _).
  assert (later w w1) as Hl by (unfold later, w1; simpl; lia).
  set (s := mk (clock (w_tick w))).
  assert (K w (sessions_Create s w1).1) as Hc.
  { intros [Hok Hi]. split.
    - unfold sessions_Create, or_refuse, with_err, on_sessions, zoom.
      pose proof (sessions_ok_Create s (w_sessions w)) as Hs. simpl in Hs |- *.
      destruct (Create s (w_sessions w)). simpl in *. by apply Hs.
    - intros id s'. unfold sessions_Create, or_refuse, with_err, on_sessions, zoom.
      pose proof (lookup_Create s id (w_sessions w)) as Hs. simpl.
      destruct (Create s (w_sessions w)) as [ss r]. simpl in *. rewrite Hs.
      assert (w_sessions w !! id = Some s' -> session_bounded
        (set_sessions ss w1) s' /\ (s_Verified s' = true -> session_proved s')) as Hold.
      { intros Hs'. destruct (Hi id s' Hs') as [Hb Hp]. split; [|done].
        eapply session_bounded_later; [|exact Hb]. unfold later, w1. simpl. lia. }
      case_bool_decide; [|done]. destruct (w_sessions w !! id) eqn:Hid; intros [= <-]; [by apply Hold|].
      split; [|apply Hv]. exists (w_tick w), ttl. unfold w1. simpl. split; [lia|]. split; [done|apply He]. }
  unfold bind. destruct (sessions_Create s w1) as [w2 [u|e|p]]; simpl in *; [|done..].
  etrans; [exact Hc|]. apply Hk.
Qed.

(** Marking a session verified needs the proof of its factor. *)
Lemma inv_MarkVerified id (w : W) :
  (forall s, w_sessions w !! id = Some s -> session_proved s) ->
  K w (sessions_MarkVerified id w).1.
Proof.
  intros Hp [Hok Hi]. unfold sessions_MarkVerified, or_refuse, with_err, on_sessions, zoom.
  pose proof (sessions_ok_MarkVerified id (w_sessions w)) as Hs.
  pose proof (fun i => lookup_MarkVerified id i (w_sessions w)) as Hl.
  destruct (MarkVerified id (w_sessions w)) as [ss r]. simpl in *. split; [by apply Hs|].
  intros id' s'. simpl. rewrite Hl.
  assert (later w (set_sessions ss w)) as Hlat by (unfold later; simpl; lia).
  case_bool_decide as Hd; [subst id'|].
  - destruct (w_sessions w !! id) as [s|] eqn:E; [|done]. simpl. intros [= <-].
    destruct (Hi id s E) as [(i & ttl & Hb) _]. split; [exists i, ttl; exact Hb|].
    intros _. exact (Hp s eq_refl).
  - intros Hs'. destruct (Hi id' s' Hs') as [Hb Hv]. split; [|done]. by eapply session_bounded_later.
Qed.

(** *** The OPAQUE flows *)

Context (Hwired : wired).

Lemma steps_records_Get c x : steps K (rs_GetRecord (d_records d) c x).
Proof. eapply steps_mono; [apply backend_K|]. apply Hwired. Qed.
Lemma steps_records_Put c x r : steps K (rs_PutRecord (d_records d) c x r).
Proof. eapply steps_mono; [apply backend_K|]. apply Hwired. Qed.

Hint Resolve steps_records_Get steps_records_Put : steps.

Lemma steps_regEvaluate req b : steps K (regEvaluate d req b).
Proof. unfold regEvaluate. steps_auto. Qed.
Lemma steps_regFinalize req b : steps K (regFinalize d req b).
Proof. unfold regFinalize. steps_auto. Qed.

Lemma session_ttl_le tfa : session_ttl d tfa <= d_sessionTTL d.
Proof. unfold session_ttl. repeat case_match; lia. Qed.

Lemma steps_authEvaluate req tfa b : steps K (authEvaluate d req tfa b).
Proof.
  unfold authEvaluate, record_or_fake. do 4 (steps_branch; [steps_auto|]). steps_branch. steps_branch.
  steps_branch; [steps_auto|].
  eapply (steps_create (fun now => mkSession _ _ _ _ _ (TimeAdd now (session_ttl d tfa)) false "")
            (session_ttl d tfa)); [apply session_ttl_le|done|done|].
  intros now. auto with steps.
Qed.

Lemma steps_authFinalize req b : steps K (authFinalize d req b).
Proof.
  intros w. unfold authFinalize. apply bind_state; [by intros w1 r [= <- <-]|].
  intros w1 o [= <- <-]. set (w1 := mkWorld _ _ _ _ _ _ _ _ _).
  assert (K w w1) as Hw1 by (apply K_frame; [done|unfold later, w1; simpl; lia]).
  destruct (Get _ _ _) as [sess|] eqn:Hg; [|exact Hw1].
  assert (forall s, w_sessions w1 !! sr_TFASessionID req = Some s -> s = sess) as Hsess.
  { unfold Get in Hg. simpl. intros s Hs. rewrite Hs in Hg. by case_match; simplify_eq. }
  destruct (AuthFinalize _ _ _) as [u|e|p] eqn:Ha; [| |exact Hw1].
  - apply AuthFinalize_Ok in Ha as (ke3 & _ & Hf).
    etrans; [exact Hw1|]. apply bind_state; [by intros w2 r [= <- <-]|].
    intros w2 u' Hs. assert (w_sessions w2 = w_sessions w1 /\ later w1 w2) as [Hs2 Hl2].
    { injection Hs as <- _. simpl. split; [done|]. unfold later. simpl. lia. }
    etrans; [by apply K_frame|].
    assert (K w2 (sessions_MarkVerified (sr_TFASessionID req) w2).1) as Hm.
    { apply inv_MarkVerified. rewrite Hs2. intros s Hs'. rewrite (Hsess s Hs'). left. by exists ke3. }
    apply bind_state; [intros w3 r Hr _; by rewrite Hr in Hm|]. intros w3 u3 Hr. rewrite Hr in Hm.
    etrans; [exact Hm|]. clear. revert w3. change (steps K (Inc (St := St) (H := H) (E := R2PSError) "pake_auth_total" "success" ;;!
      ActiveSessions_Inc ;;! signResponse d req (Marshal_TFAAuthResponseData
        (mkTFAAuthResponseData (sr_TFASessionID req) (sr_TFASessionID req) "" ""
                  "authenticated" (Unix (s_ExpiresAt sess)) "")))).
    steps_auto.
  - etrans; [exact Hw1|]. clear. generalize w1 as w2. clear w1.
    change (steps K (counter_RecordFailure (St := St) (H := H) req ;;!
      sessions_Delete (sr_TFASessionID req) ;;! Inc "pake_auth_total" "failure" ;;!
      refuse (A := bytes) ErrUnauthorized "authentication failed")).
    steps_auto.
Qed.

(** *** FIDO2 *)

Lemma steps_issue_challenge f req : steps K (issue_challenge d f req).
Proof. unfold issue_challenge. steps_auto. Qed.

Lemma steps_open_token f req b : steps K (open_token (St := St) (H := H) f req b).
Proof. unfold open_token. steps_auto. Qed.

Hint Resolve steps_issue_challenge steps_open_token : steps.

Lemma steps_parse_pdata {A} (un : bytes -> option A) p m1 m2 :
  steps K (parse_pdata (St := St) (H := H) un p m1 m2).
Proof. unfold parse_pdata. steps_auto. Qed.

Hint Resolve @steps_parse_pdata : steps.

Lemma steps_fido2RegRegister f req tfa : steps K (fido2RegRegister d f req tfa).
Proof. unfold fido2RegRegister. steps_auto. Qed.

Lemma steps_matched_credential req c : steps K (matched_credential (St := St) (H := H) req c).
Proof. unfold matched_credential, failed_attempt. steps_auto. Qed.

Hint Resolve steps_matched_credential : steps.

Lemma steps_check_assertion f req ch a : steps K (check_assertion (St := St) (H := H) f req ch a).
Proof. unfold check_assertion. steps_auto. Qed.

Lemma steps_agree_session_key req t e : steps K (agree_session_key (St := St) (H := H) req t e).
Proof. unfold agree_session_key. steps_auto. Qed.

Hint Resolve steps_check_assertion steps_agree_session_key : steps.

Lemma steps_fido2AuthFinalize f req tfa :
  d_fido2 d = Some f -> steps K (fido2AuthFinalize d f req tfa).
Proof.
  intros Hf. unfold fido2AuthFinalize, open_fido2_session.
  repeat (steps_branch; [solve [steps_auto]|]). steps_branch. steps_branch; [steps_auto|].
  eapply (steps_create (fun now => mkSession _ _ _ _ _ (TimeAdd now (d_sessionTTL d)) true _)
            (d_sessionTTL d)); [done|done| |].
  - intros now _. right. by rewrite Hf.
  - intros now. steps_auto.
Qed.

Lemma steps_handleFIDO2 req tfa : steps K (handleFIDO2 d req tfa).
Proof.
  unfold handleFIDO2, fido2RegChallenge, fido2AuthChallenge.
  destruct (d_fido2 d) as [f|] eqn:Hf; steps_auto.
  - apply steps_fido2RegRegister.
  - by apply steps_fido2AuthFinalize.
Qed.

(** *** Everything *)

Lemma steps_handle2FA req : steps K (handle2FA d req).
Proof.
  pose proof steps_regEvaluate. pose proof steps_regFinalize. pose proof steps_authEvaluate.
  pose proof steps_authFinalize. pose proof steps_handleFIDO2.
  unfold handle2FA. steps_auto.
Qed.

Lemma steps_verified_session req : steps K (verified_session (St := St) (H := H) req).
Proof. unfold verified_session. steps_auto. Qed.
Lemma steps_check_sad req s : steps K (check_sad (St := St) (H := H) req s).
Proof. unfold check_sad. steps_auto. Qed.

Hint Resolve steps_handle2FA steps_verified_session steps_check_sad : steps.

Lemma steps_handleService req : steps K (handleService d req).
Proof.
  unfold handleService. destruct (d_handlers d !! sr_Type req) as [h|] eqn:Hh; [|steps_auto].
  assert (steps K (h_Handle h (sr_ClientID req) (sr_Data req))) as Hs.
  { eapply steps_mono; [apply backend_K|]. by eapply Hwired. }
  steps_auto.
Qed.

Lemma steps_Process body : steps K (Process d body).
Proof.
  pose proof steps_handleService.
  unfold Process, accept_request, verification_key, route, handle2FAChange. steps_auto.
Qed.

Lemma steps_cleanup : steps K (cleanup_tick (St := St) (H := H)).
Proof.
  intros w [Hok Hi]. unfold cleanup_tick, bind. simpl.
  pose proof (sessions_ok_CleanExpired (clock (w_tick w)) _ Hok) as Hok'.
  destruct (CleanExpired_spec (clock (w_tick w)) (w_sessions w)) as [Hl _].
  destruct (CleanExpired _ _) as [s n]. simpl in *.
  assert (forall w1 : W, w_sessions w1 = s -> later w w1 -> session_inv w1) as Hall.
  { intros w1 Hs1 Hlat. unfold session_inv. rewrite Hs1. split; [done|]. intros id x. rewrite Hl.
    destruct (w_sessions w !! id) as [x0|] eqn:E; [|done]. case_match; [done|]. intros [= <-].
    destruct (Hi id x0 E). eauto using session_bounded_later. }
  case_match; apply Hall; simpl; (reflexivity || (unfold later; simpl; lia)).
Qed.

(** A step of the running service: one request, or the cleanup. *)
Inductive step : W -> W -> Prop :=
| step_request body w : step w (Process d body w).1
| step_cleanup w : step w (cleanup_tick w).1.

End Access.

(** The record store of the server, and its HSM handlers, are wired so. *)
Lemma store_records_wired {St H} `{Store St, OpaqueLib} :
  (forall c x, steps backend_only (StoreGetRecord (H := H) c x)) /\
  (forall c x r, steps backend_only (StorePutRecord (H := H) c x r)).
Proof.
  split; intros.
  - unfold StoreGetRecord. steps_auto.
  - apply steps_on_store.
Qed.

Lemma hsm_backend_only {St H} (w w' : World St H) : hsm_only w w' -> backend_only w w'.
Proof. unfold hsm_only, backend_only. tauto. Qed.

Lemma toy_wired f : wired (toy_dispatcher f).
Proof.
  split; [apply store_records_wired|]. split; [apply store_records_wired|].
  intros t h Ht c data. unfold toy_dispatcher in Ht. simpl in Ht. unfold handler_map in Ht. simpl in Ht.
  rewrite !lookup_insert_Some, lookup_empty in Ht.
  destruct Ht as [[_ <-]|[_ [[_ <-]|[_ [[_ <-]|[_ [[_ <-]|[_ Ht]]]]]]]]; [..|done]; simpl.
  - eapply steps_mono; [apply hsm_backend_only|apply steps_ListKeysHandle].
  - eapply steps_mono; [apply hsm_backend_only|apply steps_ECDHHandle].
  - apply steps_ECKeygenHandle.
  - eapply steps_mono; [apply hsm_backend_only|apply steps_ECDSAHandle].
Qed.

Lemma toy_run_steps f rs w : rtc (step (toy_dispatcher f)) w (toy_run f rs w).1.
Proof.
  unfold toy_run. generalize (@nil (outcome R2PSError bytes)) as os. revert w.
  induction rs as [|r rs IH]; intros w os; simpl; [done|].
  pose proof (step_request (toy_dispatcher f) (body_of r) w) as Hs.
  destruct (Process _ _ w) as [w' o]. eapply rtc_l; [exact Hs|]. apply IH.
Qed.


(** ** The guard of the services *)

Section Guard.
Context {St H : Type} `{Env, Store St, Backend H, GoCrypto, Jose, OpaqueLib, HkdfLib}.
Local Abbreviation W := (World St H).
Context (d : Dispatcher St H).

(** The session a request may use: live, verified, of the same context. *)
Definition usable_session (now : Time) (ss : SessionStore) (req : ServiceRequest) (s : Session) : Prop :=
  ss !! sr_TFASessionID req = Some s /\ After now (s_ExpiresAt s) = false /\
  s_Verified s = true /\ s_Context s = sr_Context req.

(** The signature activation data of the session allow the request's hash. *)
Definition sad_allows (req : ServiceRequest) (s : Session) : Prop :=
  sr_Type req = TypeSignECDSA -> s_Task s <> "" ->
  forall r h, Unmarshal_ECDSASignRequest (sr_Data req) = Some r ->
    URLDecodeString (es_TbsHash r) = Some h -> ValidateSAD (s_Task s) h = Ok tt.

Definition denied (r : outcome R2PSError bytes) : Prop :=
  exists e, r = Err e /\ (Code e = ErrUnauthorized \/ Code e = ErrAccessDenied).

Lemma verified_session_run req (w : W) :
  (exists s, usable_session (clock (w_tick w)) (w_sessions w) req s /\
     verified_session req w = ((Now (E := R2PSError) w).1, Ok s)) \/
  (exists e, verified_session req w = ((Now (E := R2PSError) w).1, Err e) /\
     (Code e = ErrUnauthorized \/ Code e = ErrAccessDenied)).
Proof.
  unfold verified_session, usable_session, sessions_Get, Get, bind, gets, refuse, fail, ret. simpl.
  destruct (w_sessions w !! _) as [s|]; [|right; eauto].
  destruct (After _ _) eqn:Ha; [right; eauto|].
  destruct (s_Verified s) eqn:Hv; simpl; [|right; eauto].
  case_bool_decide; simpl; [|right; eauto]. left. eauto 10.
Qed.

Lemma check_sad_run req s (w : W) :
  (sad_allows req s /\ check_sad req s w = (w, Ok tt)) \/
  (exists e, check_sad req s w = (w, Err e) /\ Code e = ErrAccessDenied).
Proof.
  unfold check_sad, sad_allows. case_bool_decide as Ht; [|left; done].
  case_bool_decide as Hk; [left; done|]. cbn [andb negb].
  destruct (Unmarshal_ECDSASignRequest _) as [r|]; [|left; done].
  destruct (URLDecodeString _) as [h|] eqn:Hd; [|left; split; [intros; congruence|done]].
  unfold with_err, lift. destruct (ValidateSAD (s_Task s) h) as [[]|e|p] eqn:Hv; simpl.
  - left. split; [|done]. intros _ _ r' h' [= <-]. rewrite Hd. by intros [= <-].
  - right. eauto.
  - exfalso. revert Hv. unfold ValidateSAD. by repeat case_match.
Qed.

Lemma handleService_guarded req h (w : W) :
  d_handlers d !! sr_Type req = Some h -> h_Mode h <> Mode1FA ->
  (exists s, usable_session (clock (w_tick w)) (w_sessions w) req s /\ sad_allows req s /\
     handleService d req w =
       (let! respData := or_refuse ErrServerError (sr_Type req +:+ " failed")
                           (h_Handle h (sr_ClientID req) (sr_Data req)) in
        respond d req (Some (response_data respData))) (Now (E := R2PSError) w).1) \/
  (quiet w (handleService d req w).1 /\ denied (handleService d req w).2).
Proof.
  intros Hh Hm. unfold handleService. rewrite Hh, bool_decide_false by done. cbn [negb].
  assert (quiet w (Now (E := R2PSError) w).1) as Hq by (unfold quiet, later; simpl; repeat split; lia).
  destruct (verified_session_run req w) as [(s & Hs & Hrun)|(e & Hrun & He)].
  - destruct (check_sad_run req s (Now (E := R2PSError) w).1) as [[Ha Hc]|(e & Hc & He)].
    + left. exists s. split; [done|]. split; [done|].
      unfold bind at 1 2. by rewrite Hrun, Hc.
    + right. unfold bind at 1 2 4 5. rewrite Hrun, Hc. split; [exact Hq|]. exists e. auto.
  - right. unfold bind at 1 2 4 5. rewrite Hrun. split; [exact Hq|]. exists e. auto.
Qed.

(** C2: a service of mode 2FA runs only for a session that is live,
    verified and of the request's context, and whose activation data allow
    the hash to sign; any other request is denied before the handler and
    changes nothing. *)
Theorem service_guard req h (w : W) :
  d_handlers d !! sr_Type req = Some h -> h_Mode h <> Mode1FA ->
  (exists s, usable_session (clock (w_tick w)) (w_sessions w) req s /\ sad_allows req s /\
     handleService d req w =
       (let! respData := or_refuse ErrServerError (sr_Type req +:+ " failed")
                           (h_Handle h (sr_ClientID req) (sr_Data req)) in
        respond d req (Some (response_data respData))) (Now (E := R2PSError) w).1) \/
  (quiet w (handleService d req w).1 /\ denied (handleService d req w).2).
Proof.
  apply handleService_guarded.
Qed.

Lemma respond_hsm req data (w : W) : w_hsm (respond d req data w).1 = w_hsm w.
Proof.
  assert (steps quiet (respond (St := St) (H := H) d req data)) as Hq.
  { unfold respond, or_refuse. steps_auto. }
  apply (Hq w).
Qed.

(** C1: end to end, a signing request changes the HSM only for a live,
    verified session of its context whose activation data allow the hash,
    and then by exactly the signature of that hash under that key. *)
Theorem hsm_signs_only_authorised body (w w1 : W) req :
  d_handlers d !! TypeSignECDSA = Some ECDSAHandler ->
  accept_request d body w = (w1, Ok req) -> sr_Type req = TypeSignECDSA ->
  let w' := (Process d body w).1 in
  w_hsm w' = w_hsm w1 \/
  exists s kid h,
    usable_session (clock (w_tick w1)) (w_sessions w1) req s /\
    sign_args (sr_Data req) = Some (kid, h) /\
    (s_Task s <> "" -> ValidateSAD (s_Task s) h = Ok tt) /\
    w_hsm w' = (Sign kid h (w_hsm w1)).1.
Proof.
  intros Hh Hacc Ht. cbn zeta. assert (Process d body w = handleService d req w1) as ->.
  { unfold Process, bind at 1. rewrite Hacc. unfold route, is_change. rewrite Ht. reflexivity. }
  rewrite <-Ht in Hh.
  destruct (handleService_guarded req _ w1 Hh) as [(s & Hs & Hsad & Hrun)|[Hq _]]; [done| |].
  2: { left. apply Hq. }
  pose proof (ECDSAHandle_spec (St := St) (sr_ClientID req) (sr_Data req) (Now (E := R2PSError) w1).1) as Hspec.
  assert (w_hsm (handleService d req w1).1 =
          w_hsm (ECDSAHandle (sr_ClientID req) (sr_Data req) (Now (E := R2PSError) w1).1).1) as Hw.
  { rewrite Hrun. unfold bind at 1, or_refuse, with_err. cbn [ECDSAHandler h_Handle].
    destruct (ECDSAHandle _ _ _) as [w2 [b|e|p]]; cbn [fst snd map_err]; [apply respond_hsm|done..]. }
  rewrite Hw. cbn zeta in Hspec. destruct (sign_args (sr_Data req)) as [[kid h]|] eqn:Ha.
  - right. exists s, kid, h. split; [done|]. split; [done|]. split; [|apply Hspec].
    intros Hk. unfold sign_args in Ha. repeat case_match; simplify_eq. by eapply Hsad.
  - left. apply Hspec.
Qed.
End Guard.

Definition after_login : World MemoryStore nat := (toy_run None toy_login toy_world).1.

Lemma service_guard_witness :
  is_ok (handleService (toy_dispatcher None) toy_sign after_login).2 = true /\
  ((exists s, usable_session (clock (w_tick after_login)) (w_sessions after_login) toy_sign s /\
       sad_allows toy_sign s /\
       handleService (toy_dispatcher None) toy_sign after_login =
         (let! respData := or_refuse ErrServerError (sr_Type toy_sign +:+ " failed")
                             (h_Handle ECDSAHandler (sr_ClientID toy_sign) (sr_Data toy_sign)) in
          respond (toy_dispatcher None) toy_sign (Some (response_data respData)))
         (Now (E := R2PSError) after_login).1) \/
   (quiet after_login (handleService (toy_dispatcher None) toy_sign after_login).1 /\
    denied (handleService (toy_dispatcher None) toy_sign after_login).2)).
Proof.
  split; [vm_compute; reflexivity|].
  apply (service_guard (toy_dispatcher None) toy_sign ECDSAHandler after_login); [reflexivity|discriminate].
Defined.

(** The toy HSM counts its key generations; this one counts signatures. *)
Definition counting_hsm : Backend nat := {|
  GenerateECKey := fun _ n => (n, Ok ("key", [x04]));
  Sign := fun _ h n => (S n, Ok h);
  ECDH := fun _ p n => (n, Ok p);
  ListKeys := fun _ n => (n, Ok [])
|}.

Definition counting_dispatcher : Dispatcher MemoryStore nat :=
  mkDispatcher toy_key (mkOPAQUEServer tt) NewStoreRecordStore None
    {[ TypeSignECDSA := ECDSAHandler (H2 := counting_hsm) ]} (5 * Minute) (5 * Minute) None.

Lemma hsm_signs_only_authorised_witness :
  exists w1, accept_request counting_dispatcher (body_of toy_sign) after_login = (w1, Ok toy_sign) /\
  w_hsm (Process counting_dispatcher (body_of toy_sign) after_login).1 = 1%nat /\
  (w_hsm (Process counting_dispatcher (body_of toy_sign) after_login).1 = w_hsm w1 \/
   exists s kid h,
      usable_session (clock (w_tick w1)) (w_sessions w1) toy_sign s /\
      sign_args (sr_Data toy_sign) = Some (kid, h) /\
      (s_Task s <> "" -> ValidateSAD (s_Task s) h = Ok tt) /\
      w_hsm (Process counting_dispatcher (body_of toy_sign) after_login).1 =
        (Sign (Backend := counting_hsm) kid h (w_hsm w1)).1).
Proof.
  exists (Now (E := R2PSError) after_login).1.
  assert (accept_request counting_dispatcher (body_of toy_sign) after_login =
          ((Now (E := R2PSError) after_login).1, Ok toy_sign)) as Ha by (vm_compute; reflexivity).
  split; [exact Ha|]. split; [vm_compute; reflexivity|].
  refine (@hsm_signs_only_authorised MemoryStore nat _ _ counting_hsm _ _ _ _ counting_dispatcher
            (body_of toy_sign) after_login _ toy_sign _ Ha _); reflexivity.
Defined.
