(* ===== verification/Concurrent.v ===== *)
(** * Overlapping requests

    [net/http] serves requests in goroutines of their own; what they share
    (the session store, the attempt counter, the store) is guarded by a lock
    per method.  Here a request is the sequence of its calls of these
    methods; the calls of different requests interleave in any order.  Run
    without interference a request is [Process].

    A handler looks at the [Verified] flag of the session it got right after
    [Get]; the two are one call here.

    A call that reads no shared state is a step of its own where the code
    draws or reads the clock, else part of the next.  A service handler,
    whose calls are on the HSM and the store, is one step (the HSM backend's
    own interleavings are in [Pool]). *)

From S2P Require Import Prelude GoTime GoStrings GoJson Protocol Counter Sessions Store Sad Ecc External World Handlers Jws Opaque Webauthn Token Service Fido2 Dispatcher Toy Access.

(** ** Requests as sequences of atomic calls *)

Section Programs.
Context {W : Type}.

Inductive prog (A : Type) : Type :=
| Done (o : outcome R2PSError A)
| Step {X : Type} (a : M W R2PSError X) (k : outcome R2PSError X -> prog A).
Arguments Done {A}.
Arguments Step {A X}.

Definition act {X} (a : M W R2PSError X) : prog X := Step a Done.

(** The continuation of a value; an error or a panic ends the request. *)
Definition on_value {A B} (o : outcome R2PSError A) (k : A -> prog B) : prog B :=
  match o with Ok a => k a | Err e => Done (Err e) | Panic p => Done (Panic p) end.

Fixpoint pbind {A B} (p : prog A) (k : A -> prog B) : prog B :=
  match p with
  | Done o => on_value o k
  | Step a k' => Step a (fun o => pbind (k' o) k)
  end.

(** All its calls in a row. *)
Fixpoint run {A} (p : prog A) : M W R2PSError A := fun w =>
  match p with
  | Done o => (w, o)
  | Step a k => let '(w', o) := a w in run (k o) w'
  end.

Lemma run_call {X} (a : M W R2PSError X) w : run (act a) w = a w.
Proof. simpl. by destruct (a w). Qed.

Lemma run_bind {A B} (p : prog A) (k : A -> prog B) w :
  run (pbind p k) w = bind (run p) (fun a => run (k a)) w.
Proof.
  revert w. induction p as [o|X a k' IH]; intros w; simpl; [by destruct o|].
  unfold bind at 1. destruct (a w) as [w' o]. rewrite IH. reflexivity.
Qed.

Lemma run_bind_eq {A B} (p : prog A) (m : M W R2PSError A) (k : A -> prog B) (k' : A -> M W R2PSError B) w :
  (forall w, run p w = m w) -> (forall x w, run (k x) w = k' x w) -> run (pbind p k) w = bind m k' w.
Proof.
  intros Hp Hk. rewrite run_bind. unfold bind. rewrite Hp. destruct (m w) as [w' [x|e|e]]; [apply Hk|done..].
Qed.
End Programs.
Arguments prog : clear implicits.
Arguments Done {W A}.
Arguments Step {W A X}.

Declare Scope prog_scope.
Notation "'let&' x := p 'in' k" := (pbind p (fun x => k))
  (at level 100, x pattern, p at level 100, k at level 200) : prog_scope.
Notation "p ';;&' k" := (pbind p (fun _ => k))
  (at level 199, k at level 200, right associativity) : prog_scope.
Local Open Scope prog_scope.

Section Requests.
Context {St H : Type} `{Env, Store St, GoCrypto, Jose, OpaqueLib, HkdfLib}.
Local Abbreviation W := (World St H).
Context (d : Dispatcher St H).

Definition refuse_p {A} (code msg : string) : prog W A := Done (Err (mkR2PSError code msg)).

Definition regFinalize_p (req : ServiceRequest) (reqData : bytes) : prog W bytes :=
  let& record := act (or_refuse ErrIllegalRequestData "invalid registration record"
    (lift (DeserializeRegistrationRecord (d_opaque d) reqData))) in
  let clientRecord := mkClientRecord record (credID (sr_Context req) (sr_ClientID req)) None in
  act (or_refuse ErrServerError "store record failed"
    (rs_PutRecord (d_records d) (sr_ClientID req) (sr_Context req) clientRecord)) ;;&
  act (signResponse d req (Marshal_TFAResponseData (mkTFAResponseData "" "" "success"))).

Definition authEvaluate_p (req : ServiceRequest) (tfaReq : TFARequestData) (reqData : bytes) : prog W bytes :=
  act (counter_Check req) ;;&
  let& record := act (record_or_fake d req) in
  let& draw := act Draw in
  let& (ke2Bytes, clientMAC, sessionSecret) := act (or_refuse ErrServerError "auth evaluate failed"
    (lift (AuthEvaluate draw (d_opaque d) reqData record))) in
  let& idBytes := act (RandomBytes 32) in
  let sessionID := URLEncodeToString idBytes in
  let& now := act Now in
  act (sessions_Create (mkSession sessionID (sr_ClientID req) (sr_Context req) sessionSecret clientMAC
                           (TimeAdd now (session_ttl d tfaReq)) false "")) ;;&
  let ke2Encoded := URLEncodeToString ke2Bytes in
  act (signResponse d req
    (Marshal_TFAAuthResponseData (mkTFAAuthResponseData sessionID sessionID ke2Encoded ke2Encoded "" 0 ""))).

Definition authFinalize_p (req : ServiceRequest) (reqData : bytes) : prog W bytes :=
  let& sess := act (sessions_Get (sr_TFASessionID req)) in
  match sess with
  | None => refuse_p ErrIllegalState "session not found or expired"
  | Some sess =>
      match AuthFinalize (d_opaque d) reqData (s_ClientMAC sess) with
      | Panic p => Done (Panic p)
      | Err _ =>
          act (counter_RecordFailure req) ;;&
          act (sessions_Delete (sr_TFASessionID req)) ;;&
          act (Inc "pake_auth_total" "failure") ;;&
          refuse_p ErrUnauthorized "authentication failed"
      | Ok _ =>
          act (counter_RecordSuccess req) ;;&
          act (sessions_MarkVerified (sr_TFASessionID req)) ;;&
          act (Inc "pake_auth_total" "success") ;;&
          act ActiveSessions_Inc ;;&
          act (signResponse d req
            (Marshal_TFAAuthResponseData
               (mkTFAAuthResponseData (sr_TFASessionID req) (sr_TFASessionID req) "" ""
                  "authenticated" (Unix (s_ExpiresAt sess)) "")))
      end
  end.

Definition failed_attempt_p {A} (req : ServiceRequest) (msg : string) : prog W A :=
  act (counter_RecordFailure req) ;;& refuse_p ErrUnauthorized msg.

Definition matched_credential_p (req : ServiceRequest) (credID : bytes) : prog W WebAuthnCredential :=
  let& creds := act (attempt (on_store (E := error) (GetWebAuthnCredential (sr_ClientID req) (sr_Context req)))) in
  match creds with
  | inr _ | inl [] => failed_attempt_p req "no credentials registered"
  | inl l =>
      match find_credential credID l with
      | None => failed_attempt_p req "credential not found"
      | Some c => Done (Ok c)
      end
  end.

Definition check_assertion_p (f : fido2Handler) (req : ServiceRequest) (challenge : string)
    (a : AssertionData) : prog W unit :=
  let& c := matched_credential_p req (as_CredentialID a) in
  let& pubKey := act (or_refuse ErrServerError "invalid stored public key"
                        (lift (UnmarshalPublicKey P256 (wc_PublicKey c)))) in
  let credential := mkCredential (wc_CredentialID c) pubKey (wc_SignCount c) (wc_AAGUID c) (wc_CreatedAt c) in
  let& r := act (attempt (lift (VerifyAssertion a credential challenge (f_rpID f) (f_allowedOrigins f)))) in
  match r with
  | inr e =>
      act (counter_RecordFailure req) ;;&
      act (Inc "fido2_auth_total" "failure") ;;&
      refuse_p ErrUnauthorized ("assertion verification failed: " +:+ Error e)
  | inl authData =>
      let& _ := act (attempt (on_store (E := error)
                  (UpdateWebAuthnSignCount (sr_ClientID req) (sr_Context req) (as_CredentialID a)
                     (ad_SignCount authData)))) in
      Done (Ok tt)
  end.

Definition open_fido2_session_p (req : ServiceRequest) (task : string) (serverEpubBytes sessionKey : bytes) :
    prog W bytes :=
  let& idBytes := act (RandomBytes 32) in
  let sessionID := encodeBase64 idBytes in
  let& now := act Now in
  let expiresAt := TimeAdd now (d_sessionTTL d) in
  act (sessions_Create (mkSession sessionID (sr_ClientID req) (sr_Context req) sessionKey []
                          expiresAt true task)) ;;&
  act (counter_RecordSuccess req) ;;&
  act (Inc "fido2_auth_total" "success") ;;&
  act ActiveSessions_Inc ;;&
  act (signResponse d req
    (Marshal_fido2AuthFinalizeResponse (encodeBase64 serverEpubBytes) sessionID task (Unix expiresAt))).

Definition fido2AuthFinalize_p (f : fido2Handler) (req : ServiceRequest) (tfaReq : TFARequestData) :
    prog W bytes :=
  let& finalReq := act (parse_pdata Unmarshal_fido2AuthFinalizeRequest (GetPData tfaReq)
                          "invalid finalize request" "malformed finalize data") in
  let& tokenBytes := act (decode_field (fr_Token finalReq) "invalid token encoding") in
  let& token := act (open_token f req tokenBytes) in
  let assertion := fr_Assertion finalReq in
  let& credID := act (decode_field (af_CredentialID assertion) "invalid credential_id encoding") in
  let& authDataBytes := act (decode_field (af_AuthenticatorData assertion) "invalid authenticator_data encoding") in
  let& clientDataJSON := act (decode_field (af_ClientData assertion) "invalid client_data encoding") in
  let& signature := act (decode_field (af_Signature assertion) "invalid signature encoding") in
  check_assertion_p f req (ct_Challenge token)
    (mkAssertionData credID authDataBytes clientDataJSON signature) ;;&
  let& (serverEpubBytes, sessionKey) := act (agree_session_key req (fr_Task finalReq) (fr_ClientEpub finalReq)) in
  open_fido2_session_p req (fr_Task finalReq) serverEpubBytes sessionKey.

(** The other ceremonies access the shared state once. *)
Definition handleFIDO2_p (req : ServiceRequest) (tfaReq : TFARequestData) : prog W bytes :=
  match d_fido2 d with
  | None => refuse_p ErrIllegalRequestData "fido2 not configured"
  | Some f =>
      let t := sr_Type req in
      let st := tfa_State tfaReq in
      let is_auth := bool_decide (t = Type2FAAuthenticate) || bool_decide (t = TypeCreateSession) in
      if bool_decide (t = Type2FARegistration) && bool_decide (st = StateChallenge)
      then act (fido2RegChallenge d f req)
      else if bool_decide (t = Type2FARegistration) && bool_decide (st = StateRegister)
      then act (fido2RegRegister d f req tfaReq)
      else if is_auth && bool_decide (st = StateChallenge) then act (fido2AuthChallenge d f req)
      else if is_auth && bool_decide (st = StateFinalize) then fido2AuthFinalize_p f req tfaReq
      else refuse_p ErrIllegalState "invalid fido2 type/state combination"
  end.

Definition handle2FA_p (req : ServiceRequest) : prog W bytes :=
  match Unmarshal_TFARequestData (sr_Data req) with
  | None => refuse_p ErrIllegalRequestData "malformed 2FA data"
  | Some tfaReq =>
      let protocol := GetProtocol tfaReq in
      if bool_decide (protocol = TFAModeFIDO2) then handleFIDO2_p req tfaReq
      else if negb (bool_decide (protocol = TFAModeOPAQUE))
      then refuse_p ErrIllegalRequestData ("unsupported protocol: " +:+ protocol)
      else
        let& reqData := act (decode_field (GetPData tfaReq) "invalid request encoding") in
        let t := sr_Type req in
        let evaluate := bool_decide (tfa_State tfaReq = StateEvaluate) in
        let finalize := bool_decide (tfa_State tfaReq = StateFinalize) in
        let is_auth := bool_decide (t = Type2FAAuthenticate) || bool_decide (t = TypeCreateSession) in
        if bool_decide (t = Type2FARegistration) && evaluate then act (regEvaluate d req reqData)
        else if bool_decide (t = Type2FARegistration) && finalize then regFinalize_p req reqData
        else if is_change t && evaluate then act (regEvaluate d req reqData)
        else if is_change t && finalize then regFinalize_p req reqData
        else if is_auth && evaluate then authEvaluate_p req tfaReq reqData
        else if is_auth && finalize then authFinalize_p req reqData
        else refuse_p ErrIllegalState "invalid type/state combination"
  end.

Definition handleService_p (req : ServiceRequest) : prog W bytes :=
  match d_handlers d !! sr_Type req with
  | None => refuse_p ErrUnsupportedType "unknown service type"
  | Some handler =>
      (if negb (bool_decide (h_Mode handler = Mode1FA)) then
         let& sess := act (verified_session req) in act (check_sad req sess)
       else Done (Ok tt)) ;;&
      let& respData := act (or_refuse ErrServerError (sr_Type req +:+ " failed")
                         (h_Handle handler (sr_ClientID req) (sr_Data req))) in
      act (respond d req (Some (response_data respData)))
  end.

Definition route_p (req : ServiceRequest) : prog W bytes :=
  let t := sr_Type req in
  if bool_decide (t = Type2FARegistration) then handle2FA_p req
  else if bool_decide (t = Type2FAAuthenticate) || bool_decide (t = TypeCreateSession)
  then handle2FA_p req
  else if is_change t then act (verified_session req) ;;& handle2FA_p req
  else handleService_p req.

Definition Process_p (body : bytes) : prog W bytes :=
  let& req := act (accept_request d body) in route_p req.

(** ** Without interference a request is [Process] *)

Ltac runs :=
  repeat lazymatch goal with
  | |- run (pbind _ _) _ = bind _ _ _ => apply run_bind_eq; intros
  | |- run (act _) _ = _ => apply run_call
  | |- run (match ?x with _ => _ end) _ = _ => destruct x
  | |- run (let '_ := ?x in _) _ = _ => destruct x
  | |- run (refuse_p _ _) _ = _ => reflexivity
  | |- run (Done _) _ = _ => reflexivity
  end.

Lemma run_regFinalize req b (w : W) : run (regFinalize_p req b) w = regFinalize d req b w.
Proof. unfold regFinalize_p, regFinalize. runs. Qed.

Lemma run_authEvaluate req tfa b (w : W) : run (authEvaluate_p req tfa b) w = authEvaluate d req tfa b w.
Proof. unfold authEvaluate_p, authEvaluate. runs. Qed.

Lemma run_authFinalize req b (w : W) : run (authFinalize_p req b) w = authFinalize d req b w.
Proof. unfold authFinalize_p, authFinalize. runs. Qed.

Lemma run_check_assertion f req challenge a (w : W) :
  run (check_assertion_p f req challenge a) w = check_assertion f req challenge a w.
Proof. unfold check_assertion_p, check_assertion, matched_credential_p, matched_credential, failed_attempt_p,
    failed_attempt. runs. Qed.

#[local] Hint Resolve run_regFinalize run_authEvaluate run_authFinalize run_check_assertion : core.

Lemma run_handleFIDO2 req tfa (w : W) : run (handleFIDO2_p req tfa) w = handleFIDO2 d req tfa w.
Proof.
  unfold handleFIDO2_p, handleFIDO2, fido2AuthFinalize_p, fido2AuthFinalize, open_fido2_session_p, open_fido2_session.
  runs; auto.
Qed.

#[local] Hint Resolve run_handleFIDO2 : core.

Lemma run_handle2FA req (w : W) : run (handle2FA_p req) w = handle2FA d req w.
Proof. unfold handle2FA_p, handle2FA. runs; auto. Qed.

Lemma run_handleService req (w : W) : run (handleService_p req) w = handleService d req w.
Proof. unfold handleService_p, handleService. runs. Qed.

#[local] Hint Resolve run_handle2FA run_handleService : core.

(** A request that meets no other is [Process]. *)
Lemma run_Process body (w : W) : run (Process_p body) w = Process d body w.
Proof. unfold Process_p, Process, route_p, route, handle2FAChange. runs; auto. Qed.
End Requests.

(** ** Any number of requests at once *)

Section Interleaving.
Context {St H : Type} `{Env, Store St, GoCrypto, Jose, OpaqueLib, HkdfLib}.
Local Abbreviation W := (World St H).
Context (d : Dispatcher St H).
Local Abbreviation P := (prog W bytes).

(** What they share, and what is left of each request. *)
Record config := mkConfig { c_world : W; c_requests : gmap nat P }.

(** A request arrives, makes its next call, or is answered; or the cleanup
    goroutine ticks. *)
Inductive cstep : config -> config -> Prop :=
| step_arrive i body w ts :
    ts !! i = None -> cstep (mkConfig w ts) (mkConfig w (<[i := Process_p d body]> ts))
| step_call X i (a : M W R2PSError X) k w ts :
    ts !! i = Some (Step a k) ->
    cstep (mkConfig w ts) (mkConfig (a w).1 (<[i := k (a w).2]> ts))
| step_answer i o w ts :
    ts !! i = Some (Done o) -> cstep (mkConfig w ts) (mkConfig w (delete i ts))
| step_tick w ts : cstep (mkConfig w ts) (mkConfig (cleanup_tick w).1 ts).

End Interleaving.

(** ** A schedule of the toy deployment *)

Inductive event := Arrive (i : nat) (body : bytes) | Call (i : nat) | Answer (i : nat) | Tick.

Section Schedule.
Context {St H : Type} `{Env, Store St, GoCrypto, Jose, OpaqueLib, HkdfLib}.
Context (d : Dispatcher St H).

(** An event that is not possible does nothing. *)
Definition happens (c : config (St := St) (H := H)) (e : event) : config (St := St) (H := H) :=
  let '(mkConfig w ts) := c in
  match e with
  | Arrive i body =>
      match ts !! i with None => mkConfig w (<[i := Process_p d body]> ts) | Some _ => c end
  | Call i =>
      match ts !! i with
      | Some (Step a k) => let '(w', o) := a w in mkConfig w' (<[i := k o]> ts)
      | _ => c
      end
  | Answer i => match ts !! i with Some (Done _) => mkConfig w (delete i ts) | _ => c end
  | Tick => mkConfig (cleanup_tick w).1 ts
  end.

Lemma happens_steps c e : rtc (cstep d) c (happens c e).
Proof.
  destruct c as [w ts], e as [i body|i|i|]; simpl.
  - destruct (ts !! i) eqn:E; [done|]. by apply rtc_once, step_arrive.
  - destruct (ts !! i) as [[o|X a k]|] eqn:E; [done| |done].
    pose proof (step_call d X i a k w ts E) as Hs. destruct (a w). by apply rtc_once.
  - destruct (ts !! i) as [[o|X a k]|] eqn:E; [|done..]. by apply rtc_once, (step_answer d i o).
  - apply rtc_once, step_tick.
Qed.

Lemma schedule_steps es c : rtc (cstep d) c (fold_left happens es c).
Proof. revert c. induction es as [|e es IH]; intros c; [done|]. simpl. etrans; [apply happens_steps|apply IH]. Qed.
End Schedule.

Fixpoint rounds (n : nat) (l : list nat) : list event :=
  match n with O => [] | S n => map Call l ++ rounds n l end.

Definition login_body (state sid : string) (pdata : bytes) : bytes :=
  body_of (toy_request "alice" "wallet" Type2FAAuthenticate sid (opaque_data state pdata)).

(** Alice registers, then opens two sessions at once, call by call, and
    finalises both at once, the second with a wrong proof. *)
Definition two_logins : list event :=
  Arrive 0 (body_of (toy_request "alice" "wallet" Type2FARegistration "" (opaque_data StateFinalize [x01; x02])))
    :: rounds 6 [0] ++
  [Arrive 1 (login_body StateEvaluate "" [x07]); Arrive 2 (login_body StateEvaluate "" [x07])]
    ++ rounds 12 [1; 2] ++
  [Arrive 3 (login_body StateFinalize (URLEncodeToString (rand 3 32)) [x01; x02]);
   Arrive 4 (login_body StateFinalize (URLEncodeToString (rand 4 32)) [x09])]
    ++ rounds 12 [3; 4] ++ [Answer 3; Tick].

Definition after_two_logins : config := 
  fold_left (happens (toy_dispatcher None)) two_logins (mkConfig toy_world ∅).
