(* ===== verification/Calls.v ===== *)
(** * Which parts of the shared state the calls of a request touch

    [calls_in R p]: every call of the request [p], whatever it answers,
    changes the shared state within [R].  The relations are given by what
    they allow ([Allows], [AllowsSessions]), so that one proof serves each
    invariant of overlapping requests. *)

From S2P Require Import Prelude GoTime GoStrings GoJson Protocol Counter Sessions Store Sad Ecc External World Handlers Jws Opaque Webauthn Token Service Fido2 Dispatcher Concurrent.
Local Open Scope prog_scope.

Section CallsIn.
Context {W : Type} (R : W -> W -> Prop).

Fixpoint calls_in {A} (p : prog W A) : Prop :=
  match p with Done _ => True | Step a k => steps R a /\ forall o, calls_in (k o) end.

Lemma calls_in_act {A} (a : M W R2PSError A) : steps R a -> calls_in (act a).
Proof. by split. Qed.

Lemma calls_in_bind {A B} (p : prog W A) (k : A -> prog W B) :
  calls_in p -> (forall x, calls_in (k x)) -> calls_in (pbind p k).
Proof.
  intros Hp Hk. induction p as [o|X a k' IH]; simpl.
  - destruct o; [apply Hk|done..].
  - destruct Hp as [Ha Hk']. split; [done|]. intros o. by apply IH.
Qed.
End CallsIn.

(** One step of a [calls_in] proof: open a bind, a call, or a branch. *)
Ltac calls :=
  repeat lazymatch goal with
  | |- calls_in _ (pbind _ _) => apply calls_in_bind; [|intros ?]
  | |- calls_in _ (act _) => apply calls_in_act; steps_auto
  | |- calls_in _ (Done _) => exact I
  | |- calls_in _ (refuse_p _ _) => exact I
  | |- calls_in _ (match ?x with _ => _ end) => destruct x eqn:?
  | |- calls_in _ (let '_ := ?x in _) => destruct x eqn:?
  end.

Section Allowed.
Context {St H : Type} `{Env, Store St, GoCrypto, Jose, OpaqueLib, HkdfLib}.
Local Abbreviation W := (World St H).

(** What reads the clock, draws and counts is allowed, and so is any change
    of the counter, the store and the gauge; or of the sessions. *)
Class Allows (R : W -> W -> Prop) : Prop := {
  allows_preorder :: PreOrder R;
  allows_quiet :: Quiet R;
  allow_counter x w : R w (set_counter x w);
  allow_store x w : R w (set_store x w);
  allow_gauge x w : R w (set_gauge x w)
}.

Class AllowsSessions (R : W -> W -> Prop) : Prop := allow_sessions x w : R w (set_sessions x w).

Context (d : Dispatcher St H) (R : W -> W -> Prop) `{!Allows R}.
Context (Hget : forall c x, steps R (rs_GetRecord (d_records d) c x))
        (Hput : forall c x r, steps R (rs_PutRecord (d_records d) c x r)).

Lemma steps_allow_counter {A F} (c : M AttemptCounter F A) : steps R (on_counter (E := F) c).
Proof. apply steps_zoom. intros w. apply allow_counter. Qed.
Lemma steps_allow_store {A F} (c : M St F A) : steps R (on_store (E := F) c).
Proof. apply steps_zoom. intros w. apply allow_store. Qed.
Lemma steps_allow_gauge : steps R (ActiveSessions_Inc (St := St) (H := H)).
Proof. apply steps_modify. intros w. apply allow_gauge. Qed.

#[local] Hint Resolve steps_allow_counter steps_allow_store steps_allow_gauge Hget Hput : steps.
#[local] Hint Extern 1 (steps _ (refuse _ _)) => apply steps_fail : steps.
#[local] Hint Extern 1 (steps _ (or_refuse _ _ _)) => apply steps_with_err : steps.
#[local] Hint Extern 1 (steps _ (decode_field _ _)) => apply steps_lift : steps.

(** *** The guarded methods *)

Lemma allowed_Check req : steps R (counter_Check (St := St) (H := H) req).
Proof. unfold counter_Check. steps_auto. Qed.
Lemma allowed_RecordFailure req : steps R (counter_RecordFailure (St := St) (H := H) req).
Proof. unfold counter_RecordFailure. steps_auto. Qed.
Lemma allowed_RecordSuccess req : steps R (counter_RecordSuccess (St := St) (H := H) req).
Proof. unfold counter_RecordSuccess. steps_auto. Qed.
Lemma allowed_Get id : steps R (sessions_Get (St := St) (H := H) id).
Proof. unfold sessions_Get. steps_auto. Qed.
Lemma allowed_respond req data : steps R (respond d req data).
Proof. unfold respond. steps_auto. Qed.
Lemma allowed_signResponse req data : steps R (signResponse d req data).
Proof. apply allowed_respond. Qed.

#[local] Hint Resolve allowed_Check allowed_RecordFailure allowed_RecordSuccess allowed_Get
  allowed_respond allowed_signResponse : steps.

Lemma allowed_record_or_fake req : steps R (record_or_fake d req).
Proof. unfold record_or_fake. steps_auto. Qed.
Lemma allowed_verified_session req : steps R (verified_session (St := St) (H := H) req).
Proof. unfold verified_session. steps_auto. Qed.
Lemma allowed_check_sad req s : steps R (check_sad (St := St) (H := H) req s).
Proof. unfold check_sad. steps_auto. Qed.
Lemma allowed_accept_request body : steps R (accept_request d body).
Proof. unfold accept_request, verification_key. steps_auto. Qed.
Lemma allowed_regEvaluate req b : steps R (regEvaluate d req b).
Proof. unfold regEvaluate. steps_auto. Qed.

(** *** FIDO2 *)

Lemma allowed_open_token f req b : steps R (open_token (St := St) (H := H) f req b).
Proof. unfold open_token. steps_auto. Qed.
Lemma allowed_parse_pdata {A} (un : bytes -> option A) p m1 m2 :
  steps R (parse_pdata (St := St) (H := H) un p m1 m2).
Proof. unfold parse_pdata. steps_auto. Qed.
Lemma allowed_agree req t e : steps R (agree_session_key (St := St) (H := H) req t e).
Proof. unfold agree_session_key. steps_auto. Qed.

#[local] Hint Resolve allowed_record_or_fake allowed_verified_session allowed_check_sad
  allowed_accept_request allowed_regEvaluate allowed_open_token allowed_agree : steps.
#[local] Hint Extern 1 (steps _ (parse_pdata _ _ _ _)) => apply allowed_parse_pdata : steps.

Lemma allowed_challenge f req : steps R (issue_challenge d f req).
Proof. unfold issue_challenge. steps_auto. Qed.

#[local] Hint Resolve allowed_challenge : steps.

Lemma allowed_RegChallenge f req : steps R (fido2RegChallenge d f req).
Proof. apply allowed_challenge. Qed.
Lemma allowed_AuthChallenge f req : steps R (fido2AuthChallenge d f req).
Proof. unfold fido2AuthChallenge. steps_auto. Qed.
Lemma allowed_RegRegister f req tfa : steps R (fido2RegRegister d f req tfa).
Proof. unfold fido2RegRegister. steps_auto. Qed.

#[local] Hint Resolve allowed_RegChallenge allowed_AuthChallenge allowed_RegRegister : steps.

Lemma calls_check_assertion f req challenge a :
  calls_in R (check_assertion_p (St := St) (H := H) f req challenge a).
Proof. unfold check_assertion_p, matched_credential_p, failed_attempt_p. calls. Qed.

Lemma calls_regFinalize req b : calls_in R (regFinalize_p d req b).
Proof. unfold regFinalize_p. calls. Qed.

Lemma calls_handleService req :
  (forall t h c data, d_handlers d !! t = Some h -> steps R (h_Handle h c data)) ->
  calls_in R (handleService_p d req).
Proof. intros Hh. unfold handleService_p. calls. Qed.

(** *** The flows that change the sessions *)

Context `{!AllowsSessions R}.

Lemma steps_allow_sessions {A F} (c : M SessionStore F A) :
  steps R (on_sessions (St := St) (H := H) (E := F) c).
Proof. apply steps_zoom. intros w. apply allow_sessions. Qed.
Lemma allowed_Delete id : steps R (sessions_Delete (St := St) (H := H) id).
Proof. apply steps_modify. intros w. apply allow_sessions. Qed.
Lemma allowed_Create s : steps R (sessions_Create (St := St) (H := H) s).
Proof. apply steps_with_err, steps_allow_sessions. Qed.
Lemma allowed_MarkVerified id : steps R (sessions_MarkVerified (St := St) (H := H) id).
Proof. apply steps_with_err, steps_allow_sessions. Qed.

#[local] Hint Resolve allowed_Delete allowed_Create allowed_MarkVerified : steps.

Lemma calls_handleFIDO2 req tfa : calls_in R (handleFIDO2_p d req tfa).
Proof.
  unfold handleFIDO2_p, fido2AuthFinalize_p, open_fido2_session_p.
  pose proof calls_check_assertion. calls; auto.
Qed.

Lemma calls_handle2FA req : calls_in R (handle2FA_p d req).
Proof.
  pose proof calls_handleFIDO2. pose proof calls_regFinalize.
  unfold handle2FA_p, authEvaluate_p, authFinalize_p. calls; auto.
Qed.

Lemma calls_Process body :
  (forall t h c data, d_handlers d !! t = Some h -> steps R (h_Handle h c data)) ->
  calls_in R (Process_p d body).
Proof.
  intros Hh. pose proof calls_handle2FA. unfold Process_p, route_p. calls; auto using calls_handleService.
Qed.
End Allowed.

#[export] Hint Resolve allowed_Check allowed_RecordFailure allowed_RecordSuccess allowed_Get
  allowed_respond allowed_signResponse allowed_record_or_fake allowed_verified_session allowed_check_sad
  allowed_accept_request allowed_regEvaluate allowed_open_token allowed_agree allowed_RegChallenge
  allowed_AuthChallenge allowed_RegRegister steps_allow_gauge : steps.
#[export] Hint Extern 1 (steps _ (parse_pdata _ _ _ _)) => apply allowed_parse_pdata : steps.
#[export] Hint Extern 1 (steps _ (refuse _ _)) => apply steps_fail : steps.
#[export] Hint Extern 1 (steps _ (or_refuse _ _ _)) => apply steps_with_err : steps.
#[export] Hint Extern 1 (steps _ (decode_field _ _)) => apply steps_lift : steps.
