(* ===== verification/Overlap.v ===== *)
(** * What overlapping requests cannot break

    The session invariant of [Access], of every state that overlapping
    requests reach: each request is checked against whatever the others
    leave ([good]), with the client MACs of the sessions created so far and
    the session IDs drawn so far as ghost state. *)

From S2P Require Import Prelude GoTime GoStrings GoJson Protocol Counter Sessions Store Sad Ecc External World Handlers Jws Opaque Webauthn Token Service Fido2 Dispatcher Toy Access Concurrent Calls.
Local Open Scope prog_scope.

Section Invariant.
Context {St H : Type} `{Env, Store St, GoCrypto, Jose, OpaqueLib, HkdfLib}.
Local Abbreviation W := (World St H).
Context (d : Dispatcher St H).
Local Abbreviation P := (prog W bytes).

(** The ID of the session a draw of randomness gives. *)
Definition session_name (n : nat) : string := URLEncodeToString (rand n 32).

(** The first [n] draws give different IDs: what 32 random bytes are for. *)
Definition distinct_names (n : nat) : Prop :=
  forall i j, i < n -> j < n -> session_name i = session_name j -> i = j.

(** *** What one request may do

    [macs] records the client MAC of every session ever created, [own] the
    draw of a request that has drawn an ID and not yet created its session. *)

Local Abbreviation ghost := (gmap string bytes).

Definition world_ok (macs : ghost) (w : W) : Prop :=
  session_inv d w /\
  (forall id s, w_sessions w !! id = Some s -> macs !! id = Some (s_ClientMAC s)) /\
  (forall id, is_Some (macs !! id) -> exists n, n < w_draw w /\ id = session_name n).

(** All of it up to [bound] draws, whose IDs are different. *)
Context (bound : nat) (Hnames : distinct_names bound).

Definition owns (macs : ghost) (w : W) (n : nat) : Prop := n < w_draw w /\ macs !! session_name n = None.

(** What a call does to them: nothing, a draw, or the creation of the session. *)
Inductive effect (macs : ghost) (w : W) : option nat -> ghost -> option nat -> Prop :=
| eff_none own : effect macs w own macs own
| eff_draw : effect macs w None macs (Some (w_draw w))
| eff_create n mac : effect macs w (Some n) (<[session_name n := mac]> macs) None.

Definition future (macs : ghost) (w : W) (macs' : ghost) (w' : W) : Prop := macs ⊆ macs' /\ later w w'.

(** From any later state that the others leave, every call of the request
    keeps the invariant. *)
Fixpoint good {A} (p : prog W A) (macs : ghost) (w : W) (own : option nat) : Prop :=
  match p with
  | Done _ => True
  | Step a k =>
      forall macs1 w1, future macs w macs1 w1 -> world_ok macs1 w1 ->
        (forall n, own = Some n -> owns macs1 w1 n) -> w_draw (a w1).1 <= bound ->
        exists macs2 own2, effect macs1 w1 own macs2 own2 /\ future macs1 w1 macs2 (a w1).1 /\
          world_ok macs2 (a w1).1 /\ (forall n, own2 = Some n -> owns macs2 (a w1).1 n) /\
          good (k (a w1).2) macs2 (a w1).1 own2
  end.

Lemma future_trans macs w macs1 w1 macs2 w2 :
  future macs w macs1 w1 -> future macs1 w1 macs2 w2 -> future macs w macs2 w2.
Proof. intros [? ?] [? ?]. split; by etrans. Qed.

Lemma good_mono {A} (p : prog W A) macs w macs' w' own :
  future macs w macs' w' -> good p macs w own -> good p macs' w' own.
Proof.
  destruct p as [o|X a k]; [done|]. intros Hf Hg macs1 w1 Hf1. apply Hg. by eapply future_trans.
Qed.

(** *** Calls that leave the sessions alone *)

Definition frame (w w' : W) : Prop := w_sessions w' = w_sessions w /\ later w w'.

#[local] Instance frame_allows : Allows frame.
Proof.
  split.
  - split; unfold frame, later; repeat intro; intuition (congruence || lia).
  - unfold Quiet, quiet, frame. tauto.
  - by split; [|unfold later].
  - by split; [|unfold later].
  - by split; [|unfold later].
Qed.

Lemma backend_frame (w w' : W) : backend_only w w' -> frame w w'.
Proof. unfold backend_only, frame. tauto. Qed.

Lemma owns_frame macs w w' n : later w w' -> owns macs w n -> owns macs w' n.
Proof. intros [_ Hd] [? ?]. split; [lia|done]. Qed.

Lemma world_ok_frame macs w w' : frame w w' -> world_ok macs w -> world_ok macs w'.
Proof.
  intros [Hs Hl] (Hi & Hm & Hn). split_and!.
  - by apply (K_frame d w w').
  - by rewrite Hs.
  - intros id Hid. destruct (Hn id Hid) as (n & Hlt & ->). exists n. split; [|done]. destruct Hl. lia.
Qed.

(** A request that leaves the sessions alone throughout. *)
Local Abbreviation calm := (calls_in frame).

Lemma good_calm {A} (p : prog W A) macs w own : calm p -> good p macs w own.
Proof.
  revert macs w. induction p as [o|X a k IH]; [done|]. intros macs w [Ha Hk] macs1 w1 Hf Hok Ho Hb.
  exists macs1, own. split_and!; [constructor|split; [done|apply Ha]|by apply (world_ok_frame macs1 w1)| |].
  - intros n Hn. apply (owns_frame macs1 w1); [apply Ha|by apply Ho].
  - by apply IH.
Qed.

Lemma good_bind_calm {A B} (p : prog W A) (k : A -> prog W B) macs w own :
  calm p -> (forall x, good (k x) macs w own) -> good (pbind p k) macs w own.
Proof.
  intros Hp Hk. revert macs w Hk. induction p as [o|X a k' IH]; intros macs w Hk.
  { simpl. destruct o; [apply Hk|done..]. }
  destruct Hp as [Ha Hk']. intros macs1 w1 Hf Hok Ho Hb.
  exists macs1, own. split_and!; [constructor|split; [done|apply Ha]|by apply (world_ok_frame macs1 w1)| |].
  - intros n Hn. apply (owns_frame macs1 w1); [apply Ha|by apply Ho].
  - apply IH; [done|]. intros x. apply (good_mono _ macs w); [|apply Hk].
    eapply future_trans; [exact Hf|split; [done|apply Ha]].
Qed.

Lemma good_frame {A B} (a : M W R2PSError A) (k : A -> prog W B) macs w own :
  steps frame a -> (forall x, good (k x) macs w own) -> good (pbind (act a) k) macs w own.
Proof. intros Ha. apply good_bind_calm. by split. Qed.

(** *** Calls on the sessions *)

Lemma good_RandomBytes {B} (k : bytes -> prog W B) macs w :
  (forall n w', good (k (rand n 32)) macs w' (Some n)) ->
  good (pbind (act (RandomBytes 32)) k) macs w None.
Proof.
  intros Hk macs1 w1 [Hm Hl] Hok _ Hb. set (w2 := (RandomBytes (E := R2PSError) 32 w1).1).
  assert (frame w1 w2) as Hfr by (apply steps_RandomBytes; apply _).
  exists macs1, (Some (w_draw w1)). split_and!; [constructor|by split; [|apply Hfr]| | |].
  - by apply (world_ok_frame macs1 w1).
  - intros n [= <-]. split; [simpl; lia|]. destruct (macs1 !! _) eqn:E; [|done]. exfalso.
    destruct Hok as (_ & _ & Hn). destruct (Hn _ (mk_is_Some _ _ E)) as (n & Hlt & Heq).
    simpl in Hb. apply Hnames in Heq; lia.
  - simpl. apply (good_mono _ macs w2); [by split|apply Hk].
Qed.

Lemma good_Now {B} (k : Time -> prog W B) macs w own :
  (forall i w', i < w_tick w' -> good (k (clock i)) macs w' own) ->
  good (pbind (act Now) k) macs w own.
Proof.
  intros Hk macs1 w1 [Hm Hl] Hok Ho Hb. set (w2 := (Now (E := R2PSError) w1).1).
  assert (frame w1 w2) as Hfr by (apply steps_Now; apply _).
  exists macs1, own. split_and!; [constructor|by split; [|apply Hfr]| | |].
  - by apply (world_ok_frame macs1 w1).
  - intros n Hn. apply (owns_frame macs1 w1); [apply Hfr|by apply Ho].
  - simpl. apply (good_mono _ macs w2); [by split|]. apply Hk. simpl. lia.
Qed.

Lemma session_inv_Create s (w w' : W) :
  session_inv d w -> session_bounded d w s -> (s_Verified s = true -> session_proved d s) ->
  w' = set_sessions (<[s_ID s := s]> (w_sessions w)) w -> session_inv d w'.
Proof.
  intros [Hok Hi] Hs Hv ->. split; intros id x; simpl; rewrite lookup_insert_Some.
  - intros [[<- <-]|[_ Hx]]; [done|by apply Hok].
  - intros [[<- <-]|[_ Hx]]; [by split|]. exact (Hi id x Hx).
Qed.

Lemma good_Create {B} (s : Session) (k : unit -> prog W B) macs w n :
  s_ID s = session_name n -> (s_Verified s = true -> session_proved d s) -> session_bounded d w s -> (forall u, calm (k u)) ->
  good (pbind (act (sessions_Create s)) k) macs w (Some n).
Proof.
  intros Hid Hv Hs Hk macs1 w1 [Hm Hl] Hok Ho Hb. destruct (Ho n eq_refl) as [Hn Hnone].
  destruct Hok as (Hi & Hmacs & Hdraws).
  assert (w_sessions w1 !! s_ID s = None) as Hfree.
  { destruct (w_sessions w1 !! s_ID s) eqn:E; [|done]. apply Hmacs in E. rewrite Hid in E. congruence. }
  assert (sessions_Create (St := St) (H := H) s w1 =
            (set_sessions (<[s_ID s := s]> (w_sessions w1)) w1, Ok tt)) as Hc.
  { unfold sessions_Create, or_refuse, with_err, on_sessions, zoom, Create. by rewrite Hfree. }
  rewrite Hc. cbn [fst snd]. set (w2 := set_sessions _ w1).
  exists (<[session_name n := s_ClientMAC s]> macs1), None.
  assert (later w1 w2) as Hl2 by (unfold later; simpl; lia).
  split_and!; [constructor|split; [by apply insert_subseteq|done]| |done|].
  - split_and!.
    + apply (session_inv_Create s w1); [done| |done|done]. exact (session_bounded_later d w w1 s Hl Hs).
    + intros id x. simpl. rewrite lookup_insert_Some. intros [[<- <-]|[Hne Hx]].
      * by rewrite Hid, lookup_insert_eq.
      * rewrite lookup_insert_ne by (rewrite <-Hid; done). by apply Hmacs.
    + intros id. rewrite lookup_insert_is_Some'. intros [<-|Hx]; [by exists n|]. by apply Hdraws.
  - simpl. by apply good_calm.
Qed.

Lemma good_Get {B} id (k : option Session -> prog W B) macs w own :
  good (k None) macs w own ->
  (forall s macs' w', future macs w macs' w' -> macs' !! id = Some (s_ClientMAC s) -> good (k (Some s)) macs' w' own) ->
  good (pbind (act (sessions_Get id)) k) macs w own.
Proof.
  intros Hn Hs macs1 w1 Hf Hok Ho Hb. set (w2 := (sessions_Get (St := St) (H := H) id w1).1).
  assert (frame w1 w2) as Hfr by (split; [done|unfold later; simpl; lia]).
  assert (future macs w macs1 w2) as Hf2 by (eapply future_trans; [exact Hf|by split; [|apply Hfr]]).
  exists macs1, own. split_and!; [constructor|by split; [|apply Hfr]|by eapply world_ok_frame| |].
  - intros n Hn'. apply (owns_frame macs1 w1); [apply Hfr|by apply Ho].
  - simpl. destruct (Get _ id _) as [s|] eqn:Hg; [|by apply (good_mono _ macs w)].
    apply Hs; [done|]. destruct Hok as (_ & Hmacs & _). apply Hmacs.
    unfold Get in Hg. repeat case_match; naive_solver.
Qed.

Lemma good_Delete {B} id (k : unit -> prog W B) macs w own :
  good (k tt) macs w own -> good (pbind (act (sessions_Delete id)) k) macs w own.
Proof.
  intros Hk macs1 w1 Hf Hok Ho Hb. set (w2 := (sessions_Delete (St := St) (H := H) id w1).1).
  destruct Hok as (Hi & Hmacs & Hdraws).
  assert (later w1 w2) as Hl by (unfold later; simpl; lia).
  exists macs1, own. split_and!; [constructor|by split| | |].
  - split_and!; [by apply (steps_sessions_Delete d id w1)| |].
    + intros id' s. simpl. unfold Delete. rewrite lookup_delete_Some. intros [_ Hs]. by apply Hmacs.
    + intros id' Hid. by apply Hdraws.
  - intros n Hn. by apply (owns_frame macs1 w1), Ho.
  - simpl. apply (good_mono _ macs w); [|done]. by eapply future_trans.
Qed.

(** Here interference matters: the session the proof was checked for may be
    gone, but no other one is under its ID. *)
Lemma good_MarkVerified {B} id mac ke3 (k : unit -> prog W B) macs w own :
  macs !! id = Some mac -> LoginFinish (os_server (d_opaque d)) ke3 mac = true ->
  (forall u, calm (k u)) ->
  good (pbind (act (sessions_MarkVerified id)) k) macs w own.
Proof.
  intros Hmac Hp Hk macs1 w1 Hf Hok Ho Hb. destruct Hok as (Hi & Hmacs & Hdraws).
  set (w2 := (sessions_MarkVerified (St := St) (H := H) id w1).1).
  assert (forall id', w_sessions w2 !! id' =
            if bool_decide (id' = id) then set_Verified <$> w_sessions w1 !! id' else w_sessions w1 !! id') as Hl.
  { intros id'. rewrite <-lookup_MarkVerified. unfold w2, sessions_MarkVerified, or_refuse, with_err, on_sessions, zoom.
    by destruct (MarkVerified id (w_sessions w1)). }
  assert (later w1 w2 /\ w_draw w2 = w_draw w1) as [Hlat Hdraw].
  { unfold later, w2, sessions_MarkVerified, or_refuse, with_err, on_sessions, zoom.
    destruct (MarkVerified id (w_sessions w1)). simpl. lia. }
  exists macs1, own. split_and!; [constructor|by split| | |].
  - split_and!.
    + apply (inv_MarkVerified d id w1); [|done]. intros s Hs. apply Hmacs in Hs.
      rewrite (lookup_weaken _ _ _ _ Hmac (proj1 Hf)) in Hs. injection Hs as ->. left. by exists ke3.
    + intros id' s. rewrite Hl. case_bool_decide; [|apply Hmacs].
      destruct (w_sessions w1 !! id') as [x|] eqn:E; [|done]. intros [= <-]. by apply Hmacs in E.
    + intros id' Hid. rewrite Hdraw. by apply Hdraws.
  - intros n Hn. by apply (owns_frame macs1 w1), Ho.
  - destruct (sessions_MarkVerified id w1).2 as [u|e|p]; simpl; [by apply good_calm|done..].
Qed.
(** *** The requests *)

Context (Hwired : wired d).

Lemma frame_records_Get c x : steps frame (rs_GetRecord (d_records d) c x).
Proof. eapply steps_mono; [apply backend_frame|]. apply Hwired. Qed.
Lemma frame_records_Put c x r : steps frame (rs_PutRecord (d_records d) c x r).
Proof. eapply steps_mono; [apply backend_frame|]. apply Hwired. Qed.
Lemma frame_handler t h c data : d_handlers d !! t = Some h -> steps frame (h_Handle h c data).
Proof. intros Ht. eapply steps_mono; [apply backend_frame|]. by eapply Hwired. Qed.

#[local] Hint Resolve frame_records_Get frame_records_Put frame_handler : steps.

Lemma calm_regFinalize req b : calm (regFinalize_p d req b).
Proof. apply calls_regFinalize; [apply _|]. intros. apply frame_records_Put. Qed.

Lemma calm_handleService req : calm (handleService_p d req).
Proof. apply calls_handleService; [apply _|]. intros. by eapply frame_handler. Qed.

Lemma good_authEvaluate req tfa b macs w : good (authEvaluate_p d req tfa b) macs w None.
Proof.
  unfold authEvaluate_p. apply good_frame; [eauto with steps typeclass_instances|intros _].
  apply good_frame; [eauto with steps typeclass_instances|intros record].
  apply good_frame; [apply steps_Draw; apply _|intros draw].
  apply good_frame; [steps_auto|intros [[ke2Bytes clientMAC] sessionSecret]].
  apply good_RandomBytes. intros n w1. apply good_Now. intros i w2 Hi.
  apply good_Create; [done|done| |intros _; calls].
  exists i, (session_ttl d tfa). split; [done|]. split; [apply session_ttl_le|done].
Qed.

Lemma good_authFinalize req b macs w : good (authFinalize_p d req b) macs w None.
Proof.
  unfold authFinalize_p. apply good_Get; [done|]. intros s macs1 w1 _ Hmac.
  destruct (AuthFinalize _ _ _) as [u|e|p] eqn:Ha; [| |done].
  - apply AuthFinalize_Ok in Ha as (ke3 & _ & Hke3).
    apply good_frame; [eauto with steps typeclass_instances|intros _].
    apply (good_MarkVerified _ _ _ _ _ _ _ Hmac Hke3). intros _. calls.
  - apply good_frame; [eauto with steps typeclass_instances|intros _].
    apply good_Delete, good_calm. calls.
Qed.

Lemma good_fido2AuthFinalize f req tfa macs w :
  d_fido2 d = Some f -> good (fido2AuthFinalize_p d f req tfa) macs w None.
Proof.
  intros Hf. unfold fido2AuthFinalize_p, open_fido2_session_p.
  apply good_frame; [eauto with steps typeclass_instances|intros r].
  apply good_frame; [steps_auto|intros tokenBytes].
  apply good_frame; [eauto with steps typeclass_instances|intros token].
  do 4 (apply good_frame; [steps_auto|intros ?]).
  apply good_bind_calm; [apply calls_check_assertion; apply _|intros _].
  apply good_frame; [eauto with steps typeclass_instances|intros [serverEpub key]].
  apply good_RandomBytes. intros n w1. apply good_Now. intros i w2 Hi.
  apply good_Create; [done| | |intros _; calls].
  - intros _. right. by rewrite Hf.
  - exists i, (d_sessionTTL d). by split.
Qed.

Lemma good_handleFIDO2 req tfa macs w : good (handleFIDO2_p d req tfa) macs w None.
Proof.
  unfold handleFIDO2_p. destruct (d_fido2 d) as [f|] eqn:Hf; [|done].
  repeat case_match; try done; try by (apply good_calm; calls).
  by apply good_fido2AuthFinalize.
Qed.

Lemma good_handle2FA req macs w : good (handle2FA_p d req) macs w None.
Proof.
  unfold handle2FA_p. destruct (Unmarshal_TFARequestData _) as [tfa|]; [|done].
  destruct (bool_decide _); [apply good_handleFIDO2|]. destruct (negb _); [done|].
  apply good_frame; [steps_auto|intros b].
  repeat case_match; try (apply good_calm; calls; fail);
    auto using good_authEvaluate, good_authFinalize, good_calm, calm_regFinalize.
Qed.

Lemma good_Process body macs w : good (Process_p d body) macs w None.
Proof.
  unfold Process_p, route_p. apply good_frame; [steps_auto|intros req].
  repeat case_match; auto using good_handle2FA, good_calm, calm_handleService.
  apply good_frame; [eauto with steps typeclass_instances|intros _]. apply good_handle2FA.
Qed.

(** *** Readings and draws only grow *)

#[local] Instance later_allows : Allows (later (St := St) (H := H)).
Proof. split; try apply _; done. Qed.

#[local] Instance later_sessions : AllowsSessions (later (St := St) (H := H)).
Proof. done. Qed.

Local Abbreviation grows := (calls_in (later (St := St) (H := H))).

Lemma frame_later {A E'} (a : M W E' A) : steps frame a -> steps later a.
Proof. intros Ha. eapply steps_mono; [|exact Ha]. by intros w w' [_ Hl]. Qed.

Lemma grows_Process body : grows (Process_p d body).
Proof. apply calls_Process; try apply _; intros; apply frame_later; eauto with steps. Qed.

(** ** The invariant of the whole *)

(** [ow] is the draw each request owns; no two own the same. *)
Definition config_ok (c : config) : Prop :=
  exists macs (ow : nat -> option nat),
    world_ok macs (c_world c) /\
    (forall i p, c_requests c !! i = Some p -> good p macs (c_world c) (ow i)) /\
    (forall i n, ow i = Some n -> owns macs (c_world c) n) /\
    (forall i j n, ow i = Some n -> ow j = Some n -> i = j).

Definition requests_grow (c : config) : Prop :=
  forall i p, c_requests c !! i = Some p -> grows p.

Lemma cstep_grows c c' :
  cstep d c c' -> requests_grow c -> requests_grow c' /\ later (c_world c) (c_world c').
Proof.
  intros Hs Hg. destruct Hs as [i body w ts Hi|X i a k w ts Hi|i o w ts Hi|w ts]; simpl.
  - split; [|done]. intros j p. simpl. rewrite lookup_insert_Some.
    intros [[_ <-]|[_ Hp]]; [apply grows_Process|by apply (Hg j)].
  - destruct (Hg i _ Hi) as [Ha Hk]. split; [|apply Ha]. intros j p. simpl. rewrite lookup_insert_Some.
    intros [[_ <-]|[_ Hp]]; [apply Hk|by apply (Hg j)].
  - split; [|done]. intros j p. simpl. rewrite lookup_delete_Some. intros [_ Hp]. by apply (Hg j).
  - split; [by intros j p Hp; apply (Hg j)|].
    unfold cleanup_tick, bind, later. simpl. destruct (CleanExpired _ _). case_match; simpl; lia.
Qed.

Lemma growing c c' : requests_grow c -> rtc (cstep d) c c' -> w_draw (c_world c) <= w_draw (c_world c').
Proof.
  intros Hg Hr. revert Hg. induction Hr as [c|c1 c2 c3 Hs _ IH]; [done|]. intros Hg.
  destruct (cstep_grows _ _ Hs Hg) as [Hg2 [_ Hl]]. etrans; [exact Hl|by apply IH].
Qed.

Lemma tick_ok macs (w : W) : world_ok macs w -> world_ok macs (cleanup_tick w).1.
Proof.
  intros (Hi & Hm & Hn).
  assert (w_draw (cleanup_tick w).1 = w_draw w /\
          w_sessions (cleanup_tick w).1 = (CleanExpired (clock (w_tick w)) (w_sessions w)).1) as [Hd Hs].
  { unfold cleanup_tick, bind. simpl. destruct (CleanExpired _ _). by case_match. }
  split_and!; [by apply (steps_cleanup d)| |].
  - intros id s. rewrite Hs. destruct (CleanExpired_spec (clock (w_tick w)) (w_sessions w)) as [-> _].
    destruct (w_sessions w !! id) as [x|] eqn:E; [|done]. case_match; [done|]. intros [= <-]. by apply Hm.
  - intros id Hid. rewrite Hd. by apply Hn.
Qed.

(** What an effect leaves to the other requests. *)
Lemma owns_others macs w own macs' own' w' n :
  effect macs w own macs' own' -> later w w' -> w_draw w' <= bound ->
  (forall n', own = Some n' -> owns macs w n' /\ n' <> n) -> owns macs w n -> owns macs' w' n.
Proof.
  intros He [_ Hd] Hb Ho [Hn Hnone]. split; [lia|].
  destruct He as [|  |n' mac]; [done|done|].
  destruct (Ho n' eq_refl) as [[Hn' _] Hne]. rewrite lookup_insert_ne; [done|].
  intros Heq. apply Hnames in Heq; [done|lia..].
Qed.

(** A request owns what it owned, or nothing, or its new draw. *)
Lemma effect_own macs w own macs' own' n :
  effect macs w own macs' own' -> own' = Some n -> own = Some n \/ n = w_draw w.
Proof. intros []; naive_solver. Qed.

Lemma call_ok X i (a : M W R2PSError X) k w ts :
  ts !! i = Some (Step a k) -> config_ok (mkConfig w ts) -> w_draw (a w).1 <= bound ->
  config_ok (mkConfig (a w).1 (<[i := k (a w).2]> ts)).
Proof.
  intros Hi (macs & ow & Hw & Hg & Ho & Hdj) Hb. cbn [c_world c_requests] in *.
  destruct (Hg i _ Hi macs w ltac:(done) Hw (Ho i) Hb) as (macs2 & own2 & He & Hf & Hw2 & Ho2 & Hk).
  exists macs2, (fun j => if decide (j = i) then own2 else ow j). cbn [c_world c_requests].
  split_and!; [done| | |].
  - intros j p. rewrite lookup_insert_Some. intros [[<- <-]|[Hne Hp]].
    + by rewrite decide_True.
    + rewrite decide_False by done. by apply (good_mono _ macs w), Hg.
  - intros j n. case_decide as Hj; [apply Ho2|]. intros Hn.
    apply (owns_others macs w (ow i) macs2 own2); [done|apply Hf|done| |by apply (Ho j)].
    intros n' Hn'. split; [by apply (Ho i)|]. intros ->. by apply Hj, (Hdj j i n).
  - assert (forall j n, j <> i -> ow j = Some n -> own2 <> Some n) as Hfresh.
    { intros j n Hj Hn Hn2. destruct (effect_own _ _ _ _ _ n He Hn2) as [Hn'| ->].
      - by apply Hj, (Hdj j i n).
      - destruct (Ho j _ Hn) as [Hlt _]. lia. }
    intros j j' n. repeat case_decide; subst; try done.
    + intros Hn Hn'. by destruct (Hfresh j' n).
    + intros Hn Hn'. by destruct (Hfresh j n).
    + by apply Hdj.
Qed.

Lemma cstep_ok c c' : cstep d c c' -> w_draw (c_world c') <= bound -> config_ok c -> config_ok c'.
Proof.
  intros Hs Hb Hc. destruct Hs as [i body w ts Hi|X i a k w ts Hi|i o w ts Hi|w ts].
  - destruct Hc as (macs & ow & Hw & Hg & Ho & Hdj). cbn [c_world c_requests] in *.
    exists macs, (fun j => if decide (j = i) then None else ow j). cbn [c_world c_requests].
    split_and!; [done| | |].
    + intros j p. rewrite lookup_insert_Some. intros [[<- <-]|[Hne Hp]].
      * rewrite decide_True by done. apply good_Process.
      * rewrite decide_False by done. by apply Hg.
    + intros j n. case_decide; [done|apply Ho].
    + intros j j' n. repeat case_decide; [done..|apply Hdj].
  - by apply call_ok.
  - destruct Hc as (macs & ow & Hw & Hg & Ho & Hdj). exists macs, ow. cbn [c_world c_requests] in *.
    split_and!; [done| |done|done]. intros j p. rewrite lookup_delete_Some. intros [_ Hp]. by apply Hg.
  - destruct Hc as (macs & ow & Hw & Hg & Ho & Hdj). cbn [c_world c_requests] in *.
    assert (later w (cleanup_tick w).1) as Hl.
    { unfold cleanup_tick, bind, later. simpl. destruct (CleanExpired _ _). case_match; simpl; lia. }
    exists macs, ow. cbn [c_world c_requests]. split_and!; [by apply tick_ok| | |done].
    + intros j p Hp. apply (good_mono _ macs w); [by split|by apply Hg].
    + intros j n Hn. by apply (owns_frame macs w), (Ho j).
Qed.

Lemma reachable_config_ok c c' :
  config_ok c -> requests_grow c -> rtc (cstep d) c c' -> w_draw (c_world c') <= bound -> config_ok c'.
Proof.
  intros Hc Hg Hr Hb. revert Hc Hg. induction Hr as [c|c1 c2 c3 Hs Hr IH]; [done|]. intros Hc Hg.
  destruct (cstep_grows _ _ Hs Hg) as [Hg2 Hl]. apply IH; [done| |done].
  apply (cstep_ok _ _ Hs); [|done]. etrans; [|exact Hb]. by apply growing.
Qed.

Lemma initial_ok (w0 : W) : w_sessions w0 = ∅ -> config_ok (mkConfig w0 ∅).
Proof.
  intros H0'. exists ∅, (fun _ => None). split_and!; [|by intros i p|done|done]. split_and!.
  - split; cbn [c_world]; rewrite H0'; [apply sessions_ok_empty|]. intros id s. by rewrite lookup_empty.
  - cbn [c_world]. rewrite H0'. intros id s. by rewrite lookup_empty.
  - intros id. rewrite lookup_empty. by intros [].
Qed.
End Invariant.

(** ** Properties *)

Section Property.
Context {St H : Type} `{Env, Store St, GoCrypto, Jose, OpaqueLib, HkdfLib}.
Context (d : Dispatcher St H).

End Property.

(** *** The toy deployment's overlapping logins *)

Lemma distinct_names_NoDup `{Env} n : NoDup (session_name <$> seq 0 n) -> distinct_names n.
Proof.
  intros Hd i j Hi Hj Heq. eapply NoDup_lookup; [exact Hd| |];
    rewrite list_lookup_fmap, lookup_seq_lt by done; simpl; [done|by rewrite Heq].
Qed.

(** The first session is verified, the second is gone. *)
Local Abbreviation first_session := (w_sessions (c_world after_two_logins) !! session_name 3).

Lemma first_verified : s_Verified <$> first_session = Some true.
Proof. vm_compute. reflexivity. Qed.

Example second_gone : w_sessions (c_world after_two_logins) !! session_name 4 = None.
Proof. vm_compute. reflexivity. Qed.

Lemma two_logins_draws : w_draw (c_world after_two_logins) = 8.
Proof. vm_compute. reflexivity. Qed.

Lemma toy_names : distinct_names 8.
Proof. apply distinct_names_NoDup. apply (bool_decide_eq_true_1 (NoDup _)). vm_compute. reflexivity. Qed.

Lemma two_logins_reach : rtc (cstep (toy_dispatcher None)) (mkConfig toy_world ∅) after_two_logins.
Proof. apply schedule_steps. Qed.

#[local] Opaque after_two_logins.

Lemma two_logins_names : distinct_names (w_draw (c_world after_two_logins)).
Proof. rewrite two_logins_draws. exact toy_names. Qed.

Lemma first_session_verified : exists s, first_session = Some s /\ s_Verified s = true.
Proof.
  pose proof first_verified as Hv. revert Hv. generalize first_session. intros [s|] Hv; [|discriminate Hv].
  exists s. split; [reflexivity|]. by injection Hv.
Qed.

