(* ===== verification/OverlapGuard.v ===== *)
(** * The guard of the services, with overlapping requests

    Between the moment a request finds its session and the moment its
    handler uses the HSM other requests run.  Here a history of the states
    is kept: when a call changes the HSM, its request had been accepted, and
    later had found a live, verified session of its context whose activation
    data allow the hash. *)

From S2P Require Import Prelude GoTime GoStrings GoJson Protocol Counter Sessions Store Sad Ecc External World Handlers Jws Opaque Webauthn Token Service Fido2 Dispatcher Toy Access Concurrent Calls.
Local Open Scope prog_scope.

Section Entitled.
Context {St H : Type} `{Env, Store St, GoCrypto, Jose, OpaqueLib, HkdfLib}.
Local Abbreviation W := (World St H).
Context (d : Dispatcher St H).
Local Abbreviation P := (prog W bytes).

(** The states an execution has gone through, newest first. *)
Inductive trace (c0 : config) : list W -> config -> Prop :=
| trace_start : trace c0 [c_world c0] c0
| trace_step hist c c' : trace c0 hist c -> cstep d c c' -> trace c0 (c_world c' :: hist) c'.

Lemma trace_of c0 c : rtc (cstep d) c0 c -> exists hist, trace c0 hist c.
Proof.
  intros Hr. refine (rtc_ind_r (fun c => exists hist, trace c0 hist c) c0 _ _ c Hr).
  - eexists. constructor.
  - intros c1 c2 _ Hs [hist Ht]. eexists. by econstructor.
Qed.

(** A request accepted in the past, and later in the past found entitled. *)
Definition entitled (hist : list W) (req : ServiceRequest) (h : Handler St H) : Prop :=
  exists body s v v0 after before,
    hist = after ++ v :: before /\ v0 ∈ before /\
    (accept_request d body v0).2 = Ok req /\
    d_handlers d !! sr_Type req = Some h /\ h_Mode h <> Mode1FA /\
    usable_session (clock (w_tick v)) (w_sessions v) req s /\ sad_allows req s.

Lemma entitled_later hist hist' req h : hist `suffix_of` hist' -> entitled hist req h -> entitled hist' req h.
Proof.
  intros [l ->] (body & s & v & v0 & after & before & -> & Hr). exists body, s, v, v0, (l ++ after), before.
  split; [|done]. by rewrite <-app_assoc.
Qed.

(** Every call that changes the HSM is the handler of an entitled request. *)
Fixpoint guarded {A} (p : prog W A) (hist : list W) : Prop :=
  match p with
  | Done _ => True
  | Step a k =>
      forall w t, hist `suffix_of` w :: t ->
        (w_hsm (a w).1 <> w_hsm w ->
           exists req h, entitled (w :: t) req h /\
             w_hsm (a w).1 = w_hsm (h_Handle h (sr_ClientID req) (sr_Data req) w).1) /\
        guarded (k (a w).2) ((a w).1 :: w :: t)
  end.

Lemma guarded_later {A} (p : prog W A) hist hist' : hist `suffix_of` hist' -> guarded p hist -> guarded p hist'.
Proof. destruct p as [o|X a k]; [done|]. intros Hs Hg w t Ht. apply Hg. by etrans. Qed.

(** *** Requests that do not touch the HSM *)

Local Abbreviation keeps_hsm := (same (w_hsm (St := St) (H := H))).

#[local] Instance keeps_hsm_allows : Allows keeps_hsm.
Proof. split; try apply _; try done. intros w w' Hq. apply Hq. Qed.

#[local] Instance keeps_hsm_sessions : AllowsSessions keeps_hsm.
Proof. done. Qed.

Lemma guarded_calls {A} (p : prog W A) hist : calls_in keeps_hsm p -> guarded p hist.
Proof.
  revert hist. induction p as [o|X a k IH]; [done|]. intros hist [Ha Hk] w t Hs.
  split; [|by apply IH]. intros Hne. by destruct (Hne (Ha w)).
Qed.

Lemma guarded_bind {A B} (a : M W R2PSError A) (k : A -> prog W B) hist :
  steps keeps_hsm a ->
  (forall w t x, hist `suffix_of` w :: t -> (a w).2 = Ok x -> guarded (k x) ((a w).1 :: w :: t)) ->
  guarded (pbind (act a) k) hist.
Proof.
  intros Ha Hk w t Hs. split; [intros Hne; by destruct (Hne (Ha w))|].
  simpl. specialize (Hk w t). destruct (a w).2 as [x|e|p]; [by apply Hk|done..].
Qed.

(** *** The requests *)

Context (Hget : forall c x, steps keeps_hsm (rs_GetRecord (d_records d) c x))
        (Hput : forall c x r, steps keeps_hsm (rs_PutRecord (d_records d) c x r)).
(** The services without a second factor, and the reading of the records,
    leave the HSM alone. *)
Context (H1FA : forall t h, d_handlers d !! t = Some h -> h_Mode h = Mode1FA ->
  forall c data, steps keeps_hsm (h_Handle h c data)).

Lemma calls_service_1FA req h :
  d_handlers d !! sr_Type req = Some h -> h_Mode h = Mode1FA -> calls_in keeps_hsm (handleService_p d req).
Proof.
  intros Hh Hm. unfold handleService_p. rewrite Hh, bool_decide_true by done. cbn [negb pbind on_value].
  pose proof (H1FA _ _ Hh Hm). calls.
Qed.

Lemma entitled_now w0 hist body req h s w t :
  w0 ∈ hist -> hist `suffix_of` t -> (accept_request d body w0).2 = Ok req ->
  d_handlers d !! sr_Type req = Some h -> h_Mode h <> Mode1FA ->
  usable_session (clock (w_tick w)) (w_sessions w) req s -> sad_allows req s -> entitled (w :: t) req h.
Proof.
  intros Hw0 [l ->] Ha Hh Hm Hs Hsad. exists body, s, w, w0, [], (l ++ hist).
  split_and!; try done. apply elem_of_app. by right.
Qed.

Lemma guarded_service body req w0 w1 t0 :
  (accept_request d body w0).2 = Ok req -> guarded (handleService_p d req) (w1 :: w0 :: t0).
Proof.
  intros Ha. destruct (d_handlers d !! sr_Type req) as [h|] eqn:Hh; [|unfold handleService_p; by rewrite Hh].
  destruct (decide (h_Mode h = Mode1FA)) as [Hm|Hm].
  { apply guarded_calls. by eapply calls_service_1FA. }
  unfold handleService_p. rewrite Hh, bool_decide_false by done. cbn [negb].
  intros w t Hs. split.
  { intros Hne. destruct Hne. apply (allowed_verified_session keeps_hsm). }
  destruct (verified_session_run req w) as [(s & Hus & Hrun)|(e & Hrun & _)]; rewrite Hrun; [|done].
  simpl. intros w2 t2 Hs2. destruct (check_sad_run req s w2) as [[Hsad Hc]|(e & Hc & _)];
    rewrite Hc; (split; [done|]); [|done].
  simpl. intros w3 t3 Hs3. split.
  - intros _. exists req, h. split.
    + apply (entitled_later (w :: t)).
      * etrans; [|exact Hs3]. etrans; [|apply suffix_cons_r; reflexivity].
        etrans; [|exact Hs2]. apply suffix_cons_r. reflexivity.
      * destruct Hs as [l Hl]. destruct l as [|x l]; injection Hl as -> ->.
        -- eapply (entitled_now w0 (w0 :: t0)); try done. left.
        -- eapply (entitled_now w0 (w1 :: w0 :: t0)); try done; [right; left|by exists l].
    + unfold or_refuse, with_err. by destruct (h_Handle _ _ _ w3).
  - destruct (or_refuse _ _ _ w3).2 as [b|e|p]; [|done..]. apply guarded_calls. cbn [on_value]. calls.
Qed.

Lemma guarded_Process body hist : guarded (Process_p d body) hist.
Proof.
  unfold Process_p. apply guarded_bind; [apply allowed_accept_request; apply _|].
  intros w t req _ Ha. unfold route_p.
  pose proof (fun req => calls_handle2FA d keeps_hsm Hget Hput req) as Hc.
  repeat case_match; try by apply guarded_calls.
  - apply guarded_calls. calls; auto.
  - by apply guarded_service with body.
Qed.

Definition requests_guarded (hist : list W) (c : config) : Prop :=
  (exists t, hist = c_world c :: t) /\
  forall i p, c_requests c !! i = Some p -> guarded p hist.

Lemma trace_guarded c0 hist c : requests_guarded [c_world c0] c0 -> trace c0 hist c -> requests_guarded hist c.
Proof.
  intros H0'. induction 1 as [|hist c c' _ IH Hs]; [done|]. destruct IH as [[t ->] Hg].
  split; [by eexists|]. intros i p Hp.
  assert (forall p : P, guarded p (c_world c :: t) -> guarded p (c_world c' :: c_world c :: t)) as Hl.
  { intros p'. apply guarded_later, suffix_cons_r. reflexivity. }
  destruct Hs as [j body w ts Hj|X j a k w ts Hj|j o w ts Hj|w ts]; cbn [c_world c_requests] in *.
  - apply lookup_insert_Some in Hp as [[_ <-]|[_ Hp]]; [apply guarded_Process|by eapply Hl, Hg].
  - apply lookup_insert_Some in Hp as [[_ <-]|[_ Hp]]; [|by eapply Hl, Hg].
    apply (Hg j _ Hj w t). reflexivity.
  - apply lookup_delete_Some in Hp as [_ Hp]. by eapply Hl, Hg.
  - by eapply Hl, Hg.
Qed.

Lemma hsm_step hist c c' :
  requests_guarded hist c -> cstep d c c' -> w_hsm (c_world c') <> w_hsm (c_world c) ->
  exists req h, entitled hist req h /\
    w_hsm (c_world c') = w_hsm (h_Handle h (sr_ClientID req) (sr_Data req) (c_world c)).1.
Proof.
  intros [[t ->] Hg] Hs Hne.
  destruct Hs as [j body w ts Hj|X j a k w ts Hj|j o w ts Hj|w ts]; cbn [c_world c_requests] in *; try done.
  - by apply (Hg j _ Hj w t).
  - destruct Hne. unfold cleanup_tick, bind. simpl. destruct (CleanExpired _ _). by case_match.
Qed.
End Entitled.

(** ** Properties *)

Section Property.
Context {St H : Type} `{Env, Store St, GoCrypto, Jose, OpaqueLib, HkdfLib}.
Local Abbreviation W := (World St H).
Local Abbreviation keeps_hsm := (same (w_hsm (St := St) (H := H))).

(** C5: however requests overlap, a call changes the HSM only as the handler
    of a request that was accepted and later found a live, verified session
    of its context whose activation data allow the hash; the change is the
    one that handler makes to the HSM as it is then. *)
Theorem overlapping_service_guard (d : Dispatcher St H) (w0 : W) hist c c' :
  (forall c x, steps keeps_hsm (rs_GetRecord (d_records d) c x)) ->
  (forall c x r, steps keeps_hsm (rs_PutRecord (d_records d) c x r)) ->
  (forall t h, d_handlers d !! t = Some h -> h_Mode h = Mode1FA ->
     forall c data, steps keeps_hsm (h_Handle h c data)) ->
  trace d (mkConfig w0 ∅) hist c -> cstep d c c' -> w_hsm (c_world c') <> w_hsm (c_world c) ->
  exists req h, entitled d hist req h /\
    w_hsm (c_world c') = w_hsm (h_Handle h (sr_ClientID req) (sr_Data req) (c_world c)).1.
Proof.
  intros Hget Hput Hone Ht Hs Hne. apply (hsm_step d hist c c'); [|done|done].
  apply (trace_guarded d Hget Hput Hone _ _ _) in Ht; [done|].
  split; [by eexists|]. intros i p. cbn [c_requests]. by rewrite lookup_empty.
Qed.
End Property.

(** *** Two signatures at once *)

(** Two signing requests under the session of the login, each after its
    checks; the next call is the handler of the first. *)
Definition two_signatures : list event :=
  [Arrive 1 (body_of toy_sign); Arrive 2 (body_of toy_sign)] ++ rounds 3 [1; 2].

Definition before_signing : config :=
  fold_left (happens counting_dispatcher) two_signatures (mkConfig after_login ∅).
Definition after_signing : config := happens counting_dispatcher before_signing (Call 1).

(** Whether a request has a call to make. *)
Definition can_call {St H} (c : config (St := St) (H := H)) (i : nat) : bool :=
  match c_requests c !! i with Some (Step _ _) => true | _ => false end.

Lemma call_steps {St H} `{Env, Store St, GoCrypto, Jose, OpaqueLib, HkdfLib} (d : Dispatcher St H) c i :
  can_call c i = true -> cstep d c (happens d c (Call i)).
Proof.
  unfold can_call. destruct c as [w ts]. simpl. destruct (ts !! i) as [[o|X a k]|] eqn:E; [done| |done].
  intros _. pose proof (step_call d X i a k w ts E) as Hs. by destruct (a w).
Qed.

Lemma before_signing_ready : can_call before_signing 1 = true.
Proof. vm_compute. reflexivity. Qed.

Lemma before_signing_hsm : w_hsm (c_world before_signing) = 0.
Proof. vm_compute. reflexivity. Qed.

Lemma after_signing_hsm : w_hsm (c_world after_signing) = 1.
Proof. vm_compute. reflexivity. Qed.

Lemma before_signing_trace : exists hist, trace counting_dispatcher (mkConfig after_login ∅) hist before_signing.
Proof. apply trace_of, schedule_steps. Qed.

Lemma signing_step : cstep counting_dispatcher before_signing after_signing.
Proof. apply call_steps, before_signing_ready. Qed.

Lemma counting_second_factor t h c data :
  d_handlers counting_dispatcher !! t = Some h -> h_Mode h = Mode1FA ->
  steps (same (w_hsm (St := MemoryStore) (H := nat))) (h_Handle h c data).
Proof.
  cbn [d_handlers counting_dispatcher]. rewrite lookup_singleton_Some. intros [_ <-]. discriminate.
Qed.

Lemma counting_records :
  (forall c x, steps (same (w_hsm (St := MemoryStore) (H := nat))) (rs_GetRecord (d_records counting_dispatcher) c x)) /\
  (forall c x r, steps (same (w_hsm (St := MemoryStore) (H := nat))) (rs_PutRecord (d_records counting_dispatcher) c x r)).
Proof.
  assert (forall A (m : M MemoryStore error A), steps (same (w_hsm (H := nat))) (on_store (E := error) m)) as Hst.
  { intros A m. by apply steps_zoom. }
  split; intros; [|apply Hst]. cbn [rs_GetRecord d_records counting_dispatcher NewStoreRecordStore]. unfold StoreGetRecord.
  steps_auto.
Qed.

#[local] Opaque before_signing after_signing.

Lemma overlapping_service_guard_witness :
  w_hsm (c_world before_signing) = 0 /\ w_hsm (c_world after_signing) = 1 /\
  exists hist req h, entitled counting_dispatcher hist req h /\
    w_hsm (c_world after_signing) =
      w_hsm (h_Handle h (sr_ClientID req) (sr_Data req) (c_world before_signing)).1.
Proof.
  split; [exact before_signing_hsm|]. split; [exact after_signing_hsm|].
  destruct before_signing_trace as [hist Ht]. exists hist.
  apply (overlapping_service_guard counting_dispatcher after_login hist before_signing after_signing
           (proj1 counting_records) (proj2 counting_records)
           (fun t h Ht Hm c data => counting_second_factor t h c data Ht Hm) Ht signing_step).
  rewrite before_signing_hsm, after_signing_hsm. discriminate.
Defined.
