(* ===== verification/Flow.v ===== *)
(** * What a request may do to the store

    An invariant of the persistent store holds through everything a request
    does, if the service handlers keep it and it does not speak of OPAQUE
    records and WebAuthn credentials.  The dispatcher is also sound for it:
    where the invariant holds no request panics, if no handler does there. *)

From S2P Require Import Prelude GoTime GoStrings GoJson Protocol Counter Sessions Store Sad Ecc External World Handlers Jws Opaque Webauthn Token Service Fido2 Dispatcher Responses Access.
Local Open Scope Z_scope.

(** A fact of the store and the HSM, whatever the other parts of the state. *)
Class Backends {St H} (P : World St H -> Prop) : Prop :=
  backends_inv w w' : w_store w' = w_store w -> w_hsm w' = w_hsm w -> P w -> P w'.

(** An invariant of the store, of the whole state. *)
Definition stored {St H} (I : St -> Prop) (w : World St H) : Prop := I (w_store w).

#[export] Instance Backends_stored {St H} (I : St -> Prop) : Backends (stored (H := H) I).
Proof. intros w w' Hs _. unfold stored. by rewrite Hs. Qed.

#[export] Instance Backends_hsm {St H} (h : H) : Backends (fun w : World St H => w_hsm w = h).
Proof. by intros w w' _ ->. Qed.

(** The kinds of steps that leave both alone. *)
Section Leaves.
Context {St H : Type} `{Env, Store St}.
Context (P : World St H -> Prop) `{!Backends P}.
Local Abbreviation K := (keeps P).

#[export] Instance Quiet_backends : Quiet K.
Proof. intros w w' (_ & _ & Hs & Hh & _) HP. exact (backends_inv (P := P) w w' Hs Hh HP). Qed.

Lemma steps_flow_counter {E A} (c : M AttemptCounter E A) : steps K (on_counter (E := E) c).
Proof. apply steps_zoom. intros w HP. by apply (backends_inv (P := P) w). Qed.

Lemma steps_flow_sessions {E A} (c : M SessionStore E A) : steps K (on_sessions (E := E) c).
Proof. apply steps_zoom. intros w HP. by apply (backends_inv (P := P) w). Qed.
End Leaves.

#[export] Hint Resolve steps_flow_counter steps_flow_sessions : steps.

Lemma stored_hsm {St H} (I : St -> Prop) (w w' : World St H) : hsm_only w w' -> keeps (stored I) w w'.
Proof. intros (_ & _ & Hs & _). unfold keeps, stored. by rewrite Hs. Qed.

Lemma steps_stored_hsm {St H E A} (I : St -> Prop) (c : M H E A) :
  steps (keeps (stored I)) (on_hsm (E := E) c).
Proof. apply steps_zoom. intros w Hi. exact Hi. Qed.

Lemma steps_stored_store {St H E A} (I : St -> Prop) (c : M St E A) :
  steps (keeps I) c -> steps (keeps (stored (H := H) I)) (on_store (E := E) c).
Proof. intros Hc. apply steps_zoom. intros w. unfold keeps, stored. simpl. apply Hc. Qed.

#[export] Hint Resolve steps_stored_hsm : steps.

(** Where the operations that only read are lawful, they change nothing. *)
Section Reads.
Context {St H : Type} `{StoreLaws St}.
Context (I : St -> Prop).

Lemma keeps_GetRecord cl x : steps (keeps I) (GetRecord cl x).
Proof.
  intros s Hi. pose proof (GetRecord_law s cl x) as HL.
  destruct (GetRecord cl x s) as [s' []]; [by destruct HL as [-> _]|by subst|done].
Qed.
Lemma keeps_GetWebAuthnCredential cl x : steps (keeps I) (GetWebAuthnCredential cl x).
Proof.
  intros s Hi. pose proof (GetWebAuthnCredential_law s cl x) as HL.
  destruct (GetWebAuthnCredential cl x s) as [s' []]; [by destruct HL as [-> _]|by subst|done].
Qed.
Lemma keeps_GetPublicKey k : steps (keeps I) (GetPublicKey k).
Proof.
  intros s Hi. pose proof (GetPublicKey_law s k) as HL.
  destruct (GetPublicKey k s) as [s' []]; [by destruct HL as [-> _]|by subst|done].
Qed.
Lemma keeps_GetClientIndices cl c : steps (keeps I) (GetClientIndices cl c).
Proof.
  intros s Hi. pose proof (GetClientIndices_law s cl c) as HL.
  destruct (GetClientIndices cl c s) as [s' []]; [by destruct HL as [-> _]|by subst|done].
Qed.
Lemma keeps_GetStatus c i : steps (keeps I) (GetStatus c i).
Proof.
  intros s Hi. pose proof (GetStatus_law s c i) as HL.
  destruct (GetStatus c i s) as [s' []]; [by destruct HL as [-> _]|by subst|done].
Qed.
Lemma keeps_GetAllStatuses c : steps (keeps I) (GetAllStatuses c).
Proof.
  intros s Hi. pose proof (GetAllStatuses_law s c) as HL.
  destruct (GetAllStatuses c s) as [s' []]; [by destruct HL as [-> _]|by subst|done].
Qed.
Lemma keeps_IsUsed c i : steps (keeps I) (IsUsed c i).
Proof.
  intros s Hi. pose proof (IsUsed_law s c i) as HL.
  destruct (IsUsed c i s) as [s' []]; [by destruct HL as [-> _]|by subst|done].
Qed.
Lemma keeps_ListPublicKeys cl : steps (keeps I) (ListPublicKeys cl).
Proof.
  intros s Hi. pose proof (ListPublicKeys_law s cl) as HL.
  destruct (ListPublicKeys cl s) as [s' []]; [by destruct HL as [-> _]|by subst|done].
Qed.
End Reads.

#[export] Hint Resolve keeps_GetRecord keeps_GetWebAuthnCredential keeps_GetPublicKey keeps_GetClientIndices
  keeps_GetStatus keeps_GetAllStatuses keeps_IsUsed keeps_ListPublicKeys : steps.
#[export] Hint Extern 2 (steps (keeps (stored _)) (on_store _)) => apply steps_stored_store : steps.

Section Flow.
Context {St H : Type} `{Env, Store St, GoCrypto, Jose, OpaqueLib, HkdfLib}.
Local Abbreviation W := (World St H).
Context (d : Dispatcher St H) (P : W -> Prop) `{!Backends P}.
Local Abbreviation K := (keeps P).

(** The clients and contexts whose OPAQUE record may be written. *)
Context (own : string -> string -> Prop).

(** What the two factors do to the store keeps the fact. *)
Record factor_flow : Prop := {
  flow_GetRecord cl x : steps K (on_store (E := error) (GetRecord cl x));
  flow_PutRecord cl x r : own cl x -> steps K (on_store (E := error) (PutRecord cl x r));
  flow_GetCredentials cl x : steps K (on_store (E := error) (GetWebAuthnCredential cl x));
  flow_PutCredential cl x c : steps K (on_store (E := error) (PutWebAuthnCredential cl x c));
  flow_UpdateSignCount cl x i n : steps K (on_store (E := error) (UpdateWebAuthnSignCount cl x i n))
}.

Context (Hflow : factor_flow) (Hrs : d_records d = NewStoreRecordStore).

#[local] Hint Resolve flow_GetRecord flow_PutRecord flow_GetCredentials flow_PutCredential
  flow_UpdateSignCount : steps.
#[local] Hint Extern 1 (steps _ (refuse _ _)) => apply steps_fail : steps.
#[local] Hint Extern 1 (steps _ (or_refuse _ _ _)) => apply steps_with_err : steps.
#[local] Hint Extern 1 (steps _ (decode_field _ _)) => apply steps_lift : steps.

Lemma steps_flow_records :
  (forall c x, steps K (rs_GetRecord (d_records d) c x)) /\
  (forall c x r, own c x -> steps K (rs_PutRecord (d_records d) c x r)).
Proof.
  rewrite Hrs. simpl. unfold StoreGetRecord, StorePutRecord. split; intros; steps_auto.
Qed.

Lemma steps_flow_respond req data : steps K (respond d req data).
Proof. unfold respond. steps_auto. Qed.

#[local] Hint Resolve steps_flow_respond : steps.
#[local] Hint Extern 1 (steps _ (signResponse _ _ _)) => apply steps_flow_respond : steps.

Lemma steps_flow_Check req : steps K (counter_Check req).
Proof. unfold counter_Check. steps_auto. Qed.
Lemma steps_flow_RecordFailure req : steps K (counter_RecordFailure req).
Proof. unfold counter_RecordFailure. steps_auto. Qed.
Lemma steps_flow_RecordSuccess req : steps K (counter_RecordSuccess req).
Proof. unfold counter_RecordSuccess. steps_auto. Qed.
Lemma steps_flow_Get id : steps K (sessions_Get id).
Proof. unfold sessions_Get. steps_auto. Qed.
Lemma steps_flow_Delete id : steps K (sessions_Delete id).
Proof. apply steps_modify. intros w HP. by apply (backends_inv (P := P) w). Qed.
Lemma steps_flow_Create s : steps K (sessions_Create s).
Proof. apply steps_with_err, steps_flow_sessions, _. Qed.
Lemma steps_flow_MarkVerified id : steps K (sessions_MarkVerified id).
Proof. apply steps_with_err, steps_flow_sessions, _. Qed.
Lemma steps_flow_Inc : steps K ActiveSessions_Inc.
Proof. apply steps_modify. intros w HP. by apply (backends_inv (P := P) w). Qed.

#[local] Hint Resolve steps_flow_Check steps_flow_RecordFailure steps_flow_RecordSuccess steps_flow_Get
  steps_flow_Delete steps_flow_Create steps_flow_MarkVerified steps_flow_Inc : steps.

(** *** The two factors *)

Lemma steps_flow_records_Get c x : steps K (rs_GetRecord (d_records d) c x).
Proof. apply steps_flow_records. Qed.
Lemma steps_flow_records_Put c x r : own c x -> steps K (rs_PutRecord (d_records d) c x r).
Proof. apply steps_flow_records. Qed.

#[local] Hint Resolve steps_flow_records_Get steps_flow_records_Put : steps.

Lemma steps_flow_issue f req : steps K (issue_challenge d f req).
Proof. unfold issue_challenge. steps_auto. Qed.

Lemma steps_flow_open_token f req b : steps K (open_token (St := St) (H := H) f req b).
Proof. unfold open_token. steps_auto. Qed.

Lemma steps_flow_failed {A} req msg : steps K (failed_attempt (A := A) req msg).
Proof. unfold failed_attempt. steps_auto. Qed.

#[local] Hint Resolve steps_flow_issue steps_flow_open_token steps_flow_failed : steps.

Lemma steps_flow_check_assertion f req ch a : steps K (check_assertion (St := St) (H := H) f req ch a).
Proof. unfold check_assertion, matched_credential. steps_auto. Qed.

Lemma steps_flow_agree req t e : steps K (agree_session_key (St := St) (H := H) req t e).
Proof. unfold agree_session_key. steps_auto. Qed.

#[local] Hint Resolve steps_flow_check_assertion steps_flow_agree : steps.

Lemma steps_flow_fido2 req tfa : steps K (handleFIDO2 d req tfa).
Proof.
  unfold handleFIDO2, fido2RegChallenge, fido2AuthChallenge, fido2RegRegister, fido2AuthFinalize,
    open_fido2_session, parse_pdata.
  steps_auto.
Qed.

#[local] Hint Resolve steps_flow_fido2 : steps.

(** The requests that may write an OPAQUE record. *)
Definition writes_record (req : ServiceRequest) : Prop :=
  sr_Type req = Type2FARegistration \/ is_change (sr_Type req) = true.

Lemma steps_flow_regFinalize req b :
  own (sr_ClientID req) (sr_Context req) -> steps K (regFinalize d req b).
Proof. intros Ho. unfold regFinalize. steps_auto. Qed.

Lemma steps_flow_2FA req :
  (writes_record req -> own (sr_ClientID req) (sr_Context req)) -> steps K (handle2FA d req).
Proof.
  intros Ho. unfold handle2FA, regEvaluate, authEvaluate, record_or_fake, authFinalize.
  steps_auto; apply steps_flow_regFinalize, Ho;
    match goal with E : _ && _ = true |- _ => apply andb_prop in E as [E _] end.
  - left. eapply bool_decide_eq_true_1; eassumption.
  - by right.
Qed.

Lemma steps_flow_verified req : steps K (verified_session (St := St) (H := H) req).
Proof. unfold verified_session. steps_auto. Qed.
Lemma steps_flow_sad req s : steps K (check_sad (St := St) (H := H) req s).
Proof. unfold check_sad. steps_auto. Qed.
Lemma steps_flow_accept body : steps K (accept_request d body).
Proof. unfold accept_request, verification_key. steps_auto. Qed.

#[local] Hint Resolve steps_flow_2FA steps_flow_verified steps_flow_sad steps_flow_accept : steps.

#[local] Hint Extern 1 (writes_record _ -> own _ _) => assumption : steps.

(** *** Requests *)

Lemma steps_flow_route req :
  (writes_record req -> own (sr_ClientID req) (sr_Context req)) ->
  (forall t h, d_handlers d !! t = Some h -> forall c data, steps K (h_Handle h c data)) ->
  steps K (route d req).
Proof.
  intros Ho Hh. unfold route, handle2FAChange, handleService. steps_auto.
Qed.

Context (Hown : forall c x, own c x).

Lemma steps_flow_Process body :
  (forall t h, d_handlers d !! t = Some h -> forall c data, steps K (h_Handle h c data)) ->
  steps K (Process d body).
Proof.
  intros Hh. apply steps_bind; [typeclasses eauto|apply steps_flow_accept|]. intros req.
  by apply steps_flow_route.
Qed.

(** Where no handler panics in a good state, no request does. *)
Lemma sound_Process `{!StoreLaws St, !StoreSafe St} body :
  d_fido2 d = None -> keys_safe d ->
  (forall t h, d_handlers d !! t = Some h ->
     forall c data, sound P (h_Handle h c data)) ->
  sound P (Process d body).
Proof.
  intros Hf Hk Hh.
  assert (records_safe d) as Hr by (unfold records_safe; rewrite Hrs; apply store_records_safe).
  pose proof (fun req => sound_of _ _ (steps_flow_2FA req (fun _ => Hown _ _)) (safe_handle2FA d req Hf Hr)) as Htfa.
  pose proof (fun req => sound_of _ _ (steps_flow_verified req) (safe_verified_session req)) as Hv.
  apply sound_bind; [apply sound_of; [apply steps_flow_accept|by apply safe_accept_request]|].
  intros req. unfold route. repeat case_match; try apply Htfa.
  - apply sound_bind; [apply Hv|]. intros _. apply Htfa.
  - unfold handleService. destruct (d_handlers d !! _) as [h|] eqn:Eh; [|apply sound_fail].
    apply sound_bind.
    + case_match; [|apply sound_ret]. apply sound_bind; [apply Hv|]. intros s.
      apply sound_of; [apply steps_flow_sad|apply safe_check_sad].
    + intros _. apply sound_bind; [apply sound_with_err; by eapply Hh|]. intros b.
      apply sound_of; [apply steps_flow_respond|apply safe_respond].
Qed.
End Flow.

(** No restriction on the records. *)
Definition any_record (clientID context : string) : Prop := True.

(** An invariant of the store that does not speak of records and credentials. *)
Lemma stored_flow {St H} `{StoreLaws St, !StoreFrames St} (I : St -> Prop) :
  (forall s s', frame PRecords s s' -> I s -> I s') ->
  (forall s s', frame PCreds s s' -> I s -> I s') ->
  factor_flow (stored (H := H) I) any_record.
Proof.
  intros Hr Hc. split; intros; apply steps_stored_store; auto with steps; intros s.
  - exact (Hr _ _ (PutRecord_frame s _ _ _)).
  - exact (Hc _ _ (PutWebAuthnCredential_frame s _ _ _)).
  - exact (Hc _ _ (UpdateWebAuthnSignCount_frame s _ _ _ _)).
Qed.

Lemma hsm_flow {St H} `{Store St} (h : H) :
  factor_flow (fun w : World St H => w_hsm w = h) any_record.
Proof. split; intros; apply steps_zoom; intros w Hi; exact Hi. Qed.
