(* ===== verification/Factors.v ===== *)
(** * The second factors: OPAQUE and FIDO2 authentication

    What each flow does on every branch: the finalisation of an OPAQUE login,
    the lockout in front of a new one, the persistence of a registration, and
    what a FIDO2 login requires. *)

From S2P Require Import Prelude GoTime GoStrings GoJson Protocol Counter Sessions Store Sha256 Ecc External World Handlers Jws Opaque Webauthn Token Service Fido2 Dispatcher Toy Access Flow.
Local Open Scope Z_scope.

Section Opaque.
Context {St H : Type} `{Env, StoreLaws St, GoCrypto, Jose, OpaqueLib, HkdfLib}.
Local Abbreviation W := (World St H).
Context (d : Dispatcher St H).

Definition attempt_key (req : ServiceRequest) : string :=
  counterKey (sr_ClientID req) (sr_Context req) (sr_Context req).

(** The KE3 message parses and the library accepts it for this MAC. *)
Definition proof_accepted (b mac : bytes) : Prop :=
  exists ke3, DeserKE3 b = Some ke3 /\ LoginFinish (os_server (d_opaque d)) ke3 mac = true.

Lemma quiet_respond req data (w : W) : quiet w (respond d req data w).1.
Proof.
  assert (steps quiet (respond (St := St) (H := H) d req data)) as Hq.
  { unfold respond, or_refuse. steps_auto. }
  apply Hq.
Qed.

Lemma authFinalize_missing req b (w : W) :
  Get (clock (w_tick w)) (sr_TFASessionID req) (w_sessions w) = None ->
  authFinalize d req b w =
    ((Now (E := R2PSError) w).1, Err (mkR2PSError ErrIllegalState "session not found or expired")).
Proof. intros Hg. unfold authFinalize, bind, sessions_Get, gets. simpl. by rewrite Hg. Qed.

Lemma decide_proof b mac : {proof_accepted b mac} + {~ proof_accepted b mac}.
Proof.
  unfold proof_accepted. destruct (DeserKE3 b) as [ke3|]; [|right; by intros (? & ? & _)].
  destruct (LoginFinish (os_server (d_opaque d)) ke3 mac) eqn:E; [left; by exists ke3|right].
  intros (? & [= <-] & ?). congruence.
Qed.

(** The state in which the answer to an accepted proof is signed. *)
Definition authenticated (req : ServiceRequest) (s : Session) (w : W) : W :=
  mkWorld (<[sr_TFASessionID req := set_Verified s]> (w_sessions w))
    (set_attempts (w_counter w) (delete (attempt_key req) (attempts (w_counter w))))
    (w_store w) (w_hsm w) (S (w_tick w)) (w_draw w) (w_gauge w + 1)
    (<[("pake_auth_total", "success") :=
         default 0 (w_metrics w !! ("pake_auth_total", "success")) + 1]> (w_metrics w)) (w_audit w).

(** What the answer to an accepted proof says. *)
Definition authenticated_data (req : ServiceRequest) (s : Session) : TFAAuthResponseData :=
  mkTFAAuthResponseData (sr_TFASessionID req) (sr_TFASessionID req) "" "" "authenticated"
    (Unix (s_ExpiresAt s)) "".

Lemma authFinalize_step req b s (w : W) :
  Get (clock (w_tick w)) (sr_TFASessionID req) (w_sessions w) = Some s ->
  proof_accepted b (s_ClientMAC s) ->
  authFinalize d req b w =
    respond d req (Some (Marshal_TFAAuthResponseData (authenticated_data req s))) (authenticated req s w).
Proof.
  intros Hg Hp. apply (AuthFinalize_Ok (d_opaque d) b (s_ClientMAC s) tt) in Hp as Ha.
  assert (w_sessions w !! sr_TFASessionID req = Some s) as Hs.
  { unfold Get in Hg. repeat case_match; naive_solver. }
  unfold authFinalize, bind, sessions_Get, gets. simpl. rewrite Hg, Ha. simpl.
  unfold sessions_MarkVerified, or_refuse, with_err, on_sessions, zoom, MarkVerified. simpl.
  rewrite Hs. reflexivity.
Qed.
(** The state after a rejected proof. *)
Definition rejected (req : ServiceRequest) (w : W) : W :=
  mkWorld (delete (sr_TFASessionID req) (w_sessions w))
    (RecordFailure (clock (S (w_tick w))) (sr_ClientID req) (sr_Context req) (sr_Context req)
       (w_counter w)).1
    (w_store w) (w_hsm w) (S (S (w_tick w))) (w_draw w) (w_gauge w)
    (<[("pake_auth_total", "failure") :=
         default 0 (w_metrics w !! ("pake_auth_total", "failure")) + 1]> (w_metrics w)) (w_audit w).

Lemma authFinalize_rejected req b s (w : W) :
  Get (clock (w_tick w)) (sr_TFASessionID req) (w_sessions w) = Some s ->
  ~ proof_accepted b (s_ClientMAC s) ->
  authFinalize d req b w =
    (rejected req w, Err (mkR2PSError ErrUnauthorized "authentication failed")).
Proof.
  intros Hg Hn.
  assert (exists e, AuthFinalize (d_opaque d) b (s_ClientMAC s) = Err e) as [e Ha].
  { unfold AuthFinalize, proof_accepted in *. destruct (DeserKE3 b) as [ke3|]; [|by eexists].
    simpl. destruct (LoginFinish _ _ _) eqn:E; [|by eexists]. destruct Hn. by exists ke3. }
  unfold authFinalize, bind, sessions_Get, gets. simpl. rewrite Hg, Ha. simpl.
  unfold counter_RecordFailure, attempt, on_counter, zoom, bind, Now, ret. simpl.
  destruct (RecordFailure _ _ _ _ _) as [c o] eqn:Hc.
  assert (is_panic o = false) as Ho by (unfold RecordFailure in Hc; case_match; by simplify_eq/=).
  unfold rejected. simpl. rewrite Hc. by destruct o.
Qed.

(** C10: a finalisation without a live session changes nothing and is an
    illegal state; one whose client proof is accepted marks exactly its
    session verified and clears the caller's attempts; one whose proof is
    rejected counts a failure, removes the session and is unauthorized. *)
Theorem authFinalize_functional req b (w : W) :
  let r := authFinalize d req b w in
  let id := sr_TFASessionID req in
  w_store r.1 = w_store w /\
  match Get (clock (w_tick w)) id (w_sessions w) with
  | None =>
      quiet w r.1 /\ r.2 = Err (mkR2PSError ErrIllegalState "session not found or expired")
  | Some s =>
      (proof_accepted b (s_ClientMAC s) /\
         w_sessions r.1 = <[id := set_Verified s]> (w_sessions w) /\
         attempts (w_counter r.1) = delete (attempt_key req) (attempts (w_counter w))) \/
      (~ proof_accepted b (s_ClientMAC s) /\
         w_sessions r.1 = delete id (w_sessions w) /\
         w_counter r.1 = (RecordFailure (clock (S (w_tick w))) (sr_ClientID req) (sr_Context req)
                            (sr_Context req) (w_counter w)).1 /\
         r.2 = Err (mkR2PSError ErrUnauthorized "authentication failed"))
  end.
Proof.
  cbn zeta. destruct (Get (clock (w_tick w)) _ _) as [s|] eqn:Hg.
  2: { rewrite authFinalize_missing by done. unfold quiet, later. simpl. repeat split; lia. }
  destruct (decide_proof b (s_ClientMAC s)) as [Hp|Hp].
  - rewrite (authFinalize_step req b s w Hg Hp).
    destruct (quiet_respond req (Some (Marshal_TFAAuthResponseData (authenticated_data req s)))
      (authenticated req s w)) as (-> & -> & -> & _).
    by split; [|left].
  - rewrite (authFinalize_rejected req b s w Hg Hp). by split; [|right].
Qed.

(** ** Lockout *)

(** A locked caller is turned away with nothing else changed. *)
Lemma counter_Check_locked max lock h req (w : W) :
  w_counter w = run_calls (NewAttemptCounter max lock) h ->
  if locked max lock h (attempt_key req) (clock (w_tick w))
  then counter_Check req w =
         ((Now (E := R2PSError) w).1, Err (mkR2PSError ErrAccessDenied (Error err_locked)))
  else (counter_Check req w).2 = Ok tt.
Proof.
  intros Hc.
  pose proof (Check_verdict max lock h (clock (w_tick w)) (sr_ClientID req) (sr_Context req)
                (sr_Context req)) as Hv.
  rewrite <-Hc in Hv. fold (attempt_key req) in Hv.
  pose proof (Check_denied (clock (w_tick w)) (sr_ClientID req) (sr_Context req)
                (sr_Context req) (w_counter w)) as Hd.
  unfold counter_Check, bind, with_err, on_counter, zoom, Now. simpl.
  destruct (Check _ _ _ _ _) as [c o] eqn:E. cbn [fst snd] in *.
  destruct (locked _ _ _ _ _); subst o; [|done].
  by rewrite (Hd _ eq_refl).
Qed.

(** What follows the lockout check. *)
Definition authEvaluate_rest (req : ServiceRequest) (tfa : TFARequestData) (b : bytes) : M W R2PSError bytes :=
  let! record := record_or_fake d req in
  let! draw := Draw in
  let! (ke2Bytes, clientMAC, sessionSecret) := or_refuse ErrServerError "auth evaluate failed"
    (lift (AuthEvaluate draw (d_opaque d) b record)) in
  let! idBytes := RandomBytes 32 in
  let sessionID := URLEncodeToString idBytes in
  let! now := Now in
  sessions_Create (mkSession sessionID (sr_ClientID req) (sr_Context req) sessionSecret clientMAC
                     (TimeAdd now (session_ttl d tfa)) false "") ;;!
  let ke2Encoded := URLEncodeToString ke2Bytes in
  signResponse d req
    (Marshal_TFAAuthResponseData (mkTFAAuthResponseData sessionID sessionID ke2Encoded ke2Encoded "" 0 "")).

Lemma authEvaluate_split req tfa b :
  authEvaluate d req tfa b = (counter_Check req ;;! authEvaluate_rest req tfa b).
Proof. reflexivity. Qed.

(** The check of the counter is the call [CCheck] of its history. *)
Lemma counter_Check_counter req (w : W) :
  w_counter (counter_Check req w).1 =
    step_call (w_counter w) (CCheck (clock (w_tick w)) (attempt_key req)).
Proof.
  unfold attempt_key. rewrite <-Check_step.
  unfold counter_Check, bind, with_err, on_counter, zoom, Now. simpl.
  by destruct (Check _ _ _ _ _).
Qed.

Lemma raises_authEvaluate_rest req tfa b :
  raises (fun e => Code e = ErrServerError) (authEvaluate_rest req tfa b).
Proof.
  unfold authEvaluate_rest, record_or_fake, sessions_Create, signResponse, respond, or_refuse.
  raises_auto.
Qed.

#[local] Instance Quiet_same_counter : Quiet (same (w_counter (St := St) (H := H))).
Proof. by intros w w' (_ & Hc & _). Qed.

(** After its lockout check a starting login leaves the counter alone. *)
Lemma steps_authEvaluate_rest req tfa b :
  d_records d = NewStoreRecordStore ->
  steps (same w_counter) (authEvaluate_rest req tfa b).
Proof.
  intros Hr. unfold authEvaluate_rest, record_or_fake, sessions_Create, signResponse, respond, or_refuse.
  rewrite Hr. simpl. unfold StoreGetRecord.
  repeat (steps_branch || apply steps_attempt || apply steps_with_err ||
          solve [by apply steps_zoom | eauto with steps typeclass_instances]).
Qed.

(** C12: while the caller's attempts are locked (after [max] failures in a
    row, until the lockout has run out) a new OPAQUE login is denied before
    the protocol is run, and nothing else happens; a caller that is not
    locked is never denied for it, and of the login it starts only the check
    enters the history: a login that is started counts as no attempt until
    it is finalised. *)
Theorem authEvaluate_lockout max lock h req tfa b (w : W) :
  w_counter w = run_calls (NewAttemptCounter max lock) h ->
  d_records d = NewStoreRecordStore ->
  let r := authEvaluate d req tfa b w in
  let now := clock (w_tick w) in
  if locked max lock h (attempt_key req) now
  then r = ((Now (E := R2PSError) w).1, Err (mkR2PSError ErrAccessDenied (Error err_locked)))
  else (forall e, r.2 = Err e -> Code e <> ErrAccessDenied) /\
       w_counter r.1 = run_calls (NewAttemptCounter max lock) (CCheck now (attempt_key req) :: h).
Proof.
  intros Hc Hr. pose proof (counter_Check_locked max lock h req w Hc) as Hk.
  pose proof (counter_Check_counter req w) as Hn. rewrite Hc in Hn. cbn zeta. rewrite authEvaluate_split.
  unfold bind. destruct (locked _ _ _ _ _); [by rewrite Hk|].
  destruct (counter_Check req w) as [w1 o]. cbn [fst snd] in *. subst o. split.
  - intros e He. rewrite (raises_authEvaluate_rest req tfa b w1 (authEvaluate_rest req tfa b w1).1 e); [done|].
    rewrite <-He. apply surjective_pairing.
  - rewrite (steps_authEvaluate_rest req tfa b Hr w1). exact Hn.
Qed.
End Opaque.

(** Three wrong PINs lock the caller out. *)
Definition locked_counter : AttemptCounter :=
  run_calls (NewAttemptCounter 3 (15 * Minute))
    (replicate 3 (CFail (clock 0) (counterKey "alice" "wallet" "wallet"))).

(** Locked out she is denied; at first she is not, and the login she starts
    leaves no failure. *)
Lemma authEvaluate_lockout_witness :
  let req := toy_request "alice" "wallet" Type2FAAuthenticate "" [] in
  let login := authEvaluate (toy_dispatcher None) req zero_TFARequestData [x07] in
  let w := set_counter locked_counter toy_world in
  login w = ((Now (E := R2PSError) w).1,
             Err (mkR2PSError ErrAccessDenied "account locked: too many failed attempts")) /\
  w_counter (login toy_world).1 =
    run_calls (NewAttemptCounter 3 (15 * Minute)) [CCheck (clock 0) (attempt_key req)].
Proof.
  set (h := replicate 3 (CFail (clock 0) (counterKey "alice" "wallet" "wallet"))).
  set (req := toy_request "alice" "wallet" Type2FAAuthenticate "" []).
  pose proof (fun h => authEvaluate_lockout (toy_dispatcher None) 3 (15 * Minute) h req
                zero_TFARequestData [x07]) as Hl.
  assert (locked 3 (15 * Minute) h (attempt_key req) (clock 0) = true) as Hk by (vm_compute; reflexivity).
  cbn zeta. split.
  - specialize (Hl h (set_counter locked_counter toy_world) eq_refl eq_refl). cbn zeta in Hl.
    change (w_tick (set_counter locked_counter toy_world)) with 0%nat in Hl. rewrite Hk in Hl. exact Hl.
  - exact (proj2 (Hl [] toy_world eq_refl eq_refl)).
Defined.

(** ** Who may change a second factor *)

Lemma is_change_not_auth t :
  is_change t = true -> bool_decide (t = Type2FAAuthenticate) = false /\ bool_decide (t = TypeCreateSession) = false.
Proof.
  unfold is_change. intros [->%bool_decide_eq_true| ->%bool_decide_eq_true]%orb_prop; by vm_compute.
Qed.


Section Records.
Context {St H : Type} `{Env, StoreFrames St, GoCrypto, Jose, OpaqueLib, HkdfLib}.
Local Abbreviation W := (World St H).
Context (d : Dispatcher St H) (cl x : string).

Definition record_in (w : W) : option bytes := record_of (w_store w) cl x.
Definition others (cl' x' : string) : Prop := plain x' /\ ~ (cl' = cl /\ x' = x).

(** Only writing its record changes a client's record. *)
Lemma record_flow r0 :
  plain x -> factor_flow (stored (H := H) (fun s => record_of s cl x = r0)) others.
Proof.
  intros Hx. split; intros; apply steps_stored_store; auto with steps; intros s Hs.
  - match goal with Ho : others _ _ |- _ => destruct Ho as [Hx' Hne] end.
    pose proof (PutRecord_law s cl0 x0 r Hx') as HL.
    destruct (PutRecord cl0 x0 r s) as [s' [u|e|m]]; [|exact (eq_trans (proj2 HL PRecords _ _ Hx) Hs)|done].
    destruct HL as [_ HL]. simpl. rewrite (HL _ _ Hx), decide_False; [done|]. intros [-> ->]. by apply Hne.
  - exact (eq_trans (proj2 (PutWebAuthnCredential_frame s cl0 x0 c) PRecords ltac:(done) _ _ Hx) Hs).
  - exact (eq_trans (proj2 (UpdateWebAuthnSignCount_frame s cl0 x0 i n) PRecords ltac:(done) _ _ Hx) Hs).
Qed.

End Records.

(** A wallet changes another client's second factor with its own session. *)
Definition plain_dispatcher : Dispatcher MemoryStore nat :=
  mkDispatcher toy_key (mkOPAQUEServer tt) NewStoreRecordStore None ∅
    (d_sessionTTL (toy_dispatcher None)) (d_iatMaxSkew (toy_dispatcher None)) None.

Definition enrolled : World MemoryStore nat :=
  (toy_run None (toy_login ++
     [toy_request "bob" "wallet" Type2FARegistration "" (opaque_data StateFinalize [x03; x04])]) toy_world).1.
Definition change_bob : bytes :=
  body_of (toy_request "bob" "wallet" Type2FAChange toy_session_id (opaque_data StateFinalize [x05; x06])).
Definition changed_bob : World MemoryStore nat * outcome R2PSError bytes :=
  Process plain_dispatcher change_bob enrolled.

Example change_by_another_client :
  s_ClientID <$> (w_sessions enrolled !! toy_session_id) = Some "alice" /\
  record_in "bob" "wallet" enrolled = Some [x03; x04] /\
  is_ok changed_bob.2 = true /\ record_in "bob" "wallet" changed_bob.1 = Some [x05; x06].
Proof. split_and!; vm_compute; reflexivity. Qed.

Lemma bob_changes : record_in "bob" "wallet" changed_bob.1 <> record_in "bob" "wallet" enrolled.
Proof. destruct change_by_another_client as (_ & -> & _ & ->). discriminate. Qed.

Lemma wallet_name_plain : plain "wallet".
Proof. apply (bool_decide_unpack (plain_name _)). vm_compute. exact I. Qed.

Lemma plain_records : d_records plain_dispatcher = NewStoreRecordStore.
Proof. reflexivity. Qed.
Lemma plain_no_handlers t : d_handlers plain_dispatcher !! t = None.
Proof. apply lookup_empty. Qed.

#[local] Opaque enrolled change_bob plain_dispatcher.

Lemma changed_bob_run : Process plain_dispatcher change_bob enrolled = (changed_bob.1, changed_bob.2).
Proof. unfold changed_bob. by destruct (Process plain_dispatcher change_bob enrolled). Qed.

