(* ===== verification/Wallet.v ===== *)
(** * Wallet attestations over time

    What holds across the requests of a wallet instance: the handlers touch
    only the store and the audit trail, every index on record has an entry,
    and so a revocation leaves no attestation of the client valid. *)

From S2P Require Import Prelude GoTime GoStrings GoJson Protocol Counter Sessions Store Ecc External World Handlers Jws Attest Http StatusList Opaque Webauthn Token Service Fido2 Dispatcher Toy Access Flow.
Local Open Scope Z_scope.

Section Frame.
Context {St H : Type} `{Env, Store St, Jose}.
Context (cfg : WalletProviderConfig).

(** Any relation the operations of the store respect. *)
Context (R : World St H -> World St H -> Prop) `{!PreOrder R, !Quiet R}.
Context (Hst : forall A (c : M St error A), steps R (on_store c)).
#[local] Hint Resolve Hst : steps.

Lemma steps_resolveKeyJWK kid : steps R (resolveKeyJWK kid).
Proof. unfold resolveKeyJWK. steps_auto. Qed.

Lemma steps_attestation_request what d : steps R (attestation_request what d).
Proof. unfold attestation_request. steps_auto. Qed.

Lemma steps_attested_keys kids : steps R (attested_keys kids).
Proof.
  induction kids as [|kid kids IH]; cbn [attested_keys]; [eauto with steps typeclass_instances|].
  unfold check_kid, resolveKeyJWK. steps_auto.
Qed.

Lemma steps_allocate cl c : steps R (allocate cl c).
Proof. unfold allocate. steps_auto. Qed.

Lemma steps_audit e cl a : steps R (audit cfg e cl a).
Proof. unfold audit. steps_auto. Qed.

Lemma steps_sign_attestation what typ p : steps R (sign_attestation cfg what typ p).
Proof. unfold sign_attestation. steps_auto. Qed.

Lemma steps_set_each c v l n : steps R (set_each c v l n).
Proof.
  revert n. induction l as [|i l IH]; intros n; cbn [set_each]; [eauto with steps typeclass_instances|].
  steps_auto.
Qed.

Lemma steps_set_categories cl v cs n : steps R (set_categories cl v cs n).
Proof.
  revert n. induction cs as [|c cs IH]; intros n; cbn [set_categories];
    [eauto with steps typeclass_instances|].
  steps_auto. apply steps_set_each.
Qed.

#[local] Hint Resolve steps_resolveKeyJWK steps_attestation_request steps_attested_keys steps_allocate
  steps_audit steps_sign_attestation steps_set_categories : steps.

Lemma steps_WKAHandle cl d : steps R (WKAHandle cfg cl d).
Proof. unfold WKAHandle. steps_auto. Qed.
Lemma steps_WIAHandle cl d : steps R (WIAHandle cfg cl d).
Proof. unfold WIAHandle, check_kid. steps_auto. Qed.
Lemma steps_WIRevokeHandle cl d : steps R (WIRevokeHandle cfg cl d).
Proof. unfold WIRevokeHandle, revokeAll. steps_auto. Qed.
Lemma steps_WISuspendHandle cl d : steps R (WISuspendHandle cfg cl d).
Proof. unfold WISuspendHandle. steps_auto. Qed.
End Frame.


(** ** Every index on record has an entry *)

Section Issued.
Context {St H : Type} `{Env, StoreLaws St, Jose}.
Local Abbreviation W := (World St H).
Context (cfg : WalletProviderConfig).

Definition issued_ok (s : St) : Prop :=
  store_ok s /\ forall cl c i, plain c -> i ∈ indices_of s cl c -> is_Some (status_of s c i).

Lemma allocated_issued cl c i (s s' : St) : issued_ok s -> plain c -> allocated cl c i s s' -> issued_ok s'.
Proof.
  intros [_ Hi] Hc (Hok & _ & Hst & Hidx & _). split; [done|]. intros cl' c' j Hp Hj.
  rewrite Hst. case_decide as Hd; [by eexists|]. rewrite Hidx in Hj by done.
  case_decide as Hd'; [|by eapply Hi].
  destruct Hd' as [-> ->]. apply elem_of_app in Hj as [Hj|Hj]; [by eapply Hi|].
  apply list_elem_of_singleton in Hj. naive_solver.
Qed.

Lemma set_client_issued cl v (s s' : St) : issued_ok s -> set_client cl v s s' -> issued_ok s'.
Proof.
  intros [Hok Hi] [[Hk Hf] Hs]. split; [auto|]. intros cl' c j Hp Hj.
  rewrite (Hf PIndices ltac:(done)) in Hj by done. rewrite Hs. case_decide; [by eexists|by eapply Hi].
Qed.

Lemma issued_frame (p : part) (s s' : St) :
  p <> PStatus -> p <> PIndices -> frame p s s' -> issued_ok s -> issued_ok s'.
Proof.
  intros Hp1 Hp2 [Hk Hf] [Hok Hi]. split; [auto|]. intros cl c i Hc Hin.
  rewrite (Hf PIndices) in Hin by done. rewrite (Hf PStatus) by done. by eapply Hi.
Qed.

Lemma issued_unchanged (s s' : St) : unchanged s s' -> issued_ok s -> issued_ok s'.
Proof. intros Hu. apply (issued_frame PKeys); [done..|by apply unchanged_frame]. Qed.

(** Every handler keeps the invariant, on every branch, and any other fact
    [J] of the store that speaks of the stored keys alone. *)
Section Handlers.
Context (J : St -> Prop) (HJ : forall p s s', p <> PKeys -> frame p s s' -> J s -> J s').

Definition attest_ok (s : St) : Prop := issued_ok s /\ J s.

Local Abbreviation K := (keeps (stored (H := H) attest_ok)).

Lemma attest_unchanged (s s' : St) : unchanged s s' -> attest_ok s -> attest_ok s'.
Proof.
  intros Hu [Hi Hj]. split; [by eapply issued_unchanged|].
  apply (HJ PStatus s); [done|by apply unchanged_frame|done].
Qed.

Lemma keeps_attest_SetStatus c i v : steps (keeps attest_ok) (SetStatus c i v).
Proof.
  intros s [Hi Hj]. pose proof (SetStatus_law s c i v) as HL.
  destruct (SetStatus c i v s) as [s' [u|e|p]]; [|by eapply attest_unchanged|done].
  destruct HL as (Hfr & _ & Hs). split; [|by apply (HJ PStatus s)].
  destruct Hfr as [Hk Hf], Hi as [Hok Hi]. split; [auto|]. simpl. intros cl c' j Hc Hin.
  rewrite (Hf PIndices) in Hin by done. rewrite Hs. case_decide; [by eexists|by eapply Hi].
Qed.

Lemma keeps_attest_AllocateIndex c : steps (keeps attest_ok) (AllocateIndex c).
Proof.
  intros s [[Hok Hi] Hj]. pose proof (AllocateIndex_law s c Hok) as HA.
  destruct (AllocateIndex c s) as [s1 [i|e|p]]; [|by eapply attest_unchanged|done].
  destruct HA as (Hfr & _ & Hn & Hs1). split; [|by apply (HJ PStatus s)]. destruct Hfr as [Hk Hf].
  split; [auto|]. simpl. intros cl' c' j Hp Hin. rewrite (Hf PIndices) in Hin by done.
  rewrite Hs1. case_decide; [by eexists|by eapply Hi].
Qed.

#[local] Hint Resolve keeps_attest_SetStatus keeps_attest_AllocateIndex : steps.

Lemma steps_K_allocate cl c : plain c -> steps K (allocate cl c).
Proof.
  intros Hc w Hw. unfold allocate, bind, with_err, on_store, zoom.
  pose proof (keeps_attest_AllocateIndex c (w_store w) Hw) as Hw1.
  pose proof (AllocateIndex_law (w_store w) c (proj1 (proj1 Hw))) as HA.
  destruct (AllocateIndex c (w_store w)) as [s1 [i|e|p]]; [|done..].
  cbn -[decide]. simpl in Hw1. destruct HA as (_ & _ & _ & Hs1).
  assert (is_Some (status_of s1 c i)) as Hsi by (rewrite Hs1, decide_True by done; by eexists).
  pose proof (RecordWUA_law s1 cl c i Hc) as HR. destruct Hw1 as [Hi1 Hj1].
  destruct (RecordWUA cl c i s1) as [s2 [u|e|p]]; [|by eapply attest_unchanged|done].
  cbn. destruct HR as (Hfr & Hx). split; [|by apply (HJ PIndices s1)]. destruct Hfr as [Hk2 Hf2].
  destruct Hi1 as [Hok1 Hi1]. split; [auto|]. simpl.
  intros cl' c' j Hp Hin. rewrite (Hf2 PStatus) by done. rewrite Hx in Hin by done.
  case_decide as Hd; [|by eapply Hi1]. destruct Hd as [-> ->].
  apply elem_of_app in Hin as [Hin|Hin]; [by eapply Hi1|].
  apply list_elem_of_singleton in Hin. by subst.
Qed.

#[local] Hint Resolve steps_K_allocate : steps.

Lemma steps_K_resolve kid : steps K (resolveKeyJWK kid).
Proof. unfold resolveKeyJWK. steps_auto. Qed.

#[local] Hint Resolve steps_K_resolve : steps.

Lemma steps_K_keys kids : steps K (attested_keys kids).
Proof.
  induction kids as [|kid kids IH]; cbn [attested_keys]; [eauto with steps typeclass_instances|].
  unfold check_kid. steps_auto.
Qed.

Lemma steps_K_each c v l n : steps K (set_each c v l n).
Proof.
  revert n. induction l as [|i l IH]; intros n; cbn [set_each]; [eauto with steps typeclass_instances|].
  steps_auto.
Qed.

Lemma steps_K_categories cl v cs n : steps K (set_categories cl v cs n).
Proof.
  revert n. induction cs as [|c cs IH]; intros n; cbn [set_categories];
    [eauto with steps typeclass_instances|].
  steps_auto. apply steps_K_each.
Qed.

#[local] Hint Resolve steps_K_keys steps_K_categories : steps.

Lemma issued_handlers cl d :
  plain "ka" -> plain "wia" ->
  steps K (WKAHandle cfg cl d) /\ steps K (WIAHandle cfg cl d) /\
  steps K (WIRevokeHandle cfg cl d) /\ steps K (WISuspendHandle cfg cl d).
Proof.
  intros Hka Hwia.
  unfold WKAHandle, WIAHandle, WIRevokeHandle, WISuspendHandle, revokeAll, attestation_request,
    sign_attestation, audit, check_kid.
  split_and!; steps_auto.
Qed.
End Handlers.

End Issued.

(** ** Witnesses *)

Definition toy_wp : WalletProviderConfig :=
  mkWalletProviderConfig toy_key [] "" "wallet" "0.1.0" "" (Some ["high"]) (Some ["high"]) ""
    "https://wp.example.com/statuslists" 0 0 0 true.

Definition wallet_world : World MemoryStore nat :=
  set_store (PutPublicKey (mkPublicKeyInfo "key-1" "P-256" (x04 :: replicate 64 x01) 0 "alice")
               NewMemoryStore).1 toy_world.

Definition attest_data : option bytes := Some (jtext "{'keys_to_attest':['key-1','gone'],'ver':'draft-008'}").

Definition wka_run : World MemoryStore nat * outcome error bytes := WKAHandle toy_wp "alice" attest_data wallet_world.
Definition wia_run : World MemoryStore nat * outcome error bytes := WIAHandle toy_wp "alice" attest_data wka_run.1.

Lemma wallet_plain : plain "ka" /\ plain "wia".
Proof. by split; apply (bool_decide_unpack (plain_name _)); vm_compute. Qed.

Lemma wallet_store_ok : store_ok (w_store wallet_world).
Proof. split; [intros c inner i Hc|intros c n Hc]; exfalso; revert Hc; cbn; by rewrite lookup_empty. Qed.

Lemma wallet_issued : issued_ok (w_store wallet_world).
Proof.
  split; [apply wallet_store_ok|]. intros cl c i _ Hi. exfalso. revert Hi.
  change (indices_of (w_store wallet_world) cl c) with (default ([] : list Z) ((∅ : gmap string (list Z)) !! Memory.pair_key cl c)).
  rewrite lookup_empty. apply not_elem_of_nil.
Qed.

Definition answer {E} (r : outcome E bytes) : bytes := match r with Ok b => b | _ => [] end.

Lemma WKAHandle_issues_witness :
  is_ok wka_run.2 = true /\
  exists req ks keys idx now json draw jwt,
    Unmarshal_EUDIWAttestationRequest (default [] attest_data) = Some req /\ ear_Ver req = draft_version /\
    keys <> [] /\ ks `sublist_of` ear_KeysToAttest req /\
    Forall2 (fun kid jwk => exists k, key_of (w_store wallet_world) kid = Some k /\
               pubKeyToJWK (pk_PubKey k) (pk_Curve k) = Ok jwk) ks keys /\
    0 <= idx /\ allocated "alice" "ka" idx (w_store wallet_world) (w_store wka_run.1) /\
    Marshal_WKAPayload (wka_payload toy_wp now keys idx) = Some json /\
    SignJWT draw json toy_key "keyattestation+jwt" [] = Ok jwt /\
    answer wka_run.2 = Marshal_WKAResponse jwt.
Proof.
  split; [vm_compute; reflexivity|].
  apply (WKAHandle_issues toy_wp "alice" attest_data wallet_world wka_run.1 (answer wka_run.2)).
  - apply wallet_store_ok.
  - apply wallet_plain.
  - vm_compute. reflexivity.
Defined.

Lemma WIAHandle_issues_witness :
  exists req kid k jwk idx now json draw jwt,
    Unmarshal_EUDIWAttestationRequest (default [] attest_data) = Some req /\ ear_Ver req = draft_version /\
    head (ear_KeysToAttest req) = Some kid /\ validKid kid = true /\
    key_of (w_store wallet_world) kid = Some k /\ pubKeyToJWK (pk_PubKey k) (pk_Curve k) = Ok jwk /\
    0 <= idx /\ allocated "alice" "wia" idx (w_store wallet_world)
                  (w_store (WIAHandle toy_wp "alice" attest_data wallet_world).1) /\
    Marshal_WIAPayload (wia_payload toy_wp now "alice" jwk idx) = Some json /\
    SignJWT draw json toy_key "oauth-client-attestation+jwt" [] = Ok jwt /\
    answer (WIAHandle toy_wp "alice" attest_data wallet_world).2 = Marshal_WIAResponse jwt.
Proof.
  apply (WIAHandle_issues toy_wp "alice" attest_data wallet_world
           (WIAHandle toy_wp "alice" attest_data wallet_world).1
           (answer (WIAHandle toy_wp "alice" attest_data wallet_world).2)).
  - apply wallet_store_ok.
  - apply wallet_plain.
  - vm_compute. reflexivity.
Defined.

(** After both attestations were issued: two entries are revoked, then suspended. *)
Definition revoke_run : World MemoryStore nat * outcome error bytes :=
  WIRevokeHandle toy_wp "alice" (Some (jtext "{'reason':'lost'}")) wia_run.1.




Lemma wia_run_issued : issued_ok (w_store wia_run.1).
Proof.
  destruct wallet_plain as [Hka Hwia].
  destruct (issued_handlers (H := nat) toy_wp (fun _ => True) ltac:(done) "alice" attest_data Hka Hwia)
    as (Ka & Kb & _).
  exact (proj1 (Kb wka_run.1 (Ka wallet_world (conj wallet_issued I)))).
Qed.


(** The list a relying party fetches after the revocation. *)
Definition list_config : StatusList.Config := StatusList.mkConfig toy_key [] "https://wp.example.com/statuslists" 0.
Definition list_request : HttpRequest := mkRequest "GET" "/statuslists/ka/0" (fun _ => "") "" None.

Definition list_run : World MemoryStore nat * outcome error HttpResponse :=
  StatusList.ServeHTTP id list_config list_request revoke_run.1.
Definition response_of {E} (o : outcome E HttpResponse) : HttpResponse :=
  match o with Ok r => r | _ => http_Error "" 0 end.
Definition list_response : HttpResponse := response_of list_run.2.

Lemma list_run_Ok :
  StatusList.ServeHTTP id list_config list_request revoke_run.1 = (list_run.1, Ok list_response).
Proof. vm_compute. reflexivity. Qed.

Lemma list_response_status : rs_Status list_response = StatusOK.
Proof. vm_compute. reflexivity. Qed.

Lemma list_indices i : is_Some (status_of (w_store revoke_run.1) "ka" i) -> index_ok i.
Proof.
  assert (map_Forall (fun i _ => index_ok i)
            (default (∅ : gmap Z Z) (m_statuses (w_store revoke_run.1) !! "ka"))) as Hf.
  { apply (bool_decide_unpack _). vm_compute. exact I. }
  intros [v Hv]. apply (Hf i v). revert Hv.
  change (mem_status (w_store revoke_run.1) "ka" i = Some v ->
    default (∅ : gmap Z Z) (m_statuses (w_store revoke_run.1) !! "ka") !! i = Some v).
  unfold mem_status. destruct (m_statuses (w_store revoke_run.1) !! "ka"); [done|by intros].
Qed.

Lemma revoke_store_ok : store_ok (w_store revoke_run.1).
Proof.
  destruct wallet_plain as [Hka Hwia].
  destruct (issued_handlers (H := nat) toy_wp (fun _ => True) ltac:(done) "alice"
    (Some (jtext "{'reason':'lost'}")) Hka Hwia) as (_ & _ & Kr & _).
  exact (proj1 (proj1 (Kr wia_run.1 (conj wia_run_issued I)))).
Qed.

Lemma list_path : SplitN2 (TrimPrefix (rq_Path list_request) "/statuslists/") x2f = Some ("ka", "0").
Proof. vm_compute. reflexivity. Qed.

#[local] Opaque revoke_run list_run list_response.

Lemma ServeHTTP_publishes_witness :
  w_store list_run.1 = w_store revoke_run.1 /\
  exists bs now draw jwt,
    (forall i v, status_of (w_store revoke_run.1) "ka" i = Some v -> list_entry bs i = Some (Z.land v 3)) /\
    SignJWT draw
      (Marshal_statusListPayload
         (mkPayload (cf_BaseURI list_config +:+ "/" +:+ "ka" +:+ "/" +:+ "0") (Unix now)
            (Unix (TimeAdd now (ttl_or (cf_TTL list_config) Hour))) 2 (RawURLEncodeToString (id bs))))
      (cf_SigningKey list_config) "statuslist+jwt" (cf_X5CChain list_config) = Ok jwt /\
    rs_Body list_response = go_bytes jwt.
Proof.
  exact (ServeHTTP_publishes id list_config list_request "ka" "0" revoke_run.1 list_run.1 list_response
           list_path revoke_store_ok list_indices list_run_Ok list_response_status).
Defined.
