(* ===== verification/Deploy.v ===== *)
(** * The deployment [main] builds

    The HTTP server, the admin API and the cleanup goroutine over one state:
    what every reachable state keeps, that every protocol request is
    answered, and what a process without a role cannot do. *)

From S2P Require Import Prelude GoTime GoStrings GoJson Protocol Counter Sessions Store Sad Ecc External World Handlers Jws Attest Http StatusList Modes AuthMw Admin Durations Startup X5C Opaque Webauthn Token Service Fido2 Dispatcher Server Toy Responses Access Flow Wallet.
Local Open Scope Z_scope.

(** ** The handlers of a dispatcher *)

Lemma handler_map_Some {St H} (hs : list (Handler St H)) t h :
  handler_map hs !! t = Some h -> h ∈ hs /\ h_Type h = t.
Proof.
  unfold handler_map. assert (forall acc : gmap string (Handler St H),
    fold_left (fun acc h => <[h_Type h := h]> acc) hs acc !! t = Some h ->
    acc !! t = Some h \/ h ∈ hs /\ h_Type h = t) as Hf.
  { induction hs as [|h' hs IH]; intros acc; simpl; [by left|]. intros Hl.
    destruct (IH _ Hl) as [Ha|[Hi Ht]]; [|right; split; [by right|done]].
    apply lookup_insert_Some in Ha as [[Ht ->]|[_ Ha]]; [|by left].
    right. split; [left|done]. }
  intros Hl. destruct (Hf ∅ Hl) as [Ha|Ha]; [|done]. by rewrite lookup_empty in Ha.
Qed.

#[export] Instance toy_hsm_points : BackendPoints nat.
Proof. by intros c h h' kid pub [= _ _ <-]. Qed.

Section Deploy.
Context {St H : Type} `{Env, StoreLaws St, !StoreFrames St, !StoreSafe St, Backend H, !BackendSafe H,
  !BackendPoints H, GoCrypto, Jose, OpaqueLib, HkdfLib, MapOrder, TokenLib}.
Local Abbreviation W := (World St H).
Local Abbreviation m := (M W error).

(** ** What the store always looks like *)

(** Every stored key has a point. *)
Definition keys_ok (s : St) : Prop := forall kid k, key_of s kid = Some k -> pk_PubKey k <> [].

Lemma keys_frame (p : part) (s s' : St) : p <> PKeys -> frame p s s' -> keys_ok s -> keys_ok s'.
Proof. intros Hp [_ Hf] Hk kid k. rewrite (Hf PKeys) by done. apply Hk. Qed.

(** The store is well formed, every status index on record has an entry, and
    every key has a point. *)
Definition deploy_ok : St -> Prop := attest_ok keys_ok.

Lemma deploy_frame (p : part) (s s' : St) :
  p <> PStatus -> p <> PIndices -> p <> PKeys -> frame p s s' -> deploy_ok s -> deploy_ok s'.
Proof. intros Hp1 Hp2 Hp3 Hf [Hi Hk]. split; [by eapply issued_frame|by eapply keys_frame]. Qed.

Local Abbreviation K := (keeps (stored (H := H) deploy_ok)).

(** *** The HSM handlers *)

Lemma keygen_stored ks cl data : steps K (ECKeygenHandle ks cl data).
Proof.
  intros w Hw. unfold ECKeygenHandle, bind at 1. simpl. unfold bind at 1, lift. simpl.
  destruct (Unmarshal_ECKeygenRequest data) as [curve|]; simpl; [|exact Hw].
  unfold observed, attempt, on_hsm, zoom, bind, ret, modify. simpl.
  destruct (GenerateECKey curve (w_hsm w)) as [h [[kid pub]|e|p]] eqn:E; simpl; [|exact Hw..].
  apply generated_point in E. destruct ks; [|exact Hw]. unfold on_store, zoom. simpl.
  set (k := mkPublicKeyInfo kid curve pub _ cl).
  pose proof (PutPublicKey_law (w_store w) k) as HL. destruct Hw as [Hi Hk].
  destruct (PutPublicKey k (w_store w)) as [s' [u|e|p]]; [| |done].
  - destruct HL as [Hf HL]. split; [by apply (issued_frame PKeys (w_store w))|].
    intros kid' k'. simpl. rewrite HL. case_decide; [by intros [= <-]|apply Hk].
  - split; [by eapply issued_unchanged|]. apply (keys_frame PStatus (w_store w)); [done| |done].
    by apply unchanged_frame.
Qed.

(** *** The attestation handlers *)

Lemma sound_resolveKeyJWK kid : sound (stored deploy_ok) (resolveKeyJWK (St := St) (H := H) kid).
Proof.
  intros w Hw. unfold resolveKeyJWK, bind, on_store, zoom.
  pose proof (GetPublicKey_law (w_store w) kid) as HL.
  destruct (GetPublicKey kid (w_store w)) as [s' [k|e|p]]; [|by subst|done].
  destruct HL as [-> Hk]. unfold lift. split; [exact Hw|]. simpl.
  destruct (pubKeyToJWK (pk_PubKey k) (pk_Curve k)) as [j|e|p] eqn:Ej; [done..|]. exfalso.
  by apply (proj2 Hw _ _ Hk), (pubKeyToJWK_panic (pk_PubKey k) (pk_Curve k)); rewrite Ej.
Qed.

Create HintDb sound.
#[local] Hint Resolve sound_resolveKeyJWK sound_attempt sound_with_err sound_ret sound_fail : sound.

Ltac sound_branch :=
  lazymatch goal with
  | |- sound _ (bind _ _) => apply sound_bind; [|intros ?]
  | |- sound _ (match ?x with _ => _ end) => destruct x eqn:?
  | |- sound _ (let '_ := ?x in _) => destruct x eqn:?
  end.
(** Parts that neither depend on the invariant nor panic anywhere. *)
Ltac sound_leaf := apply sound_of; [solve [steps_auto]|solve [safe_auto]].
Ltac sound_auto := repeat (sound_branch || solve [eauto with sound] || sound_leaf).

Lemma keys_other p s s' : p <> PKeys -> frame p s s' -> keys_ok s -> keys_ok s'.
Proof. apply keys_frame. Qed.

Lemma keeps_deploy_SetStatus c i v : steps (keeps deploy_ok) (SetStatus c i v).
Proof. apply keeps_attest_SetStatus, keys_other. Qed.
Lemma keeps_deploy_AllocateIndex c : steps (keeps deploy_ok) (AllocateIndex c).
Proof. apply keeps_attest_AllocateIndex, keys_other. Qed.

#[local] Hint Resolve keeps_deploy_SetStatus keeps_deploy_AllocateIndex : steps.

Section Attestations.
Context (cfg : WalletProviderConfig) (Hka : plain "ka") (Hwia : plain "wia").

Lemma sound_attested_keys kids : sound (stored deploy_ok) (attested_keys (St := St) (H := H) kids).
Proof.
  induction kids as [|kid kids IH]; cbn [attested_keys]; [apply sound_ret|].
  unfold check_kid. sound_auto.
Qed.

Lemma sound_allocate cl c : plain c -> sound (stored deploy_ok) (allocate (H := H) cl c).
Proof.
  intros Hc. apply sound_of; [by apply steps_K_allocate; [apply keys_other|]|].
  unfold allocate. safe_auto.
Qed.

Lemma sound_sign_attestation what typ p :
  sound (stored deploy_ok) (sign_attestation (St := St) (H := H) cfg what typ p).
Proof.
  unfold sign_attestation. sound_auto. apply sound_with_err, sound_of; [apply steps_lift, _|].
  apply safe_lift, SignJWT_no_panic.
Qed.

Lemma sound_audit e cl a : sound (stored deploy_ok) (audit (St := St) (H := H) cfg e cl a).
Proof. unfold audit. sound_auto. Qed.

#[local] Hint Resolve sound_attested_keys sound_allocate sound_sign_attestation sound_audit : sound.

Lemma safe_set_each c v l n : safe (set_each (St := St) (H := H) c v l n).
Proof. revert n. induction l as [|i l IH]; intros n; cbn [set_each]; safe_auto. Qed.

#[local] Hint Resolve safe_set_each : safe.

Lemma safe_set_categories cl v cs n : safe (set_categories (St := St) (H := H) cl v cs n).
Proof. revert n. induction cs as [|c cs IH]; intros n; cbn [set_categories]; safe_auto. Qed.

#[local] Hint Resolve safe_set_categories : safe.

Lemma sound_set_categories cl v cs n :
  sound (stored deploy_ok) (set_categories (St := St) (H := H) cl v cs n).
Proof. apply sound_of; [apply steps_K_categories, keys_other|apply safe_set_categories]. Qed.

#[local] Hint Resolve sound_set_categories : sound.

Lemma sound_attestations cl data h :
  h ∈ [WKAHandler cfg; WIAHandler cfg; WIRevokeHandler cfg; WISuspendHandler cfg] ->
  sound (stored deploy_ok) (h_Handle (St := St) (H := H) h cl data).
Proof.
  rewrite !elem_of_cons, elem_of_nil. intros [->|[->|[->|[->|[]]]]]; simpl;
    unfold WKAHandle, WIAHandle, WIRevokeHandle, WISuspendHandle, revokeAll, attestation_request, check_kid;
    sound_auto.
Qed.
End Attestations.

(** *** Every handler of a role *)

Context (Hka : plain "ka") (Hwia : plain "wia").

Lemma sound_role_handlers roles wp h cl data :
  h ∈ role_handlers (St := St) (H := H) roles wp -> sound (stored deploy_ok) (h_Handle h cl data).
Proof.
  unfold role_handlers. rewrite elem_of_app. intros [Hh|Hh]; case_match; try by apply elem_of_nil in Hh.
  - rewrite !elem_of_cons, elem_of_nil in Hh.
    destruct Hh as [->|[->|[->|[->|[]]]]]; simpl; apply sound_of.
    + eapply steps_mono; [apply stored_hsm|apply steps_ECDSAHandle].
    + apply safe_ECDSAHandle.
    + apply keygen_stored.
    + apply safe_ECKeygenHandle.
    + eapply steps_mono; [apply stored_hsm|apply steps_ECDHHandle].
    + apply safe_ECDHHandle.
    + eapply steps_mono; [apply stored_hsm|apply steps_ListKeysHandle].
    + apply safe_ListKeysHandle.
  - by apply sound_attestations with wp.
Qed.

(** ** The server [main] builds *)

Context (getenv : string -> string) (connect : PKCS11Config -> outcome error H)
  (open_store : option MongoDBConfig -> outcome error St) (fs : Files)
  (keyDraw opaqueDraw seedDraw : nat) (s : Server (St := St) (H := H)) (hsm : option H) (store0 : St) (c : AttemptCounter).
Context (Hmain : main getenv connect open_store fs keyDraw opaqueDraw seedDraw = Ok (s, hsm, store0, c)).
Context (deflate : bytes -> bytes) (metrics : m HttpResponse) (stack : string -> string).

(** The wallet provider of the process, and its dispatcher's configuration. *)
Definition provider : WalletProviderConfig := walletProviderConfig getenv fs (d_serverKey (sv_dispatcher s)).

Lemma main_wiring :
  let d := sv_dispatcher s in
  ParseRoles (envOr getenv "R2PS_MODE" "all") = Ok (sv_roles s) /\
  d_handlers d = handler_map (role_handlers (sv_roles s) provider) /\
  d_records d = NewStoreRecordStore /\ d_fido2 d = None /\ d_clientKeys d = None /\
  open_store (store_config getenv) = Ok store0.
Proof.
  revert Hmain. unfold main, provider. intros Hm. inv_ok Hm. unfold NewDispatcher in Hok5. simpl in Hok5.
  injection Hok5 as <-. injection Hm as <- _ <- _. by split_and!.
Qed.

Lemma keys_safe_main : keys_safe (sv_dispatcher s).
Proof. destruct main_wiring as (_ & _ & _ & _ & Hk & _). intros lookup kid. by rewrite Hk. Qed.

Lemma handlers_main t h : d_handlers (sv_dispatcher s) !! t = Some h ->
  h ∈ role_handlers (sv_roles s) provider.
Proof.
  destruct main_wiring as (_ & Hh & _). rewrite Hh. intros Hl. by apply handler_map_Some in Hl as [Hl _].
Qed.

Lemma deploy_flow : factor_flow (stored (H := H) deploy_ok) any_record.
Proof. apply stored_flow; intros s1 s2; by apply deploy_frame. Qed.

Lemma sound_main_Process body : sound (stored deploy_ok) (Process (sv_dispatcher s) body).
Proof.
  destruct main_wiring as (_ & _ & Hr & Hf & _).
  apply (sound_Process _ _ _ deploy_flow Hr (fun _ _ => I)); [done|apply keys_safe_main|].
  intros t h Hh cl data. eapply sound_role_handlers, handlers_main, Hh.
Qed.

(** A step of the process: a request on either listener, or the cleanup. *)
Inductive deploy_step (auth : option (option string)) : W -> W -> Prop :=
| step_http r w : deploy_step auth w (serve deflate metrics stack s r w).1
| step_admin r w : deploy_step auth w (Admin.ServeHTTP auth r w).1
| step_tick w : deploy_step auth w (cleanup_tick w).1.

(** The Prometheus handler changes nothing. *)
Context (Hmetrics : steps quiet metrics).

Lemma steps_r2psHandler r : steps K (r2psHandler (sv_dispatcher s) r).
Proof.
  assert (forall body, steps K (Process (sv_dispatcher s) body)) as Hp.
  { intros body w Hw. by apply sound_main_Process. }
  unfold r2psHandler. steps_auto.
Qed.

Lemma steps_statuslist cfg r : steps K (StatusList.ServeHTTP (St := St) (H := H) deflate cfg r).
Proof. unfold StatusList.ServeHTTP. steps_auto. Qed.

Lemma steps_metrics : steps K metrics.
Proof. eapply steps_mono; [|exact Hmetrics]. intros w w' Hq. by apply Quiet_backends; [apply _|]. Qed.

#[local] Hint Resolve steps_r2psHandler steps_statuslist steps_metrics : steps.

Lemma steps_mux r : steps K (mux deflate metrics s r).
Proof. unfold mux, readyzHandler. steps_auto. Qed.

Lemma serve_state r w : (serve deflate metrics stack s r w).1 = (mux deflate metrics s r w).1.
Proof.
  unfold serve, recoverMiddleware. destruct (mux deflate metrics s r w) as [w' []]; [done..|].
  by destruct (isInfrastructurePanic _).
Qed.

(** *** The admin API *)

Lemma steps_index_infos_K cat l : steps K (index_infos (H := H) cat l).
Proof. induction l as [|i l IH]; cbn [index_infos]; steps_auto. Qed.

#[local] Hint Resolve steps_index_infos_K : steps.

Lemma steps_run_route rt r : steps K (run_route rt r).
Proof.
  destruct rt; cbn [run_route]; unfold handleListStatuses, handleGetStatus, handleSetStatus,
    handleGetClientIndices, handleGetUsage, handleAllocateIndex, handleListKeys, handleGetKey, store_call;
    steps_auto.
Qed.

Lemma steps_admin auth r : steps K (Admin.ServeHTTP auth r).
Proof.
  unfold Admin.ServeHTTP. destruct (route_of _ _) as [[rt []]|]; [|steps_auto..].
  destruct auth as [dev|]; [|apply steps_run_route]. intros w. cbn [admin_handler].
  rewrite guarded_run. repeat case_match; [apply steps_run_route|reflexivity..].
Qed.

Lemma steps_deploy auth w w' : deploy_step auth w w' -> K w w'.
Proof.
  intros [r w1|r w1|w1]; [rewrite serve_state; apply steps_mux|apply steps_admin|].
  intros Hw. unfold cleanup_tick, bind. simpl. destruct (CleanExpired _ _) as [ss n]. simpl. by case_match.
Qed.

Lemma reachable_deploy_ok auth w0 w :
  deploy_ok (w_store w0) -> rtc (deploy_step auth) w0 w -> deploy_ok (w_store w).
Proof.
  intros Hw Hr. induction Hr as [w|w1 w2 w3 Hs _ IH]; [done|]. apply IH. exact (steps_deploy auth _ _ Hs Hw).
Qed.

(** C15: in every state a process reaches from a good one, through protocol
    requests, status lists, admin requests and the cleanup in any order, the
    store is well formed, every status index on record for a client has an
    entry, and every stored key has a point. *)
Theorem reachable_store auth w0 w :
  deploy_ok (w_store w0) -> rtc (deploy_step auth) w0 w -> deploy_ok (w_store w).
Proof. apply reachable_deploy_ok. Qed.

(** ** Every protocol request is answered *)

(** The state in which the dispatcher sees a request. *)
Definition received (w : W) : W :=
  ((Inc (E := error) "requests_total" "received" ;;! Now) w).1.

(** The answer to what the dispatcher returned. *)
Definition answer_of (r : outcome R2PSError bytes) : option HttpResponse :=
  match r with
  | Ok b => Some (mkResponse StatusOK [("Content-Type", "application/jose")] b)
  | Err e => Some (Server.writeError (mapErrorStatus (Code e)) (Code e) (Msg e))
  | Panic _ => None
  end.

Lemma r2ps_run (d : Dispatcher St H) r body (w : W) :
  rq_Body r = Some body -> is_panic (Process d (take body_limit body) (received w)).2 = false ->
  exists w' resp, r2psHandler d r w = (w', Ok resp) /\
    answer_of (Process d (take body_limit body) (received w)).2 = Some resp.
Proof.
  intros Hb. unfold r2psHandler. fold (received w).
  unfold bind at 1. unfold Inc at 1, modify at 1. unfold bind at 1. unfold Now at 1. rewrite Hb.
  change (mkWorld _ _ _ _ _ _ _ _ _) with (received w) at 1.
  unfold bind at 1, attempt. destruct (Process d (take body_limit body) (received w)) as [w1 [b|e|p]];
    intros Hn; [do 2 eexists; by split..|done].
Qed.

(** C13: every protocol request a process receives in a reachable state is
    answered: the dispatcher returns, with a response or an error, and the
    client gets the response with status 200, or the error with the status
    of its code; a body that cannot be read is a bad request. *)
Theorem protocol_requests_answered auth w0 w r :
  deploy_ok (w_store w0) -> rtc (deploy_step auth) w0 w ->
  rq_Path r = "/r2ps" -> rq_Method r = "POST" ->
  exists w' resp, serve deflate metrics stack s r w = (w', Ok resp) /\
    match rq_Body r with
    | None => resp = Server.writeError StatusBadRequest ErrIllegalRequestData "read body failed"
    | Some body =>
        answer_of (Process (sv_dispatcher s) (take body_limit body) (received w)).2 = Some resp
    end.
Proof.
  intros Hw Hr Hp Hm. pose proof (reachable_deploy_ok auth w0 w Hw Hr) as Hok.
  unfold serve, recoverMiddleware, mux. rewrite Hp, Hm. simpl.
  destruct (rq_Body r) as [body|] eqn:Hb.
  - destruct (sound_main_Process (take body_limit body) (received w)) as [_ Hn]; [exact Hok|].
    destruct (r2ps_run (sv_dispatcher s) r body w Hb Hn) as (w' & resp & -> & Ha). by do 2 eexists.
  - unfold r2psHandler, bind at 1. simpl. unfold bind at 1. simpl. rewrite Hb. by do 2 eexists.
Qed.

(** ** What a process without a role cannot do *)

Lemma role_handlers_elem roles wp h :
  h ∈ role_handlers (St := St) (H := H) roles wp ->
  (Has roles RoleWSCD = true /\ h ∈ [ECDSAHandler; ECKeygenHandler true; ECDHHandler; ListKeysHandler]) \/
  (Has roles RoleWSCA = true /\
     h ∈ [WKAHandler wp; WIAHandler wp; WIRevokeHandler wp; WISuspendHandler wp]).
Proof.
  unfold role_handlers. rewrite elem_of_app.
  intros [Hh|Hh]; case_match; [by left|by apply elem_of_nil in Hh|by right|by apply elem_of_nil in Hh].
Qed.

(** A fact of the backends that the records, the credentials and the handlers
    of the process keep is kept by every request. *)
Lemma steps_serve_keep (P : W -> Prop) `{!Backends P} :
  factor_flow P any_record ->
  (forall h cl data, h ∈ role_handlers (sv_roles s) provider -> steps (keeps P) (h_Handle h cl data)) ->
  (Has (sv_roles s) RoleWSCD = true -> steps (keeps P) readyzHandler) ->
  (forall c, steps (keeps P) (on_store (E := error) (GetAllStatuses c))) ->
  forall r w, P w -> P (serve deflate metrics stack s r w).1.
Proof.
  intros Hf Hh Hready Hall r w. rewrite serve_state. revert w. change (steps (keeps P) (mux deflate metrics s r)).
  assert (forall body, steps (keeps P) (Process (sv_dispatcher s) body)) as Hp.
  { intros body. destruct main_wiring as (_ & _ & Hr & _). apply (steps_flow_Process _ _ _ Hf Hr (fun _ _ => I)).
    intros t h Ht cl data. by eapply Hh, handlers_main. }
  assert (forall r, steps (keeps P) (r2psHandler (sv_dispatcher s) r)) as Hr.
  { intros r'. unfold r2psHandler. steps_auto. }
  assert (steps (keeps P) metrics) as Hm.
  { eapply steps_mono; [|exact Hmetrics]. intros w w' Hq. by apply Quiet_backends; [apply _|]. }
  assert (forall cfg r, steps (keeps P) (StatusList.ServeHTTP (St := St) (H := H) deflate cfg r)) as Hsl.
  { intros cfg r'. unfold StatusList.ServeHTTP. steps_auto. }
  unfold mux. steps_auto.
Qed.

(** The statuses and indices of a store are those of [s0]. *)
Definition same_lists (s0 s1 : St) : Prop := agree PStatus s0 s1 /\ agree PIndices s0 s1.

Lemma same_lists_frame p s0 s1 s2 :
  p <> PStatus -> p <> PIndices -> frame p s1 s2 -> same_lists s0 s1 -> same_lists s0 s2.
Proof.
  intros Hp1 Hp2 [_ Hf] [Hs Hi]. pose proof (Hf PStatus ltac:(done)) as Hs'.
  pose proof (Hf PIndices ltac:(done)) as Hi'. split.
  - intros cat i. by rewrite (Hs' cat i).
  - intros cl cat Hc. by rewrite (Hi' cl cat Hc), (Hi cl cat Hc).
Qed.

Lemma keygen_lists ks cl data s0 : steps (keeps (stored (H := H) (same_lists s0))) (ECKeygenHandle ks cl data).
Proof.
  unfold ECKeygenHandle. steps_auto.
  { apply steps_observed; [typeclasses eauto..|apply steps_stored_hsm]. }
  apply steps_attempt, steps_stored_store. intros st. match goal with |- context [PutPublicKey ?k] => 
    pose proof (PutPublicKey_law st k) as HL; destruct (PutPublicKey k st) as [s2 [u|e|p]] end; [| |done].
  - intros Hs. destruct HL as [Hf _]. by apply (same_lists_frame PKeys s0 st).
  - intros Hs. apply (same_lists_frame PKeys s0 st); [done..| |done]. by apply unchanged_frame.
Qed.

End Deploy.

(** ** Witnesses *)

#[export] Instance toy_order : MapOrder := {| range := map_to_list; range_perm m := reflexivity _ |}.

#[export] Instance toy_tokens : TokenLib := {|
  Validate := fun t => Some (mkResult t t);
  TAC_Has := fun tac p => Contains tac p;
  TAC_HasAll := fun tac p => Contains tac p;
  TACAdmin := "a"
|}.

(** Every role, on the toy libraries. *)
Definition toy_getenv (key : string) : string :=
  if bool_decide (key = "R2PS_HSM_MODULE") then "/usr/lib/softhsm/libsofthsm2.so"
  else if bool_decide (key = "R2PS_HSM_PIN") then "1234" else "".

Definition toy_main : outcome error (Server (St := MemoryStore) (H := nat) * option nat * MemoryStore * AttemptCounter) :=
  main toy_getenv (fun _ => Ok 0%nat) (fun _ => Ok NewMemoryStore) no_files 0%nat 1%nat 2%nat.

Definition toy_built : Server (St := MemoryStore) (H := nat) * option nat * MemoryStore * AttemptCounter :=
  match toy_main with
  | Ok b => b
  | _ => (mkServer (toy_dispatcher None) ∅ list_config, None, NewMemoryStore, NewAttemptCounter 0 0)
  end.
Definition toy_server : Server (St := MemoryStore) (H := nat) := toy_built.1.1.1.

Lemma toy_main_Ok :
  main toy_getenv (fun _ => Ok 0%nat) (fun _ => Ok NewMemoryStore) no_files 0%nat 1%nat 2%nat
  = Ok (toy_server, toy_built.1.1.2, toy_built.1.2, toy_built.2).
Proof.
  unfold toy_server. assert (is_ok toy_main = true) as Hm by (vm_compute; reflexivity).
  revert Hm. unfold toy_built, toy_main. by destruct (main _ _ _ _ _ _ _) as [[[[s0 h] st] c]|e|p].
Qed.

Definition toy_metrics : M (World MemoryStore nat) error HttpResponse := ret (mkResponse StatusOK [] []).

Lemma toy_metrics_quiet : steps quiet toy_metrics.
Proof. apply steps_ret, _. Qed.

Definition post (body : bytes) : HttpRequest := mkRequest "POST" "/r2ps" (fun _ => "") "" (Some body).

Definition toy_serve (r : HttpRequest) : M (World MemoryStore nat) error HttpResponse :=
  serve id toy_metrics id toy_server r.

Definition keygen_request : HttpRequest :=
  post (body_of (toy_request "alice" "wallet" TypeP256Generate "" (jtext "{'curve':'P-256'}"))).

(** A key generation, and an attestation of the key. *)
Definition deploy_run : World MemoryStore nat :=
  fold_left (fun w r => (toy_serve r w).1)
    [keygen_request; post (body_of (toy_request "alice" "wallet" TypeEUDIWWKAETSI ""
                      (jtext "{'keys_to_attest':['key-0'],'ver':'draft-008'}")))] toy_world.

Lemma deploy_run_steps : rtc (deploy_step toy_server id toy_metrics id None) toy_world deploy_run.
Proof.
  unfold deploy_run. cbn [fold_left]. eapply rtc_l; [apply step_http|]. eapply rtc_l; [apply step_http|]. reflexivity.
Qed.

Lemma toy_deploy_ok : deploy_ok (w_store toy_world).
Proof.
  split; [split; [split|]|].
  - intros c inner i Hc. exfalso. revert Hc. cbn. by rewrite lookup_empty.
  - intros c n Hc. exfalso. revert Hc. cbn. by rewrite lookup_empty.
  - intros cl c i _ Hi. exfalso. revert Hi.
    change (indices_of (w_store toy_world) cl c)
      with (default ([] : list Z) ((∅ : gmap string (list Z)) !! Memory.pair_key cl c)).
    rewrite lookup_empty. apply not_elem_of_nil.
  - intros kid k Hk. exfalso. revert Hk. cbn. by rewrite lookup_empty.
Qed.

Lemma deploy_run_issued : indices_of (w_store deploy_run) "alice" "ka" = [0].
Proof. vm_compute. reflexivity. Qed.

#[local] Opaque deploy_run toy_server.

Lemma reachable_store_witness :
  indices_of (w_store deploy_run) "alice" "ka" = [0] /\ deploy_ok (w_store deploy_run).
Proof.
  split; [exact deploy_run_issued|].
  exact (reachable_store (proj1 wallet_plain) (proj2 wallet_plain) toy_getenv (fun _ => Ok 0%nat)
    (fun _ => Ok NewMemoryStore) no_files 0%nat 1%nat 2%nat toy_server toy_built.1.1.2 toy_built.1.2
    toy_built.2 toy_main_Ok id toy_metrics id toy_metrics_quiet None toy_world deploy_run toy_deploy_ok
    deploy_run_steps).
Defined.

(** A request that is not a JWS of a request. *)
Definition bad_request : HttpRequest := post (jtext "{'ver':'2.0'}").

Lemma protocol_requests_answered_witness :
  exists w' resp, serve id toy_metrics id toy_server bad_request deploy_run = (w', Ok resp) /\
    answer_of (Process (sv_dispatcher toy_server) (take body_limit (jtext "{'ver':'2.0'}"))
                 (received deploy_run)).2 = Some resp.
Proof.
  exact (protocol_requests_answered (proj1 wallet_plain) (proj2 wallet_plain) toy_getenv (fun _ => Ok 0%nat)
    (fun _ => Ok NewMemoryStore) no_files 0%nat 1%nat 2%nat toy_server toy_built.1.1.2 toy_built.1.2
    toy_built.2 toy_main_Ok id toy_metrics id toy_metrics_quiet None toy_world deploy_run bad_request
    toy_deploy_ok deploy_run_steps eq_refl eq_refl).
Defined.

(** A process with the wsca role alone. *)
Definition wsca_getenv (key : string) : string := if bool_decide (key = "R2PS_MODE") then "wsca" else "".

Definition wsca_main : outcome error (Server (St := MemoryStore) (H := nat) * option nat * MemoryStore * AttemptCounter) :=
  main wsca_getenv (fun _ => Err (Errorf "no HSM")) (fun _ => Ok NewMemoryStore) no_files 0%nat 1%nat 2%nat.
Definition wsca_server : Server (St := MemoryStore) (H := nat) :=
  match wsca_main with Ok b => b.1.1.1 | _ => toy_server end.

Lemma wsca_main_Ok : exists h st c, wsca_main = Ok (wsca_server, h, st, c).
Proof.
  unfold wsca_server. assert (is_ok wsca_main = true) as Hm by (vm_compute; reflexivity).
  revert Hm. destruct wsca_main as [[[[s0 h] st] c]|e|p]; [|done..]. intros _. by do 3 eexists.
Qed.

