(* ===== verification/Client.v ===== *)
(** * [pkg/client/client.go]: the protocol's client

    Registration, authentication and service calls over a transport.  The
    client runs in a process of its own: it has its own clock and its own
    randomness, and the state of whatever the transport leads to is part of
    the state of a run. *)

From S2P Require Import Prelude GoTime GoStrings GoJson Protocol Counter Sessions Store Ecc External World Jws.
Local Open Scope Z_scope.

(** The client, its keys, and its session once it is authenticated. *)
Record Client := mkClient {
  c_clientID : string;
  c_context : string;
  c_clientKey : PrivateKey;
  c_serverPub : PublicKey;
  c_sessionID : string;
  c_sessionKey : option bytes
}.

Definition NewClient (clientID ctx : string) (clientKey : PrivateKey) (serverPub : PublicKey) : Client :=
  mkClient clientID ctx clientKey serverPub "" None.

Definition SessionID (c : Client) : string := c_sessionID c.

(** A run: the client, the network behind its transport, and how many clock
    readings and draws the client made. *)
Record Run (T : Type) := mkRun {
  r_client : Client;
  r_net : T;
  r_tick : nat;
  r_draw : nat
}.
Arguments mkRun {T}.
Arguments r_client {T}.
Arguments r_net {T}.
Arguments r_tick {T}.
Arguments r_draw {T}.

Section Client.
Context {T : Type} `{EC : Env, J : Jose, CL : OpaqueClientLib}.
(** [Transport.Send] *)
Context (Send : bytes -> M T error bytes).
Local Abbreviation m := (M (Run T) error).

Definition client_Now : m Time := fun r =>
  (mkRun (r_client r) (r_net r) (S (r_tick r)) (r_draw r), Ok (clock (r_tick r))).
Definition client_Draw : m nat := fun r =>
  (mkRun (r_client r) (r_net r) (r_tick r) (S (r_draw r)), Ok (r_draw r)).
Definition client_RandomBytes (n : nat) : m bytes := let! i := client_Draw in ret (rand i n).

Definition on_net {A} (x : M T error A) : m A :=
  zoom r_net (fun t r => mkRun (r_client r) t (r_tick r) (r_draw r)) x.

Definition set_session (id : string) (key : bytes) (c : Client) : Client :=
  mkClient (c_clientID c) (c_context c) (c_clientKey c) (c_serverPub c) id (Some key).

(** A call of another package. *)
Definition try {A} (ctx pkg : string) (o : option A) : m A := lift (of_option (Wrapf ctx (PkgError pkg)) o).

(** The request of the client, with a fresh nonce and the time. *)
Definition new_request (typ sessionID : string) (data : option bytes) : m ServiceRequest :=
  let! c := gets r_client in
  let! nonce := client_RandomBytes 16 in
  let! now := client_Now in
  ret (mkServiceRequest ProtocolVersion (URLEncodeToString nonce) (Unix now) data
         (c_clientID c) (c_context c) typ sessionID "").

(** Sign a request, send it, verify and parse the response; the two callers
    word their errors differently. *)
Definition exchange (what where_ : string) (svcReq : ServiceRequest) : m (option bytes) :=
  let! c := gets r_client in
  let! reqJSON := try ("marshal " +:+ what) "json" (Marshal_ServiceRequest svcReq) in
  let! draw := client_Draw in
  let! signed := with_err (Wrapf "sign request") (lift (SignJWS draw reqJSON (c_clientKey c) "" TypRequest)) in
  let! respBody := with_err (Wrapf "transport") (on_net (Send (go_bytes signed))) in
  let! respPayload := with_err (Wrapf where_) (lift (VerifyJWS (go_string respBody) (c_serverPub c))) in
  let! svcResp := try "unmarshal response" "json" (Unmarshal_ServiceResponse respPayload) in
  ret (rsp_Data svcResp).

Definition send2FA (reqType sessionID : string) (tfaReq : TFARequestData) : m (option bytes) :=
  let tfaJSON := Marshal_TFARequestData tfaReq in
  let! svcReq := new_request reqType sessionID (Some tfaJSON) in
  exchange "request" "verify response" svcReq.

Definition CallService (serviceType : string) (reqData : option bytes) : m (option bytes) :=
  let! c := gets r_client in
  match c_sessionKey c with
  | None => fail (Errorf "not authenticated")
  | Some _ =>
      let! svcReq := new_request serviceType (c_sessionID c) reqData in
      exchange "service request" "verify response JWS" svcReq
  end.

(** The OPAQUE data of a state, base64-coded. *)
Definition opaque_request (state : string) (pdata : bytes) : TFARequestData :=
  mkTFARequestData TFAModeOPAQUE "" state (URLEncodeToString pdata) "" "" "" 0.

Definition Register (password : bytes) : m unit :=
  let! client := try "create OPAQUE client" "opaque" NewClientLib in
  let! draw := client_Draw in
  let! (client, regReq) := try "registration init" "opaque" (RegistrationInit draw client password) in
  let! resp := with_err (Wrapf "registration evaluate")
    (send2FA Type2FARegistration "" (opaque_request StateEvaluate regReq)) in
  let! tfaResp := try "unmarshal response" "json" (Unmarshal_TFAResponseData (default [] resp)) in
  let! _ := try "create deserializer" "opaque" (if NewDeserializer then Some tt else None) in
  let! respBytes := try "decode response" "base64" (URLDecodeString (trd_Response tfaResp)) in
  let! regResp := try "deserialize registration response" "opaque" (DeserRegistrationResponse respBytes) in
  let! draw := client_Draw in
  let! record := try "registration finalize" "opaque" (RegistrationFinalize draw client regResp) in
  let! _ := send2FA Type2FARegistration "" (opaque_request StateFinalize record) in
  ret tt.

Definition Authenticate (password : bytes) : m unit :=
  let! client := try "create OPAQUE client" "opaque" NewClientLib in
  let! draw := client_Draw in
  let! (client, ke1) := try "generate KE1" "opaque" (ClientKE1 draw client password) in
  let! resp := with_err (Wrapf "auth evaluate")
    (send2FA Type2FAAuthenticate "" (opaque_request StateEvaluate ke1)) in
  let! authResp := try "unmarshal auth response" "json" (Unmarshal_TFAAuthResponseData (default [] resp)) in
  let! _ := try "create deserializer" "opaque" (if NewDeserializer then Some tt else None) in
  let! ke2Bytes := try "decode KE2" "base64" (URLDecodeString (tard_Response authResp)) in
  let! ke2 := try "deserialize KE2" "opaque" (DeserKE2 ke2Bytes) in
  let! (ke3, sessionKey) := try "generate KE3" "opaque" (ClientKE3 client ke2) in
  let! _ := with_err (Wrapf "auth finalize")
    (send2FA Type2FAAuthenticate (tard_TFASessionID authResp) (opaque_request StateFinalize ke3)) in
  modify (fun r => mkRun (set_session (tard_TFASessionID authResp) sessionKey (r_client r))
                     (r_net r) (r_tick r) (r_draw r)).
End Client.
