(* ===== verification/EndToEnd.v ===== *)
(** * The client against the dispatcher

    The transport of the package's tests leads to a dispatcher.  A client
    that signs with the key the dispatcher verifies with, and a dispatcher
    whose signatures it verifies: what the client asks is what is processed,
    and what is answered is what the client gets. *)

From S2P Require Import Prelude GoTime GoStrings GoJson JsonText JsonRound JsonCompact Protocol Messages Counter Sessions Store Sad Ecc External World Handlers Jws Opaque Token Service Fido2 Dispatcher Toy Responses Access Factors Client.
Local Open Scope Z_scope.

(** ** The server's side *)

Section Server.
Context {St H : Type} `{ES : Env, Store St, GoCrypto, Jose, OpaqueLib, HkdfLib}.
Local Abbreviation W := (World St H).
Context (d : Dispatcher St H).
Context (Hjose : jose_ok).

(** The server's key signs. *)
Definition signs (k : PrivateKey) : Prop := forall draw p typ, exists s, SignJWS draw p k "" typ = Ok s.

(** After one reading of the clock; after a reading and a draw. *)
Definition ticked (w : W) : W := (Now (E := R2PSError) w).1.
Definition answered (w : W) : W := (Draw (E := R2PSError) (ticked w)).1.

(** How the client reads a response. *)
Definition read_response (where_ : string) (pub : PublicKey) (b : bytes) : outcome error (option bytes) :=
  let? payload := map_err (Wrapf where_) (VerifyJWS (go_string b) pub) in
  let? rsp := of_option (Wrapf "unmarshal response" (PkgError "json")) (Unmarshal_ServiceResponse payload) in
  Ok (rsp_Data rsp).

Lemma respond_read req data w wh :
  signs (d_serverKey d) -> json_ValidInside data = true ->
  exists b, respond d req (Some data) w = (answered w, Ok b) /\
    read_response wh (priv_PublicKey (d_serverKey d)) b = Ok (Some (compact data)).
Proof.
  intros Hs Hd. unfold respond.
  destruct (ServiceResponse_wire
    (mkServiceResponse ProtocolVersion (sr_Nonce req) (Unix (clock (w_tick w))) (Some data) (Some true)) data
    eq_refl Hd (wrap64_range _)) as (p & Hm & Hu).
  destruct (Hs (w_draw w) p TypResponse) as (s & Hsig). exists (go_bytes s). split.
  - unfold bind, Now, lift, of_option. cbv beta iota. rewrite Hm. cbn [Draw w_draw].
    unfold or_refuse, with_err, Draw. cbv beta iota. cbn [w_draw]. by rewrite Hsig.
  - unfold read_response. rewrite go_string_bytes. rewrite (SignJWS_VerifyJWS _ _ _ _ _ _ Hjose Hsig).
    cbn [map_err obind]. by rewrite Hu.
Qed.

(** A request signed by a holder of the server's key reaches [route]. *)
Lemma accept_signed req t draw signed w :
  d_clientKeys d = None ->
  sr_Data req = Some t -> json_ValidInside t = true -> is_int64 (sr_Iat req) ->
  sr_Ver req = ProtocolVersion -> (exists n, sr_Nonce req = URLEncodeToString n /\ length n = 16%nat) ->
  iat_ok d (clock (w_tick w)) (sr_Iat req) = true ->
  forall p, Marshal_ServiceRequest req = Some p ->
  SignJWS draw p (d_serverKey d) "" TypRequest = Ok signed ->
  Process d (go_bytes signed) w = route d (wire_request req) (ticked w).
Proof.
  intros Hk Hd Ht Hi Hver (n & Hn & Hlen) Hiat p Hm Hs.
  destruct (ServiceRequest_wire req t Hd Ht Hi) as (p' & Hm' & Hu). rewrite Hm in Hm'. injection Hm' as <-.
  assert (accept_request d (go_bytes signed) w = (ticked w, Ok (wire_request req))) as Ha.
  { unfold accept_request, verification_key. rewrite Hk, go_string_bytes.
    unfold bind, ret, or_refuse, with_err, lift, of_option. cbv beta iota zeta.
    rewrite (SignJWS_VerifyJWS _ _ _ _ _ _ Hjose Hs). cbn [map_err]. rewrite Hu. cbv beta iota.
    rewrite bool_decide_eq_true_2 by (cbn [wire_request sr_Ver]; by rewrite Hver). cbn [negb].
    cbn [wire_request sr_Nonce sr_Iat].
    assert (nonce_ok (repair (sr_Nonce req)) = true) as ->.
    { rewrite Hn, repair_base64. unfold nonce_ok, URLDecodeString, URLEncodeToString.
      rewrite b64_roundtrip, Hlen. done. }
    cbn [negb]. unfold Now. cbv beta iota. by rewrite Hiat. }
  unfold Process, bind. by rewrite Ha.
Qed.
End Server.

(** ** The client's side *)

Section Loopback.
Context {EC : Env}.
Context {St H : Type} `{CL : OpaqueClientLib, ES : Env, StoreLaws St, GoCrypto, Jose, OpaqueLib, HkdfLib}.
Local Abbreviation W := (World St H).
Context (d : Dispatcher St H).
Context (Hjose : jose_ok) (Hsign : signs (d_serverKey d)) (Hck : d_clientKeys d = None).

(** [loopbackTransport] *)
Definition loopback (body : bytes) : M W error bytes :=
  with_err (fun e => Errorf (R2PSError_Error e)) (Process d body).

(** A client with the server's key, as the dispatcher needs without a key
    store; its names are UTF-8. *)
Definition linked (c : Client) : Prop :=
  c_clientKey c = d_serverKey d /\ c_serverPub c = priv_PublicKey (d_serverKey d) /\
  repair (c_clientID c) = c_clientID c /\ repair (c_context c) = c_context c.

(** The request the server sees. *)
Definition seen_request (c : Client) (nonce : bytes) (now : Time) (typ sid : string) (t : bytes) : ServiceRequest :=
  mkServiceRequest ProtocolVersion (URLEncodeToString nonce) (Unix now) (Some (compact t))
    (c_clientID c) (c_context c) typ sid "".

(** The state of a run after the server took [w]. *)
Definition after_exchange (r : Run W) (w : W) : Run W :=
  mkRun (r_client r) w (S (r_tick r)) (S (S (r_draw r))).

Definition exchange_result (wh : string) (o : outcome R2PSError bytes) : outcome error (option bytes) :=
  match o with
  | Ok b => read_response wh (priv_PublicKey (d_serverKey d)) b
  | Err e => Err (Wrapf "transport" (Errorf (R2PSError_Error e)))
  | Panic p => Panic p
  end.

Lemma exchange_loopback what wh (r : Run W) typ sid t :
  linked (r_client r) -> json_ValidInside t = true -> repair typ = typ -> repair sid = sid ->
  iat_ok d (clock (Env := ES) (w_tick (r_net r))) (Unix (clock (Env := EC) (r_tick r))) = true ->
  (let! req := new_request (EC := EC) typ sid (Some t) in exchange loopback what wh req) r =
    let x := route d (seen_request (r_client r) (rand (Env := EC) (r_draw r) 16)
                        (clock (Env := EC) (r_tick r)) typ sid t) (ticked (r_net r)) in
    (after_exchange r x.1, exchange_result wh x.2).
Proof.
  intros (Hkey & Hpub & Hid & Hctx) Ht Htyp Hsid Hiat.
  set (req := mkServiceRequest ProtocolVersion (URLEncodeToString (rand (Env := EC) (r_draw r) 16))
    (Unix (clock (Env := EC) (r_tick r))) (Some t) (c_clientID (r_client r)) (c_context (r_client r)) typ sid "").
  change ((let! req := new_request (EC := EC) typ sid (Some t) in exchange loopback what wh req) r)
    with (exchange loopback what wh req (mkRun (r_client r) (r_net r) (S (r_tick r)) (S (r_draw r)))).
  destruct (ServiceRequest_wire req t eq_refl Ht (wrap64_range _)) as (p & Hm & _).
  destruct (Hsign (S (r_draw r)) p TypRequest) as (s & Hs).
  pose proof (accept_signed d Hjose req t (S (r_draw r)) s (r_net r) Hck eq_refl Ht (wrap64_range _) eq_refl
    ltac:(eexists; split; [reflexivity|apply length_rand]) Hiat p Hm Hs) as Hp.
  assert (wire_request req = seen_request (r_client r) (rand (Env := EC) (r_draw r) 16)
    (clock (Env := EC) (r_tick r)) typ sid t) as Hw.
  { unfold wire_request, req, seen_request. cbn [sr_Ver sr_Nonce sr_Iat sr_Data sr_ClientID sr_Context
      sr_Type sr_TFASessionID sr_JWEHash]. by rewrite repair_base64, Hid, Hctx, Htyp, Hsid. }
  rewrite Hw in Hp. cbv zeta.
  unfold exchange, try, bind, gets, lift, of_option, client_Draw, with_err. cbv beta iota. rewrite Hm.
  cbn [r_client r_net r_tick r_draw]. rewrite Hkey, Hs. cbn [map_err].
  unfold on_net, zoom. cbn [r_client r_net r_tick r_draw]. unfold loopback at 1, with_err. rewrite Hp.
  destruct (route _ _ _) as [w' [b|e|q]]; cbn [fst snd map_err exchange_result]; [|done..].
  unfold read_response. rewrite Hpub.
  destruct (VerifyJWS _ _) as [pl|e|q]; cbn [map_err obind]; [|done..].
  unfold of_option. by destruct (Unmarshal_ServiceResponse pl).
Qed.

(** *** Service calls *)

(** The types the dispatcher serves itself. *)
Definition protocol_types : list string :=
  [Type2FARegistration; Type2FAAuthenticate; TypeCreateSession; Type2FAUpdate; Type2FAChange].

Lemma route_service req : sr_Type req ∉ protocol_types -> route d req = handleService d req.
Proof.
  unfold protocol_types, route, is_change. rewrite !not_elem_of_cons. intros (Hn1 & Hn2 & Hn3 & Hn4 & Hn5 & _).
  by repeat (rewrite bool_decide_eq_false_2 by done).
Qed.

(** A session the server accepts for the client now, bound to no task. *)
Definition in_session (c : Client) (w : W) : Prop :=
  exists sess, Get (clock (Env := ES) (w_tick w)) (c_sessionID c) (w_sessions w) = Some sess /\
    s_Verified sess = true /\ s_Context sess = c_context c /\ s_Task sess = "".

Lemma handleService_in_session c req h w :
  d_handlers d !! sr_Type req = Some h -> h_Mode h <> Mode1FA ->
  sr_TFASessionID req = c_sessionID c -> sr_Context req = c_context c -> in_session c w ->
  handleService d req w =
    (let! out := or_refuse ErrServerError (sr_Type req +:+ " failed") (h_Handle h (sr_ClientID req) (sr_Data req)) in
     respond d req (Some (response_data out))) (ticked w).
Proof.
  intros Hh Hm Hsid Hctx (sess & Hget & Hver & Hsc & Htask). unfold handleService. rewrite Hh.
  rewrite bool_decide_eq_false_2 by done. cbn [negb].
  assert (verified_session req w = (ticked w, Ok sess)) as Hv.
  { unfold verified_session, sessions_Get, bind, Now, gets. cbv beta iota. cbn [w_sessions].
    rewrite Hsid, Hget, Hver. cbn [negb]. by rewrite bool_decide_eq_true_2 by (by rewrite Hsc, Hctx). }
  unfold bind at 1 2. rewrite Hv. unfold check_sad. rewrite Htask.
  by rewrite (bool_decide_eq_true_2 ("" = "")), andb_false_r.
Qed.

(** What a call gives the client when the handler returns [o]. *)
Definition call_result (typ : string) (o : outcome error bytes) : outcome error (option bytes) :=
  match o with
  | Ok out => Ok (Some (compact (response_data out)))
  | Err _ => Err (Wrapf "transport" (Errorf (ErrServerError +:+ ": " +:+ typ +:+ " failed")))
  | Panic p => Panic p
  end.

(** C9: an authenticated client's call of a service is the call of its
    handler on the server: the handler runs once, with the client's ID and
    the caller's data in compact form, and the caller gets what it returned,
    or an error when it failed. *)
Theorem CallService_calls_handler typ t h (r : Run W) :
  linked (r_client r) -> c_sessionKey (r_client r) <> None ->
  repair (c_sessionID (r_client r)) = c_sessionID (r_client r) -> repair typ = typ ->
  typ ∉ protocol_types -> d_handlers d !! typ = Some h -> h_Mode h <> Mode1FA ->
  json_ValidInside t = true ->
  iat_ok d (clock (Env := ES) (w_tick (r_net r))) (Unix (clock (Env := EC) (r_tick r))) = true ->
  in_session (r_client r) (ticked (r_net r)) ->
  let x := h_Handle h (c_clientID (r_client r)) (Some (compact t)) (ticked (ticked (r_net r))) in
  (forall out, x.2 = Ok out -> json_ValidInside (response_data out) = true) ->
  CallService (EC := EC) loopback typ (Some t) r =
    (after_exchange r (match x.2 with Ok _ => answered x.1 | _ => x.1 end), call_result typ x.2).
Proof.
  intros Hl Hkey Hsid Htyp Hnp Hh Hm Ht Hiat Hsess x Hout.
  assert (CallService (EC := EC) loopback typ (Some t) r =
    (let! req := new_request (EC := EC) typ (c_sessionID (r_client r)) (Some t) in
     exchange loopback "service request" "verify response JWS" req) r) as ->.
  { unfold CallService, bind at 1, gets. cbv beta iota. by destruct (c_sessionKey (r_client r)). }
  rewrite exchange_loopback by done. cbv zeta.
  rewrite route_service by exact Hnp.
  rewrite (handleService_in_session (r_client r) _ h) by done.
  cbn [seen_request sr_ClientID sr_Data sr_Type]. unfold bind, or_refuse, with_err.
  subst x. destruct (h_Handle h _ _ _) as [w' [out|e|p]]; cbn [fst snd map_err] in Hout |- *; [|done|done].
  destruct (respond_read d Hjose (seen_request (r_client r) (rand (Env := EC) (r_draw r) 16)
    (clock (Env := EC) (r_tick r)) typ (c_sessionID (r_client r)) t) _ w' "verify response JWS" Hsign (Hout _ eq_refl))
    as (b & -> & Hb). cbn [fst snd exchange_result call_result]. by rewrite Hb.
Qed.

(** *** The OPAQUE login *)

Lemma json_ValidInside_tfa t : is_int64 (tfa_SessionDuration t) -> json_ValidInside (Marshal_TFARequestData t) = true.
Proof. intros Hi. destruct (TFARequestData_wire t Hi) as (v & Hr & _). by eapply reads_inside. Qed.

(** The server reads the OPAQUE data the client sends. *)
Lemma opaque_request_read state pdata :
  repair state = state ->
  Unmarshal_TFARequestData (Some (compact (Marshal_TFARequestData (opaque_request state pdata))))
    = Some (opaque_request state pdata).
Proof.
  intros Hs. assert (is_int64 (tfa_SessionDuration (opaque_request state pdata))) as Hi by (split; vm_compute; congruence).
  destruct (TFARequestData_wire _ Hi) as (v & Hr & Hu).
  rewrite (reads_compact_id _ _ _ Hr), Hu. unfold wire_tfa, opaque_request.
  cbn [tfa_Protocol tfa_TFAMode tfa_State tfa_PData tfa_Request tfa_Authorization
       tfa_AuthorizationType tfa_SessionDuration]. by rewrite repair_base64, Hs.
Qed.

Lemma opaque_request_pdata state pdata : GetPData (opaque_request state pdata) = URLEncodeToString pdata.
Proof. unfold GetPData, opaque_request. cbn [tfa_PData tfa_Request]. by case_bool_decide. Qed.

Lemma decode_own b msg (w : W) : decode_field (St := St) (H := H) (URLEncodeToString b) msg w = (w, Ok b).
Proof. unfold decode_field, URLDecodeString, URLEncodeToString. by rewrite b64_roundtrip. Qed.

(** Comparisons of known strings. *)
Ltac decide_strings :=
  repeat match goal with
  | |- context [bool_decide (?a = ?b)] =>
      let v := eval vm_compute in (bool_decide (a = b)) in change (bool_decide (a = b)) with v
  end; cbn [negb andb orb]; cbn match.

(** The OPAQUE messages of a login, at the dispatcher. *)
Lemma route_evaluate req pdata w :
  sr_Type req = Type2FAAuthenticate ->
  sr_Data req = Some (compact (Marshal_TFARequestData (opaque_request StateEvaluate pdata))) ->
  route d req w = authEvaluate d req (opaque_request StateEvaluate pdata) pdata w.
Proof.
  intros Ht Hd. unfold route, handle2FA. rewrite Ht, Hd, opaque_request_read by done.
  rewrite opaque_request_pdata. decide_strings. unfold bind. by rewrite decode_own.
Qed.

Lemma route_finalize req pdata w :
  sr_Type req = Type2FAAuthenticate ->
  sr_Data req = Some (compact (Marshal_TFARequestData (opaque_request StateFinalize pdata))) ->
  route d req w = authFinalize d req pdata w.
Proof.
  intros Ht Hd. unfold route, handle2FA. rewrite Ht, Hd, opaque_request_read by done.
  rewrite opaque_request_pdata. decide_strings. unfold bind. by rewrite decode_own.
Qed.

(** The state once a session is filed, before the answer is signed. *)
Definition evaluated (sess : Session) (counter : AttemptCounter) (w : W) : W :=
  mkWorld (<[s_ID sess := sess]> (w_sessions w)) counter (w_store w) (w_hsm w) (S (S (w_tick w)))
    (S (S (w_draw w))) (w_gauge w) (w_metrics w) (w_audit w).

(** The session of an evaluation that starts in [w]. *)
Definition evaluated_id (w : W) : string := URLEncodeToString (rand (Env := ES) (S (w_draw w)) 32).
Definition evaluated_session (cid ctx : string) (key mac : bytes) (w : W) : Session :=
  mkSession (evaluated_id w) cid ctx key mac
    (TimeAdd (clock (Env := ES) (S (w_tick w))) (d_sessionTTL d)) false "".

Definition evaluated_data (w : W) (ke2 : bytes) : TFAAuthResponseData :=
  let ke2Encoded := URLEncodeToString ke2 in
  mkTFAAuthResponseData (evaluated_id w) (evaluated_id w) ke2Encoded ke2Encoded "" 0 "".

Lemma authEvaluate_run req pdata record c ke2 mac key (w : W) :
  Check (clock (Env := ES) (w_tick w)) (sr_ClientID req) (sr_Context req) (sr_Context req) (w_counter w) = (c, Ok tt) ->
  (forall w' : W, w_store w' = w_store w ->
     rs_GetRecord (d_records d) (sr_ClientID req) (sr_Context req) w' = (w', Ok record)) ->
  AuthEvaluate (w_draw w) (d_opaque d) pdata (Some record) = Ok (ke2, mac, key) ->
  w_sessions w !! evaluated_id w = None ->
  let sess := evaluated_session (sr_ClientID req) (sr_Context req) key mac w in
  authEvaluate d req (opaque_request StateEvaluate pdata) pdata w =
    respond d req (Some (Marshal_TFAAuthResponseData (evaluated_data w ke2))) (evaluated sess c w).
Proof.
  intros Hc Hr Ha Hs. cbv zeta. unfold authEvaluate, counter_Check, record_or_fake, attempt, sessions_Create,
    or_refuse, with_err, on_counter, on_sessions, zoom, RandomBytes, Draw, Now, bind, lift, ret.
  cbv beta iota zeta. cbn [w_tick w_counter]. rewrite Hc. cbn [map_err]. rewrite Hr by done.
  cbn [w_draw set_counter]. rewrite Ha. cbn [map_err w_sessions].
  unfold Create, set_counter. cbn [s_ID w_sessions w_counter w_store w_hsm w_tick w_draw w_gauge w_metrics w_audit].
  unfold evaluated_id in Hs. rewrite Hs. cbn [map_err]. unfold evaluated, set_sessions, session_ttl.
  reflexivity.
Qed.

(** What OPAQUE promises of a client and a server that follow it, the
    password being the one the record was made with: their messages parse,
    the server accepts the client's proof, and both have the same key. *)
Record opaque_login_ok (registered : bytes -> bytes -> RegistrationRecord -> Prop) : Prop := {
  ol_client : is_Some NewClientLib /\ NewDeserializer = true;
  ol_record rec : DeserRegistrationRecord (SerRegistrationRecord rec) = Some rec;
  ol_login pw cid rec c0 draw draw' :
    NewClientLib = Some c0 -> registered pw cid rec ->
    exists c1 ke1 k1 ke2 k2 mac key ke3 k3,
      ClientKE1 draw c0 pw = Some (c1, ke1) /\ DeserKE1 ke1 = Some k1 /\
      GenerateKE2 draw' (os_server (d_opaque d)) k1 (Some (rec, cid)) = Some (ke2, mac, key) /\
      DeserKE2 ke2 = Some k2 /\ ClientKE3 c1 k2 = Some (ke3, key) /\
      DeserKE3 ke3 = Some k3 /\ LoginFinish (os_server (d_opaque d)) k3 mac = true
}.

Lemma TFAAuthResponseData_sent t :
  is_int64 (tard_SessionExpirationTime t) ->
  json_ValidInside (Marshal_TFAAuthResponseData t) = true /\
  Unmarshal_TFAAuthResponseData (compact (Marshal_TFAAuthResponseData t)) = Some (wire_auth_response t).
Proof.
  intros Hi. destruct (TFAAuthResponseData_wire t Hi) as (v & Hr & Hu).
  split; [by eapply reads_inside|]. by rewrite (reads_compact_id _ _ _ Hr).
Qed.

Lemma evaluated_data_wire w ke2 : wire_auth_response (evaluated_data w ke2) = evaluated_data w ke2.
Proof.
  unfold wire_auth_response, evaluated_data, evaluated_id. cbn [tard_SessionID tard_TFASessionID tard_PData
    tard_Response tard_Message tard_SessionExpirationTime tard_Task]. by rewrite !repair_base64.
Qed.

(** One message of a login, sent and answered. *)
Lemma send2FA_loopback (r : Run W) sid tfa w' data :
  linked (r_client r) -> is_int64 (tfa_SessionDuration tfa) -> repair sid = sid ->
  iat_ok d (clock (Env := ES) (w_tick (r_net r))) (Unix (clock (Env := EC) (r_tick r))) = true ->
  json_ValidInside data = true ->
  let req := seen_request (r_client r) (rand (Env := EC) (r_draw r) 16) (clock (Env := EC) (r_tick r))
               Type2FAAuthenticate sid (Marshal_TFARequestData tfa) in
  route d req (ticked (r_net r)) = respond d req (Some data) w' ->
  send2FA (EC := EC) loopback Type2FAAuthenticate sid tfa r =
    (after_exchange r (answered w'), Ok (Some (compact data))).
Proof.
  intros Hl Hi Hsid Hiat Hdata req Hroute. unfold send2FA.
  rewrite exchange_loopback; [|done|by apply json_ValidInside_tfa|done..]. cbv zeta. fold req.
  rewrite Hroute. destruct (respond_read d Hjose req data w' "verify response" Hsign Hdata) as (b & -> & Hb).
  cbn [fst snd exchange_result]. by rewrite Hb.
Qed.

(** The first message: the session is filed, and the client reads KE2. *)
Lemma login_evaluate (r : Run W) ke1 record c ke2 mac key :
  let cl := r_client r in
  let w1 := ticked (r_net r) in
  linked cl -> iat_ok d (clock (Env := ES) (w_tick (r_net r))) (Unix (clock (Env := EC) (r_tick r))) = true ->
  Check (clock (Env := ES) (w_tick w1)) (c_clientID cl) (c_context cl) (c_context cl) (w_counter w1) = (c, Ok tt) ->
  (forall w' : W, w_store w' = w_store w1 ->
     rs_GetRecord (d_records d) (c_clientID cl) (c_context cl) w' = (w', Ok record)) ->
  AuthEvaluate (w_draw w1) (d_opaque d) ke1 (Some record) = Ok (ke2, mac, key) ->
  w_sessions w1 !! evaluated_id w1 = None ->
  send2FA (EC := EC) loopback Type2FAAuthenticate "" (opaque_request StateEvaluate ke1) r =
    (after_exchange r (answered (evaluated (evaluated_session (c_clientID cl) (c_context cl) key mac w1) c w1)),
     Ok (Some (compact (Marshal_TFAAuthResponseData (evaluated_data w1 ke2))))).
Proof.
  intros cl w1 Hl Hiat Hc Hrec Hke Hfresh.
  apply send2FA_loopback; [done|split; vm_compute; congruence|done|done| |].
  - apply TFAAuthResponseData_sent. split; vm_compute; congruence.
  - rewrite (route_evaluate _ ke1) by done. by apply authEvaluate_run with record.
Qed.

(** The second message: the proof is accepted and the session verified. *)
Lemma login_finalize (r : Run W) sid ke3 sess :
  let w1 := ticked (r_net r) in
  linked (r_client r) -> repair sid = sid ->
  iat_ok d (clock (Env := ES) (w_tick (r_net r))) (Unix (clock (Env := EC) (r_tick r))) = true ->
  Get (clock (Env := ES) (w_tick w1)) sid (w_sessions w1) = Some sess ->
  proof_accepted d ke3 (s_ClientMAC sess) ->
  exists w2 resp,
    send2FA (EC := EC) loopback Type2FAAuthenticate sid (opaque_request StateFinalize ke3) r =
      (after_exchange r w2, Ok resp) /\
    w_sessions w2 = <[sid := set_Verified sess]> (w_sessions w1).
Proof.
  intros w1 Hl Hsid Hiat Hget Hproof.
  eexists _, _. split.
  - apply send2FA_loopback; [done|split; vm_compute; congruence|done|done| |].
    2: { rewrite (route_finalize _ ke3) by done. by apply authFinalize_step. }
    apply TFAAuthResponseData_sent, wrap64_range.
  - reflexivity.
Qed.

Lemma bind_run {V E A B} (m : M V E A) (k : A -> M V E B) v v' a :
  m v = (v', Ok a) -> bind m k v = k a v'.
Proof. intros Hm. unfold bind. by rewrite Hm. Qed.

Lemma try_run {A B} ctx pkg (o : option A) a (k : A -> M (Run W) error B) r :
  o = Some a -> bind (try ctx pkg o) k r = k a r.
Proof. by intros ->. Qed.

(** A record on file is read back. *)
Lemma stored_record_read cid cx rec (w w' : W) :
  d_records d = NewStoreRecordStore ->
  DeserRegistrationRecord (SerRegistrationRecord rec) = Some rec ->
  GetRecord cid cx (w_store w) = (w_store w, Ok (SerRegistrationRecord rec)) -> w_store w' = w_store w ->
  rs_GetRecord (d_records d) cid cx w' = (w', Ok (mkClientRecord rec (credID cx cid) None)).
Proof.
  intros Hrs Hser Hrec Hw. rewrite Hrs. cbn [NewStoreRecordStore rs_GetRecord].
  unfold StoreGetRecord, bind, on_store, zoom. rewrite Hw, Hrec. unfold lift. rewrite Hser. cbn [of_option].
  unfold ret. f_equal. rewrite <- Hw. by destruct w'.
Qed.

(** What the login of a client needs of the server's state: its record is
    on file, it is not locked out, and the session ID drawn is new. *)
Definition can_login (c : Client) (rec : RegistrationRecord) (w : W) : Prop :=
  GetRecord (c_clientID c) (c_context c) (w_store w) = (w_store w, Ok (SerRegistrationRecord rec)) /\
  is_ok (Check (clock (Env := ES) (w_tick w)) (c_clientID c) (c_context c) (c_context c) (w_counter w)).2 = true /\
  w_sessions w !! evaluated_id w = None.

(** The clocks during a login: both requests are timely and the session
    does not expire in between. *)
Definition timely_login (r : Run W) : Prop :=
  let i := w_tick (r_net r) in
  let at_server j := clock (Env := ES) (i + j) in
  let at_client j := Unix (clock (Env := EC) (r_tick r + j)) in
  iat_ok d (at_server 0%nat) (at_client 0%nat) = true /\
  iat_ok d (at_server 4%nat) (at_client 1%nat) = true /\
  After (at_server 5%nat) (TimeAdd (at_server 2%nat) (d_sessionTTL d)) = false.

(** C8: a client that logs in with the password it registered with gets a
    session: the server has verified it, for this client and context, under
    the ID the client holds, and both sides have the same key. *)
Theorem Authenticate_opens_session registered pw rec (r : Run W) :
  opaque_login_ok registered -> d_records d = NewStoreRecordStore ->
  linked (r_client r) ->
  registered pw (credID (c_context (r_client r)) (c_clientID (r_client r))) rec ->
  can_login (r_client r) rec (ticked (r_net r)) -> timely_login r ->
  exists r' key sess,
    Authenticate (EC := EC) loopback pw r = (r', Ok tt) /\
    c_sessionKey (r_client r') = Some key /\
    w_sessions (r_net r') !! c_sessionID (r_client r') = Some sess /\
    s_Verified sess = true /\ s_SessionKey sess = key /\
    s_ClientID sess = c_clientID (r_client r) /\ s_Context sess = c_context (r_client r).
Proof.
  intros [[[c0 Hnew] Hdes] Hser Hlogin] Hrs Hl Hreg (Hrec & Hchk & Hfresh) (Hi1 & Hi2 & Hexp).
  set (cid := c_clientID (r_client r)) in *. set (cx := c_context (r_client r)) in *.
  set (r1 := mkRun (r_client r) (r_net r) (r_tick r) (S (r_draw r))).
  set (w1 := ticked (r_net r)) in *.
  destruct (Hlogin pw (credID cx cid) rec c0 (r_draw r) (w_draw w1) Hnew Hreg)
    as (c1 & ke1 & k1 & ke2 & k2 & mac & key & ke3 & k3 & HK1 & HD1 & HG2 & HD2 & HK3 & HD3 & HLF).
  set (record := mkClientRecord rec (credID cx cid) None).
  destruct (Check _ _ _ _ _) as [c [[]|e|p]] eqn:Hc; try done. clear Hchk.
  assert (AuthEvaluate (w_draw w1) (d_opaque d) ke1 (Some record) = Ok (ke2, mac, key)) as Hke.
  { unfold AuthEvaluate. rewrite HD1.
    exact (f_equal (of_option (Wrapf "generate KE2" opaque_err)) HG2). }
  unfold timely_login in *. rewrite !Nat.add_0_r in Hi1.
  pose proof (login_evaluate r1 ke1 record c ke2 mac key Hl) as He. cbv zeta in He.
  pose proof (fun w' Hw => stored_record_read cid cx rec w1 w' Hrs (Hser rec) Hrec Hw) as Hget.
  specialize (He Hi1 Hc Hget Hke Hfresh). fold r1 in He.
  set (sess := evaluated_session cid cx key mac w1) in *.
  set (w2 := answered (evaluated sess c w1)) in *.
  set (sid := evaluated_id w1) in *.
  set (r2 := after_exchange r1 w2) in *.
  assert (Get (clock (w_tick (ticked w2))) sid (w_sessions (ticked w2)) = Some sess) as Hg.
  { unfold Get. change (w_sessions (ticked w2)) with (<[sid := sess]> (w_sessions w1)).
    rewrite lookup_insert_eq. replace (After _ _) with false; [done|].
    rewrite <- Hexp. unfold sess, evaluated_session, w2, w1, evaluated, answered, ticked. cbn [s_ExpiresAt].
    f_equal; [f_equal; cbn; lia|]. f_equal. f_equal. cbn. lia. }
  assert (proof_accepted d ke3 (s_ClientMAC sess)) as Hp by by exists k3.
  pose proof (login_finalize r2 sid ke3 sess Hl (repair_base64 _)) as Hf. cbv zeta in Hf.
  destruct Hf as (w3 & resp & Hf & Hs3); [|exact Hg|exact Hp|].
  { rewrite <- Hi2. unfold r2, r1, w2, answered, evaluated. f_equal; [f_equal; cbn; lia|].
    do 2 f_equal. cbn. lia. }
  exists (mkRun (set_session sid key (r_client r)) w3 (S (r_tick r2)) (S (S (r_draw r2)))), key, (set_Verified sess).
  split_and!; [|done| |done..].
  - unfold Authenticate. rewrite (try_run _ _ _ c0) by done. rewrite (bind_run _ _ _ r1 (r_draw r)) by done.
    rewrite (try_run _ _ _ (c1, ke1)) by done.
    erewrite bind_run by (apply with_err_Ok, He).
    rewrite (try_run _ _ _ (evaluated_data w1 ke2)).
    2: { etransitivity; [apply TFAAuthResponseData_sent; split; vm_compute; congruence|].
         f_equal. apply evaluated_data_wire. }
    rewrite (try_run _ _ _ tt) by by rewrite Hdes.
    rewrite (try_run _ _ _ ke2) by apply b64_roundtrip.
    rewrite (try_run _ _ _ k2) by done. rewrite (try_run _ _ _ (ke3, key)) by done.
    cbv beta iota. cbn [evaluated_data tard_TFASessionID]. erewrite bind_run by (apply with_err_Ok, Hf).
    reflexivity.
  - cbn. rewrite Hs3. by rewrite lookup_insert_eq.
Qed.
End Loopback.

(** ** A client of the toy deployment

    Its OPAQUE messages are the password, and the key is the credential
    identifier. *)

#[export] Instance toy_client_lib : OpaqueClientLib := {|
  OClient := bytes;
  RegResponse := bytes;
  KE2 := bytes;
  NewClientLib := Some [];
  NewDeserializer := true;
  RegistrationInit := fun _ _ pw => Some (pw, pw);
  DeserRegistrationResponse := Some;
  RegistrationFinalize := fun _ st _ => Some st;
  ClientKE1 := fun _ _ pw => Some (pw, [x01]);
  DeserKE2 := Some;
  ClientKE3 := fun st ke2 => Some (st, ke2)
|}.

Lemma toy_login_ok : opaque_login_ok (toy_dispatcher None) (fun pw _ rec => rec = pw).
Proof.
  split; [by split|done|]. intros pw cid rec c0 draw draw' _ ->.
  eexists _, _, _, _, _, _, _, _, _. repeat (split; [reflexivity|]). by apply bool_decide_eq_true_2.
Qed.

Lemma toy_signs : signs toy_key.
Proof. intros draw p typ. by eexists. Qed.

Definition toy_password : bytes := [x01; x02].

Definition toy_client : Client := NewClient "alice" "wallet" toy_key (priv_PublicKey toy_key).

Local Abbreviation toy_loopback := (loopback (toy_dispatcher None)).

(** The client after it registered, and after it logged in. *)
Definition toy_registered : Run (World MemoryStore nat) :=
  (Register toy_loopback toy_password (mkRun toy_client toy_world 0 0)).1.
Definition toy_session : Run (World MemoryStore nat) :=
  (Authenticate toy_loopback toy_password toy_registered).1.

Lemma toy_linked : linked (toy_dispatcher None) (r_client toy_registered).
Proof. vm_compute. done. Qed.

Lemma Authenticate_opens_session_witness :
  exists r' key sess,
    Authenticate toy_loopback toy_password toy_registered = (r', Ok tt) /\
    c_sessionKey (r_client r') = Some key /\
    w_sessions (r_net r') !! c_sessionID (r_client r') = Some sess /\
    s_Verified sess = true /\ s_SessionKey sess = key /\
    s_ClientID sess = c_clientID (r_client toy_registered) /\
    s_Context sess = c_context (r_client toy_registered).
Proof.
  apply (Authenticate_opens_session (toy_dispatcher None) toy_jose_ok toy_signs eq_refl
    (fun pw _ rec => rec = pw) toy_password toy_password toy_registered toy_login_ok eq_refl toy_linked eq_refl).
  - vm_compute. repeat split.
  - vm_compute. repeat split.
Defined.

Lemma CallService_calls_handler_witness :
  (CallService toy_loopback TypeHSMListKeys (Some (jtext "{ }")) toy_session).2 =
    call_result TypeHSMListKeys (Ok (jtext "{'key_info':[]}")).
Proof.
  pose proof (CallService_calls_handler (toy_dispatcher None) toy_jose_ok toy_signs eq_refl
    TypeHSMListKeys (jtext "{ }") ListKeysHandler toy_session) as Hc. cbv zeta in Hc.
  rewrite Hc; clear Hc.
  - vm_compute. reflexivity.
  - vm_compute. repeat split.
  - vm_compute. discriminate.
  - vm_compute. reflexivity.
  - vm_compute. reflexivity.
  - by apply (bool_decide_unpack _).
  - reflexivity.
  - vm_compute. discriminate.
  - vm_compute. reflexivity.
  - vm_compute. reflexivity.
  - eexists. split; [vm_compute; reflexivity|]. vm_compute. repeat split.
  - intros out Ho. vm_compute in Ho. injection Ho as <-. vm_compute. reflexivity.
Defined.
